(* ===== verification/_CoqProject ===== *)
-Q . S2P
Prelude.v
GoText.v
GoFloat.v
GoParse.v
LogText.v
FixedWindow.v
Protocol.v
Session.v
Conn.v
Telemetry.v
Auth.v
StateM.v
Interfaces.v
Handler.v
HandlerDemo.v
HandlerFrame.v
HandlerFacts.v
HandlerInv.v
HandlerSession.v
HandlerTraffic.v
Snapshots.v
Fleet.v
FleetTurn.v
FleetFacts.v
HandlerStats.v
Windows.v
HandlerDB.v
HandlerRows.v
Models.v
Tables.v
Repositories.v
Transactions.v
Persistence.v
PersistenceDemo.v
TableFacts.v
RepositoryFacts.v
PersistenceFacts.v
Calls.v
CallsFacts.v
Hsm.v
MySQL.v
Selection.v
FleetProperties.v
FleetTables.v
Engine.v
EngineFacts.v
StateFile.v
FileSys.v
Logger.v
Middleware.v
StateManager.v
StateDemo.v
StateFacts.v
Metrics.v
Http2.v
Config.v
ConfigFacts.v
RateLimit.v
Providers.v
Daemon.v
Health.v
Main.v
MainFacts.v
