(* ===== verification/Prelude.v ===== *)
(** * CTS-Core: a verification library

    CTS-Core (src/) is the server of a fleet of trading programs.  Traders connect
    over a mutual-TLS WebSocket, register, send heartbeats and latency reports; the
    server keeps one session per connection, publishes the live sessions to a
    scheduler that hands the trading task to the best of them, writes sessions to a
    database, asks hardware security modules to decrypt keys, answers health and
    metrics requests, and keeps its counters in a state file.  This library models
    that program, from the configuration file to the exit code, and proves what it
    promises.

    ** Parts and how they interact

    - The handler (internal/api/ws/handler.go) serves one connection per call of
      [Serve]: certificate check, connection entry, then one turn per frame that is
      read.  Its calls share the registry of connections, the trader snapshots and
      the disconnect metrics ([Handler.HandlerState]).  It calls the database through
      [Interfaces.SessionPersistence] and the state manager through
      [Interfaces.RuntimeSink].
    - The session persistence (internal/api/rest/ws_persistence.go) is the instance of
      that interface over the tables TRADER and TRADER_SESSION (internal/db/).
    - The scheduler (internal/scheduler/scheduler.go) reads the snapshots every cycle,
      ranks the eligible sessions, applies resource limits, and assigns the task with
      retry, deduplication and a dead letter queue.  Everything it calls is the
      class [Engine.SchedulerEnv]; [Daemon.daemon_scheduler] is its instance in the
      daemon: handler, database adapters of main.go, state manager.
    - The state manager (internal/state/) keeps counters set by both, saves them
      atomically and rotates backups.
    - The configuration (internal/config/) decides every number the components run
      with; main.go hands them over, starts the components in order and stops them.
    - The clients: the HSM client (internal/hsm/) and the MySQL client
      (internal/db/mysql.go) with their retries; the health and metrics endpoints and
      the request limit of internal/api/.
    - The log streams (internal/logger/) and the middleware of the router, which
      writes the access, error and audit records.

    ** Files

    Shared.
    - Prelude: record update, Go errors, machine integers, time, strings, the
      append-if-new loops, stable sorting, the order of strings.
    - GoText: decimal numbers as text and back, the text of durations.
    - GoFloat: [float64] on the standard library's [SpecFloat], its order, sorting.
    - GoParse: integers and floats read from text; LogText: the text form of log
      records.
    - FixedWindow: a generic bound for limiters with a window that starts anew.
    - StateM: state-passing programs, the judgements [steps] and [triple].

    The WebSocket side.
    - Protocol, Session: protocol.go and session.go, the messages and the session
      state machine.
    - Conn: the sequence and acknowledgement numbers and ping times of a connection
      ([wsConnectionEntry]).
    - Telemetry: capability, role, load and latency processing of handler.go.
    - Auth: the client certificate check of handler.go.
    - Interfaces: the handler's Go interfaces as classes.
    - Handler: the whole of [Serve], message by message, with sending, closing,
      database retry and clean-up; HandlerStats: statistics, logging levels,
      [CloseAll].  HandlerDemo is a concrete environment for witnesses.
    - HandlerFrame: relations kept by every primitive operation are kept by every
      handler function; HandlerFacts: sending, invariants of the loop, the phases
      of a call.
    - HandlerInv, HandlerSession, HandlerTraffic, Windows: the handler's theorems.
    - HandlerDB: the interface [PersistenceKeeps], and [Serve] against it; HandlerRows:
      the interface [BacksSessions], sessions and the rows that stand for them.
    - Snapshots: what a turn of the loop publishes to the scheduler.
    - Fleet: any number of [Serve] calls and the other goroutines as a step relation;
      FleetTurn: what one turn may touch; FleetFacts: the invariants of reachable
      fleets; FleetProperties: their theorems.

    The database.
    - Models: the row types of internal/db/models/; Tables: the trader tables as maps,
      the SQL statements as functions on them, the repository methods; Repositories:
      the other repositories; Transactions: their interfaces and [WithTx].
    - Persistence: ws_persistence.go; PersistenceDemo: a database for witnesses.
    - Calls, CallsFacts: any number of these calls with their statements interleaved,
      their theorem by assuming of each call what it guarantees.
    - TableFacts, RepositoryFacts, PersistenceFacts: their theorems; FleetTables: the
      tables under any number of connections.

    Scheduler, state, clients.
    - Selection, Engine, EngineFacts: the scheduler, its theorems.
    - StateFile, FileSys, StateManager, StateDemo, StateFacts: the state record and
      its JSON form, files and paths, the manager, its theorems.
    - Logger, Middleware: the log streams, the chain of the router.
    - Metrics: handler and state manager together.
    - Hsm, MySQL: the clients with their retries.

    The daemon.
    - Http2, Config, ConfigFacts: the configuration, its checks, its theorems.
    - RateLimit: the request limit per address.
    - Providers, Daemon: the adapters of main.go and the scheduler in the daemon.
    - Health: health.go and metrics.go.
    - Main, MainFacts: main.go and router.go, start and stop.

    Definitions keep the names of the sources.  A Go method is a function of its
    receiver's record; a method of [Handler], [Engine] or [Manager] that locks is one
    step of a state-passing program ([StateM.st]).  A loop body of [Serve] is one
    definition per action ([handle_register], [handle_heartbeat], ...).

    ** What the theorems show

    - Connections (Conn): inbound numbers are accepted exactly once and in order,
      rejected ones change nothing, outbound numbers are consecutive.
    - Telemetry and Auth: what reaches a session is normalised, in range and
      independent of Go's map order; who is admitted.
    - Handler: registry, snapshots and metrics stay consistent over any traffic and
      any failure; a returned call releases its connection; in every turn a session
      moves by the table of its life cycle only, and it speaks for the trader of its
      certificate only; an unregistered peer changes nothing; the messages handed to
      a connection are numbered 1, 2, 3, ... (modulo 2^64, with no two of the same
      number before the counter wraps), those whose write fails included; database
      retries are bounded; at most twice the message rate passes in any second;
      repeated requests are dropped within the window.
    - Fleet: in every order of the turns of any number of connections, the registry
      and the count are exact, the scheduler sees only sessions of admitted
      connections, a turn touches nothing of another connection, the messages of a
      connection, written or on their way, carry exactly the numbers from 1 on, each
      once below 2^64; a fleet whose peers leave becomes empty; a call of [Serve]
      alone is one of these runs.
    - Database: in every run of a fleet over the tables they keep their keys and never
      lose or reopen a session, and so they do when the statements of any calls are
      interleaved; registering spares sessions that were alive when it looked; a lost
      connection ends its row; every other repository method on every branch (RepositoryFacts), with
      the statements that can never succeed.
    - Scheduler: the candidates are exactly the eligible sessions, in a total order
      that does not depend on map order; a cycle assigns the task to the best of the candidates
      that its resource answers leave, penalties included, and to no other; how often,
      with which pauses and which result follows from what the assignment answered;
      failures reach the dead letters, the newest are kept; an assignment is not
      repeated within the window; each candidate is kept or dropped by its own resource
      answers; in the daemon a cycle only looks and counts.
    - State manager: a crash never damages the state file, what is saved is loaded,
      a backup keeps the newest files it sees, all of them if no directory read fails,
      the state keeps its shape; after every call of [Serve] its connection count is
      the handler's, and its disconnect counters are either the handler's or untouched.
    - Logging: each stream goes to its own file with the sizes, the level and without
      the attributes asked for, the id of a request travels with it; the text form
      shows a record as [slog] wrote it but for the stripped keys; every request that
      returns gets one access record with its final status, a record per error and, if
      its method can change something, one audit record; a panic leaves no audit record.
    - Clients: an HSM request ends within its attempts, with which pauses and which
      answer.
    - Configuration and main: [Load] accepts exactly the configurations in order; a
      daemon that starts runs with the numbers and the log streams of its configuration;
      a graceful stop
      is recorded in the state file; /health answers by the database and the trading
      HSM; an address gets at most twice its rate through.
    - [wire_order_can_invert], [reported_count_can_be_stale], [log_record_forged],
      [panic_leaves_no_audit], [revived_session_is_ended],
      [message_exit_keeps_snapshot], [ping_stats_without_pings],
      [impossible_statements] and the examples of ConfigFacts state behaviours that
      look unintended.

    ** Bounds and fuel

    No function runs on fuel.  [Serve] recurses over the frames that were read, so a
    call still waiting for input is [None]; retry loops recurse over the attempts
    left, which are the exact number of turns of the loop; [Start] recurses over the
    ticks and stops delivered to it.  Integers of 64 bits are [Z] with [wrap64] and
    [wrapu64] where the source can overflow.

    ** What is not modelled

    - Concurrency inside one lock is sequential: methods that hold a mutex are
      atomic steps.  In Fleet one turn of a [Serve] loop is a step, and so is the
      opening of a connection; leaving and the dispatch of a latency test are split
      where they give up their lock.  Calls interleaves the statements of database
      calls, but not the rest of the turns that make them.  What other
      goroutines do while the daemon stops is an arbitrary program that keeps what
      they have to keep.
    - The log records of the components are left out, but for those of the middleware;
      [slog]'s JSON form, the rotation of lumberjack and the requests of gin are
      parameters (classes [Logger.LogEnv], [Middleware.GinContext]).
    - The HTTP server, upgrade and TLS, the YAML decoder, the JSON decoder of inbound
      messages (class [Protocol.WsJson]), certificates and the MySQL driver;
      [ToLower] and [TrimSpace] are the ASCII ones; the encoder of the state file
      down to trees, not text (class [StateFile.JsonText]).  [filepath.Glob] is modelled
      but for the meaning of pattern characters in the directory part, which is a
      parameter ([FileSys.OsEnv]).
    - The rows of the catalog and the exchange queries, which join tables no code of
      the repository writes, are parameters; so are the figures of the Go runtime in
      the health and metrics answers. *)

From Stdlib Require Export Ascii.
From stdpp Require Export base tactics strings list gmap sorting numbers option pretty.
From Stdlib Require Export ZArith Lia.


(** ** Notations and hint databases of the development *)

Declare Scope cts_scope.
Delimit Scope cts_scope with cts.
Open Scope cts_scope.

Create HintDb cts discriminated.
Create Rewrite HintDb cts_norm.

(** ** Record update

    Go code assigns single struct fields.  [s <| f := v |>] rebuilds the record
    with one field replaced; the field update function is computed once per use
    from the eta-expansion of the record declared by an [Eta] instance. *)

Class Eta (R : Type) := eta_of : R -> R.

Ltac term_head t :=
  lazymatch t with
  | ?f _ => term_head f
  | _ => t
  end.

Ltac field_setter R proj :=
  let e := constr:(eta_of (R := R)) in
  let body := eval cbv [eta_of] in e in
  let body := (lazymatch body with
               | fun r => _ => body
               | ?i => let hd := term_head i in eval cbv beta delta [hd] in i
               end) in
  let upd := (match eval pattern proj in body with
              | ?upd _ => upd
              end) in
  exact (fun f => upd (fun r => f (proj r))).

Class FieldSet {R T : Type} (proj : R -> T) := field_set : (T -> T) -> R -> R.
Arguments field_set {R T} proj {_} f r.
#[export] Hint Extern 1 (FieldSet ?proj) =>
  (match goal with |- @FieldSet ?R _ _ => field_setter R proj end) : typeclass_instances.

Notation "x <| f := v |>" := (field_set f (fun _ => v) x)
  (at level 1, f at next level, v at level 200, left associativity) : cts_scope.
Notation "x <| f ::= g |>" := (field_set f g x)
  (at level 1, f at next level, g at level 200, left associativity) : cts_scope.

(** ** Errors

    A Go [error] value.  [ENew] is [errors.New] or [fmt.Errorf] without [%w];
    [EWrap pre e post] is [fmt.Errorf] with one [%w] verb; the other constructors
    are the values the sources compare against ([errors.Is], [==]) or extract
    ([errors.As]).  [EClose] and [EMySQL] carry the text their [Error()] method
    renders, which belongs to the websocket and MySQL libraries. *)

Variant sentinel :=
  | ErrActiveSessionExists
  | IoEOF
  | ContextDeadlineExceeded
  | ContextCanceled
  | SqlErrNoRows
  | OsErrNotExist
  | HttpErrServerClosed.

#[export] Instance sentinel_eq_dec : EqDecision sentinel.
Proof. solve_decision. Defined.

Inductive go_error :=
  | ENew (msg : string)
  | ESentinel (s : sentinel)
  | EClose (code : Z) (msg : string)
  | EMySQL (number : Z) (msg : string)
  | ETemporary (temporary : bool) (msg : string)
  | EWrap (pre : string) (inner : go_error) (post : string).

#[export] Instance go_error_eq_dec : EqDecision go_error.
Proof. solve_decision. Defined.

Definition sentinel_text (s : sentinel) : string :=
  match s with
  | ErrActiveSessionExists => "active trader session already exists"
  | IoEOF => "EOF"
  | ContextDeadlineExceeded => "context deadline exceeded"
  | ContextCanceled => "context canceled"
  | SqlErrNoRows => "sql: no rows in result set"
  | OsErrNotExist => "file does not exist"
  | HttpErrServerClosed => "http: Server closed"
  end.

Fixpoint error_text (e : go_error) : string :=
  match e with
  | ENew msg => msg
  | ESentinel s => sentinel_text s
  | EClose _ msg | EMySQL _ msg | ETemporary _ msg => msg
  | EWrap pre inner post => pre +:+ error_text inner +:+ post
  end.

(** [errors.Is(e, s)] for a sentinel [s]: equality along the chain of wrapped errors. *)
Fixpoint errors_is (e : go_error) (s : sentinel) : bool :=
  match e with
  | ESentinel s' => bool_decide (s = s')
  | EWrap _ inner _ => errors_is inner s
  | _ => false
  end.

(** [errors.As(e, *websocket.CloseError)] returning the close code. *)
Fixpoint errors_as_close (e : go_error) : option Z :=
  match e with
  | EClose code _ => Some code
  | EWrap _ inner _ => errors_as_close inner
  | _ => None
  end.

(** [errors.As(e, *mysql.MySQLError)] returning the server error number. *)
Fixpoint errors_as_mysql (e : go_error) : option Z :=
  match e with
  | EMySQL number _ => Some number
  | EWrap _ inner _ => errors_as_mysql inner
  | _ => None
  end.

(** [errors.As(e, interface{ Temporary() bool })]. *)
Fixpoint errors_as_temporary (e : go_error) : option bool :=
  match e with
  | ETemporary t _ => Some t
  | EWrap _ inner _ => errors_as_temporary inner
  | _ => None
  end.

(** A call that returns [(A, error)]: a value or an error. *)
Inductive res (A : Type) :=
  | Ok (a : A)
  | Err (e : go_error).
Arguments Ok {A} a.
Arguments Err {A} e.

#[export] Instance res_ret : MRet res := @Ok.
#[export] Instance res_bind : MBind res := fun A B f r =>
  match r with Ok a => f a | Err e => Err e end.
#[export] Instance res_fmap : FMap res := fun A B f r =>
  match r with Ok a => Ok (f a) | Err e => Err e end.

#[export] Instance res_eq_dec `{EqDecision A} : EqDecision (res A).
Proof. solve_decision. Defined.

Definition is_ok {A} (r : res A) : bool :=
  match r with Ok _ => true | Err _ => false end.

(** A validation step: [check b e] fails with [e] when the guard [b] of an early
    return holds. *)
Definition fail_if (b : bool) (e : go_error) : res unit := if b then Err e else Ok tt.

Lemma res_bind_Ok {A B} (r : res A) (f : A -> res B) b :
  r ≫= f = Ok b <-> exists a, r = Ok a /\ f a = Ok b.
Proof. destruct r; cbn; naive_solver. Qed.

Lemma fail_if_Ok b e u : fail_if b e = Ok u <-> b = false.
Proof. destruct b, u; cbn; naive_solver. Qed.

#[export] Hint Rewrite @res_bind_Ok @fail_if_Ok : cts_norm.

(** ** Machine integers

    [int], [int64] and [time.Duration] are 64-bit two's complement integers kept
    as [Z]; arithmetic that can leave the range goes through [wrap64].  Unsigned
    counters go through [wrapu64]. *)

Definition two63 : Z := 9223372036854775808.
Definition two64 : Z := 18446744073709551616.
Definition max_int64 : Z := 9223372036854775807.
Definition min_int64 : Z := -9223372036854775808.
Definition max_uint64 : Z := 18446744073709551615.

Definition wrap64 (z : Z) : Z := (z + two63) mod two64 - two63.
Definition wrapu64 (z : Z) : Z := z mod two64.
Definition wrap32 (z : Z) : Z := (z + 2147483648) mod 4294967296 - 2147483648.
Definition wrapu32 (z : Z) : Z := z mod 4294967296.

Definition in_int64 (z : Z) : Prop := (min_int64 <= z <= max_int64)%Z.
Definition in_uint64 (z : Z) : Prop := (0 <= z <= max_uint64)%Z.

Ltac unfold_ints :=
  unfold wrap64, wrapu64, wrap32, wrapu32, in_int64, in_uint64,
    two63, two64, max_int64, min_int64, max_uint64 in *.
Ltac ints := unfold_ints; try (Z.to_euclidean_division_equations; lia).

Lemma wrap64_id z : in_int64 z -> wrap64 z = z.
Proof. intros ?; ints. Qed.

Lemma wrap64_range z : in_int64 (wrap64 z).
Proof. ints. Qed.

Lemma wrapu64_id z : in_uint64 z -> wrapu64 z = z.
Proof. intros ?; ints. Qed.

Lemma wrapu64_range z : in_uint64 (wrapu64 z).
Proof. ints. Qed.

#[export] Hint Resolve wrap64_range wrapu64_range : cts.

(** Go integer division truncates toward zero. *)
Definition go_div (a b : Z) : Z := Z.quot a b.
Definition go_rem (a b : Z) : Z := Z.rem a b.

(** ** Time

    [time.Duration] is a number of nanoseconds; [time.Time] is kept as
    nanoseconds since the Unix epoch (UTC).  [time_zero] is the zero [time.Time]
    (January 1, year 1), the value [IsZero] recognises. *)

Definition Nanosecond : Z := 1.
Definition Microsecond : Z := 1000.
Definition Millisecond : Z := 1000000.
Definition Second : Z := 1000000000.
Definition Minute : Z := 60000000000.
Definition Hour : Z := 3600000000000.

Definition time_zero : Z := -62135596800 * Second.
Definition time_is_zero (t : Z) : bool := (t =? time_zero)%Z.
Definition time_unix (t : Z) : Z := (t / Second)%Z.
Definition time_unix_milli (t : Z) : Z := (t / Millisecond)%Z.
Definition time_unix_nano (t : Z) : Z := wrap64 t.
(** [t.Sub(u)] saturates at the limits of [Duration]. *)
Definition time_sub (t u : Z) : Z := (min_int64 `max` ((t - u) `min` max_int64))%Z.
Definition time_add (t d : Z) : Z := (t + d)%Z.
Definition time_of_milli (ms : Z) : Z := (ms * Millisecond)%Z.
Definition duration_milliseconds (d : Z) : Z := go_div d Millisecond.
Definition duration_microseconds (d : Z) : Z := go_div d Microsecond.

(** ** Strings

    Go strings are byte strings, as [string] is here.  [ToLower] and [TrimSpace]
    are the ASCII fast paths of the [strings] package, which are the whole
    function on ASCII text; exchange codes, roles, statuses, certificate names and
    request ids are ASCII.  Bytes from 128 on are left as they are. *)

Definition byte_lower (c : ascii) : ascii :=
  let n := nat_of_ascii c in
  if (65 <=? n)%nat && (n <=? 90)%nat then ascii_of_nat (n + 32) else c.

Definition byte_upper (c : ascii) : ascii :=
  let n := nat_of_ascii c in
  if (97 <=? n)%nat && (n <=? 122)%nat then ascii_of_nat (n - 32) else c.

Definition byte_space (c : ascii) : bool :=
  let n := nat_of_ascii c in
  ((9 <=? n)%nat && (n <=? 13)%nat) || (n =? 32)%nat.

Fixpoint string_map (f : ascii -> ascii) (s : string) : string :=
  match s with
  | EmptyString => EmptyString
  | String c s' => String (f c) (string_map f s')
  end.

Definition ToLower : string -> string := string_map byte_lower.
Definition ToUpper : string -> string := string_map byte_upper.

Fixpoint trim_left (s : string) : string :=
  match s with
  | String c s' => if byte_space c then trim_left s' else s
  | EmptyString => EmptyString
  end.

Fixpoint trim_right (s : string) : string :=
  match s with
  | EmptyString => EmptyString
  | String c s' =>
      match trim_right s' with
      | EmptyString => if byte_space c then EmptyString else String c EmptyString
      | r => String c r
      end
  end.

Definition TrimSpace (s : string) : string := trim_right (trim_left s).

(** The normal form used for exchange codes, roles and allow lists. *)
Definition norm_token (s : string) : string := ToLower (TrimSpace s).

Definition str_len (s : string) : Z := Z.of_nat (String.length s).
Definition HasPrefix (s p : string) : bool := String.prefix p s.
Definition HasSuffix (s p : string) : bool :=
  let n := String.length s in let k := String.length p in
  (k <=? n)%nat && String.eqb (String.substring (n - k) k s) p.

Fixpoint str_contains (s p : string) : bool :=
  HasPrefix s p ||
  match s with EmptyString => false | String _ s' => str_contains s' p end.

Definition str_eqb (a b : string) : bool := String.eqb a b.
Notation "a =s b" := (str_eqb a b) (at level 70) : cts_scope.
Definition str_empty (a : string) : bool := str_eqb a EmptyString.

Definition Itoa (z : Z) : string := pretty z.

Lemma str_eqb_eq a b : (a =s b) = true <-> a = b.
Proof. apply String.eqb_eq. Qed.
Lemma str_eqb_neq a b : (a =s b) = false <-> a <> b.
Proof. apply String.eqb_neq. Qed.
Lemma str_eqb_refl a : (a =s a) = true.
Proof. apply String.eqb_refl. Qed.
Lemma str_empty_true a : str_empty a = true <-> a = "".
Proof. apply str_eqb_eq. Qed.
Lemma str_empty_false a : str_empty a = false <-> a <> "".
Proof. apply str_eqb_neq. Qed.

#[export] Hint Rewrite str_eqb_eq str_eqb_neq str_empty_true str_empty_false : cts_norm.

Lemma byte_lower_idem c : byte_lower (byte_lower c) = byte_lower c.
Proof. by destruct c as [[] [] [] [] [] [] [] []]. Qed.
Lemma byte_space_lower c : byte_space (byte_lower c) = byte_space c.
Proof. by destruct c as [[] [] [] [] [] [] [] []]. Qed.

Lemma ToLower_idem s : ToLower (ToLower s) = ToLower s.
Proof.
  unfold ToLower. induction s as [|c s IH]; cbn; [done|].
  by rewrite byte_lower_idem, IH.
Qed.

Lemma trim_left_lower s : trim_left (ToLower s) = ToLower (trim_left s).
Proof.
  induction s as [|c s IH]; cbn; [done|].
  rewrite byte_space_lower. by destruct (byte_space c).
Qed.

Lemma trim_right_lower s : trim_right (ToLower s) = ToLower (trim_right s).
Proof.
  induction s as [|c s IH]; cbn; [done|].
  change (string_map byte_lower s) with (ToLower s). rewrite IH, byte_space_lower.
  destruct (trim_right s); cbn; [by destruct (byte_space c)|done].
Qed.

Lemma TrimSpace_lower s : TrimSpace (ToLower s) = ToLower (TrimSpace s).
Proof. unfold TrimSpace. by rewrite trim_left_lower, trim_right_lower. Qed.

Lemma trim_left_idem s : trim_left (trim_left s) = trim_left s.
Proof.
  induction s as [|c s IH]; cbn; [done|].
  destruct (byte_space c) eqn:E; cbn; [done|by rewrite E].
Qed.

Lemma trim_right_idem s : trim_right (trim_right s) = trim_right s.
Proof.
  induction s as [|c s IH]; cbn; [done|].
  destruct (trim_right s) as [|d r] eqn:E.
  - destruct (byte_space c) eqn:Ec; cbn; [done|by rewrite Ec].
  - change (trim_right (String c (String d r)))
      with (match trim_right (String d r) with
            | EmptyString => if byte_space c then EmptyString else String c EmptyString
            | r' => String c r' end).
    by rewrite IH.
Qed.

Lemma trim_left_trim_right s : trim_left (trim_right (trim_left s)) = trim_right (trim_left s).
Proof.
  induction s as [|c s IH]; cbn; [done|].
  destruct (byte_space c) eqn:E; [done|].
  cbn. destruct (trim_right s); rewrite ?E; cbn; by rewrite E.
Qed.

Lemma TrimSpace_idem s : TrimSpace (TrimSpace s) = TrimSpace s.
Proof. unfold TrimSpace. by rewrite trim_left_trim_right, trim_right_idem. Qed.

Lemma norm_token_idem s : norm_token (norm_token s) = norm_token s.
Proof. unfold norm_token. by rewrite TrimSpace_lower, TrimSpace_idem, ToLower_idem. Qed.

Lemma norm_token_empty : norm_token "" = "".
Proof. done. Qed.

#[export] Hint Rewrite ToLower_idem TrimSpace_idem norm_token_idem : cts_norm.

(** ** Lists built by the append-if-new loops of the sources

    [collect_unique f seen l] is the loop
    [for _, x := range l { n := f(x); if n == "" || seen[n] { continue }; seen[n]; append n }]. *)

Fixpoint collect_unique (f : string -> string) (seen : gset string) (l : list string)
  : list string :=
  match l with
  | [] => []
  | x :: l' =>
      let n := f x in
      if str_empty n then collect_unique f seen l'
      else if bool_decide (n ∈ seen) then collect_unique f seen l'
      else n :: collect_unique f ({[n]} ∪ seen) l'
  end.

Section collect_unique.
Context (f : string -> string).

Lemma elem_of_collect_unique seen l n :
  n ∈ collect_unique f seen l <->
  n <> "" /\ n ∉ seen /\ exists x, x ∈ l /\ f x = n.
Proof.
  revert seen. induction l as [|x l IH]; intros seen; cbn.
  { set_solver. }
  destruct (str_empty (f x)) eqn:He; autorewrite with cts_norm in He.
  { rewrite IH. set_solver. }
  case_bool_decide as Hs; [rewrite IH; set_solver|].
  rewrite elem_of_cons, IH. destruct (decide (n = f x)); set_solver.
Qed.

Lemma NoDup_collect_unique seen l : NoDup (collect_unique f seen l).
Proof.
  revert seen. induction l as [|x l IH]; intros seen; cbn; [constructor|].
  destruct (str_empty (f x)); [done|]. case_bool_decide; [done|].
  constructor; [|done]. rewrite elem_of_collect_unique. set_solver.
Qed.

Lemma collect_unique_fixed seen l :
  NoDup l -> Forall (fun x => f x = x /\ x <> "" /\ x ∉ seen) l ->
  collect_unique f seen l = l.
Proof.
  revert seen. induction l as [|x l IH]; intros seen Hnd Hl; cbn; [done|].
  inversion Hnd as [|? ? Hx Hnd']; subst.
  inversion Hl as [|? ? (Hfx & Hne & Hs) Hl']; subst.
  rewrite Hfx. rewrite (proj2 (str_empty_false x)) by done.
  rewrite bool_decide_eq_false_2 by done. f_equal. apply IH; [done|].
  rewrite Forall_forall in *. intros y Hy. destruct (Hl' y Hy) as (? & ? & ?). set_solver.
Qed.

Lemma collect_unique_idem l (Hf : forall x, f (f x) = f x) :
  collect_unique f ∅ (collect_unique f ∅ l) = collect_unique f ∅ l.
Proof.
  apply collect_unique_fixed; [apply NoDup_collect_unique|].
  apply Forall_forall. intros y Hy.
  apply elem_of_collect_unique in Hy as (? & ? & x & _ & <-). set_solver.
Qed.
End collect_unique.

(** ** Sorting

    [sort.SliceStable(l, less)] on slices of at most twenty elements is insertion
    sort: each element moves left while it is less than its predecessor.  For a
    strict weak order every stable sort gives this result, whatever the length. *)

Lemma reverse_rev_perm {A} (l : list A) : rev l ≡ₚ l.
Proof. rewrite rev_alt. apply (reverse_Permutation l). Qed.

Section sort_stable.
Context {A : Type} (less : A -> A -> bool).

(** [acc] is the sorted prefix, last element first. *)
Fixpoint insert_back (x : A) (acc : list A) : list A :=
  match acc with
  | [] => [x]
  | h :: t => if less x h then h :: insert_back x t else x :: h :: t
  end.

Definition sort_stable (l : list A) : list A :=
  rev (fold_left (fun acc x => insert_back x acc) l []).

Lemma insert_back_Permutation x acc : insert_back x acc ≡ₚ x :: acc.
Proof.
  induction acc as [|h t IH]; cbn; [done|].
  destruct (less x h); [|done]. rewrite IH. apply Permutation_swap.
Qed.

Lemma fold_insert_back_Permutation l acc :
  fold_left (fun acc x => insert_back x acc) l acc ≡ₚ l ++ acc.
Proof.
  revert acc. induction l as [|x l IH]; intros acc; cbn; [done|].
  rewrite IH, insert_back_Permutation. by rewrite Permutation_middle.
Qed.

Lemma sort_stable_Permutation l : sort_stable l ≡ₚ l.
Proof.
  unfold sort_stable. rewrite reverse_rev_perm, fold_insert_back_Permutation.
  by rewrite app_nil_r.
Qed.

Lemma elem_of_sort_stable x l : x ∈ sort_stable l <-> x ∈ l.
Proof. by rewrite sort_stable_Permutation. Qed.

Lemma length_sort_stable l : length (sort_stable l) = length l.
Proof. apply Permutation_length, sort_stable_Permutation. Qed.

(** [a] may stand before [b]. *)
Definition not_after (a b : A) : Prop := less b a = false.

(** [less] is a strict weak order on the elements that satisfy [P]. *)
Record weak_order_on (P : A -> Prop) : Prop := {
  wo_asym : forall a b, P a -> P b -> less a b = true -> less b a = false;
  wo_trans : forall a b c, P a -> P b -> P c ->
    not_after a b -> not_after b c -> not_after a c
}.

Context (P : A -> Prop) (HP : weak_order_on P).

Lemma insert_back_sorted x acc :
  P x -> Forall P acc ->
  StronglySorted (flip not_after) acc -> StronglySorted (flip not_after) (insert_back x acc).
Proof.
  intros Hx Hacc Hs. induction Hs as [|h t Hs IH Hh]; cbn; [repeat constructor|].
  inversion Hacc as [|? ? Hph Hpt]; subst.
  destruct (less x h) eqn:E.
  - constructor; [by apply IH|]. rewrite insert_back_Permutation.
    constructor; [|done]. by apply (wo_asym P HP).
  - constructor; [by constructor|]. constructor; [done|].
    rewrite Forall_forall in *. intros y Hy.
    apply (wo_trans P HP y h x); try done; [by apply Hpt|by apply Hh].
Qed.

Lemma StronglySorted_rev_flip (R : A -> A -> Prop) l :
  StronglySorted (flip R) l -> StronglySorted R (rev l).
Proof.
  induction 1 as [|x l Hs IH Hx]; cbn; [constructor|].
  apply StronglySorted_app. split_and!; [|done|repeat constructor].
  intros y z Hy Hz. apply list_elem_of_singleton in Hz as ->.
  rewrite reverse_rev_perm in Hy.
  eapply Forall_forall in Hx; eauto.
Qed.

Lemma sort_stable_sorted l : Forall P l -> StronglySorted not_after (sort_stable l).
Proof.
  intros Hl. apply StronglySorted_rev_flip.
  cut (forall acc, Forall P acc -> StronglySorted (flip not_after) acc ->
    StronglySorted (flip not_after) (fold_left (fun acc x => insert_back x acc) l acc)).
  { intros H. apply H; constructor. }
  induction Hl as [|x l Hx Hl IH]; intros acc Hacc Hs; cbn; [done|].
  apply IH; [|by apply insert_back_sorted].
  rewrite insert_back_Permutation. by constructor.
Qed.

(** Two sorted arrangements of the same elements agree when only equal elements
    are unordered: the result does not depend on the order of the input. *)
Lemma sort_stable_canonical l1 l2 :
  Forall P l1 -> l1 ≡ₚ l2 ->
  (forall a b, a ∈ l1 -> b ∈ l1 -> not_after a b -> not_after b a -> a = b) ->
  sort_stable l1 = sort_stable l2.
Proof.
  intros Hl Hp Hanti.
  apply (StronglySorted_unique_strong not_after).
  - intros a b Ha Hb. rewrite elem_of_sort_stable in Ha, Hb. rewrite <- Hp in Hb. eauto.
  - by apply sort_stable_sorted.
  - apply sort_stable_sorted. by rewrite <- Hp.
  - by rewrite !sort_stable_Permutation.
Qed.

Lemma sort_stable_id l : StronglySorted not_after l -> sort_stable l = l.
Proof.
  intros Hs. unfold sort_stable.
  cut (forall acc, StronglySorted not_after (rev acc ++ l) ->
    fold_left (fun acc x => insert_back x acc) l acc = rev l ++ acc).
  { intros H. rewrite (H []) by done. by rewrite app_nil_r, rev_involutive. }
  clear Hs. induction l as [|x l IH]; intros acc Hs; cbn; [done|].
  assert (insert_back x acc = x :: acc) as ->.
  { destruct acc as [|h t]; cbn; [done|].
    cbn in Hs. rewrite <- !app_assoc in Hs. apply StronglySorted_app in Hs as (_ & _ & Hs).
    cbn in Hs. inversion Hs as [|? ? _ Hh]; subst. inversion Hh as [|? ? Hx _]; subst.
    unfold not_after in Hx. by rewrite Hx. }
  rewrite IH; [by rewrite <- app_assoc|]. cbn. by rewrite <- app_assoc.
Qed.
End sort_stable.

(** The comparisons of the sources are lexicographic: a key decides unless it is
    unordered, then the next one does. *)
Definition lex_less {A} (less1 less2 : A -> A -> bool) (a b : A) : bool :=
  if less1 a b then true else if less1 b a then false else less2 a b.

Lemma lex_less_order {A} (less1 less2 : A -> A -> bool) P :
  weak_order_on less1 P -> weak_order_on less2 P -> weak_order_on (lex_less less1 less2) P.
Proof.
  intros [asym1 trans1] [asym2 trans2]. unfold not_after in *. split; unfold not_after, lex_less.
  - intros a b Ha Hb. destruct (less1 a b) eqn:E1.
    + intros _. by rewrite (asym1 a b).
    + destruct (less1 b a); [done|]. auto.
  - intros a b c Ha Hb Hc H1 H2.
    destruct (less1 b a) eqn:Eba; [done|]. destruct (less1 c b) eqn:Ecb; [done|].
    rewrite (trans1 a b c) by done. destruct (less1 a c) eqn:Eac; [done|].
    rewrite (trans1 c a b) in H2 by done. rewrite (trans1 b c a) in H1 by done. eauto.
Qed.

(** An order on a key. *)
Lemma weak_order_key {A B} (key : A -> B) (less : B -> B -> bool) (P : A -> Prop) (Q : B -> Prop) :
  weak_order_on less Q -> (forall a, P a -> Q (key a)) ->
  weak_order_on (fun a b => less (key a) (key b)) P.
Proof.
  intros [Hasym Htrans] HPQ. unfold not_after in *.
  split; unfold not_after; [intros a b ? ?|intros a b c ? ? ?]; eauto.
Qed.

Lemma Zgt_order : weak_order_on (fun a b => (b <? a)%Z) (fun _ => True).
Proof. split; unfold not_after; intros; lia. Qed.

(** Byte order on strings, the order of [sort.Strings] and of [<] on strings. *)
Definition byte_code (c : ascii) : Z := Z.of_nat (nat_of_ascii c).

Fixpoint str_compare (a b : string) : comparison :=
  match a, b with
  | EmptyString, EmptyString => Eq
  | EmptyString, String _ _ => Lt
  | String _ _, EmptyString => Gt
  | String x a', String y b' =>
      match (byte_code x ?= byte_code y)%Z with
      | Eq => str_compare a' b'
      | c => c
      end
  end.

Definition str_ltb (a b : string) : bool :=
  match str_compare a b with Lt => true | _ => false end.

Lemma byte_code_inj x y : byte_code x = byte_code y -> x = y.
Proof.
  unfold byte_code. intros H. apply Nat2Z.inj in H.
  by rewrite <- (ascii_nat_embedding x), <- (ascii_nat_embedding y), H.
Qed.

Lemma str_compare_eq a b : str_compare a b = Eq <-> a = b.
Proof.
  revert b. induction a as [|x a IH]; intros [|y b]; cbn; try naive_solver.
  destruct (Z.compare_spec (byte_code x) (byte_code y)) as [E|E|E].
  - apply byte_code_inj in E as ->. rewrite IH. naive_solver.
  - split; [done|]. intros [= -> ->]. lia.
  - split; [done|]. intros [= -> ->]. lia.
Qed.

Lemma str_compare_antisym a b : str_compare b a = CompOpp (str_compare a b).
Proof.
  revert b. induction a as [|x a IH]; intros [|y b]; cbn; try done.
  rewrite Z.compare_antisym. destruct (byte_code x ?= byte_code y)%Z; cbn; auto.
Qed.

Lemma str_compare_lt_trans a b c :
  str_compare a b = Lt -> str_compare b c = Lt -> str_compare a c = Lt.
Proof.
  revert b c. induction a as [|x a IH]; intros [|y b] [|z c]; cbn; try done.
  destruct (Z.compare_spec (byte_code x) (byte_code y)),
    (Z.compare_spec (byte_code y) (byte_code z)),
    (Z.compare_spec (byte_code x) (byte_code z)); try done; try lia; eauto.
Qed.

Lemma str_ltb_order : weak_order_on str_ltb (fun _ => True).
Proof.
  split; unfold not_after, str_ltb.
  - intros a b _ _. rewrite (str_compare_antisym a b). by destruct (str_compare a b).
  - intros a b c _ _ _ H1 H2.
    destruct (str_compare c a) eqn:E; try done.
    rewrite str_compare_antisym in H1, H2.
    destruct (str_compare a b) eqn:Eab; cbn in *; try done.
    + apply str_compare_eq in Eab as ->.
      rewrite str_compare_antisym in E. by destruct (str_compare b c).
    + destruct (str_compare b c) eqn:Ebc; cbn in *; try done.
      * apply str_compare_eq in Ebc as ->. rewrite str_compare_antisym, Eab in E. done.
      * rewrite str_compare_antisym, (str_compare_lt_trans _ _ _ Eab Ebc) in E. done.
Qed.

Lemma str_ltb_total a b : str_ltb a b = false -> str_ltb b a = false -> a = b.
Proof.
  unfold str_ltb. rewrite (str_compare_antisym a b).
  destruct (str_compare a b) eqn:E; try done. intros _ _. by apply str_compare_eq.
Qed.

Definition sort_strings : list string -> list string := sort_stable str_ltb.

(** Concatenation, prefixes and suffixes. *)

Lemma str_app_cons a p x : String a p +:+ x = String a (p +:+ x).
Proof. done. Qed.

Lemma str_app_assoc (a b c : string) : a +:+ (b +:+ c) = (a +:+ b) +:+ c.
Proof. induction a as [|x a IH]; [done|]. exact (f_equal (String x) IH). Qed.

Lemma str_app_nil a : a +:+ "" = a.
Proof. induction a as [|x a IH]; [done|]. exact (f_equal (String x) IH). Qed.

Lemma length_str_app p q : String.length (p +:+ q) = (String.length p + String.length q)%nat.
Proof. induction p as [|x p IH]; [done|]. exact (f_equal S IH). Qed.

Lemma HasPrefix_app p x : HasPrefix (p +:+ x) p = true.
Proof.
  induction p as [|c p IH]; [by destruct x|]. rewrite str_app_cons. unfold HasPrefix in *. cbn.
  by destruct (ascii_dec c c).
Qed.

Lemma substring_app_l p x : String.substring 0 (String.length p) (p +:+ x) = p.
Proof. induction p as [|c p IH]; [by destruct x|]. rewrite str_app_cons. cbn. by rewrite IH. Qed.

Lemma substring_all x : String.substring 0 (String.length x) x = x.
Proof. induction x as [|c x IH]; [done|]. cbn. by rewrite IH. Qed.

Lemma substring_app_r p x : String.substring (String.length p) (String.length x) (p +:+ x) = x.
Proof. induction p as [|c p IH]; [apply substring_all|]. rewrite str_app_cons. cbn. exact IH. Qed.

Lemma HasSuffix_app p x : HasSuffix (p +:+ x) x = true.
Proof.
  unfold HasSuffix. rewrite length_str_app, (proj2 (Nat.leb_le _ _)) by lia.
  replace (_ + _ - _)%nat with (String.length p) by lia.
  rewrite substring_app_r. cbn. apply String.eqb_refl.
Qed.

