(* ===== verification/GoText.v ===== *)
(** * Text functions of Go's standard library

    [time.Duration.String], the RFC 3339 format with nanoseconds, [strings.Split],
    [strconv.Quote], [strconv.ParseInt] and [ParseUint] in base 10, and the standard
    base64 encoding with its decoder, which inverts it.  Text is ASCII: [Quote] leaves
    bytes from 128 on as they are. *)

From S2P Require Import Prelude.

Definition digit (n : Z) : string := String (ascii_of_nat (48 + Z.to_nat n)) "".

(** [fmtFrac]: the lowest [prec] digits of [v] as a fraction without trailing zeros
    before [acc], and the rest of [v]. *)
Fixpoint fmt_frac (prec : nat) (v : Z) (print : bool) (acc : string) : string * Z :=
  match prec with
  | O => (if print then "." +:+ acc else acc, v)
  | S prec =>
      let d := (v mod 10)%Z in
      let print := print || negb (d =? 0)%Z in
      fmt_frac prec (v / 10) print (if print then digit d +:+ acc else acc)
  end.

(** [Duration.String]; ["µs"] in UTF-8. *)
Definition micro_sign : string := String (ascii_of_nat 194) (String (ascii_of_nat 181) "").

Definition unsigned_duration (u : Z) : string :=
  if (u =? 0)%Z then "0s"
  else if (u <? Microsecond)%Z then Itoa u +:+ "ns"
  else if (u <? Millisecond)%Z then
    let '(frac, v) := fmt_frac 3 u false (micro_sign +:+ "s") in Itoa v +:+ frac
  else if (u <? Second)%Z then
    let '(frac, v) := fmt_frac 6 u false "ms" in Itoa v +:+ frac
  else
    let '(frac, v) := fmt_frac 9 u false "s" in
    let seconds := Itoa (v mod 60) +:+ frac in
    let v := (v / 60)%Z in
    if (v =? 0)%Z then seconds
    else
      let minutes := Itoa (v mod 60) +:+ "m" +:+ seconds in
      let v := (v / 60)%Z in
      if (v =? 0)%Z then minutes else Itoa v +:+ "h" +:+ minutes.

Definition duration_string (d : Z) : string :=
  if (d <? 0)%Z then "-" +:+ unsigned_duration (- d) else unsigned_duration d.

(** Year, month and day of a day counted from 1970-01-01. *)
Definition civil_from_days (days : Z) : Z * Z * Z :=
  let z := (days + 719468)%Z in
  let era := (z / 146097)%Z in
  let doe := (z - era * 146097)%Z in
  let yoe := ((doe - doe / 1460 + doe / 36524 - doe / 146096) / 365)%Z in
  let doy := (doe - (365 * yoe + yoe / 4 - yoe / 100))%Z in
  let mp := ((5 * doy + 2) / 153)%Z in
  let d := (doy - (153 * mp + 2) / 5 + 1)%Z in
  let m := (if mp <? 10 then mp + 3 else mp - 9)%Z in
  ((yoe + era * 400 + (if m <=? 2 then 1 else 0))%Z, m, d).

Definition pad2 (n : Z) : string := digit (n / 10) +:+ digit (n mod 10).
Definition pad4 (n : Z) : string :=
  if (n <? 0)%Z then "-" +:+ pad2 (- n / 100) +:+ pad2 (- n mod 100)
  else if (n <? 10000)%Z then pad2 (n / 100) +:+ pad2 (n mod 100) else Itoa n.

(** [t.UTC().Format(time.RFC3339Nano)]. *)
Definition rfc3339_nano (t : Z) : string :=
  let secs := (t / Second)%Z in
  let '(y, m, d) := civil_from_days (secs / 86400) in
  let s := (secs mod 86400)%Z in
  pad4 y +:+ "-" +:+ pad2 m +:+ "-" +:+ pad2 d +:+ "T" +:+
  pad2 (s / 3600) +:+ ":" +:+ pad2 (s / 60 mod 60) +:+ ":" +:+ pad2 (s mod 60) +:+
  (fmt_frac 9 (t mod Second) false "Z").1.

(** [strings.Split(s, sep)] for a separator of one byte. *)
Fixpoint split_on (sep : ascii) (s : string) : list string :=
  match s with
  | EmptyString => [""]
  | String c s' =>
      if bool_decide (c = sep) then "" :: split_on sep s'
      else match split_on sep s' with
           | [] => [String c ""]
           | x :: rest => String c x :: rest
           end
  end.

Example duration_examples :
  duration_string (180 * Second) = "3m0s" /\ duration_string (1500 * Millisecond) = "1.5s" /\
  duration_string (-2 * Hour) = "-2h0m0s" /\ duration_string 1500 = ("1.5" +:+ micro_sign +:+ "s").
Proof. by vm_compute. Qed.

Example rfc3339_examples :
  rfc3339_nano 1775469600500000000 = "2026-04-06T10:00:00.5Z" /\
  rfc3339_nano time_zero = "0001-01-01T00:00:00Z" /\
  rfc3339_nano (951782400 * Second) = "2000-02-29T00:00:00Z".
Proof. by vm_compute. Qed.

(** ** [strconv] *)

Definition quote_char : ascii := ascii_of_nat 34.

(** [encoding/hex]. *)
Definition hex_digit (n : nat) : ascii :=
  ascii_of_nat (if (n <? 10)%nat then 48 + n else 87 + n)%nat.

Fixpoint hex_encode (l : list ascii) : string :=
  match l with
  | [] => ""
  | b :: rest =>
      let n := nat_of_ascii b in
      String (hex_digit (n / 16)%nat) (String (hex_digit (n mod 16)%nat) (hex_encode rest))
  end.

Definition quote_byte (c : ascii) : string :=
  let n := nat_of_ascii c in
  let esc c := String (ascii_of_nat 92) (String c "") in
  if (n =? 34)%nat || (n =? 92)%nat then esc c
  else if (n =? 7)%nat then esc "a"%char
  else if (n =? 8)%nat then esc "b"%char
  else if (n =? 12)%nat then esc "f"%char
  else if (n =? 10)%nat then esc "n"%char
  else if (n =? 13)%nat then esc "r"%char
  else if (n =? 9)%nat then esc "t"%char
  else if (n =? 11)%nat then esc "v"%char
  else if (n <? 32)%nat || (n =? 127)%nat
  then esc "x"%char +:+ String (hex_digit (n / 16)) (String (hex_digit (n mod 16)) "")
  else String c "".

Fixpoint quote_bytes (s : string) : string :=
  match s with EmptyString => "" | String c s' => quote_byte c +:+ quote_bytes s' end.

Definition Quote (s : string) : string :=
  String quote_char (quote_bytes s +:+ String quote_char "").

Definition num_error (fn s what : string) : go_error :=
  ENew ("strconv." +:+ fn +:+ ": parsing " +:+ Quote s +:+ ": " +:+ what).

Definition digit_value (c : ascii) : option Z :=
  let n := nat_of_ascii c in
  if (48 <=? n)%nat && (n <=? 57)%nat then Some (Z.of_nat n - 48)%Z else None.

Fixpoint digits_value (acc : Z) (s : string) : option Z :=
  match s with
  | EmptyString => Some acc
  | String c s' => d ← digit_value c; digits_value (acc * 10 + d)%Z s'
  end.

(** The digits of an unsigned number: at least one. *)
Definition unsigned_value (s : string) : option Z :=
  if str_empty s then None else digits_value 0 s.

(** [strconv.ParseUint(s, 10, bits)]. *)
Definition ParseUint (bits : Z) (s : string) : res Z :=
  match unsigned_value s with
  | None => Err (num_error "ParseUint" s "invalid syntax")
  | Some v => if (v <? 2 ^ bits)%Z then Ok v else Err (num_error "ParseUint" s "value out of range")
  end.

(** [strconv.ParseInt(s, 10, 64)]. *)
Definition ParseInt (s : string) : res Z :=
  let '(neg, body) :=
    match s with
    | String c s' => if bool_decide (c = "+"%char) then (false, s')
                     else if bool_decide (c = "-"%char) then (true, s') else (false, s)
    | EmptyString => (false, s)
    end in
  match unsigned_value body with
  | None => Err (num_error "ParseInt" s "invalid syntax")
  | Some v =>
      let v := if neg : bool then (- v)%Z else v in
      if ((min_int64 <=? v) && (v <=? max_int64))%Z then Ok v
      else Err (num_error "ParseInt" s "value out of range")
  end.

Lemma ParseInt_range s v : ParseInt s = Ok v -> in_int64 v.
Proof.
  unfold ParseInt. destruct (match s with EmptyString => _ | String _ _ => _ end) as [neg body].
  destruct (unsigned_value body) as [u|]; [|done].
  destruct (_ && _) eqn:E; [|done]. intros [= <-]. unfold in_int64. lia.
Qed.

Lemma digit_value_nonneg c d : digit_value c = Some d -> (0 <= d)%Z.
Proof.
  unfold digit_value. destruct (_ && _) eqn:E; [|done]. intros [= <-].
  apply andb_prop in E as [E%Nat.leb_le _]. lia.
Qed.

Lemma digits_value_nonneg acc s v : (0 <= acc)%Z -> digits_value acc s = Some v -> (0 <= v)%Z.
Proof.
  revert acc. induction s as [|c s IH]; intros acc Ha; cbn; [by intros [= <-]|].
  destruct (digit_value c) as [d|] eqn:E; cbn; [|done]. apply IH.
  apply digit_value_nonneg in E. lia.
Qed.

Lemma ParseUint_range bits s v : ParseUint bits s = Ok v -> (0 <= v < 2 ^ bits)%Z.
Proof.
  unfold ParseUint, unsigned_value. destruct (str_empty s); [done|].
  destruct (digits_value 0 s) as [u|] eqn:E; [|done].
  destruct (u <? 2 ^ bits)%Z eqn:Eb; [|done]. intros [= <-].
  apply digits_value_nonneg in E; lia.
Qed.

Example parse_examples :
  ParseInt "-12" = Ok (-12)%Z /\ is_ok (ParseInt "") = false /\ is_ok (ParseInt "1_0") = false /\
  is_ok (ParseInt "9223372036854775808") = false /\ ParseInt "-9223372036854775808" = Ok min_int64 /\
  ParseUint 32 "4294967295" = Ok 4294967295%Z /\ is_ok (ParseUint 32 "4294967296") = false.
Proof. by vm_compute. Qed.

(** ** [base64.StdEncoding] *)

Definition b64_char (n : Z) : ascii :=
  ascii_of_nat (Z.to_nat
    (if n <? 26 then 65 + n else if n <? 52 then 71 + n else if n <? 62 then n - 4
     else if n =? 62 then 43 else 47)%Z).

(** [decodeMap]. *)
Definition b64_val (c : ascii) : option Z :=
  let n := byte_code c in
  if ((65 <=? n) && (n <=? 90))%Z then Some (n - 65)%Z
  else if ((97 <=? n) && (n <=? 122))%Z then Some (n - 71)%Z
  else if ((48 <=? n) && (n <=? 57))%Z then Some (n + 4)%Z
  else if (n =? 43)%Z then Some 62%Z
  else if (n =? 47)%Z then Some 63%Z
  else None.

(** Three bytes as 24 bits, in four groups of six. *)
Definition join_bytes (a b c : ascii) : Z := (byte_code a * 65536 + byte_code b * 256 + byte_code c)%Z.
Definition sextet (v k : Z) : ascii := b64_char (v / 2 ^ (6 * k) mod 64)%Z.

Fixpoint EncodeToString (l : list ascii) : string :=
  match l with
  | [] => ""
  | [a] =>
      let v := join_bytes a zero zero in
      String (sextet v 3) (String (sextet v 2) "==")
  | [a; b] =>
      let v := join_bytes a b zero in
      String (sextet v 3) (String (sextet v 2) (String (sextet v 1) "="))
  | a :: b :: c :: rest =>
      let v := join_bytes a b c in
      String (sextet v 3) (String (sextet v 2) (String (sextet v 1) (String (sextet v 0)
        (EncodeToString rest))))
  end.

Definition join_sextets (q : list Z) : Z :=
  match q with
  | [a; b; c; d] => (a * 262144 + b * 4096 + c * 64 + d)%Z
  | [a; b; c] => (a * 262144 + b * 4096 + c * 64)%Z
  | [a; b] => (a * 262144 + b * 4096)%Z
  | _ => 0%Z
  end.

Definition nth_byte (v k : Z) : ascii := ascii_of_nat (Z.to_nat (v / 2 ^ (8 * k) mod 256)).

Definition is_newline (c : ascii) : bool := (byte_code c =? 10)%Z || (byte_code c =? 13)%Z.

Definition corrupt_input (at_ : Z) : go_error :=
  ENew ("illegal base64 data at input byte " +:+ Itoa at_).

Fixpoint skip_newlines (s : string) (si : Z) : string * Z :=
  match s with
  | String c s' => if is_newline c then skip_newlines s' (si + 1) else (s, si)
  | EmptyString => (s, si)
  end.

(** After the padding only line ends may follow. *)
Definition decode_end (s : string) (si : Z) (bytes : list ascii) : res (list ascii) :=
  let '(s, si) := skip_newlines s si in
  match s with EmptyString => Ok bytes | _ => Err (corrupt_input si) end.

(** [q] is the part of the current group that has been read, [si] the position. *)
Fixpoint decode_loop (s : string) (si : Z) (q : list Z) : res (list ascii) :=
  match s with
  | EmptyString =>
      match q with [] => Ok [] | _ => Err (corrupt_input (si - Z.of_nat (length q))) end
  | String c s' =>
      match b64_val c with
      | Some v =>
          let q := q ++ [v] in
          if (length q =? 4)%nat then
            let n := join_sextets q in
            rest ← decode_loop s' (si + 1) [];
            Ok (nth_byte n 2 :: nth_byte n 1 :: nth_byte n 0 :: rest)
          else decode_loop s' (si + 1) q
      | None =>
          if is_newline c then decode_loop s' (si + 1) q
          else if negb (byte_code c =? 61)%Z then Err (corrupt_input si)
          else
            let n := join_sextets q in
            match q with
            | [] | [_] => Err (corrupt_input si)
            | [_; _] =>
                let '(s2, si2) := skip_newlines s' (si + 1) in
                match s2 with
                | EmptyString => Err (corrupt_input si2)
                | String c2 s3 =>
                    if negb (byte_code c2 =? 61)%Z then Err (corrupt_input (si2 - 1))
                    else decode_end s3 (si2 + 1) [nth_byte n 2]
                end
            | _ => decode_end s' (si + 1) [nth_byte n 2; nth_byte n 1]
            end
      end
  end.

Definition DecodeString (s : string) : res (list ascii) := decode_loop s 0 [].

Lemma b64_val_char n : (0 <= n < 64)%Z -> b64_val (b64_char n) = Some n.
Proof.
  intros Hn. assert (forallb (fun k => bool_decide (b64_val (b64_char (Z.of_nat k)) = Some (Z.of_nat k)))
    (seq 0 64) = true) as Hall by (vm_compute; reflexivity).
  rewrite forallb_forall in Hall. specialize (Hall (Z.to_nat n)).
  rewrite Z2Nat.id in Hall by lia. rewrite bool_decide_eq_true in Hall. apply Hall, in_seq. lia.
Qed.

Lemma b64_val_sextet v k : b64_val (sextet v k) = Some (v / 2 ^ (6 * k) mod 64)%Z.
Proof. apply b64_val_char. apply Z.mod_pos_bound. lia. Qed.

Lemma byte_code_range c : (0 <= byte_code c < 256)%Z.
Proof. unfold byte_code. pose proof (nat_ascii_bounded c). lia. Qed.

Lemma nth_byte_code v k c : (v / 2 ^ (8 * k) mod 256 = byte_code c)%Z -> nth_byte v k = c.
Proof.
  intros E. unfold nth_byte. rewrite E. unfold byte_code. rewrite Nat2Z.id. apply ascii_nat_embedding.
Qed.

Ltac base64_byte :=
  apply nth_byte_code; unfold join_bytes;
  repeat match goal with |- context [byte_code ?c] =>
    lazymatch goal with H : (0 <= byte_code c < 256)%Z |- _ => fail | _ => pose proof (byte_code_range c) end
  end;
  cbn -[byte_code Z.mul Z.add Z.div Z.modulo]; change (byte_code zero) with 0%Z in *;
  Z.to_euclidean_division_equations; lia.

(** Decoding inverts encoding. *)
Lemma decode_loop_encode l si : decode_loop (EncodeToString l) si [] = Ok l.
Proof.
  revert si. induction l as [l IH] using (induction_ltof1 _ (@length ascii)). intros si.
  destruct l as [|a [|b [|c rest]]]; cbn [EncodeToString].
  - done.
  - cbn [decode_loop]. rewrite !b64_val_sextet. cbn -[Z.div Z.modulo Z.pow nth_byte].
    do 2 f_equal. base64_byte.
  - cbn [decode_loop]. rewrite !b64_val_sextet. cbn -[Z.div Z.modulo Z.pow nth_byte].
    f_equal. f_equal; [|f_equal]; base64_byte.
  - cbn [decode_loop]. rewrite !b64_val_sextet. cbn -[Z.div Z.modulo Z.pow nth_byte decode_loop].
    rewrite IH by (unfold ltof; cbn; lia). cbn -[Z.div Z.modulo Z.pow nth_byte].
    f_equal. f_equal; [|f_equal; [|f_equal]]; base64_byte.
Qed.

Lemma DecodeString_EncodeToString l : DecodeString (EncodeToString l) = Ok l.
Proof. apply decode_loop_encode. Qed.

Example base64_examples :
  EncodeToString (String.list_ascii_of_string "Man!") = "TWFuIQ==" /\
  DecodeString "TWFuIQ=" = Err (corrupt_input 7) /\ DecodeString "TWF" = Err (corrupt_input 0).
Proof. by vm_compute. Qed.
