(* ===== verification/GoFloat.v ===== *)
(** * IEEE 754 double precision, as Go's [float64]

    Values are [spec_float] of the standard library's [SpecFloat] at precision 53
    and exponent bound 1024, so every operation is the correctly rounded one and
    runs inside the kernel without axioms.  The shipped binary is built for
    [GOARCH=amd64] (Dockerfile), where the compiler does not fuse multiply and add,
    so each source operator is one rounding.  The file also proves the order theory
    of [<] and [==] on non-NaN values, and models [sort.Float64s]. *)

From Stdlib Require Export SpecFloat.
From S2P Require Import Prelude.

Abbreviation f64 := spec_float.

Definition f_add : f64 -> f64 -> f64 := SFadd 53 1024.
Definition f_sub : f64 -> f64 -> f64 := SFsub 53 1024.
Definition f_mul : f64 -> f64 -> f64 := SFmul 53 1024.
Definition f_div : f64 -> f64 -> f64 := SFdiv 53 1024.

(** [float64(n)] for an integer, rounded to nearest even. *)
Definition f_of_Z (n : Z) : f64 := binary_normalize 53 1024 n 0 false.
(** A decimal literal [n/d]: both parts are exact below 2^53, so the quotient is the
    correctly rounded literal. *)
Definition f_lit (n d : Z) : f64 := f_div (f_of_Z n) (f_of_Z d).

Definition f_zero : f64 := S754_zero false.
Definition f_one : f64 := f_of_Z 1.
Definition f_nan : f64 := S754_nan.

Definition f_is_nan (x : f64) : bool := match x with S754_nan => true | _ => false end.
Definition f_lt (x y : f64) : bool := SFltb x y.
Definition f_le (x y : f64) : bool := SFleb x y.
Definition f_gt (x y : f64) : bool := f_lt y x.
Definition f_ge (x y : f64) : bool := f_le y x.
Definition f_eq (x y : f64) : bool := SFeqb x y.

(** The integer part of a finite value, toward zero. *)
Definition f_trunc_Z (x : f64) : Z :=
  match x with
  | S754_finite s m e => (if s then -1 else 1) * Z.shiftl (Zpos m) e
  | _ => 0
  end.

(** [int64(x)]: toward zero; amd64 yields the minimum for NaN and out of range. *)
Definition f_to_int64 (x : f64) : Z :=
  match x with
  | S754_nan | S754_infinity _ => min_int64
  | _ =>
      let z := f_trunc_Z x in
      if ((min_int64 <=? z) && (z <=? max_int64))%Z then z else min_int64
  end.

(** [math.Ceil]. *)
Definition f_ceil (x : f64) : f64 :=
  match x with
  | S754_finite s m e =>
      if (0 <=? e)%Z then x
      else
        let q := Z.shiftr (Zpos m) (- e) in
        let exact := (Z.shiftl q (- e) =? Zpos m)%Z in
        let z := if s then (- q)%Z else if exact then q else (q + 1)%Z in
        if (z =? 0)%Z then S754_zero s else f_of_Z z
  | _ => x
  end.

(** [time.Duration.Seconds] and its conversion back to an integer. *)
Definition duration_seconds (d : Z) : f64 :=
  f_add (f_of_Z (go_div d Second)) (f_div (f_of_Z (go_rem d Second)) (f_of_Z 1000000000)).
Definition duration_seconds_int (d : Z) : Z := f_to_int64 (duration_seconds d).

(** [math.Pow(x, y)] for an integer [y >= 0]: the binary powering of package math on
    fraction and exponent ([Frexp]), put together by [Ldexp].  The loop runs over the
    bits of [y]. *)
Fixpoint pow_loop (i : positive) (x1 : f64) (xe : Z) (a1 : f64) (ae : Z) : f64 * Z :=
  if ((xe <? -4096) || (4096 <? xe))%Z then (a1, (ae + xe)%Z)
  else
    let '(a1, ae) := match i with xO _ => (a1, ae) | _ => (f_mul a1 x1, (ae + xe)%Z) end in
    let x1 := f_mul x1 x1 in
    let xe := (2 * xe)%Z in
    let '(x1, xe) := if f_lt x1 (f_lit 1 2) then (f_add x1 x1, (xe - 1)%Z) else (x1, xe) in
    match i with
    | xH => (a1, ae)
    | xO i | xI i => pow_loop i x1 xe a1 ae
    end.

Definition f_pow (x : f64) (y : Z) : f64 :=
  match y with
  | Zpos i =>
      if f_eq x f_one then f_one
      else if (y =? 1)%Z then x
      else match x with
      | S754_nan => S754_nan
      | S754_zero s => S754_zero (s && Z.odd y)
      | S754_infinity s => S754_infinity (s && Z.odd y)
      | S754_finite _ _ _ =>
          let '(x1, xe) := SFfrexp 53 1024 x in
          let '(a1, ae) := pow_loop i x1 xe f_one 0 in
          SFldexp 53 1024 a1 ae
      end
  | _ => f_one
  end.

Example f_pow_examples :
  f_eq (f_pow (f_of_Z 2) 10) (f_of_Z 1024) = true /\
  f_eq (f_pow (f_lit 3 2) 3) (f_lit 27 8) = true /\
  f_pow (f_of_Z 2) 2000 = S754_infinity false /\
  f_eq (f_pow (f_of_Z (-3)) 3) (f_of_Z (-27)) = true.
Proof. by vm_compute. Qed.

(** [fmt.Sprintf("%f", x)]: six decimals of the exact value, ties to even. *)
Definition pad_digits (width : nat) (n : Z) : string :=
  let s := Itoa n in
  String.concat "" (repeat "0" (width - String.length s)) +:+ s.

Definition millionths (m e : Z) : Z :=
  if (0 <=? e)%Z then (Z.shiftl m e * 1000000)%Z
  else
    let n := (m * 1000000)%Z in
    let d := (2 ^ (- e))%Z in
    let q := (n / d)%Z in
    let r := (n mod d)%Z in
    if (d <? 2 * r)%Z || ((2 * r =? d)%Z && Z.odd q) then (q + 1)%Z else q.

Definition f_fixed6 (x : f64) : string :=
  let sign (s : bool) := if s then "-" else "" in
  match x with
  | S754_nan => "NaN"
  | S754_infinity s => if s then "-Inf" else "+Inf"
  | S754_zero s => sign s +:+ "0.000000"
  | S754_finite s m e =>
      let q := millionths (Zpos m) e in
      sign s +:+ Itoa (q / 1000000) +:+ "." +:+ pad_digits 6 (q mod 1000000)
  end.

Example f_fixed6_examples :
  (f_fixed6 (f_lit 98 100), f_fixed6 (f_lit (-5) 2), f_fixed6 (f_lit 1 128), f_fixed6 (f_of_Z 600)) =
  ("0.980000", "-2.500000", "0.007812", "600.000000").
Proof. by vm_compute. Qed.

(** ** Order

    [f_key] maps non-NaN values to triples compared lexicographically. *)

Definition f_key (x : f64) : Z * Z * Z :=
  match x with
  | S754_nan => (3, 0, 0)%Z
  | S754_infinity true => (-2, 0, 0)%Z
  | S754_infinity false => (2, 0, 0)%Z
  | S754_zero _ => (0, 0, 0)%Z
  | S754_finite true m e => (-1, - e, - Zpos m)%Z
  | S754_finite false m e => (1, e, Zpos m)%Z
  end.

Definition key_lt (a b : Z * Z * Z) : Prop :=
  let '(a1, a2, a3) := a in let '(b1, b2, b3) := b in
  (a1 < b1 \/ a1 = b1 /\ (a2 < b2 \/ a2 = b2 /\ a3 < b3))%Z.

Definition not_nan (x : f64) : Prop := f_is_nan x = false.

Lemma SFcompare_key x y :
  SFcompare x y =
  if f_is_nan x || f_is_nan y then None
  else Some (match f_key x, f_key y with
             | (a1, a2, a3), (b1, b2, b3) =>
                 match (a1 ?= b1)%Z with
                 | Eq => match (a2 ?= b2)%Z with Eq => (a3 ?= b3)%Z | c => c end
                 | c => c
                 end
             end).
Proof.
  destruct x as [[]|[]| |[] mx ex], y as [[]|[]| |[] my ey]; try done; cbn.
  - rewrite (Z.compare_opp ex ey). rewrite (Z.compare_antisym ex ey).
    by destruct (ex ?= ey)%Z.
Qed.

Lemma f_lt_true x y : f_lt x y = true <-> not_nan x /\ not_nan y /\ key_lt (f_key x) (f_key y).
Proof.
  unfold f_lt, SFltb, not_nan. rewrite SFcompare_key.
  destruct (f_is_nan x), (f_is_nan y); cbn; try naive_solver.
  destruct (f_key x) as [[a1 a2] a3], (f_key y) as [[b1 b2] b3]; cbn.
  destruct (Z.compare_spec a1 b1), (Z.compare_spec a2 b2), (Z.compare_spec a3 b3);
    (split; [intros ?; split_and!; try done; lia|intros (_ & _ & ?); try done; lia]).
Qed.

Lemma f_lt_false x y :
  not_nan x -> not_nan y -> (f_lt x y = false <-> ~ key_lt (f_key x) (f_key y)).
Proof.
  intros Hx Hy. rewrite <- not_true_iff_false, f_lt_true. naive_solver.
Qed.

Lemma f_eq_true x y : f_eq x y = true <-> not_nan x /\ not_nan y /\ f_key x = f_key y.
Proof.
  unfold f_eq, SFeqb, not_nan. rewrite SFcompare_key.
  destruct (f_is_nan x), (f_is_nan y); cbn; try naive_solver.
  destruct (f_key x) as [[a1 a2] a3], (f_key y) as [[b1 b2] b3]; cbn.
  destruct (Z.compare_spec a1 b1), (Z.compare_spec a2 b2), (Z.compare_spec a3 b3);
    (split; [intros ?; split_and!; try done; congruence
            |intros (_ & _ & [= ? ? ?]); try done; lia]).
Qed.

Lemma f_le_true x y :
  f_le x y = true <-> not_nan x /\ not_nan y /\ ~ key_lt (f_key y) (f_key x).
Proof.
  unfold f_le, SFleb, not_nan. rewrite SFcompare_key.
  destruct (f_is_nan x), (f_is_nan y); cbn; try naive_solver.
  destruct (f_key x) as [[a1 a2] a3], (f_key y) as [[b1 b2] b3]; cbn.
  destruct (Z.compare_spec a1 b1), (Z.compare_spec a2 b2), (Z.compare_spec a3 b3);
    (split; [intros ?; split_and!; try done; lia|intros (_ & _ & ?); try done; lia]).
Qed.

(** [float_order] turns comparisons in the context into linear arithmetic on keys. *)
Ltac float_keys :=
  repeat match goal with
  | H : context [f_gt ?x ?y] |- _ => change (f_gt x y) with (f_lt y x) in H
  | H : context [f_ge ?x ?y] |- _ => change (f_ge x y) with (f_le y x) in H
  | H : f_lt _ _ = true |- _ => apply f_lt_true in H as (? & ? & H)
  | H : f_le _ _ = true |- _ => apply f_le_true in H as (? & ? & H)
  | H : f_eq _ _ = true |- _ => apply f_eq_true in H as (? & ? & H)
  | H : f_lt ?x ?y = false |- _ => apply f_lt_false in H; [|done|done]
  end.
Ltac float_order :=
  float_keys;
  repeat match goal with
  | H : context [f_key ?x] |- _ => destruct (f_key x) as [[? ?] ?]
  | |- context [f_key ?x] => destruct (f_key x) as [[? ?] ?]
  end; cbn in *; simplify_eq; lia.

Lemma f_lt_irrefl x : f_lt x x = false.
Proof. apply not_true_iff_false. intros H. float_order. Qed.

Lemma f_lt_asym x y : f_lt x y = true -> f_lt y x = false.
Proof. intros H. apply not_true_iff_false. intros H'. float_order. Qed.

Lemma f_lt_trans x y z : f_lt x y = true -> f_lt y z = true -> f_lt x z = true.
Proof. intros H1 H2. float_keys. apply f_lt_true. split_and!; [done..|]. float_order. Qed.

Lemma f_not_lt_trans x y z :
  not_nan x -> not_nan y -> not_nan z ->
  f_lt y x = false -> f_lt z y = false -> f_lt z x = false.
Proof. intros ? ? ? H1 H2. apply f_lt_false; [done..|]. float_order. Qed.

Lemma f_le_not_lt x y : not_nan x -> not_nan y -> f_le x y = negb (f_lt y x).
Proof.
  intros. destruct (f_lt y x) eqn:E; cbn.
  - apply not_true_iff_false. intros E'. float_order.
  - apply f_le_true. split_and!; [done..|]. by apply f_lt_false in E.
Qed.

Lemma f_eq_refl x : not_nan x -> f_eq x x = true.
Proof. intros. by apply f_eq_true. Qed.

Lemma f_eq_sym x y : f_eq x y = f_eq y x.
Proof.
  destruct (f_eq x y) eqn:E, (f_eq y x) eqn:E'; try done; exfalso.
  - apply not_true_iff_false in E'. apply E'. float_keys. by apply f_eq_true.
  - apply not_true_iff_false in E. apply E. float_keys. by apply f_eq_true.
Qed.

(** Trichotomy of non-NaN values. *)
Lemma f_trichotomy x y :
  not_nan x -> not_nan y ->
  f_lt x y = false -> f_lt y x = false -> f_eq x y = true.
Proof.
  intros Hx Hy H1 H2. apply f_eq_true. split_and!; [done..|].
  apply f_lt_false in H1, H2; [|done..].
  destruct (f_key x) as [[? ?] ?], (f_key y) as [[? ?] ?]; cbn in *.
  repeat f_equal; lia.
Qed.

Lemma f_lt_order : weak_order_on f_lt not_nan.
Proof.
  split; unfold not_after.
  - intros. by apply f_lt_asym.
  - intros a b c ? ? ?. by apply f_not_lt_trans.
Qed.

#[export] Hint Resolve f_lt_irrefl f_lt_asym f_lt_order : cts.

(** ** [sort.Float64s] *)

(** The order of [sort.Float64s]: NaN first. *)
Definition float_less (x y : f64) : bool := f_lt x y || (f_is_nan x && negb (f_is_nan y)).
Definition sort_floats : list f64 -> list f64 := sort_stable float_less.

Lemma float_less_order : weak_order_on float_less not_nan.
Proof.
  split; unfold not_after, float_less, not_nan.
  - intros a b -> ->. cbn. rewrite !orb_false_r. apply f_lt_asym.
  - intros a b c Ha Hb Hc. rewrite Ha, Hb, Hc. cbn. rewrite !orb_false_r.
    by apply f_not_lt_trans.
Qed.

Lemma sort_floats_sorted l :
  Forall not_nan l -> StronglySorted (fun x y => f_lt y x = false) (sort_floats l).
Proof.
  intros Hl. pose proof (sort_stable_sorted _ _ float_less_order l Hl) as H.
  unfold sort_floats. induction H as [|x k Hk IH Hx]; constructor; [done|].
  eapply Forall_impl; [exact Hx|]. intros y. unfold not_after, float_less.
  by intros [? _]%orb_false_iff.
Qed.
