(* ===== verification/GoParse.v ===== *)
(** * [strconv.ParseFloat(s, 64)]

    The decimal syntax and the special words, rounded correctly; a hexadecimal
    mantissa is not recognised. *)

From S2P Require Import Prelude GoText GoFloat.

(** The float nearest to [m * 10^e], ties to even. *)
Definition f_decimal (sign : bool) (m e : Z) : f64 :=
  match m with
  | Zpos p =>
      match e with
      | Zneg d =>
          let '(mz, ez, lz) := SFdiv_core_binary 53 1024 (Zpos p) 0 (10 ^ Zpos d) 0 in
          binary_round_aux 53 1024 sign mz ez lz
      | _ => let n := (m * 10 ^ e)%Z in f_of_Z (if sign then - n else n)%Z
      end
  | _ => S754_zero sign
  end.

(** A run of digits: the value continued, their number, and the rest. *)
Fixpoint scan_digits (acc : Z) (count : nat) (s : string) : Z * nat * string :=
  match s with
  | String c s' =>
      match digit_value c with
      | Some d => scan_digits (acc * 10 + d) (S count) s'
      | None => (acc, count, s)
      end
  | EmptyString => (acc, count, s)
  end.

Definition scan_sign (s : string) : bool * string :=
  match s with
  | String c s' => if bool_decide (c = "+"%char) then (false, s')
                   else if bool_decide (c = "-"%char) then (true, s') else (false, s)
  | EmptyString => (false, s)
  end.

(** The exponent stops growing at five digits. *)
Fixpoint scan_exponent (acc : Z) (s : string) : option Z :=
  match s with
  | String c s' =>
      d ← digit_value c;
      scan_exponent (if (acc <? 10000)%Z then acc * 10 + d else acc)%Z s'
  | EmptyString => Some acc
  end.

(** Sign, mantissa and decimal exponent of the whole text. *)
Definition scan_float (s : string) : option (bool * Z * Z) :=
  let '(sign, s) := scan_sign s in
  let '(m, n, s) := scan_digits 0 0 s in
  let '(m, n, frac, s) :=
    match s with
    | String c s' =>
        if bool_decide (c = "."%char)
        then let '(m, k, s) := scan_digits m 0 s' in (m, (n + k)%nat, Z.of_nat k, s)
        else (m, n, 0%Z, s)
    | EmptyString => (m, n, 0%Z, s)
    end in
  if (n =? 0)%nat then None
  else match s with
       | EmptyString => Some (sign, m, (- frac)%Z)
       | String c s' =>
           if bool_decide (c = "e"%char) || bool_decide (c = "E"%char) then
             let '(neg, s') := scan_sign s' in
             if str_empty s' then None
             else e ← scan_exponent 0 s'; Some (sign, m, ((if (neg : bool) then - e else e) - frac)%Z)
           else None
       end.

(** "inf", "infinity" with a sign or without, and "nan", in any case. *)
Definition special_float (s : string) : option f64 :=
  let l := ToLower s in
  if (l =s "nan") then Some S754_nan
  else
    let '(sign, l) := scan_sign l in
    if (l =s "inf") || (l =s "infinity") then Some (S754_infinity sign) else None.

Definition ParseFloat (s : string) : res f64 :=
  match special_float s with
  | Some x => Ok x
  | None =>
      match scan_float s with
      | None => Err (num_error "ParseFloat" s "invalid syntax")
      | Some (sign, m, e) =>
          match f_decimal sign m e with
          | S754_infinity _ => Err (num_error "ParseFloat" s "value out of range")
          | x => Ok x
          end
      end
  end.

Example parse_float_examples :
  (ParseFloat "10.00000000", ParseFloat "0.98", ParseFloat "-2.5e-1", ParseFloat "1e3", ParseFloat ".5",
   ParseFloat "-Inf") =
  (Ok (f_of_Z 10), Ok (f_lit 98 100), Ok (f_lit (-1) 4), Ok (f_of_Z 1000), Ok (f_lit 1 2),
   Ok (S754_infinity true)) /\
  map (fun s => is_ok (ParseFloat s)) [""; "."; "1e"; "1_0"; "e5"; "1e400"; "0x10"; "+nan"; "5."] =
    [false; false; false; false; false; false; false; false; true].
Proof. by vm_compute. Qed.

(** The nearest float of 2^53 + 1 is 2^53 by the tie rule, and 0.1 + 0.2 differs from
    the nearest float of 0.3. *)
Example parse_float_rounding :
  ParseFloat "9007199254740993" = Ok (f_of_Z 9007199254740992) /\
  f_eq (f_add (f_decimal false 1 (-1)) (f_decimal false 2 (-1))) (f_decimal false 3 (-1)) = false.
Proof. by vm_compute. Qed.
