(* ===== verification/LogText.v ===== *)
(** * Log records as text (internal/logger/logger.go)

    With the format "text" every record that [slog] writes passes through
    [textValueOnlyWriter], which strips the keys of the time, the level and the message
    and writes the message without its quotes.  The file holds the writer, what it
    receives ([slog]'s text records, [strconv.Unquote]), and what it makes of them. *)

From S2P Require Import Prelude GoText.

Definition newline : ascii := ascii_of_nat 10.
Definition backslash : ascii := ascii_of_nat 92.
Definition space : ascii := " "%char.

(** ** Strings *)

(** [strings.SplitAfter(text, newline)]. *)
Fixpoint split_after (text : string) : list string :=
  match text with
  | EmptyString => [""]
  | String c text' =>
      if Ascii.eqb c newline then String c "" :: split_after text'
      else match split_after text' with
           | line :: lines => String c line :: lines
           | [] => []
           end
  end.

Definition TrimSuffix (s suffix : string) : string :=
  if HasSuffix s suffix then String.substring 0 (String.length s - String.length suffix) s else s.

(** [strings.TrimLeft(s, c)] and [strings.Trim(s, c)] for one byte. *)
Fixpoint TrimLeft_byte (c : ascii) (s : string) : string :=
  match s with
  | String x s' => if Ascii.eqb x c then TrimLeft_byte c s' else s
  | EmptyString => s
  end.

Fixpoint TrimRight_byte (c : ascii) (s : string) : string :=
  match s with
  | String x s' =>
      match TrimRight_byte c s' with
      | EmptyString => if Ascii.eqb x c then "" else String x ""
      | t => String x t
      end
  | EmptyString => s
  end.

Definition Trim_byte (c : ascii) (s : string) : string := TrimRight_byte c (TrimLeft_byte c s).

(** ** [strconv.Unquote] of a double-quoted string *)

Definition hex_value (c : ascii) : option Z :=
  let n := Z.of_nat (nat_of_ascii c) in
  if ((48 <=? n) && (n <=? 57))%Z then Some (n - 48)%Z
  else if ((97 <=? n) && (n <=? 102))%Z then Some (n - 87)%Z
  else if ((65 <=? n) && (n <=? 70))%Z then Some (n - 55)%Z
  else None.

(** The value of [n] hexadecimal digits, and what follows them. *)
Fixpoint hex_digits (n : nat) (acc : Z) (s : string) : option (Z * string) :=
  match n, s with
  | O, _ => Some (acc, s)
  | S n', String c s' => d ← hex_value c; hex_digits n' (acc * 16 + d)%Z s'
  | S _, EmptyString => None
  end.

Definition octal_value (c : ascii) : option Z :=
  let n := Z.of_nat (nat_of_ascii c) in
  if ((48 <=? n) && (n <=? 55))%Z then Some (n - 48)%Z else None.

Fixpoint octal_digits (n : nat) (acc : Z) (s : string) : option (Z * string) :=
  match n, s with
  | O, _ => Some (acc, s)
  | S n', String c s' => d ← octal_value c; octal_digits n' (acc * 8 + d)%Z s'
  | S _, EmptyString => None
  end.

Definition byte_of (z : Z) : ascii := ascii_of_nat (Z.to_nat z).

(** [utf8.AppendRune] for a valid rune. *)
Definition encode_rune (r : Z) : string :=
  let tail k := byte_of (128 + Z.land (Z.shiftr r k) 63) in
  if (r <? 128)%Z then String (byte_of r) ""
  else if (r <? 2048)%Z then String (byte_of (192 + Z.shiftr r 6)) (String (tail 0%Z) "")
  else if (r <? 65536)%Z
  then String (byte_of (224 + Z.shiftr r 12)) (String (tail 6%Z) (String (tail 0%Z) ""))
  else String (byte_of (240 + Z.shiftr r 18))
         (String (tail 12%Z) (String (tail 6%Z) (String (tail 0%Z) ""))).

Definition valid_rune (r : Z) : bool :=
  ((r <? 55296) || ((57344 <=? r) && (r <=? 1114111)))%Z.

(** One character of the content and what follows it. *)
Definition unquote_char (s : string) : option (string * string) :=
  match s with
  | EmptyString => None
  | String c s1 =>
      if Ascii.eqb c newline then None
      else if negb (Ascii.eqb c backslash) then Some (String c "", s1)
      else match s1 with
      | EmptyString => None
      | String e s2 =>
          let letter x := Ascii.eqb e x in
          let one n := Some (String (ascii_of_nat n) "", s2) in
          let rune n := '(r, s3) ← hex_digits n 0 s2;
                        if valid_rune r then Some (encode_rune r, s3) else None in
          if letter "a"%char then one 7 else if letter "b"%char then one 8 else if letter "f"%char then one 12
          else if letter "n"%char then one 10 else if letter "r"%char then one 13
          else if letter "t"%char then one 9 else if letter "v"%char then one 11
          else if letter "x"%char then '(r, s3) ← hex_digits 2 0 s2; Some (String (byte_of r) "", s3)
          else if letter "u"%char then rune 4 else if letter "U"%char then rune 8
          else if letter backslash || letter quote_char then Some (String e "", s2)
          else match octal_digits 3 0 s1 with
               | Some (r, s3) => if (r <=? 255)%Z then Some (String (byte_of r) "", s3) else None
               | None => None
               end
      end
  end.

(** The characters up to the closing quote, which must end the string; [fuel] is its
    length. *)
Fixpoint unquote_loop (fuel : nat) (s : string) : option string :=
  match fuel with
  | O => None
  | S fuel' =>
      match s with
      | EmptyString => None
      | String c rest =>
          if Ascii.eqb c quote_char then (if str_empty rest then Some "" else None)
          else '(x, s') ← unquote_char s; t ← unquote_loop fuel' s'; Some (x +:+ t)
      end
  end.

Definition Unquote (s : string) : option string :=
  match s with
  | String c s' => if Ascii.eqb c quote_char then unquote_loop (String.length s') s' else None
  | EmptyString => None
  end.

(** ** [textValueOnlyWriter] *)

Fixpoint until_space (s : string) : string * string :=
  match s with
  | EmptyString => ("", "")
  | String c s' =>
      if Ascii.eqb c space then ("", s)
      else let '(v, rest) := until_space s' in (String c v, rest)
  end.

(** After the opening quote: the value with its closing quote, and what follows. *)
Fixpoint scan_quoted (escaped : bool) (s : string) : option (string * string) :=
  match s with
  | EmptyString => None
  | String ch s' =>
      if escaped then '(v, rest) ← scan_quoted false s'; Some (String ch v, rest)
      else if Ascii.eqb ch backslash then '(v, rest) ← scan_quoted true s'; Some (String ch v, rest)
      else if Ascii.eqb ch quote_char then Some (String ch "", s')
      else '(v, rest) ← scan_quoted false s'; Some (String ch v, rest)
  end.

(** [readAttrValue(line, start)] for the rest of the line from [start]: the value and
    the rest from [next], or [None] when it is not [ok]. *)
Definition readAttrValue (line : string) : option (string * string) :=
  match line with
  | EmptyString => None
  | String c rest =>
      if Ascii.eqb c quote_char then
        '(v, rest) ← scan_quoted false rest; Some (String c v, TrimLeft_byte space rest)
      else let '(v, rest) := until_space line in Some (v, TrimLeft_byte space rest)
  end.

Definition normalizeMsgValue (raw : string) : string :=
  let quoted := String quote_char "" in
  if (2 <=? String.length raw)%nat && HasPrefix raw quoted && HasSuffix raw quoted then
    match Unquote raw with Some unquoted => unquoted | None => Trim_byte quote_char raw end
  else raw.

(** [line[len(prefix):]]. *)
Definition after (prefix line : string) : string :=
  String.substring (String.length prefix) (String.length line - String.length prefix) line.

Definition stripTextPrefixKeys (line : string) : string :=
  if negb (HasPrefix line "time=") then line
  else
    match readAttrValue (after "time=" line) with
    | None => line
    | Some (timeVal, rest) =>
        match (if HasPrefix rest "level=" then readAttrValue (after "level=" rest)
               else Some ("", rest)) with
        | None => line
        | Some (levelVal, rest) =>
            if negb (HasPrefix rest "msg=") then line
            else
              match readAttrValue (after "msg=" rest) with
              | None => line
              | Some (msgVal, rest) =>
                  let msgVal := normalizeMsgValue msgVal in
                  let rest := TrimLeft_byte space rest in
                  timeVal +:+ " " +:+
                  (if negb (str_empty levelVal) then levelVal +:+ " " else "") +:+ msgVal +:+
                  (if negb (str_empty rest) then " " +:+ rest else "")
              end
        end
    end.

(** The bytes that [Write] passes on. *)
Definition strip_line (line : string) : string :=
  if str_empty line then ""
  else
    let nl := String newline "" in
    stripTextPrefixKeys (TrimSuffix line nl) +:+ (if HasSuffix line nl then nl else "").

Definition strip_text (text : string) : string := String.concat "" (strip_line <$> split_after text).

(** [Write] on a writer with the destination [dst], if it has one: what is written, the
    count and the error. *)
Definition textWrite (dst : option (string -> option go_error)) (p : string)
    : option string * (Z * option go_error) :=
  match dst with
  | None => (None, (str_len p, None))
  | Some write =>
      let b := strip_text p in
      (Some b, match write b with Some err => (0%Z, Some err) | None => (str_len p, None) end)
  end.

(** ** The records of [slog.TextHandler] *)

(** [needsQuoting]. *)
Definition quoting_byte (c : ascii) : bool :=
  let n := nat_of_ascii c in
  (n <? 32)%nat || Ascii.eqb c space || Ascii.eqb c "="%char || Ascii.eqb c quote_char.

Fixpoint has_quoting_byte (s : string) : bool :=
  match s with EmptyString => false | String c s' => quoting_byte c || has_quoting_byte s' end.

Definition needsQuoting (s : string) : bool := str_empty s || has_quoting_byte s.

Definition text_value (s : string) : string := if needsQuoting s then Quote s else s.

(** A record with a message, after [ReplaceAttr]; a record of the audit log has no
    level. *)
Record text_record := {
  tr_time : string;
  tr_level : option string;
  tr_msg : string;
  tr_attrs : list (string * string)
}.

Definition attrs_text (attrs : list (string * string)) : string :=
  String.concat "" ((fun kv => " " +:+ text_value kv.1 +:+ "=" +:+ text_value kv.2) <$> attrs).

Definition handler_line (r : text_record) : string :=
  "time=" +:+ text_value (tr_time r) +:+
  (match tr_level r with Some l => " level=" +:+ text_value l | None => "" end) +:+
  " msg=" +:+ text_value (tr_msg r) +:+ attrs_text (tr_attrs r).

(** What one call of the handler passes to [Write]. *)
Definition handler_output (r : text_record) : string := handler_line r +:+ String newline "".

(** ** Quoting and its inverse *)

Lemma quote_byte_cons c : exists x y, quote_byte c = String x y /\ x <> quote_char.
Proof. destruct c as [[] [] [] [] [] [] [] []]; do 2 eexists; split; (reflexivity || discriminate). Qed.

Lemma unquote_char_quote_byte c rest : unquote_char (quote_byte c +:+ rest) = Some (String c "", rest).
Proof. destruct c as [[] [] [] [] [] [] [] []]; reflexivity. Qed.

Lemma unquote_loop_quote s n :
  (String.length s < n)%nat -> unquote_loop n (quote_bytes s +:+ String quote_char "") = Some s.
Proof.
  revert n. induction s as [|c s IH]; intros [|n] Hn; cbn in Hn; try lia; [reflexivity|].
  cbn [quote_bytes]. rewrite <- str_app_assoc. cbn [unquote_loop].
  pose proof (unquote_char_quote_byte c (quote_bytes s +:+ String quote_char "")) as Hu.
  destruct (quote_byte_cons c) as (x & y & Ey & Hx). rewrite Ey in Hu |- *. rewrite str_app_cons in Hu |- *.
  destruct (Ascii.eqb_spec x quote_char) as [|_]; [done|]. rewrite Hu. cbn [mbind option_bind].
  rewrite IH by lia. reflexivity.
Qed.

Lemma length_quote_bytes s : (String.length s <= String.length (quote_bytes s))%nat.
Proof.
  induction s as [|c s IH]; [done|]. cbn [quote_bytes]. rewrite length_str_app.
  destruct (quote_byte_cons c) as (x & y & -> & _). cbn. lia.
Qed.

Lemma Unquote_Quote s : Unquote (Quote s) = Some s.
Proof.
  unfold Unquote, Quote. destruct (Ascii.eqb_spec quote_char quote_char); [|done].
  apply unquote_loop_quote. rewrite length_str_app. pose proof (length_quote_bytes s). cbn. lia.
Qed.

Lemma scan_quote_byte c t :
  scan_quoted false (quote_byte c +:+ t) = '(v, r) ← scan_quoted false t; Some (quote_byte c +:+ v, r).
Proof.
  destruct (scan_quoted false t) as [[v r]|] eqn:E;
    destruct c as [[] [] [] [] [] [] [] []]; vm_compute in E |- *; rewrite E; reflexivity.
Qed.

Lemma scan_Quote s rest :
  scan_quoted false (quote_bytes s +:+ String quote_char rest) =
  Some (quote_bytes s +:+ String quote_char "", rest).
Proof.
  induction s as [|c s IH]; [reflexivity|]. cbn [quote_bytes].
  rewrite <- !str_app_assoc, scan_quote_byte, IH. reflexivity.
Qed.

(** ** Lines *)

Fixpoint newlines (s : string) : nat :=
  match s with
  | EmptyString => 0
  | String c s' => (if Ascii.eqb c newline then 1 else 0) + newlines s'
  end.

Lemma newlines_app a b : newlines (a +:+ b) = (newlines a + newlines b)%nat.
Proof.
  induction a as [|c a IH]; [done|]. rewrite str_app_cons. cbn [newlines]. rewrite IH. lia.
Qed.

Lemma newlines_quote_bytes s : newlines (quote_bytes s) = 0%nat.
Proof.
  induction s as [|c s IH]; [done|]. cbn [quote_bytes]. rewrite newlines_app, IH.
  by destruct c as [[] [] [] [] [] [] [] []].
Qed.

Lemma newlines_plain s : has_quoting_byte s = false -> newlines s = 0%nat.
Proof.
  induction s as [|c s IH]; [done|]. cbn [has_quoting_byte newlines]. intros [Hc Hs]%orb_false_iff.
  rewrite (IH Hs). destruct (Ascii.eqb_spec c newline) as [->|_]; [discriminate Hc|done].
Qed.

Lemma newlines_text_value s : newlines (text_value s) = 0%nat.
Proof.
  unfold text_value, needsQuoting. destruct (str_empty s) eqn:Es; cbn [orb].
  { apply str_empty_true in Es as ->. reflexivity. }
  destruct (has_quoting_byte s) eqn:E; [|by apply newlines_plain].
  unfold Quote. cbn [newlines]. by rewrite newlines_app, newlines_quote_bytes.
Qed.

Lemma split_after_line l rest :
  newlines l = 0%nat ->
  split_after (l +:+ String newline rest) = (l +:+ String newline "") :: split_after rest.
Proof.
  induction l as [|c l IH]; intros Hl; [reflexivity|]. rewrite !str_app_cons. cbn [split_after newlines] in *.
  destruct (Ascii.eqb c newline); [lia|]. by rewrite IH by lia.
Qed.

Lemma TrimSuffix_app p x : TrimSuffix (p +:+ x) x = p.
Proof.
  unfold TrimSuffix. rewrite HasSuffix_app, length_str_app.
  replace (_ + _ - _)%nat with (String.length p) by lia. apply substring_app_l.
Qed.

Lemma strip_line_nl l : strip_line (l +:+ String newline "") = stripTextPrefixKeys l +:+ String newline "".
Proof.
  unfold strip_line. rewrite TrimSuffix_app, HasSuffix_app.
  destruct (str_empty _) eqn:E; [|done]. apply str_empty_true in E. by destruct l.
Qed.

Lemma concat_cons x l : String.concat "" (x :: l) = x +:+ String.concat "" l.
Proof. destruct l; cbn; [by rewrite str_app_nil|done]. Qed.

(** One line after the other. *)
Lemma strip_text_line l rest :
  newlines l = 0%nat ->
  strip_text (l +:+ String newline rest) = stripTextPrefixKeys l +:+ String newline (strip_text rest).
Proof.
  intros Hl. unfold strip_text. rewrite split_after_line by done. cbn [fmap list_fmap].
  rewrite concat_cons, strip_line_nl, <- str_app_assoc. reflexivity.
Qed.

Lemma newlines_attrs attrs : newlines (attrs_text attrs) = 0%nat.
Proof.
  unfold attrs_text. induction attrs as [|[k v] attrs IH]; [done|]. cbn [fmap list_fmap fst snd].
  rewrite concat_cons, !newlines_app, !newlines_text_value. by rewrite IH.
Qed.

Lemma newlines_handler_line r : newlines (handler_line r) = 0%nat.
Proof.
  unfold handler_line. rewrite !newlines_app, !newlines_text_value, newlines_attrs.
  by destruct (tr_level r); rewrite ?newlines_app, ?newlines_text_value.
Qed.

(** ** Reading a value back *)

(** What follows a value: nothing, or a space. *)
Definition value_end (s : string) : Prop := match s with EmptyString => True | String c _ => c = space end.

Lemma until_space_plain v rest :
  has_quoting_byte v = false -> value_end rest -> until_space (v +:+ rest) = (v, rest).
Proof.
  intros Hv Hr. induction v as [|c v IH].
  - destruct rest as [|c rest]; [done|]. cbn in Hr |- *. by rewrite Hr.
  - cbn [has_quoting_byte] in Hv. apply orb_false_iff in Hv as [Hc Hv]. rewrite str_app_cons. cbn [until_space].
    destruct (Ascii.eqb_spec c space) as [->|_]; [discriminate Hc|]. by rewrite IH.
Qed.

Lemma readAttrValue_text v rest :
  value_end rest -> readAttrValue (text_value v +:+ rest) = Some (text_value v, TrimLeft_byte space rest).
Proof.
  intros Hr. unfold text_value. destruct (needsQuoting v) eqn:E.
  - unfold Quote. rewrite str_app_cons, <- str_app_assoc. cbn [readAttrValue].
    destruct (Ascii.eqb_spec quote_char quote_char); [|done].
    change (String quote_char "" +:+ rest) with (String quote_char rest).
    rewrite scan_Quote. reflexivity.
  - unfold needsQuoting in E. apply orb_false_iff in E as [Hne Hv]. destruct v as [|c v]; [done|].
    pose proof (until_space_plain _ rest Hv Hr) as Hu. rewrite str_app_cons in Hu |- *.
    unfold readAttrValue. rewrite Hu. cbn [has_quoting_byte] in Hv. apply orb_false_iff in Hv as [Hc _].
    destruct (Ascii.eqb_spec c quote_char) as [->|_]; [discriminate Hc|done].
Qed.

Lemma normalizeMsgValue_text m : normalizeMsgValue (text_value m) = m.
Proof.
  unfold normalizeMsgValue, text_value. destruct (needsQuoting m) eqn:E.
  - rewrite Unquote_Quote. unfold Quote. cbn [String.length]. rewrite length_str_app.
    pose proof (HasPrefix_app (String quote_char "") (quote_bytes m +:+ String quote_char "")) as Hp.
    pose proof (HasSuffix_app (String quote_char (quote_bytes m)) (String quote_char "")) as Hx.
    rewrite str_app_cons in Hp, Hx.
    change (HasPrefix (String quote_char (quote_bytes m +:+ String quote_char "")) (String quote_char "") = true) in Hp.
    rewrite Hx, Hp.
    rewrite (proj2 (Nat.leb_le _ _)) by (cbn; lia). reflexivity.
  - unfold needsQuoting in E. apply orb_false_iff in E as [_ Hv].
    assert (HasPrefix m (String quote_char "") = false) as Hp; [|by rewrite Hp, andb_false_r].
    destruct m as [|c m]; [done|]. cbn [has_quoting_byte] in Hv. apply orb_false_iff in Hv as [Hc _].
    unfold HasPrefix. cbn. destruct (ascii_dec quote_char c) as [<-|]; [discriminate Hc|done].
Qed.

(** ** What a reader of the file sees *)

(** The time and the level are written by [slog] itself and need no quotes. *)
Definition plain_record (r : text_record) : Prop :=
  needsQuoting (tr_time r) = false /\
  match tr_level r with Some l => needsQuoting l = false | None => True end.

Definition shown_line (r : text_record) : string :=
  tr_time r +:+ " " +:+ (match tr_level r with Some l => l +:+ " " | None => "" end) +:+
  tr_msg r +:+ attrs_text (tr_attrs r).

Lemma after_app p x : after p (p +:+ x) = x.
Proof.
  unfold after. rewrite length_str_app. replace (_ + _ - _)%nat with (String.length x) by lia.
  apply substring_app_r.
Qed.

Lemma text_value_plain v : needsQuoting v = false -> text_value v = v.
Proof. intros H. unfold text_value. by rewrite H. Qed.

Lemma needsQuoting_nonempty v : needsQuoting v = false -> str_empty v = false.
Proof. unfold needsQuoting. by destruct (str_empty v). Qed.

Lemma TrimLeft_stop s : ~ value_end s -> TrimLeft_byte space s = s.
Proof.
  destruct s as [|c s]; [done|]. cbn. destruct (Ascii.eqb_spec c space); done.
Qed.

Lemma text_value_head v rest : ~ value_end (text_value v +:+ rest).
Proof.
  unfold text_value. destruct (needsQuoting v) eqn:E; [by unfold Quote; rewrite str_app_cons|].
  destruct v as [|c v]; [done|]. rewrite str_app_cons. cbn. intros ->. discriminate E.
Qed.

(** The attributes are a space and the rest of the line, or nothing. *)
Lemma attrs_text_split attrs :
  attrs_text attrs = "" \/
  exists x, attrs_text attrs = " " +:+ x /\ ~ value_end x.
Proof.
  destruct attrs as [|[k v] attrs]; [by left|]. right. unfold attrs_text. cbn [fmap list_fmap fst snd].
  rewrite concat_cons, <- !str_app_assoc. eexists. split; [reflexivity|]. apply text_value_head.
Qed.

Lemma read_message m attrs :
  exists rest, readAttrValue (text_value m +:+ attrs_text attrs) = Some (text_value m, rest) /\
    (if negb (str_empty (TrimLeft_byte space rest)) then " " +:+ TrimLeft_byte space rest else "") =
    attrs_text attrs.
Proof.
  exists (TrimLeft_byte space (attrs_text attrs)).
  destruct (attrs_text_split attrs) as [->|(x & -> & Hx)]; rewrite readAttrValue_text by done.
  - split; reflexivity.
  - change (TrimLeft_byte space (" " +:+ x)) with (TrimLeft_byte space x).
    rewrite !(TrimLeft_stop x) by done. split; [done|]. destruct x; [by destruct Hx|done].
Qed.

Lemma strip_handler_line r : plain_record r -> stripTextPrefixKeys (handler_line r) = shown_line r.
Proof.
  intros [Ht Hl]. destruct (read_message (tr_msg r) (tr_attrs r)) as (rest & Hm & Hrest).
  unfold stripTextPrefixKeys, handler_line, shown_line. rewrite HasPrefix_app, after_app. cbn [negb].
  set (msg := "msg=" +:+ text_value (tr_msg r) +:+ attrs_text (tr_attrs r)).
  change (" msg=" +:+ text_value (tr_msg r) +:+ attrs_text (tr_attrs r)) with (" " +:+ msg).
  destruct (tr_level r) as [l|].
  - rewrite <- str_app_assoc, readAttrValue_text by reflexivity.
    change (TrimLeft_byte space (" level=" +:+ text_value l +:+ " " +:+ msg))
      with ("level=" +:+ text_value l +:+ " " +:+ msg).
    rewrite HasPrefix_app, after_app, readAttrValue_text by reflexivity.
    change (TrimLeft_byte space (" " +:+ msg)) with msg.
    unfold msg. rewrite HasPrefix_app, after_app, Hm. cbn [negb].
    rewrite (text_value_plain (tr_time r)), (text_value_plain l), needsQuoting_nonempty by done. cbn [negb].
    rewrite normalizeMsgValue_text, Hrest. done.
  - change ("" +:+ " " +:+ msg) with (" " +:+ msg). rewrite readAttrValue_text by reflexivity.
    change (TrimLeft_byte space (" " +:+ msg)) with msg.
    change (HasPrefix msg "level=") with false. cbv iota.
    unfold msg. rewrite HasPrefix_app, after_app, Hm. cbn [negb str_empty str_eqb].
    rewrite (text_value_plain (tr_time r)) by done. rewrite normalizeMsgValue_text, Hrest. done.
Qed.

(** C5. What a text log shows is the record and nothing else: whatever the message and
    the attributes contain, the writer removes exactly the keys of the time, the level
    and the message and the quotes of the message, writes all of it or reports the
    error, and accounts to [slog] for the bytes it was given.  The attributes never
    break the line; the message does, once for each line feed in it. *)
Theorem text_write_spec (r : text_record) (write : string -> option go_error) (Hr : plain_record r) :
  let shown := shown_line r +:+ String newline "" in
  textWrite (Some write) (handler_output r) =
    (Some shown, match write shown with
                 | Some err => (0%Z, Some err)
                 | None => (str_len (handler_output r), None)
                 end) /\
  newlines shown = S (newlines (tr_msg r)).
Proof.
  cbv zeta. unfold textWrite, handler_output.
  rewrite strip_text_line, strip_handler_line by (done || apply newlines_handler_line).
  change (strip_text "") with "". split; [done|].
  assert (newlines (String newline "") = 1%nat /\ newlines " " = 0%nat) as [Hn Hsp] by (split; reflexivity).
  destruct Hr as [Ht Hl]. unfold shown_line. rewrite !newlines_app, newlines_attrs, Hn, Hsp.
  rewrite <- (text_value_plain (tr_time r)), newlines_text_value by done.
  destruct (tr_level r) as [l|]; [|change (newlines "") with 0%nat; lia].
  rewrite newlines_app, <- (text_value_plain l), newlines_text_value, Hsp by done. lia.
Qed.

(** A message can contain whole records: the log of one record with a line feed in its
    message is, byte for byte, the log of two. *)
Theorem log_record_forged (t m : string) (l : option string) (r : text_record) :
  let record msg := {| tr_time := t; tr_level := l; tr_msg := msg; tr_attrs := [] |} in
  plain_record (record m) -> plain_record r ->
  strip_text (handler_output (record (m +:+ String newline (shown_line r)))) =
  strip_text (handler_output (record m) +:+ handler_output r).
Proof.
  cbv zeta. intros Hp Hr. unfold handler_output.
  rewrite <- str_app_assoc, str_app_cons.
  rewrite !strip_text_line by apply newlines_handler_line.
  change ("" +:+ ?x) with x.
  rewrite strip_text_line, !strip_handler_line by (done || apply newlines_handler_line).
  change (strip_text "") with "". unfold shown_line. cbn [tr_time tr_level tr_msg tr_attrs].
  change (attrs_text []) with "". rewrite !str_app_nil.
  destruct l; repeat first [rewrite <- str_app_assoc | rewrite str_app_cons]; done.
Qed.

Definition demo_record : text_record :=
  {| tr_time := "2026-04-06T10:00:00.000000Z"; tr_level := Some "INFO";
     tr_msg := "hello" +:+ String newline "world"; tr_attrs := [("conn_id", "c 1")] |}.

Lemma text_write_spec_witness :
  textWrite (Some (fun _ => None)) (handler_output demo_record) =
    (Some ("2026-04-06T10:00:00.000000Z INFO hello" +:+ String newline "world conn_id=" +:+ Quote "c 1"
           +:+ String newline ""), (77%Z, None)).
Proof.
  refine (proj1 (text_write_spec demo_record (fun _ => None) _)). split; reflexivity.
Defined.
