(* ===== verification/FixedWindow.v ===== *)
(** * Fixed windows

    A limiter that counts per window and starts a new window when the present one is
    at least [span] old: how many passes any single second can see.  The inbound limit
    of a connection (Windows.v) and the limit per client address (RateLimit.v) are
    both of this form. *)

From S2P Require Import Prelude.

(** The window is its start and its count. *)
Definition window_step (span limit now : Z) (w : Z * Z) : bool * (Z * Z) :=
  if (now - w.1 >=? span)%Z then (negb (1 >? limit)%Z, (now, 1%Z))
  else (negb (w.2 + 1 >? limit)%Z, (w.1, (w.2 + 1)%Z)).

(** The times of a run that pass. *)
Fixpoint window_accepted (span limit : Z) (ts : list Z) (w : Z * Z) : list Z :=
  match ts with
  | [] => []
  | t :: ts' =>
      let '(ok, w') := window_step span limit t w in
      if ok then t :: window_accepted span limit ts' w' else window_accepted span limit ts' w'
  end.

(** How many of [ts] lie in the second that starts at [t0]. *)
Definition in_second (t0 : Z) (ts : list Z) : Z :=
  Z.of_nat (length (filter (fun t => t0 <= t < t0 + Second)%Z ts)).

Lemma in_second_cons t0 t ts :
  in_second t0 (t :: ts) =
  ((if bool_decide (t0 <= t < t0 + Second)%Z then 1 else 0) + in_second t0 ts)%Z.
Proof. unfold in_second. rewrite filter_cons. case_decide; case_bool_decide; cbn; lia. Qed.

Section window.
Context (span limit t0 : Z) (Hspan : (Second <= span)%Z) (Hlimit : (0 <= limit)%Z).

Abbreviation accepted := (window_accepted span limit).

Lemma accepted_after ts w :
  Forall (fun u => t0 + Second <= u)%Z ts -> in_second t0 (accepted ts w) = 0%Z.
Proof.
  intros Hout. revert w. induction Hout as [|u ts Hu Hout IH]; intros w; [done|].
  cbn. destruct (window_step span limit u w) as [[] w']; [|apply IH].
  rewrite in_second_cons, IH. case_bool_decide; lia.
Qed.

(** A window that starts inside the second is the last one that meets it. *)
Lemma window_inside ts start count :
  (t0 <= start)%Z -> (0 <= count)%Z -> StronglySorted Z.le (start :: ts) ->
  (in_second t0 (accepted ts (start, count)) <= 0 `max` (limit - count))%Z.
Proof.
  revert start count. induction ts as [|t ts IH]; intros start count Hs Hc Hsort.
  { cbn. unfold in_second. cbn. lia. }
  apply StronglySorted_cons in Hsort as [Hall Hsort].
  inversion Hall as [|? ? Ht Hall']; subst.
  assert (StronglySorted Z.le (start :: ts)) as Hsort'.
  { apply StronglySorted_cons in Hsort as [? ?]. by constructor. }
  cbn [window_accepted]. unfold window_step. cbn [fst snd].
  destruct (Z.geb_spec (t - start) span) as [Hge|Hlt]; cbn.
  - assert (in_second t0 (accepted ts (t, 1%Z)) = 0)%Z as Hz.
    { apply accepted_after. apply StronglySorted_cons in Hsort as [Hall2 _].
      eapply Forall_impl; [exact Hall2|]. intros; cbn in *. lia. }
    destruct (negb _); [rewrite in_second_cons|]; rewrite Hz; try case_bool_decide; lia.
  - specialize (IH start (count + 1)%Z Hs ltac:(lia) Hsort').
    destruct (Z.gtb_spec (count + 1) limit); cbn; [lia|].
    rewrite in_second_cons. case_bool_decide; lia.
Qed.

(** A window that started before the second: [last] is the time before [ts]. *)
Lemma window_before ts start count last :
  (start <= last)%Z -> (0 <= count)%Z -> StronglySorted Z.le (last :: ts) ->
  (in_second t0 (accepted ts (start, count)) <=
    if (last <? t0)%Z then 2 * limit else 0 `max` (limit - count) + limit)%Z.
Proof.
  revert start count last. induction ts as [|t ts IH]; intros start count last Hs Hc Hsort.
  { cbn. unfold in_second. cbn. case_match; lia. }
  apply StronglySorted_cons in Hsort as [Hall Hsort].
  inversion Hall as [|? ? Ht Hall']; subst. cbn [window_accepted].
  unfold window_step. cbn [fst snd].
  destruct (Z.geb_spec (t - start) span) as [Hge|Hlt]; cbn.
  - destruct (Z.leb_spec t0 t) as [Hin|Hin].
    + pose proof (window_inside ts t 1 Hin ltac:(lia) Hsort) as H1.
      destruct (Z.gtb_spec 1 limit); cbn; [case_match; lia|].
      rewrite in_second_cons. case_bool_decide; case_match; lia.
    + specialize (IH t 1%Z t ltac:(lia) ltac:(lia) Hsort).
      rewrite (proj2 (Z.ltb_lt t t0) Hin) in IH. rewrite (proj2 (Z.ltb_lt last t0)) by lia.
      destruct (negb _); [rewrite in_second_cons|]; try case_bool_decide; lia.
  - specialize (IH start (count + 1)%Z t ltac:(lia) ltac:(lia) Hsort).
    destruct (Z.gtb_spec (count + 1) limit); cbn;
      [|rewrite in_second_cons; case_bool_decide];
      destruct (Z.ltb_spec t t0), (Z.ltb_spec last t0); lia.
Qed.

Lemma window_per_second ts start :
  StronglySorted Z.le (start :: ts) ->
  (in_second t0 (accepted ts (start, 0%Z)) <= 2 * limit)%Z.
Proof.
  intros Hclock. pose proof (window_before ts start 0 start ltac:(lia) ltac:(lia) Hclock) as H.
  destruct (start <? t0)%Z; lia.
Qed.
End window.
