(* ===== verification/Protocol.v ===== *)
(** * The trader WebSocket protocol (internal/api/ws/protocol.go)

    Message actions, error codes, the envelope and the payloads it carries.  An
    inbound envelope holds its payload as raw JSON bytes; an outbound envelope holds
    the value handed to [json.Marshal].  The JSON decoder of the standard library is
    reached through the class [WsJson]: theorems hold for every decoder. *)

From S2P Require Import Prelude GoFloat.

Definition msgTypeRequest : string := "request".
Definition msgTypeEvent : string := "event".
Definition msgTypeResponse : string := "response".
Definition supportedProtocolVersion : string := "1".

Definition actionTraderRegister : string := "trader.register".
Definition actionRegisterAck : string := "trader.register_ack".
Definition actionTraderHeartbeat : string := "trader.heartbeat".
Definition actionHeartbeatAck : string := "trader.heartbeat_ack".
Definition actionLatencyTest : string := "latency.test".
Definition actionLatencyTestResp : string := "latency.test_result".
Definition actionLatencyTestAck : string := "latency.test_result_ack".
Definition actionError : string := "error".

Definition errInvalidMessage : string := "INVALID_MESSAGE".
Definition errInvalidPayload : string := "INVALID_PAYLOAD".
Definition errUnknownAction : string := "UNKNOWN_ACTION".
Definition errDuplicateConnection : string := "DUPLICATE_CONNECTION".
Definition errInternalError : string := "INTERNAL_ERROR".
Definition errUnsupportedVersion : string := "UNSUPPORTED_VERSION".
Definition errRateLimited : string := "RATE_LIMITED".
Definition errDuplicateRequest : string := "DUPLICATE_REQUEST".
Definition errMessageTooLarge : string := "MESSAGE_TOO_LARGE".
Definition errActionFlood : string := "ACTION_FLOOD".

Definition supportedWSErrorCodes : gset string :=
  list_to_set
    [errInvalidMessage; errInvalidPayload; errUnknownAction; errDuplicateConnection;
     errInternalError; errUnsupportedVersion; errRateLimited; errDuplicateRequest;
     errMessageTooLarge; errActionFlood].

Definition isSupportedWSErrorCode (code : string) : bool :=
  bool_decide (code ∈ supportedWSErrorCodes).

(** [uint64] fields and [int64] timestamps are [Z]. *)
Record envelope (P : Type) := mk_envelope {
  Type_ : string;
  Action : string;
  ProtocolVersion : string;
  Seq : Z;
  Ack : Z;
  RequestID : string;
  Payload : P;
  TS : Z
}.
Arguments mk_envelope {P}.
Arguments Type_ {P}.
Arguments Action {P}.
Arguments ProtocolVersion {P}.
Arguments Seq {P}.
Arguments Ack {P}.
Arguments RequestID {P}.
Arguments Payload {P}.
Arguments TS {P}.

#[export] Instance eta_envelope P : Eta (envelope P) := fun e =>
  mk_envelope (Type_ e) (Action e) (ProtocolVersion e) (Seq e) (Ack e) (RequestID e)
    (Payload e) (TS e).

(** A decoded JSON value of static type [interface{}], as far as [numberFromAny]
    tells values apart; [AnyNumber] carries the result of [json.Number.Float64]. *)
Inductive any_value :=
  | AnyFloat64 (f : f64)
  | AnyFloat32 (f : f64)
  | AnyInt (n : Z)
  | AnyInt64 (n : Z)
  | AnyNumber (parsed : option f64)
  | AnyOther.

Record registerRequest := {
  rr_TraderID : string;
  rr_Release : string;
  rr_Region : string;
  rr_Role : string;
  rr_Capabilities : list string;
  rr_CurrentLoad : option (gmap string any_value)
}.

Record ExchangeCatalogEntry := {
  ExchangeID : Z;
  Code : string;
  Name : string;
  Enabled : bool;
  MarketTypes : list string;
  WSPublicEndpoint : string;
  WSPrivateEndpoint : string;
  RESTEndpoint : string;
  RateLimits : gmap string Z
}.

Record registerAck := {
  ra_Status : string;
  ra_TraderID : string;
  ra_SessionID : string;
  ra_SessionTimeoutSec : Z;
  ra_ServerTime : Z
}.

Record heartbeatExchangeStats := { LatencyMS : option f64 }.

Record heartbeatRequest := {
  hr_TraderID : string;
  hr_SessionID : string;
  hr_Status : string;
  hr_LoadIndex : option f64;
  hr_TradeLoadIndex : option f64;
  hr_ExchangeStats : list (string * heartbeatExchangeStats)
}.

Record heartbeatAck := {
  ha_Status : string;
  ha_TraderID : string;
  ha_SessionID : string;
  ha_ServerTime : Z
}.

Record latencyTestRequest := {
  lt_Exchanges : list string;
  lt_Reason : string;
  lt_RequestedAt : Z
}.

Record latencyTestExchangeResult := {
  ler_Exchange : string;
  ler_PingMS : option f64;
  ler_WSLatencyMS : option f64;
  ler_OrderLatencyMS : option f64
}.

Record latencyTestResultRequest := {
  lr_TraderID : string;
  lr_SessionID : string;
  lr_ExchangeStats : list (string * heartbeatExchangeStats);
  lr_Results : list latencyTestExchangeResult;
  lr_Exchange : string;
  lr_PingMS : option f64;
  lr_WSLatencyMS : option f64;
  lr_OrderLatencyMS : option f64
}.

Record latencyTestResultAck := {
  la_Status : string;
  la_TraderID : string;
  la_SessionID : string;
  la_ServerTime : Z
}.

(** The values of [Details map[string]interface{}] the handler sends. *)
Inductive detail :=
  | DStr (s : string)
  | DInt (n : Z).

Record errorPayload := {
  ep_Code : string;
  ep_Message : string;
  ep_Details : list (string * detail)
}.

(** What an outbound envelope marshals as its payload. *)
Inductive out_payload :=
  | PError (e : errorPayload)
  | PRegisterAck (a : registerAck)
  | PHeartbeatAck (a : heartbeatAck)
  | PLatencyTest (r : latencyTestRequest)
  | PLatencyTestAck (a : latencyTestResultAck).

Definition out_envelope := envelope out_payload.

(** [newXxxEnvelope] read the clock for [TS]; the reading is the argument [now]. *)
Definition newErrorEnvelope (now : Z) (requestID code message : string)
    (details : list (string * detail)) : out_envelope :=
  {| Type_ := msgTypeResponse; Action := actionError; ProtocolVersion := "";
     Seq := 0; Ack := 0; RequestID := requestID;
     Payload := PError {| ep_Code := code; ep_Message := message; ep_Details := details |};
     TS := time_unix_milli now |}.

Definition newRegisterAckEnvelope (now : Z) (requestID : string) (ack : registerAck)
    : out_envelope :=
  {| Type_ := msgTypeResponse; Action := actionRegisterAck; ProtocolVersion := "";
     Seq := 0; Ack := 0; RequestID := requestID; Payload := PRegisterAck ack;
     TS := time_unix_milli now |}.

Definition newHeartbeatAckEnvelope (now : Z) (requestID : string) (ack : heartbeatAck)
    : out_envelope :=
  {| Type_ := msgTypeResponse; Action := actionHeartbeatAck; ProtocolVersion := "";
     Seq := 0; Ack := 0; RequestID := requestID; Payload := PHeartbeatAck ack;
     TS := time_unix_milli now |}.

Definition newLatencyTestEnvelope (now : Z) (requestID : string) (req : latencyTestRequest)
    : out_envelope :=
  {| Type_ := msgTypeRequest; Action := actionLatencyTest; ProtocolVersion := "";
     Seq := 0; Ack := 0; RequestID := requestID; Payload := PLatencyTest req;
     TS := time_unix_milli now |}.

Definition newLatencyTestResultAckEnvelope (now : Z) (requestID : string)
    (ack : latencyTestResultAck) : out_envelope :=
  {| Type_ := msgTypeResponse; Action := actionLatencyTestAck; ProtocolVersion := "";
     Seq := 0; Ack := 0; RequestID := requestID; Payload := PLatencyTestAck ack;
     TS := time_unix_milli now |}.

(** [encoding/json.Unmarshal] at the types the handler decodes. *)
Class WsJson := {
  unmarshal_envelope : string -> res (envelope string);
  unmarshal_register : string -> res registerRequest;
  unmarshal_heartbeat : string -> res heartbeatRequest;
  unmarshal_latency_result : string -> res latencyTestResultRequest
}.

(** The code carried by an outbound error, if it is one. *)
Definition out_error_code (e : out_envelope) : option string :=
  match Payload e with PError p => Some (ep_Code p) | _ => None end.
