(* ===== verification/Session.v ===== *)
(** * Session runtime (internal/api/ws/session.go)

    The per-connection session state machine and the classification of read
    errors into disconnect reasons. *)

From S2P Require Import Prelude GoFloat.

Inductive sessionState :=
  | sessionStateConnected
  | sessionStateRegistered
  | sessionStateActive
  | sessionStateTimedOut
  | sessionStateDisconnected.

#[export] Instance sessionState_eq_dec : EqDecision sessionState.
Proof. solve_decision. Defined.

(** [string(session.state)]. *)
Definition sessionState_string (s : sessionState) : string :=
  match s with
  | sessionStateConnected => "connected"
  | sessionStateRegistered => "registered"
  | sessionStateActive => "active"
  | sessionStateTimedOut => "timed_out"
  | sessionStateDisconnected => "disconnected"
  end.

Inductive disconnectReason :=
  | disconnectReasonClientClose
  | disconnectReasonTimeout
  | disconnectReasonServerShutdown
  | disconnectReasonProtocolError
  | disconnectReasonReadError.

Definition disconnectReason_string (r : disconnectReason) : string :=
  match r with
  | disconnectReasonClientClose => "client_close"
  | disconnectReasonTimeout => "timeout"
  | disconnectReasonServerShutdown => "server_shutdown"
  | disconnectReasonProtocolError => "protocol_error"
  | disconnectReasonReadError => "read_error"
  end.

Record sessionRuntime := {
  state : sessionState;
  sessionID : string;
  traderID : string;
  traderDBID : Z;
  traderStatus : string;
  registeredAtMs : Z;
  lastHeartbeatMs : Z;
  timedOutAtMs : Z;
  role : string;
  capabilities : list string;
  effectiveExchs : list string;
  loadIndex : f64;
  tradeLoadIndex : f64;
  latencyProfileMs : f64;
  exchangeLatencies : gmap string f64
}.

#[export] Instance eta_sessionRuntime : Eta sessionRuntime := fun s =>
  {| state := state s; sessionID := sessionID s; traderID := traderID s;
     traderDBID := traderDBID s; traderStatus := traderStatus s;
     registeredAtMs := registeredAtMs s; lastHeartbeatMs := lastHeartbeatMs s;
     timedOutAtMs := timedOutAtMs s; role := role s; capabilities := capabilities s;
     effectiveExchs := effectiveExchs s; loadIndex := loadIndex s;
     tradeLoadIndex := tradeLoadIndex s; latencyProfileMs := latencyProfileMs s;
     exchangeLatencies := exchangeLatencies s |}.

Definition newSessionRuntime (sid : string) : sessionRuntime :=
  {| state := sessionStateConnected; sessionID := sid; traderID := ""; traderDBID := 0;
     traderStatus := ""; registeredAtMs := 0; lastHeartbeatMs := 0; timedOutAtMs := 0;
     role := ""; capabilities := []; effectiveExchs := []; loadIndex := f_zero;
     tradeLoadIndex := f_zero; latencyProfileMs := f_zero; exchangeLatencies := ∅ |}.

Definition markRegistered (tid : string) (nowMs : Z) (s : sessionRuntime) : sessionRuntime :=
  s <| traderID := tid |> <| registeredAtMs := nowMs |> <| state := sessionStateRegistered |>.

Definition setRegistrationInfo (role_ : string) (caps effective : list string) (dbid : Z)
    (status : string) (s : sessionRuntime) : sessionRuntime :=
  s <| role := role_ |> <| capabilities := caps |> <| effectiveExchs := effective |>
    <| traderDBID := dbid |> <| traderStatus := ToLower (TrimSpace status) |>.

Definition markHeartbeat (nowMs : Z) (s : sessionRuntime) : sessionRuntime :=
  s <| lastHeartbeatMs := nowMs |> <| state := sessionStateActive |>.

Definition normalizeUnitRange (v : f64) : f64 :=
  if f_lt v f_zero then f_zero
  else if f_gt v f_one then f_one
  else v.

Definition setTelemetry (load tradeLoad : f64) (s : sessionRuntime) : sessionRuntime :=
  s <| loadIndex := normalizeUnitRange load |>
    <| tradeLoadIndex := normalizeUnitRange tradeLoad |>.

Definition setLatencyProfile (profile : f64) (s : sessionRuntime) : sessionRuntime :=
  s <| latencyProfileMs := if f_lt profile f_zero then f_zero else profile |>.

Definition setExchangeLatencies (latencies : gmap string f64) (s : sessionRuntime)
    : sessionRuntime :=
  if bool_decide (size latencies = 0%nat) then s <| exchangeLatencies := ∅ |>
  else s <| exchangeLatencies := filter (fun kv => f_lt kv.2 f_zero = false) latencies |>.

Definition shouldTimeout (nowMs timeout : Z) (s : sessionRuntime) : bool :=
  if (timeout <=? 0)%Z then false
  else if negb (bool_decide (state s = sessionStateRegistered))
          && negb (bool_decide (state s = sessionStateActive)) then false
  else
    let lastActivityMs :=
      if (lastHeartbeatMs s >? 0)%Z then lastHeartbeatMs s else registeredAtMs s in
    if (lastActivityMs =? 0)%Z then false
    else (wrap64 (nowMs - lastActivityMs) >=? duration_milliseconds timeout)%Z.

(** Returns whether the session was still live, and the new state. *)
Definition markTimedOut (nowMs : Z) (s : sessionRuntime) : bool * sessionRuntime :=
  if bool_decide (state s = sessionStateDisconnected)
     || bool_decide (state s = sessionStateTimedOut)
  then (false, s)
  else (true, s <| state := sessionStateTimedOut |> <| timedOutAtMs := nowMs |>).

Definition markDisconnected (s : sessionRuntime) : sessionRuntime :=
  s <| state := sessionStateDisconnected |>.

(** [websocket.IsCloseError(err, codes...)]: a close error itself, not a wrapped one. *)
Definition IsCloseError (err : go_error) (codes : list Z) : bool :=
  match err with
  | EClose code _ => bool_decide (code ∈ codes)
  | _ => false
  end.

Definition CloseNormalClosure : Z := 1000.
Definition CloseGoingAway : Z := 1001.
Definition CloseNoStatusReceived : Z := 1005.
Definition CloseAbnormalClosure : Z := 1006.
Definition ClosePolicyViolation : Z := 1008.

Definition classifyDisconnectReason (err : option go_error) : disconnectReason :=
  match err with
  | None => disconnectReasonServerShutdown
  | Some err =>
      if IsCloseError err [CloseNormalClosure; CloseGoingAway; CloseNoStatusReceived;
                           CloseAbnormalClosure]
      then disconnectReasonClientClose
      else if str_contains (error_text err) "i/o timeout" then disconnectReasonTimeout
      else if bool_decide (err = ESentinel IoEOF)
              || str_contains (error_text err) "unexpected EOF"
      then disconnectReasonClientClose
      else disconnectReasonReadError
  end.
