(* ===== verification/Conn.v ===== *)
(** * Connection entries (internal/api/ws/handler.go, wsConnectionEntry)

    The per-connection sequence numbers of the reliable message layer and the
    ping/pong bookkeeping.  Every method locks the entry's own mutex for its whole
    body, so each is one atomic transition of the entry. *)

From S2P Require Import Prelude.

(** [conn] is the identity of the websocket connection; [closed] says whether the
    channel of the same name has been closed. *)
Record wsConnectionEntry := {
  ce_sessionID : string;
  ce_traderID : string;
  ce_conn : Z;
  ce_closed : bool;
  seqTrackingEnabled : bool;
  inboundSeq : Z;
  outboundSeq : Z;
  peerAck : Z;
  lastPingAt : Z;
  lastPongAt : Z;
  lastRTT : Z
}.

#[export] Instance eta_wsConnectionEntry : Eta wsConnectionEntry := fun e =>
  {| ce_sessionID := ce_sessionID e; ce_traderID := ce_traderID e; ce_conn := ce_conn e;
     ce_closed := ce_closed e; seqTrackingEnabled := seqTrackingEnabled e;
     inboundSeq := inboundSeq e; outboundSeq := outboundSeq e; peerAck := peerAck e;
     lastPingAt := lastPingAt e; lastPongAt := lastPongAt e; lastRTT := lastRTT e |}.

(** The composite literal of [addConnection]. *)
Definition new_entry (sid : string) (conn : Z) : wsConnectionEntry :=
  {| ce_sessionID := sid; ce_traderID := ""; ce_conn := conn; ce_closed := false;
     seqTrackingEnabled := false; inboundSeq := 0; outboundSeq := 0; peerAck := 0;
     lastPingAt := time_zero; lastPongAt := time_zero; lastRTT := 0 |}.

(** The four results of [observeInboundSeq]. *)
Record seq_verdict := { sv_ok : bool; sv_gap : bool; sv_duplicate : bool; sv_expected : Z }.

Definition observeInboundSeq (seq : Z) (e : wsConnectionEntry)
    : seq_verdict * wsConnectionEntry :=
  if negb (seqTrackingEnabled e) then
    if (seq =? 0)%Z then (Build_seq_verdict true false false 0, e)
    else
      let e := e <| seqTrackingEnabled := true |> in
      let expected := 1%Z in
      if negb (seq =? expected)%Z then (Build_seq_verdict false true false expected, e)
      else (Build_seq_verdict true false false expected, e <| inboundSeq := seq |>)
  else
    let expected := wrapu64 (inboundSeq e + 1) in
    if (seq =? 0)%Z then (Build_seq_verdict false false false expected, e)
    else if (seq =? expected)%Z then
      (Build_seq_verdict true false false expected, e <| inboundSeq := seq |>)
    else if (seq >? expected)%Z then (Build_seq_verdict false true false expected, e)
    else (Build_seq_verdict false false true expected, e).

Definition observePeerAck (ack : Z) (e : wsConnectionEntry) : wsConnectionEntry :=
  if (ack =? 0)%Z then e
  else if (ack >? peerAck e)%Z then e <| peerAck := ack |> else e.

Definition nextOutboundSeqAck (e : wsConnectionEntry) : (Z * Z) * wsConnectionEntry :=
  let e := e <| outboundSeq ::= fun n => wrapu64 (n + 1) |> in
  ((outboundSeq e, inboundSeq e), e).

Definition recordPingSent (now : Z) (e : wsConnectionEntry) : wsConnectionEntry :=
  e <| lastPingAt := now |>.

(** [since] is the clock reading of [time.Since], [now] that of [time.Now]. *)
Definition recordPongReceived (since now : Z) (e : wsConnectionEntry) : wsConnectionEntry :=
  let e := if negb (time_is_zero (lastPingAt e))
           then e <| lastRTT := time_sub since (lastPingAt e) |> else e in
  e <| lastPongAt := now |>.

Definition markClosed (e : wsConnectionEntry) : wsConnectionEntry := e <| ce_closed := true |>.

Record pingSnapshot := { ps_lastPingAt : Z; ps_lastPongAt : Z; ps_lastRTT : Z }.

Definition zeroPingSnapshot : pingSnapshot :=
  {| ps_lastPingAt := time_zero; ps_lastPongAt := time_zero; ps_lastRTT := 0 |}.

Definition entry_pingSnapshot (e : wsConnectionEntry) : pingSnapshot :=
  {| ps_lastPingAt := lastPingAt e; ps_lastPongAt := lastPongAt e; ps_lastRTT := lastRTT e |}.

(** ** Runs of the reliable layer *)

(** The sequence numbers accepted when [seqs] arrive one after the other. *)
Fixpoint observe_run (seqs : list Z) (e : wsConnectionEntry) : list Z * wsConnectionEntry :=
  match seqs with
  | [] => ([], e)
  | s :: seqs' =>
      let '(v, e') := observeInboundSeq s e in
      let '(acc, e'') := observe_run seqs' e' in
      (if sv_ok v then s :: acc else acc, e'')
  end.

(** The sequence numbers given to [n] outbound messages in a row. *)
Fixpoint outbound_run (n : nat) (e : wsConnectionEntry) : list Z * wsConnectionEntry :=
  match n with
  | O => ([], e)
  | S n' =>
      let '((s, _), e') := nextOutboundSeqAck e in
      let '(l, e'') := outbound_run n' e' in (s :: l, e'')
  end.

(** What holds of every entry the handler creates. *)
Record entry_ok (e : wsConnectionEntry) : Prop := {
  eo_inbound : in_uint64 (inboundSeq e);
  eo_outbound : in_uint64 (outboundSeq e);
  eo_peer : in_uint64 (peerAck e);
  eo_untracked : seqTrackingEnabled e = false -> inboundSeq e = 0%Z
}.

Lemma entry_ok_new sid conn : entry_ok (new_entry sid conn).
Proof. split; cbn; ints; done. Qed.

(** The cases of [observeInboundSeq] on a well-formed entry. *)
Inductive observe_case (s : Z) (e : wsConnectionEntry) :
    seq_verdict -> wsConnectionEntry -> Prop :=
  | oc_untracked :
      seqTrackingEnabled e = false -> s = 0%Z ->
      observe_case s e (Build_seq_verdict true false false 0) e
  | oc_next e' :
      s = (inboundSeq e + 1)%Z -> e' = e <| seqTrackingEnabled := true |> <| inboundSeq := s |> ->
      observe_case s e (Build_seq_verdict true false false s) e'
  | oc_gap e' x :
      (inboundSeq e + 1 < s \/ (inboundSeq e = max_uint64 /\ 0 < s))%Z ->
      e' = e <| seqTrackingEnabled := true |> ->
      observe_case s e (Build_seq_verdict false true false x) e'
  | oc_duplicate x :
      seqTrackingEnabled e = true -> (0 < s <= inboundSeq e)%Z ->
      observe_case s e (Build_seq_verdict false false true x) e
  | oc_missing x :
      seqTrackingEnabled e = true -> s = 0%Z ->
      observe_case s e (Build_seq_verdict false false false x) e.

Lemma observeInboundSeq_cases s e v e' :
  entry_ok e -> in_uint64 s -> observeInboundSeq s e = (v, e') ->
  entry_ok e' /\ observe_case s e v e'.
Proof.
  intros [Hi Ho Hp Hu] Hs. unfold observeInboundSeq.
  destruct e as [sid tid c cl tr ib ob pa p1 p2 p3]; cbn in *.
  destruct tr; cbn.
  - destruct (Z.eqb_spec s 0) as [->|Hne]; [intros [= <- <-]|].
    { split; [by split|]. by constructor. }
    destruct (Z.eqb_spec s (wrapu64 (ib + 1))) as [Heq|Hneq]; [intros [= <- <-]|].
    { assert (s = ib + 1)%Z as -> by ints.
      split; [split; cbn; done || ints|]. rewrite <- Heq. by econstructor. }
    rewrite Z.gtb_ltb. destruct (Z.ltb_spec (wrapu64 (ib + 1)) s); intros [= <- <-].
    + split; [by split|]. apply oc_gap; [cbn; ints|done].
    + split; [by split|]. apply oc_duplicate; [done|cbn; ints].
  - rewrite Hu in * by done. destruct (Z.eqb_spec s 0) as [->|Hne]; [intros [= <- <-]|].
    { split; [by split|]. by constructor. }
    destruct (Z.eqb_spec s 1) as [->|]; cbn; intros [= <- <-].
    + split; [split; cbn; done || ints|]. by econstructor.
    + split; [split; cbn; done || ints|]. apply oc_gap; [cbn; ints|done].
Qed.

Lemma observe_run_ok seqs e acc e' :
  entry_ok e -> Forall in_uint64 seqs -> observe_run seqs e = (acc, e') ->
  entry_ok e' /\ (inboundSeq e <= inboundSeq e')%Z /\
  exists k, acc = replicate k 0%Z ++ seqZ (inboundSeq e + 1) (inboundSeq e' - inboundSeq e) /\
    (seqTrackingEnabled e = true -> k = O).
Proof.
  revert e acc. induction seqs as [|s seqs IH]; intros e acc He Hs; cbn.
  { intros [= <- <-]. split_and!; [done|lia|]. exists O. by rewrite Z.sub_diag. }
  inversion Hs as [|? ? Hs1 Hs']; subst.
  destruct (observeInboundSeq s e) as [v e1] eqn:E1.
  destruct (observe_run seqs e1) as [acc1 e2] eqn:E2. intros [= <- <-].
  destruct (observeInboundSeq_cases _ _ _ _ He Hs1 E1) as [He1 Hc].
  destruct (IH e1 acc1 He1 Hs' E2) as (He2 & Hle & k & -> & Hk).
  split; [done|]. destruct Hc as [Ht -> | e1 -> -> | e1 x _ -> | x Ht _ | x Ht ->]; cbn in *.
  - split; [done|]. exists (S k). split; [done|congruence].
  - split; [lia|]. exists O. rewrite Hk by done. split; [|done]. cbn.
    rewrite (seqZ_cons (inboundSeq e + 1)) by lia. f_equal. f_equal; lia.
  - split; [done|]. exists k. by rewrite Hk.
  - split; [done|]. by exists k.
  - split; [done|]. by exists k.
Qed.

(** ** Properties *)

(** C1: whatever numbers a peer sends, in whatever order and with whatever
    repetitions, the numbered messages a connection accepts are exactly
    1, 2, ..., [inboundSeq], in this order and once each; unnumbered messages are
    accepted only before the first numbered one. *)
Theorem inbound_exactly_once (sid : string) (conn : Z) (seqs acc : list Z) (e' : wsConnectionEntry)
    (Hseqs : Forall in_uint64 seqs)
    (Hrun : observe_run seqs (new_entry sid conn) = (acc, e')) :
  exists k, acc = replicate k 0%Z ++ seqZ 1 (inboundSeq e').
Proof.
  destruct (observe_run_ok _ _ _ _ (entry_ok_new sid conn) Hseqs Hrun) as (_ & _ & k & -> & _).
  exists k. cbn. by rewrite Z.sub_0_r.
Qed.

Lemma inbound_exactly_once_witness :
  exists k, [0; 0; 1; 2; 3]%Z = replicate k 0%Z ++ seqZ 1 3.
Proof.
  refine (inbound_exactly_once "s" 7 [0; 0; 1; 1; 2; 0; 2; 1; 3; 9]%Z [0; 0; 1; 2; 3]%Z
    (snd (observe_run [0; 0; 1; 1; 2; 0; 2; 1; 3; 9]%Z (new_entry "s" 7))) _ _).
  - repeat constructor; ints.
  - reflexivity.
Defined.

(** A duplicate or missing number leaves the entry as it was, and a gap changes
    nothing but the fact that numbers are tracked: rejected traffic never moves
    [inboundSeq], the acknowledgement or the outbound numbering. *)
Theorem rejected_seq_is_ignored (s : Z) (e e' : wsConnectionEntry) (v : seq_verdict)
    (He : entry_ok e) (Hs : in_uint64 s)
    (Hobs : observeInboundSeq s e = (v, e')) (Hrej : sv_ok v = false) :
  if sv_gap v then e' = e <| seqTrackingEnabled := true |> /\ s <> (inboundSeq e + 1)%Z
  else e' = e /\ (s <= inboundSeq e)%Z.
Proof.
  destruct (observeInboundSeq_cases _ _ _ _ He Hs Hobs) as [_ Hc]. clear Hobs.
  destruct Hc; cbn in *; try done; subst.
  all: split; [done|]; destruct He; ints.
Qed.

Lemma rejected_seq_is_ignored_witness :
  snd (observeInboundSeq 1 (snd (observe_run [1; 2]%Z (new_entry "s" 7)))) =
    snd (observe_run [1; 2]%Z (new_entry "s" 7)) /\
  (1 <= inboundSeq (snd (observe_run [1; 2]%Z (new_entry "s" 7))))%Z.
Proof.
  refine (rejected_seq_is_ignored 1 (snd (observe_run [1; 2]%Z (new_entry "s" 7)))
    _ (Build_seq_verdict false false true 3) _ _ _ _); try reflexivity; [|ints].
  split; cbn; ints; done.
Defined.

Lemma outbound_run_ok n e :
  in_uint64 (outboundSeq e) ->
  outbound_run n e =
    ((fun k => wrapu64 (outboundSeq e + k)) <$> seqZ 1 (Z.of_nat n),
     e <| outboundSeq ::= fun s => wrapu64 (s + Z.of_nat n) |>).
Proof.
  revert e. induction n as [|n IH]; intros e He.
  { destruct e; unfold field_set; cbn -[Z.add] in *. by rewrite Z.add_0_r, wrapu64_id. }
  cbn [outbound_run nextOutboundSeqAck]. rewrite IH by apply wrapu64_range.
  rewrite (seqZ_cons 1 (Z.of_nat (S n))) by lia.
  destruct e as [? ? ? ? ? ? ob ? ? ? ?]; cbn -[Z.of_nat] in *. f_equal.
  - f_equal. replace (Z.pred (Z.of_nat (S n))) with (Z.of_nat n) by lia.
    replace (Z.succ 1) with (1 + 1)%Z by lia. rewrite <- (fmap_add_seqZ 1 1), <- list_fmap_compose.
    apply list_fmap_ext; intros ? x _; cbn.
    unfold wrapu64. rewrite Zplus_mod_idemp_l. f_equal; lia.
  - unfold field_set; cbn -[Z.of_nat Z.add wrapu64]. f_equal.
    unfold wrapu64. rewrite Zplus_mod_idemp_l. f_equal; lia.
Qed.

(** The outbound messages of a connection carry consecutive numbers from 1 on,
    also when other goroutines send between them, since the counter is advanced in
    one critical section; after 2^64 messages the counter wraps to 0. *)
Theorem outbound_consecutive (n : nat) (sid : string) (conn : Z) :
  fst (outbound_run n (new_entry sid conn)) = wrapu64 <$> seqZ 1 (Z.of_nat n).
Proof. rewrite outbound_run_ok by (cbn; ints). by apply list_fmap_ext. Qed.

(** Acknowledgements. *)
Lemma observePeerAck_max a e :
  (0 <= peerAck e)%Z -> (0 <= a)%Z -> observePeerAck a e = e <| peerAck := (peerAck e `max` a)%Z |>.
Proof.
  intros He Ha. unfold observePeerAck. destruct e as [? ? ? ? ? ? ? pa ? ? ?]; cbn in *.
  destruct (Z.eqb_spec a 0) as [->|]; [by rewrite Z.max_l by lia|].
  rewrite Z.gtb_ltb. destruct (Z.ltb_spec pa a); [rewrite Z.max_r by lia|rewrite Z.max_l by lia]; done.
Qed.

(** The acknowledgement kept for a connection is the largest one its peer has
    sent, so late and repeated acknowledgements never move it back. *)
Theorem peer_ack_is_maximum (acks : list Z) (sid : string) (conn : Z) (Hacks : Forall in_uint64 acks) :
  peerAck (foldl (fun e a => observePeerAck a e) (new_entry sid conn) acks) = foldr Z.max 0%Z acks.
Proof.
  cut (forall e, (0 <= peerAck e)%Z ->
    peerAck (foldl (fun e a => observePeerAck a e) e acks) = (peerAck e `max` foldr Z.max 0 acks)%Z).
  { intros H. rewrite H by done. cbn. clear -Hacks. induction Hacks; cbn; ints. }
  induction Hacks as [|a acks Ha Hacks IH]; intros e He; cbn; [lia|].
  rewrite observePeerAck_max by (done || ints). rewrite IH by (cbn; lia). cbn. lia.
Qed.

Lemma peer_ack_is_maximum_witness :
  peerAck (foldl (fun e a => observePeerAck a e) (new_entry "s" 7) [3; 9; 4]%Z) = 9%Z.
Proof. exact (peer_ack_is_maximum [3; 9; 4]%Z "s" 7 ltac:(repeat constructor; ints)). Defined.
