(* ===== verification/Telemetry.v ===== *)
(** * Registration and telemetry normalisation (internal/api/ws/handler.go)

    The pure functions that turn what a trader sends (role, capabilities, load
    indices, latencies) into the values its session keeps. *)

From S2P Require Import Prelude GoFloat Protocol Session.

Definition defaultAvailableExchanges : list ExchangeCatalogEntry :=
  [{| ExchangeID := 1; Code := "binance"; Name := "Binance"; Enabled := true;
      MarketTypes := ["spot"; "futures"];
      WSPublicEndpoint := "wss://stream.binance.com:9443/ws";
      WSPrivateEndpoint := "wss://stream.binance.com:9443/ws";
      RESTEndpoint := "https://api.binance.com";
      RateLimits := {["public_rps" := 20%Z; "private_rps" := 10%Z]} |};
   {| ExchangeID := 2; Code := "kucoin"; Name := "KuCoin"; Enabled := true;
      MarketTypes := ["spot"; "futures"];
      WSPublicEndpoint := "wss://ws-api.kucoin.com";
      WSPrivateEndpoint := "wss://ws-api.kucoin.com";
      RESTEndpoint := "https://api.kucoin.com";
      RateLimits := {["public_rps" := 15%Z; "private_rps" := 10%Z]} |};
   {| ExchangeID := 3; Code := "bybit"; Name := "Bybit"; Enabled := true;
      MarketTypes := ["spot"; "futures"];
      WSPublicEndpoint := "wss://stream.bybit.com/v5/public";
      WSPrivateEndpoint := "wss://stream.bybit.com/v5/private";
      RESTEndpoint := "https://api.bybit.com";
      RateLimits := {["public_rps" := 20%Z; "private_rps" := 10%Z]} |};
   {| ExchangeID := 4; Code := "okx"; Name := "OKX"; Enabled := true;
      MarketTypes := ["spot"; "futures"];
      WSPublicEndpoint := "wss://ws.okx.com:8443/ws/v5/public";
      WSPrivateEndpoint := "wss://ws.okx.com:8443/ws/v5/private";
      RESTEndpoint := "https://www.okx.com";
      RateLimits := {["public_rps" := 20%Z; "private_rps" := 10%Z]} |}].

Definition normalizeTraderRole (role : string) : string :=
  let normalized := ToLower (TrimSpace role) in
  if (normalized =s "monitor") || (normalized =s "trade") || (normalized =s "both")
  then normalized else "both".

Definition str_take (n : nat) (s : string) : string := String.substring 0 n s.

Definition client_suffix : string := "-cts-client".

Definition normalizeTraderIDForProtocol (traderID : string) : string :=
  let norm := TrimSpace traderID in
  if str_empty norm then ""
  else
    let lowerNorm := ToLower norm in
    if HasSuffix lowerNorm client_suffix && (str_len client_suffix <? str_len norm)%Z
    then TrimSpace (str_take (String.length norm - String.length client_suffix) norm)
    else norm.

Definition normalizeCapabilities (capabilities : list string) : list string :=
  match capabilities with
  | [] => []
  | _ => collect_unique (fun item => ToLower (TrimSpace item)) ∅ capabilities
  end.

(** The first loop of [buildEffectiveExchanges]: codes in catalog order. *)
Fixpoint enabled_codes (available : list ExchangeCatalogEntry) : list string :=
  match available with
  | [] => []
  | ex :: rest =>
      if negb (Enabled ex) then enabled_codes rest
      else
        let code := ToLower (TrimSpace (Code ex)) in
        if str_empty code then enabled_codes rest else code :: enabled_codes rest
  end.

Definition buildEffectiveExchanges (capabilities : list string)
    (available : list ExchangeCatalogEntry) : list string :=
  let enabledCodes := enabled_codes available in
  let enabledSet : gset string := list_to_set enabledCodes in
  match capabilities with
  | [] => enabledCodes
  | _ => filter (fun capability => capability ∈ enabledSet) capabilities
  end.

(** A missing key reads as a nil interface, which takes the default branch. *)
Definition numberFromAny (v : option any_value) : option f64 :=
  match v with
  | Some (AnyFloat64 f) => Some f
  | Some (AnyFloat32 f) => Some f
  | Some (AnyInt n) | Some (AnyInt64 n) => Some (f_of_Z n)
  | Some (AnyNumber parsed) => parsed
  | Some AnyOther | None => None
  end.

Definition extractCurrentLoadIndices (currentLoad : option (gmap string any_value)) : f64 * f64 :=
  match currentLoad with
  | None => (f_zero, f_zero)
  | Some m =>
      let load := match numberFromAny (m !! "load_index") with
                  | Some v => normalizeUnitRange v | None => f_zero end in
      let tradeLoad := match numberFromAny (m !! "trade_load_index") with
                       | Some v => normalizeUnitRange v | None => f_zero end in
      if f_eq tradeLoad f_zero && f_gt load f_zero then (load, load) else (load, tradeLoad)
  end.

(** The body of the loop of [extractLatencyMap]; [exchangeStats] lists the entries
    of the Go map in the order the loop visits them. *)
Definition latency_entry (m : gmap string f64) (kv : string * heartbeatExchangeStats)
    : gmap string f64 :=
  match LatencyMS kv.2 with
  | None => m
  | Some latency =>
      if f_lt latency f_zero then m
      else
        let normExchange := ToLower (TrimSpace kv.1) in
        if str_empty normExchange then m else <[normExchange := latency]> m
  end.

Definition extractLatencyMap (exchangeStats : list (string * heartbeatExchangeStats))
    : gmap string f64 := foldl latency_entry ∅ exchangeStats.

(** The 95th percentile index: [int(math.Ceil(0.95*float64(n))) - 1], clamped. *)
Definition p95_index (n : nat) : nat :=
  let idx95 := (f_to_int64 (f_ceil (f_mul (f_lit 95 100) (f_of_Z (Z.of_nat n)))) - 1)%Z in
  let idx95 := if (idx95 <? 0)%Z then 0%Z else idx95 in
  let idx95 := if (Z.of_nat n <=? idx95)%Z then (Z.of_nat n - 1)%Z else idx95 in
  Z.to_nat idx95.

Definition in_exchange_filter (effectiveExchanges : list string) (exchange : string) : bool :=
  let flt : gset string :=
    list_to_set ((fun ex => ToLower (TrimSpace ex)) <$> effectiveExchanges) in
  bool_decide (flt = ∅) || bool_decide (ToLower (TrimSpace exchange) ∈ flt).

Definition filtered_latencies (latenciesMap : gmap string f64) (effectiveExchanges : list string)
    : list f64 :=
  snd <$> filter (fun kv => in_exchange_filter effectiveExchanges kv.1 = true)
            (map_to_list latenciesMap).

(** The profile of a non-empty list of sorted latencies. *)
Definition latency_profile (sorted : list f64) (effectiveExchanges : list string) : f64 :=
  let n := length sorted in
  let maxLatency := nth (n - 1) sorted f_zero in
  let p95 := nth (p95_index n) sorted f_zero in
  let spread := f_sub maxLatency (nth 0 sorted f_zero) in
  let profile := f_add p95 (f_mul (f_lit 10 100) spread) in
  match effectiveExchanges with
  | [] => profile
  | _ =>
      let coveragePenalty :=
        f_mul (f_of_Z (Z.of_nat (length effectiveExchanges) - Z.of_nat n)) (f_of_Z 300) in
      if f_gt coveragePenalty f_zero then f_add profile coveragePenalty else profile
  end.

Definition buildLatencyProfileFromLatencyMap (latenciesMap : gmap string f64)
    (effectiveExchanges : list string) : option f64 :=
  if bool_decide (latenciesMap = ∅) then None
  else
    match filtered_latencies latenciesMap effectiveExchanges with
    | [] => None
    | latencies => Some (latency_profile (sort_floats latencies) effectiveExchanges)
    end.

Definition buildLatencyProfileFromExchangeStats
    (exchangeStats : list (string * heartbeatExchangeStats)) (effectiveExchanges : list string)
    : option f64 :=
  let latencies := extractLatencyMap exchangeStats in
  if bool_decide (latencies = ∅) then None
  else buildLatencyProfileFromLatencyMap latencies effectiveExchanges.

Definition normalizeExchangeList (exchanges : list string) : list string :=
  match exchanges with
  | [] => []
  | _ => collect_unique (fun exchange => ToLower (TrimSpace exchange)) ∅ exchanges
  end.

Fixpoint first_latency (alternatives : list (option f64)) : option f64 :=
  match alternatives with
  | [] => None
  | None :: rest => first_latency rest
  | Some item :: rest => if f_lt item f_zero then first_latency rest else Some item
  end.

Definition selectLatencyValue (primary : option f64) (alternatives : list (option f64))
    : option f64 :=
  match primary with
  | Some p => if f_ge p f_zero then Some p else first_latency alternatives
  | None => first_latency alternatives
  end.

(** One entry of a latency result, stored under its normalised exchange code. *)
Definition record_latency (ex : string) (ws_ ping order : option f64) (m : gmap string f64)
    : gmap string f64 :=
  let ex := ToLower (TrimSpace ex) in
  if str_empty ex then m
  else match selectLatencyValue ws_ [ping; order] with
       | Some latency => <[ex := latency]> m
       | None => m
       end.

Definition mapLatencyResults (req : latencyTestResultRequest) : gmap string f64 :=
  let latencies :=
    record_latency (lr_Exchange req) (lr_WSLatencyMS req) (lr_PingMS req) (lr_OrderLatencyMS req) ∅ in
  foldl (fun m item =>
           record_latency (ler_Exchange item) (ler_WSLatencyMS item) (ler_PingMS item)
             (ler_OrderLatencyMS item) m)
    latencies (lr_Results req).

(** ** Lemmas *)

Lemma substring_nonempty c s n : (0 < n)%nat -> str_take n (String c s) = String c (str_take (n - 1) s).
Proof. intros ?. destruct n; [lia|]. unfold str_take. cbn. by rewrite Nat.sub_0_r. Qed.

Lemma trim_left_head c s : byte_space c = false -> trim_left (String c s) = String c s.
Proof. intros H. cbn. by rewrite H. Qed.

Lemma trim_left_fixed s : trim_left s = s -> s = "" \/ exists c s', s = String c s' /\ byte_space c = false.
Proof.
  destruct s as [|c s]; cbn; [by left|]. destruct (byte_space c) eqn:E; [|eauto].
  intros H. exfalso.
  assert (forall t, (String.length (trim_left t) <= String.length t)%nat) as Hlen.
  { induction t as [|d t IH]; cbn; [done|]. destruct (byte_space d); cbn; lia. }
  specialize (Hlen s). rewrite H in Hlen. cbn in Hlen. lia.
Qed.

Lemma trim_right_nonempty c s : byte_space c = false -> trim_right (String c s) <> "".
Proof. intros H. cbn. destruct (trim_right s); [by rewrite H|done]. Qed.

Lemma TrimSpace_nonempty c s : byte_space c = false -> TrimSpace (String c s) <> "".
Proof. intros H. unfold TrimSpace. rewrite trim_left_head by done. by apply trim_right_nonempty. Qed.

Lemma TrimSpace_head s : TrimSpace s = "" \/ exists c s', TrimSpace s = String c s' /\ byte_space c = false.
Proof. unfold TrimSpace. apply trim_left_fixed, trim_left_trim_right. Qed.

(** A certificate name that is not blank yields a non-empty protocol id. *)
Lemma normalizeTraderIDForProtocol_nonempty s :
  TrimSpace s <> "" -> normalizeTraderIDForProtocol s <> "".
Proof.
  intros Hne. unfold normalizeTraderIDForProtocol.
  rewrite (proj2 (str_empty_false _) Hne).
  destruct (HasSuffix _ _ && _) eqn:E; [|done].
  apply andb_true_iff in E as [_ E]. apply Z.ltb_lt in E. unfold str_len in E.
  destruct (TrimSpace_head s) as [|(c & s' & Hs & Hc)]; [done|].
  rewrite Hs in *. rewrite substring_nonempty by lia. by apply TrimSpace_nonempty.
Qed.

Lemma normalizeTraderIDForProtocol_blank s :
  TrimSpace s = "" -> normalizeTraderIDForProtocol s = "".
Proof. intros H. unfold normalizeTraderIDForProtocol. by rewrite H. Qed.

Lemma elem_of_enabled_codes available code :
  code ∈ enabled_codes available <->
  code <> "" /\ exists ex, ex ∈ available /\ Enabled ex = true /\ norm_token (Code ex) = code.
Proof.
  induction available as [|ex rest IH]; cbn; [set_solver|]. unfold norm_token in *.
  destruct (Enabled ex) eqn:E; cbn.
  - destruct (str_empty (ToLower (TrimSpace (Code ex)))) eqn:Ec; autorewrite with cts_norm in Ec.
    + rewrite IH. set_solver.
    + rewrite elem_of_cons, IH. set_solver.
  - rewrite IH. split; [set_solver|].
    intros (? & ex' & [->|]%elem_of_cons & ? & ?); [congruence|]. set_solver.
Qed.

Lemma elem_of_normalizeCapabilities caps c :
  c ∈ normalizeCapabilities caps <-> c <> "" /\ exists x, x ∈ caps /\ norm_token x = c.
Proof.
  destruct caps as [|x caps]; [cbn; set_solver|].
  unfold normalizeCapabilities. rewrite elem_of_collect_unique. set_solver.
Qed.

Lemma NoDup_normalizeCapabilities caps : NoDup (normalizeCapabilities caps).
Proof. destruct caps; [constructor|apply NoDup_collect_unique]. Qed.

Lemma latency_entry_cases m kv :
  latency_entry m kv = m \/
  exists v, LatencyMS kv.2 = Some v /\ f_lt v f_zero = false /\ norm_token kv.1 <> "" /\
    latency_entry m kv = <[norm_token kv.1 := v]> m.
Proof.
  unfold latency_entry, norm_token. destruct (LatencyMS kv.2) as [v|]; [|by left].
  destruct (f_lt v f_zero) eqn:E; [by left|].
  destruct (str_empty _) eqn:Ee; [by left|].
  autorewrite with cts_norm in Ee. right. by exists v.
Qed.

(** What every map of latencies satisfies before it is stored in a session. *)
Definition latencies_ok (m : gmap string f64) : Prop :=
  map_Forall (fun k v => k <> "" /\ norm_token k = k /\ f_lt v f_zero = false) m.

Lemma latencies_ok_insert m k v :
  latencies_ok m -> norm_token k <> "" -> f_lt v f_zero = false ->
  latencies_ok (<[norm_token k := v]> m).
Proof. intros Hm ? ?. apply map_Forall_insert_2; [|done]. by rewrite norm_token_idem. Qed.

Lemma extractLatencyMap_ok stats : latencies_ok (extractLatencyMap stats).
Proof.
  unfold extractLatencyMap. cut (forall m, latencies_ok m -> latencies_ok (foldl latency_entry m stats)).
  { intros H. apply H, map_Forall_empty. }
  induction stats as [|kv stats IH]; intros m Hm; cbn; [done|]. apply IH.
  destruct (latency_entry_cases m kv) as [->|(v & _ & ? & ? & ->)]; [done|].
  by apply latencies_ok_insert.
Qed.

Lemma first_latency_not_neg l v : first_latency l = Some v -> f_lt v f_zero = false.
Proof.
  induction l as [|[x|] l IH]; cbn; [done| |done].
  destruct (f_lt x f_zero) eqn:E; [done|]. by intros [= <-].
Qed.

Lemma selectLatencyValue_not_neg p l v : selectLatencyValue p l = Some v -> f_lt v f_zero = false.
Proof.
  destruct p as [p|]; cbn; [|apply first_latency_not_neg].
  destruct (f_ge p f_zero) eqn:E; [|apply first_latency_not_neg].
  intros [= <-]. unfold f_ge in E. rewrite f_le_true in E.
  destruct E as (? & ? & ?). by apply f_lt_false.
Qed.

Lemma record_latency_ok ex w p o m :
  latencies_ok m -> latencies_ok (record_latency ex w p o m).
Proof.
  intros Hm. unfold record_latency. change (ToLower (TrimSpace ex)) with (norm_token ex).
  destruct (str_empty _) eqn:E; [done|]. autorewrite with cts_norm in E.
  destruct (selectLatencyValue w [p; o]) as [v|] eqn:Es; [|done].
  apply latencies_ok_insert; [done..|]. by eapply selectLatencyValue_not_neg.
Qed.

Lemma mapLatencyResults_ok req : latencies_ok (mapLatencyResults req).
Proof.
  unfold mapLatencyResults. generalize (record_latency_ok (lr_Exchange req) (lr_WSLatencyMS req)
    (lr_PingMS req) (lr_OrderLatencyMS req) ∅ (map_Forall_empty _)).
  generalize (record_latency (lr_Exchange req) (lr_WSLatencyMS req)
    (lr_PingMS req) (lr_OrderLatencyMS req) ∅).
  induction (lr_Results req) as [|x l IH]; intros m Hm; cbn; [done|].
  by apply IH, record_latency_ok.
Qed.

#[export] Hint Resolve extractLatencyMap_ok mapLatencyResults_ok : cts.

Lemma normalizeUnitRange_range v :
  not_nan v -> f_lt (normalizeUnitRange v) f_zero = false /\ f_lt f_one (normalizeUnitRange v) = false.
Proof.
  intros Hv. unfold normalizeUnitRange, f_gt.
  destruct (f_lt v f_zero) eqn:E1; [by vm_compute|].
  destruct (f_lt f_one v) eqn:E2; [by vm_compute|]. done.
Qed.

(** ** Properties *)

(** The exchanges a session may use are exactly the enabled catalog codes,
    restricted to the requested capabilities when at least one of these is not
    blank; spelling, case and repetition of the request do not matter. *)
Theorem effective_exchanges_spec (caps : list string) (available : list ExchangeCatalogEntry)
    (code : string) :
  code ∈ buildEffectiveExchanges (normalizeCapabilities caps) available <->
  code <> "" /\
  (exists ex, ex ∈ available /\ Enabled ex = true /\ norm_token (Code ex) = code) /\
  ((forall c, c ∈ caps -> norm_token c = "") \/ exists c, c ∈ caps /\ norm_token c = code).
Proof.
  assert (forall c, c ∈ normalizeCapabilities caps <-> c <> "" /\ exists x, x ∈ caps /\ norm_token x = c)
    as Hn by apply elem_of_normalizeCapabilities.
  unfold buildEffectiveExchanges. destruct (normalizeCapabilities caps) as [|n l] eqn:E.
  - rewrite elem_of_enabled_codes. split; [|tauto]. intros [Hc Hex]. split_and!; [done..|].
    left. intros c Hc'. apply dec_stable. intros Hne.
    apply (not_elem_of_nil (norm_token c)), Hn. eauto.
  - rewrite list_elem_of_filter, elem_of_list_to_set, elem_of_enabled_codes, Hn.
    destruct (proj1 (Hn n)) as (Hne & x & Hx & Hxn); [set_solver|].
    split; [tauto|]. intros (Hc & Hex & [Hb|Hr]); [|tauto].
    exfalso. apply Hne. rewrite <- Hxn. by apply Hb.
Qed.

Lemma latency_entry_comm m a b :
  norm_token a.1 <> norm_token b.1 ->
  latency_entry (latency_entry m a) b = latency_entry (latency_entry m b) a.
Proof.
  intros Hne. unfold latency_entry. unfold norm_token in Hne.
  destruct (LatencyMS a.2) as [va|], (LatencyMS b.2) as [vb|]; try done.
  destruct (f_lt va f_zero), (f_lt vb f_zero); try done.
  destruct (str_empty (ToLower (TrimSpace a.1))), (str_empty (ToLower (TrimSpace b.1)));
    try done.
  by apply insert_insert_ne.
Qed.

(** Go visits the entries of [exchange_stats] in an unspecified order; as long
    as no two of its keys are spellings of the same exchange, the latencies that
    reach the session do not depend on this order. *)
Theorem latency_map_order_irrelevant (stats1 stats2 : list (string * heartbeatExchangeStats))
    (Hperm : stats1 ≡ₚ stats2)
    (Hcodes : NoDup ((fun kv => norm_token kv.1) <$> stats1)) :
  extractLatencyMap stats1 = extractLatencyMap stats2.
Proof.
  unfold extractLatencyMap. generalize (∅ : gmap string f64).
  induction Hperm as [|a l1 l2 Hp IH|a b l|l1 l2 l3 H12 IH1 H23 IH2]; intros m; cbn in *.
  - done.
  - apply NoDup_cons in Hcodes as [_ ?]. auto.
  - rewrite latency_entry_comm; [done|]. apply NoDup_cons in Hcodes as [Hn _]. set_solver.
  - rewrite IH1 by done. apply IH2. by rewrite <- H12.
Qed.

Lemma latency_map_order_irrelevant_witness :
  extractLatencyMap [("Binance", {| LatencyMS := Some f_one |}); ("okx ", {| LatencyMS := Some f_zero |})] =
  extractLatencyMap [("okx ", {| LatencyMS := Some f_zero |}); ("Binance", {| LatencyMS := Some f_one |})].
Proof.
  refine (latency_map_order_irrelevant _ _ _ _).
  - apply perm_swap.
  - apply (bool_decide_unpack _). vm_compute. exact I.
Defined.

(** For every number of latencies up to 1000 the floating-point index of the
    95th percentile is the exact one, [ceil(95 n / 100) - 1]; it is always in
    bounds, and up to nineteen exchanges it selects the largest latency. *)
Theorem p95_index_exact (n : nat) (Hn : (1 <= n <= 1000)%nat) :
  p95_index n = ((95 * n + 99) / 100 - 1)%nat /\ (p95_index n < n)%nat /\
  ((n <= 19)%nat -> p95_index n = (n - 1)%nat).
Proof.
  assert (forallb (fun n => (p95_index n =? (95 * n + 99) / 100 - 1)%nat && (p95_index n <? n)%nat
    && (negb (n <=? 19)%nat || (p95_index n =? n - 1)%nat)) (seq 1 1000) = true) as H
    by (vm_compute; reflexivity).
  rewrite forallb_forall in H. specialize (H n).
  rewrite in_seq in H. specialize (H ltac:(lia)).
  rewrite !andb_true_iff, orb_true_iff, negb_true_iff in H.
  destruct H as [[H1 H2] H3]. apply Nat.eqb_eq in H1. apply Nat.ltb_lt in H2.
  split_and!; [done..|]. intros Hle. destruct H3 as [H3|H3]; [|by apply Nat.eqb_eq in H3].
  apply Nat.leb_gt in H3. lia.
Qed.

Lemma p95_index_exact_witness : p95_index 40 = 37%nat /\ (p95_index 40 < 40)%nat /\ ((40 <= 19)%nat -> p95_index 40 = 39%nat).
Proof. exact (p95_index_exact 40 ltac:(lia)). Defined.
