(* ===== verification/Auth.v ===== *)
(** * Client certificate authorisation (internal/api/ws/handler.go)

    The allow lists and the check [Serve] makes before it upgrades a connection. *)

From S2P Require Import Prelude.

Record certificate := {
  CommonName : string;
  OrganizationalUnit : list string;
  DNSNames : list string
}.

(** The part of [http.Request] the check reads: [None] when [r.TLS] is nil, else the
    peer certificates, leaf first. *)
Record http_request := { TLS : option (list certificate) }.

Definition normalizeAllowedValue (value : string) : string := ToLower (TrimSpace value).

(** A nil map and an empty map behave alike: every reader tests the length. *)
Definition normalizeAllowedValues (values : list string) : gset string :=
  list_to_set (filter (fun norm => str_empty norm = false) (normalizeAllowedValue <$> values)).

Definition matchesAllowedValue (value : string) (allowed : gset string) : bool :=
  if bool_decide (allowed = ∅) then true
  else bool_decide (normalizeAllowedValue value ∈ allowed).

Definition matchesAllowedValues (values : list string) (allowed : gset string) : bool :=
  if bool_decide (allowed = ∅) then true
  else existsb (fun value => bool_decide (normalizeAllowedValue value ∈ allowed)) values.

Record auth_config := {
  requireClientCert : bool;
  allowedCNs : gset string;
  allowedOUs : gset string;
  allowedDNSNames : gset string
}.

(** [inl tt] accepts; [inr reason] is the rejection and its reason. *)
Definition authorizeWSClientCertificate (h : auth_config) (r : http_request) : unit + string :=
  if negb (requireClientCert h) then inl tt
  else match TLS r with
  | None => inr "tls_required"
  | Some [] => inr "client_cert_missing"
  | Some (cert :: _) =>
      if negb (bool_decide (allowedCNs h = ∅))
         && negb (matchesAllowedValue (CommonName cert) (allowedCNs h))
      then inr "client_cert_cn_not_allowed"
      else if negb (bool_decide (allowedOUs h = ∅))
         && negb (matchesAllowedValues (OrganizationalUnit cert) (allowedOUs h))
      then inr "client_cert_ou_not_allowed"
      else if negb (bool_decide (allowedDNSNames h = ∅))
         && negb (matchesAllowedValues (DNSNames cert) (allowedDNSNames h))
      then inr "client_cert_dns_not_allowed"
      else inl tt
  end.

Definition extractClientCertificateCN (r : http_request) : string :=
  match TLS r with
  | Some (cert :: _) => TrimSpace (CommonName cert)
  | _ => ""
  end.

(** ** Specification *)

(** [names] meets the allow list [values] of the options: the list has no usable
    entry, or one of its entries equals one of [names] up to case and surrounding
    space. *)
Definition meets_allow_list (values names : list string) : Prop :=
  (forall v, v ∈ values -> norm_token v = "") \/
  exists v name, v ∈ values /\ name ∈ names /\ norm_token v = norm_token name /\ norm_token v <> "".

Lemma elem_of_normalizeAllowedValues values x :
  x ∈ normalizeAllowedValues values <-> x <> "" /\ exists v, v ∈ values /\ norm_token v = x.
Proof.
  unfold normalizeAllowedValues. rewrite elem_of_list_to_set, list_elem_of_filter, list_elem_of_fmap.
  rewrite str_empty_false. unfold normalizeAllowedValue, norm_token. naive_solver.
Qed.

Lemma normalizeAllowedValues_empty values :
  normalizeAllowedValues values = ∅ <-> forall v, v ∈ values -> norm_token v = "".
Proof.
  split.
  - intros He v Hv. apply dec_stable. intros Hne.
    assert (norm_token v ∈ normalizeAllowedValues values) as H.
    { apply elem_of_normalizeAllowedValues. eauto. }
    rewrite He in H. set_solver.
  - intros Hv. apply set_eq. intros x. rewrite elem_of_normalizeAllowedValues. set_solver.
Qed.

Lemma matchesAllowedValues_spec names values :
  negb (bool_decide (normalizeAllowedValues values = ∅))
    && negb (matchesAllowedValues names (normalizeAllowedValues values)) = false <->
  meets_allow_list values names.
Proof.
  unfold matchesAllowedValues, meets_allow_list. rewrite <- normalizeAllowedValues_empty.
  case_bool_decide as E; cbn; [naive_solver|].
  rewrite negb_false_iff, existsb_exists. split.
  - intros (x & Hx & Hb). apply bool_decide_eq_true in Hb.
    apply elem_of_normalizeAllowedValues in Hb as (Hne & v & Hv & Hvx).
    right. exists v, x. apply list_elem_of_In in Hx. unfold normalizeAllowedValue in *.
    split_and!; try done. by rewrite Hvx.
  - intros [?|(v & name & Hv & Hname & Heq & Hne)]; [done|].
    exists name. rewrite <- list_elem_of_In. split; [done|]. apply bool_decide_eq_true.
    apply elem_of_normalizeAllowedValues. unfold normalizeAllowedValue.
    fold (norm_token name). rewrite <- Heq. eauto.
Qed.

Lemma matchesAllowedValue_singleton name allowed :
  matchesAllowedValue name allowed = matchesAllowedValues [name] allowed.
Proof. unfold matchesAllowedValue, matchesAllowedValues. cbn. by rewrite orb_false_r. Qed.

(** The allow lists as [NewHandlerWithOptions] prepares them. *)
Definition auth_of_options (require : bool) (cns ous dns : list string) : auth_config :=
  {| requireClientCert := require; allowedCNs := normalizeAllowedValues cns;
     allowedOUs := normalizeAllowedValues ous; allowedDNSNames := normalizeAllowedValues dns |}.

(** ** Properties *)

(** C8: with certificates required, a request is accepted exactly when it comes
    over TLS with a client certificate whose common name, units and DNS names meet
    the three configured allow lists; lists without usable entries admit everyone,
    and only the leaf certificate counts. *)
Theorem authorize_spec (cns ous dns : list string) (r : http_request) :
  authorizeWSClientCertificate (auth_of_options true cns ous dns) r = inl tt <->
  exists cert chain, TLS r = Some (cert :: chain) /\
    meets_allow_list cns [CommonName cert] /\
    meets_allow_list ous (OrganizationalUnit cert) /\
    meets_allow_list dns (DNSNames cert).
Proof.
  unfold authorizeWSClientCertificate. cbn.
  destruct (TLS r) as [[|cert chain]|]; [naive_solver| |naive_solver].
  rewrite matchesAllowedValue_singleton.
  transitivity (meets_allow_list cns [CommonName cert] /\
    meets_allow_list ous (OrganizationalUnit cert) /\ meets_allow_list dns (DNSNames cert));
    [|naive_solver].
  rewrite <- !matchesAllowedValues_spec.
  destruct (_ && _); [naive_solver|]. destruct (_ && _); [naive_solver|].
  destruct (_ && _); naive_solver.
Qed.
