(* ===== verification/StateM.v ===== *)
(** * State-passing programs and their program logic

    A handler is a function from the state it shares with its environment to a
    result and the new state.  Two judgements cover the proofs about such programs:
    [steps R m] (every run of [m] moves the state along the preorder [R]) and
    [triple P m Q] (from a state in [P], the result and the new state satisfy [Q]).
    Both come with one lemma per construct; the tactic [steps_auto] applies the
    first family along the structure of a program. *)

From S2P Require Import Prelude.

Definition st (W A : Type) : Type := W -> A * W.

#[export] Instance st_ret W : MRet (st W) := fun A a w => (a, w).
#[export] Instance st_bind W : MBind (st W) := fun A B f m w => let '(a, w') := m w in f a w'.

Definition gets {W A} (f : W -> A) : st W A := fun w => (f w, w).
Definition modify {W} (f : W -> W) : st W unit := fun w => (tt, f w).
Definition when {W} (b : bool) (m : st W unit) : st W unit := if b then m else mret tt.

Definition steps {W A} (R : W -> W -> Prop) (m : st W A) : Prop := forall w, R w (m w).2.

Definition triple {W A} (P : W -> Prop) (m : st W A) (Q : A -> W -> Prop) : Prop :=
  forall w, P w -> Q (m w).1 (m w).2.

Section steps.
Context {W : Type} (R : W -> W -> Prop) `{!PreOrder R}.

Lemma steps_ret {A} (a : A) : steps R (mret a).
Proof. intros w. reflexivity. Qed.

Lemma steps_bind {A B} (m : st W A) (f : A -> st W B) :
  steps R m -> (forall a, steps R (f a)) -> steps R (m ≫= f).
Proof.
  intros Hm Hf w. specialize (Hm w). cbn. unfold mbind, st_bind.
  destruct (m w) as [a w']; cbn in *. etransitivity; [done|apply Hf].
Qed.

Lemma steps_gets {A} (f : W -> A) : steps R (gets f).
Proof. intros w. reflexivity. Qed.

Lemma steps_modify (f : W -> W) : (forall w, R w (f w)) -> steps R (modify f).
Proof. intros H w. apply H. Qed.

Lemma steps_when b (m : st W unit) : steps R m -> steps R (when b m).
Proof. destruct b; cbn; [done|]. intros _. apply steps_ret. Qed.
End steps.

(** Reading the state first gives the rest of the program what was read. *)
Lemma steps_gets_bind {W A B} (R : W -> W -> Prop) (f : W -> A) (k : A -> st W B) :
  (forall w, R w (k (f w) w).2) -> steps R (gets f ≫= k).
Proof. intros H w. apply H. Qed.

(** A program that uses what it reads first in its own next step. *)
Lemma steps_read_bind {W A B C} (R : W -> W -> Prop) `{!PreOrder R} (f : W -> A) (m : A -> st W B)
    (k : A -> B -> st W C) :
  steps R (gets f ≫= m) -> (forall a b, steps R (k a b)) ->
  steps R (gets f ≫= fun a => m a ≫= k a).
Proof.
  intros Hm Hk w. specialize (Hm w). unfold mbind, st_bind, gets in *. cbn in *.
  destruct (m (f w) w) as [b w']; cbn in *. etransitivity; [exact Hm|apply Hk].
Qed.

Section triple.
Context {W : Type}.

Lemma triple_ret {A} (a : A) (Q : A -> W -> Prop) : triple (Q a) (mret a) Q.
Proof. by intros w Hw. Qed.

Lemma triple_bind {A B} P (m : st W A) (f : A -> st W B) (Q : A -> W -> Prop) R :
  triple P m Q -> (forall a, triple (Q a) (f a) R) -> triple P (m ≫= f) R.
Proof.
  intros Hm Hf w Hw. specialize (Hm w Hw). unfold mbind, st_bind.
  destruct (m w) as [a w']; cbn in *. by apply (Hf a).
Qed.

Lemma triple_weaken {A} (P P' : W -> Prop) (m : st W A) (Q Q' : A -> W -> Prop) :
  triple P' m Q' -> (forall w, P w -> P' w) -> (forall a w, Q' a w -> Q a w) -> triple P m Q.
Proof. intros Hm HP HQ w Hw. apply HQ, Hm, HP, Hw. Qed.

Lemma triple_steps {A} (R : W -> W -> Prop) P (m : st W A) :
  steps R m -> triple P m (fun _ w => exists w0, P w0 /\ R w0 w).
Proof. intros Hm w Hw. exists w. split; [done|apply Hm]. Qed.
End triple.

(** The preorder that keeps an invariant, and the one that keeps a view of the state. *)
Definition keeps {W} (I : W -> Prop) (w w' : W) : Prop := I w -> I w'.
Definition same {W V} (view : W -> V) (w w' : W) : Prop := view w' = view w.

#[export] Instance keeps_preorder {W} (I : W -> Prop) : PreOrder (keeps I).
Proof. split; [by intros ??|]. intros a b c H1 H2 ?. by apply H2, H1. Qed.
#[export] Instance same_preorder {W V} (view : W -> V) : PreOrder (same view).
Proof. split; [done|]. intros a b c. unfold same. congruence. Qed.

Create HintDb steps discriminated.
#[export] Hint Resolve steps_ret steps_gets : steps.

(** Walk along a program: constants are closed by the hints, binds, conditionals
    and matches are split, and what is left are the primitive updates. *)
Ltac steps_step :=
  lazymatch goal with
  | |- steps ?R (mret _) => apply (steps_ret R)
  | |- steps ?R (gets _) => apply (steps_gets R)
  | |- steps ?R (when _ _) => apply (steps_when R)
  | |- steps ?R (_ ≫= _) => apply (steps_bind R); [|intros ?]
  | |- steps _ (match ?x with _ => _ end) => destruct x
  | |- steps _ _ => solve [eauto with steps typeclass_instances]
  end.
Ltac steps_auto := repeat (cbv zeta; steps_step).
