(* ===== verification/Interfaces.v ===== *)
(** * Interfaces of the WebSocket handler (internal/api/ws/handler.go)

    The handler reaches the trader database and the runtime state file through Go
    interfaces.  Each is a class here: the handler's theorems hold for every
    instance; Persistence.v and StateManager.v provide the program's own ones. *)

From S2P Require Import Prelude Protocol.

Record SessionCreateInput := {
  sci_TraderID : Z;
  sci_SessionID : string;
  sci_WSConnectionID : string;
  sci_IPAddress : string;
  sci_ConnectedAt : Z;
  sci_LastHeartbeat : Z
}.

Record TraderIdentity := {
  ti_TraderDBID : Z;
  ti_TraderID : string;
  ti_Status : string
}.

(** [SessionPersistence] over the database state [DB]; every call may fail and may
    leave the database changed.  [ListAvailableExchanges] is the optional
    [exchangeCatalogProvider]: [None] when the type assertion to it fails. *)
Class SessionPersistence (DB : Type) := {
  ResolveOrCreateTraderByCN : string -> DB -> res TraderIdentity * DB;
  CreateSession : SessionCreateInput -> DB -> res unit * DB;
  UpdateTraderRelease : Z -> string -> DB -> res unit * DB;
  UpdateHeartbeat : string -> DB -> res unit * DB;
  FinalizeSession : string -> string -> option string -> DB -> res unit * DB;
  ListAvailableExchanges : option (DB -> res (list ExchangeCatalogEntry) * DB)
}.

(** [runtimeStateSink] and the three optional sinks the handler asserts it to. *)
Class RuntimeSink (S : Type) := {
  SetRuntimeWS : Z -> Z -> S -> S;
  SetRuntimeWSHeartbeat : option (Z -> S -> S);
  IncrementRuntimeWSTimeout : option (Z -> S -> S);
  SetRuntimeWSDisconnect : option (Z -> Z -> gmap string Z -> S -> S)
}.
