(* ===== verification/Handler.v ===== *)
(** * The WebSocket handler (internal/api/ws/handler.go)

    State of the handler and of one served connection, the primitive operations on
    the connection registry, writes, disconnect metrics, the database retry loop,
    and the whole message loop of [Serve].  Proofs are in HandlerFacts.v. *)

From S2P Require Import Prelude GoText GoFloat Protocol Session Conn Telemetry Auth StateM Interfaces.

(** ** Options *)

Record DBRetryConfig := { MaxAttempts : Z; InitialDelay : Z; MaxDelay : Z }.

#[export] Instance eta_DBRetryConfig : Eta DBRetryConfig := fun c =>
  {| MaxAttempts := MaxAttempts c; InitialDelay := InitialDelay c; MaxDelay := MaxDelay c |}.

Definition normalizeDBRetryConfig (cfg : DBRetryConfig) : DBRetryConfig :=
  let cfg := if (MaxAttempts cfg <=? 0)%Z then cfg <| MaxAttempts := 3%Z |> else cfg in
  let cfg := if (InitialDelay cfg <=? 0)%Z then cfg <| InitialDelay := (100 * Millisecond)%Z |> else cfg in
  let cfg := if (MaxDelay cfg <=? 0)%Z then cfg <| MaxDelay := (1 * Second)%Z |> else cfg in
  if (MaxDelay cfg <? InitialDelay cfg)%Z then cfg <| MaxDelay := InitialDelay cfg |> else cfg.

Definition normalizeMaxPayloadBytes (v : Z) : Z := if (v <=? 0)%Z then (64 * 1024)%Z else v.
Definition normalizeMaxMessagesPerSec (v : Z) : Z := if (v <=? 0)%Z then 100%Z else v.
Definition normalizeMaxUnknownActions (v : Z) : Z := if (v <=? 0)%Z then 5%Z else v.
Definition normalizeUnknownActionWindow (v : Z) : Z := if (v <=? 0)%Z then (10 * Second)%Z else v.
Definition normalizeRequestDedupWindow (v : Z) : Z := if (v <=? 0)%Z then (1 * Minute)%Z else v.

Definition wsCloseCodeSequenceGap : Z := 4009.
Definition defaultWSWriteTimeout : Z := 5 * Second.
Definition wsDisconnectReasonClose4009 : string := "close_4009_sequence_gap".
Definition wsDisconnectReasonTimeout : string := "timeout".

Definition normalizeWriteTimeout (v : Z) : Z := if (v <=? 0)%Z then defaultWSWriteTimeout else v.

Record HandlerOptions := {
  ho_HeartbeatInterval : Z;
  ho_HeartbeatTimeout : Z;
  ho_WriteTimeout : Z;
  ho_MaxPayloadBytes : Z;
  ho_MaxMessagesPerSec : Z;
  ho_MaxUnknownActions : Z;
  ho_UnknownActionWindow : Z;
  ho_RequestDedupWindow : Z;
  ho_RequireClientCert : bool;
  ho_AllowedCommonNames : list string;
  ho_AllowedOUs : list string;
  ho_AllowedDNSNames : list string;
  ho_Persistence : bool;
  ho_DBRetry : DBRetryConfig
}.

(** The fields of [Handler] that never change after construction. *)
Record handler_config := {
  heartbeatInterval : Z;
  heartbeatTimeout : Z;
  writeTimeout : Z;
  maxPayloadBytes : Z;
  maxMessagesPerSec : Z;
  maxUnknownActions : Z;
  unknownActionWindow : Z;
  requestDedupWindow : Z;
  auth : auth_config;
  persistence : bool;
  dbRetry : DBRetryConfig
}.

Definition NewHandlerWithOptions (opts : HandlerOptions) : handler_config :=
  {| heartbeatInterval :=
       if (ho_HeartbeatInterval opts <=? 0)%Z then (60 * Second)%Z else ho_HeartbeatInterval opts;
     heartbeatTimeout :=
       if (ho_HeartbeatTimeout opts <=? 0)%Z then (180 * Second)%Z else ho_HeartbeatTimeout opts;
     writeTimeout := normalizeWriteTimeout (ho_WriteTimeout opts);
     maxPayloadBytes := normalizeMaxPayloadBytes (ho_MaxPayloadBytes opts);
     maxMessagesPerSec := normalizeMaxMessagesPerSec (ho_MaxMessagesPerSec opts);
     maxUnknownActions := normalizeMaxUnknownActions (ho_MaxUnknownActions opts);
     unknownActionWindow := normalizeUnknownActionWindow (ho_UnknownActionWindow opts);
     requestDedupWindow := normalizeRequestDedupWindow (ho_RequestDedupWindow opts);
     auth :=
       {| requireClientCert := ho_RequireClientCert opts;
          allowedCNs := normalizeAllowedValues (ho_AllowedCommonNames opts);
          allowedOUs := normalizeAllowedValues (ho_AllowedOUs opts);
          allowedDNSNames := normalizeAllowedValues (ho_AllowedDNSNames opts) |};
     persistence := ho_Persistence opts;
     dbRetry := normalizeDBRetryConfig (ho_DBRetry opts) |}.

(** ** State *)

Record TraderSnapshot := {
  ts_TraderID : string;
  ts_TraderDBID : Z;
  ts_TraderStatus : string;
  ts_SessionID : string;
  ts_State : string;
  ts_RegisteredAtUnix : Z;
  ts_LastHeartbeatUnix : Z;
  ts_TimedOutAtUnix : Z;
  ts_Role : string;
  ts_Capabilities : list string;
  ts_EffectiveExchanges : list string;
  ts_LoadIndex : f64;
  ts_TradeLoadIndex : f64;
  ts_LatencyProfileMs : f64;
  ts_ExchangeLatencies : gmap string f64
}.

Definition cloneExchangeLatencies (src : gmap string f64) : gmap string f64 := src.

(** The composite literal of [upsertSessionSnapshot]. *)
Definition snapshot_of (s : sessionRuntime) : TraderSnapshot :=
  {| ts_TraderID := traderID s; ts_TraderDBID := traderDBID s; ts_TraderStatus := traderStatus s;
     ts_SessionID := sessionID s; ts_State := sessionState_string (state s);
     ts_RegisteredAtUnix := go_div (registeredAtMs s) 1000;
     ts_LastHeartbeatUnix := go_div (lastHeartbeatMs s) 1000;
     ts_TimedOutAtUnix := go_div (timedOutAtMs s) 1000;
     ts_Role := role s; ts_Capabilities := capabilities s;
     ts_EffectiveExchanges := effectiveExchs s; ts_LoadIndex := loadIndex s;
     ts_TradeLoadIndex := tradeLoadIndex s; ts_LatencyProfileMs := latencyProfileMs s;
     ts_ExchangeLatencies := cloneExchangeLatencies (exchangeLatencies s) |}.

(** The mutable fields of [Handler].  A [*wsConnectionEntry] is an index into the
    heap [entries], so the two connection maps share entries as the code does. *)
Record HandlerState := {
  sessions : gmap string TraderSnapshot;
  entries : list wsConnectionEntry;
  connections : gmap string nat;
  connectionsByConn : gmap Z nat;
  active : Z;
  total : Z;
  lastSeen : Z;
  disconnectTotal : Z;
  disconnectClose4009 : Z;
  disconnectByReason : gmap string Z
}.

#[export] Instance eta_HandlerState : Eta HandlerState := fun h =>
  {| sessions := sessions h; entries := entries h; connections := connections h;
     connectionsByConn := connectionsByConn h; active := active h; total := total h;
     lastSeen := lastSeen h; disconnectTotal := disconnectTotal h;
     disconnectClose4009 := disconnectClose4009 h; disconnectByReason := disconnectByReason h |}.

Definition new_handler_state : HandlerState :=
  {| sessions := ∅; entries := []; connections := ∅; connectionsByConn := ∅; active := 0;
     total := 0; lastSeen := 0; disconnectTotal := 0; disconnectClose4009 := 0;
     disconnectByReason := ∅ |}.

(** The local variables of one [Serve] call that its loop updates. *)
Record serve_locals := {
  session : sessionRuntime;
  persistedSession : bool;
  requestIDs : gmap string Z;
  rateWindowStart : Z;
  rateWindowCount : Z;
  unknownWindowStart : Z;
  unknownActionCount : Z;
  msgID : Z;
  readDeadline : Z
}.

#[export] Instance eta_serve_locals : Eta serve_locals := fun l =>
  {| session := session l; persistedSession := persistedSession l; requestIDs := requestIDs l;
     rateWindowStart := rateWindowStart l; rateWindowCount := rateWindowCount l;
     unknownWindowStart := unknownWindowStart l; unknownActionCount := unknownActionCount l;
     msgID := msgID l; readDeadline := readDeadline l |}.

(** The variables of one [Serve] call that its loop only reads. *)
Record serve_ctx := {
  sc_conn : Z;
  sc_connID : string;
  sc_requestID : string;
  sc_clientIP : string;
  sc_clientCertCN : string;
  sc_connEntry : nat
}.

Inductive control_frame :=
  | CtlPing (data : string)
  | CtlPong (data : string)
  | CtlClose (code : Z) (reason : string).

(** What a run does to the outside world, oldest first: frames handed to a
    connection with the outcome of the write, frames that were not written because
    their deadline could not be set ([OutUnwritten]), sleeps, and closed connections. *)
Inductive out_event :=
  | OutConnected (conn : Z) (err : option go_error)
  | OutText (conn : Z) (msg : out_envelope) (err : option go_error)
  | OutControl (conn : Z) (frame : control_frame) (err : option go_error)
  | OutUnwritten (e : out_event)
  | OutSleep (d : Z)
  | OutConnClose (conn : Z).

(** ** The world of a [Serve] call

    [tick] and [wtick] count clock readings and connection calls made so far; the
    class [ServeEnv] answers them.  [conn_write n = Some err] makes the [n]-th
    connection call fail with [err]. *)

Class ServeEnv := {
  clock : nat -> Z;
  conn_write : nat -> option go_error
}.

Record world (DB S : Type) := mk_world {
  hs : HandlerState;
  loc : serve_locals;
  db : DB;
  sink : option S;
  tick : nat;
  wtick : nat;
  out : list out_event
}.
Arguments mk_world {DB S}.
Arguments hs {DB S}.
Arguments loc {DB S}.
Arguments db {DB S}.
Arguments sink {DB S}.
Arguments tick {DB S}.
Arguments wtick {DB S}.
Arguments out {DB S}.

#[export] Instance eta_world DB S : Eta (world DB S) := fun w =>
  mk_world (hs w) (loc w) (db w) (sink w) (tick w) (wtick w) (out w).

Inductive ctl := Continue | Return.

#[export] Instance ctl_eq_dec : EqDecision ctl.
Proof. solve_decision. Defined.

Section handler.
Context {DB S : Type} `{!SessionPersistence DB} `{!RuntimeSink S} `{!WsJson} `{!ServeEnv}.
Context (h : handler_config).

Abbreviation M := (st (world DB S)).

Definition time_now : M Z := fun w => (clock (tick w), w <| tick ::= Datatypes.S |>).
Definition emit (e : out_event) : M unit := modify (fun w => w <| out ::= fun o => o ++ [e] |>).
Definition conn_call : M (option go_error) := fun w =>
  (conn_write (wtick w), w <| wtick ::= Datatypes.S |>).
Definition modify_hs (f : HandlerState -> HandlerState) : M unit :=
  modify (fun w => w <| hs ::= f |>).
Definition modify_loc (f : serve_locals -> serve_locals) : M unit :=
  modify (fun w => w <| loc ::= f |>).
Definition modify_session (f : sessionRuntime -> sessionRuntime) : M unit :=
  modify_loc (fun l => l <| session ::= f |>).
Definition db_call {A} (f : DB -> res A * DB) : M (res A) := fun w =>
  let '(r, d) := f (db w) in (r, w <| db := d |>).
Definition modify_sink (f : S -> S) : M unit :=
  modify (fun w => w <| sink ::= fmap f |>).
Definition with_entry (p : nat) (f : wsConnectionEntry -> wsConnectionEntry) : M unit :=
  modify_hs (fun s => s <| entries ::= alter f p |>).

(** *** Runtime state sink *)

Definition syncRuntimeState : M unit :=
  a ← gets (active ∘ hs); l ← gets (lastSeen ∘ hs); modify_sink (SetRuntimeWS a l).

Definition syncRuntimeHeartbeat (lastHeartbeatUnix : Z) : M unit :=
  match SetRuntimeWSHeartbeat with
  | None => mret tt
  | Some f => modify_sink (f lastHeartbeatUnix)
  end.

Definition syncRuntimeTimeout (lastTimeoutUnix : Z) : M unit :=
  match IncrementRuntimeWSTimeout with
  | None => mret tt
  | Some f => modify_sink (f lastTimeoutUnix)
  end.

Definition syncRuntimeDisconnect (total close4009 : Z) (byReason : gmap string Z) : M unit :=
  match SetRuntimeWSDisconnect with
  | None => mret tt
  | Some f => modify_sink (f total close4009 byReason)
  end.

(** *** Disconnect metrics *)

Definition count_disconnect (reason : string) (isClose4009 : bool) (s : HandlerState)
    : HandlerState :=
  let s := s <| disconnectTotal ::= fun n => wrapu64 (n + 1) |>
             <| disconnectByReason ::= fun m =>
                  <[reason := wrapu64 (default 0%Z (m !! reason) + 1)]> m |> in
  if isClose4009 then s <| disconnectClose4009 ::= fun n => wrapu64 (n + 1) |> else s.

Definition recordDisconnect (reason : string) (isClose4009 : bool) : M unit :=
  let reason := if str_empty reason then "unknown" else reason in
  modify_hs (count_disconnect reason isClose4009);;
  s ← gets hs;
  syncRuntimeDisconnect (disconnectTotal s) (disconnectClose4009 s) (disconnectByReason s).

Definition classifyWSDisconnectReason (err : option go_error) : string * bool :=
  match err with
  | None => (disconnectReason_string disconnectReasonServerShutdown, false)
  | Some e =>
      match errors_as_close e with
      | Some code =>
          if (code =? wsCloseCodeSequenceGap)%Z then (wsDisconnectReasonClose4009, true)
          else (disconnectReason_string (classifyDisconnectReason err), false)
      | None => (disconnectReason_string (classifyDisconnectReason err), false)
      end
  end.

(** *** Session snapshots *)

Definition upsertSessionSnapshot : M unit :=
  s ← gets (session ∘ loc);
  if str_empty (traderID s) then mret tt
  else modify_hs (fun hst => hst <| sessions ::= <[sessionID s := snapshot_of s]> |>).

Definition deleteSessionSnapshot (sid : string) : M unit :=
  if str_empty sid then mret tt
  else modify_hs (fun s => s <| sessions ::= delete sid |>).

Definition GetTraderSnapshots (s : HandlerState) : list TraderSnapshot :=
  (map_to_list (sessions s)).*2.

(** *** Connection registry *)

Definition addConnection (sid : string) (conn : Z) : M nat :=
  p ← gets (fun w => length (entries (hs w)));
  modify_hs (fun s =>
    s <| entries ::= fun l => l ++ [new_entry sid conn] |>
      <| connections ::= <[sid := p]> |>
      <| connectionsByConn ::= <[conn := p]> |>);;
  mret p.

Definition bindConnectionTrader (sid tid : string) : M unit :=
  if str_empty sid || str_empty tid then mret tt
  else
    e ← gets (fun w => connections (hs w) !! sid);
    match e with
    | Some p => with_entry p (fun e => e <| ce_traderID := tid |>)
    | None => mret tt
    end.

Definition removeConnection (sid : string) : M unit :=
  if str_empty sid then mret tt
  else
    e ← gets (fun w => connections (hs w) !! sid);
    match e with
    | Some p =>
        modify_hs (fun s =>
          s <| connections ::= delete sid |>
            <| connectionsByConn ::= fun m =>
                 match entries s !! p with
                 | Some e => delete (ce_conn e) m
                 | None => m
                 end |>);;
        with_entry p markClosed
    | None => mret tt
    end.

(** *** Writes

    [writeWithDeadline] reads the clock for the deadline; [SetWriteDeadline] and
    the write itself are connection calls. *)

Definition writeWithDeadline (fn : option go_error -> out_event) : M (option go_error) :=
  _ ← time_now;
  e ← conn_call;
  match e with
  | Some err => emit (OutUnwritten (fn (Some err)));; mret (Some err)
  | None =>
      r ← conn_call;
      emit (fn r);;
      _ ← conn_call;
      mret r
  end.

Definition entry_conn (p : nat) : M Z :=
  gets (fun w => match entries (hs w) !! p with Some e => ce_conn e | None => 0%Z end).

(** [withWriteLock] on an existing entry: the lock makes the write atomic. *)
Definition withWriteLock (p : nat) (fn : Z -> option go_error -> out_event) : M (option go_error) :=
  c ← entry_conn p; writeWithDeadline (fn c).

Definition writeMessage (conn : Z) (msg : out_envelope) : M (option go_error) :=
  e ← gets (fun w => connectionsByConn (hs w) !! conn);
  match e with
  | None => writeWithDeadline (OutText conn msg)
  | Some p => withWriteLock p (fun c => OutText c msg)
  end.

(** [writeTextMessage(connEntry, connectedPayload)]. *)
Definition writeConnected (p : nat) : M (option go_error) :=
  withWriteLock p OutConnected.

(** The first half of [sendEnvelope], under the locks of the registry and of the
    numbers: the message gets the next number of its connection. *)
Definition stampEnvelope (conn : Z) (msg : out_envelope) : M out_envelope :=
  e ← gets (fun w => connectionsByConn (hs w) !! conn);
  match e with
  | Some p =>
      sa ← gets (fun w => match entries (hs w) !! p with
                          | Some en => (nextOutboundSeqAck en).1
                          | None => (0, 0)%Z end);
      with_entry p (fun en => (nextOutboundSeqAck en).2);;
      mret (let msg := msg <| Seq := sa.1 |> in
            if (sa.2 >? 0)%Z then msg <| Ack := sa.2 |> else msg)
  | None => mret msg
  end.

(** [json.Marshal] succeeds on every payload the handler sends: strings, integers
    and lists of strings. *)
Definition sendEnvelope (conn : Z) (msg : out_envelope) : M unit :=
  msg ← stampEnvelope conn msg;
  _ ← writeMessage conn msg;
  mret tt.

Definition send_error (c : serve_ctx) (requestID code message : string)
    (details : list (string * detail)) : M unit :=
  now ← time_now;
  sendEnvelope (sc_conn c) (newErrorEnvelope now requestID code message details).

Definition closeConnection (p : nat) (code : Z) (reason : string) : M (option go_error) :=
  let reason := if str_empty reason then "server_shutdown" else reason in
  withWriteLock p (fun c => OutControl c (CtlClose code reason)).

Definition closeOnSequenceGap (p : nat) (expected received : Z) : M unit :=
  let reason := "sequence gap: expected=" +:+ Itoa expected +:+ " received=" +:+ Itoa received in
  _ ← withWriteLock p (fun c => OutControl c (CtlClose wsCloseCodeSequenceGap reason));
  recordDisconnect wsDisconnectReasonClose4009 true.

Definition writePingMessage (p : nat) : M (option go_error) :=
  now ← time_now;
  with_entry p (recordPingSent now);;
  withWriteLock p (fun c => OutControl c (CtlPing "ping")).

(** One tick of [runPingLoop]; [Return] when the loop ends. *)
Definition ping_tick (p : nat) : M ctl :=
  e ← writePingMessage p;
  match e with
  | Some _ => c ← entry_conn p; emit (OutConnClose c);; mret Return
  | None => mret Continue
  end.

(** [DispatchLatencyTest] up to its send: the error, or the connection and the
    message for it. *)
Definition latencyTestMessage (sid tid : string) (exchanges : list string)
    : M (go_error + Z * out_envelope) :=
  if str_empty sid then mret (inl (ENew "session_id is required"))
  else
    e ← gets (fun w => p ← connections (hs w) !! sid; entries (hs w) !! p);
    match e with
    | None => mret (inl (ENew ("session " +:+ sid +:+ " is not connected")))
    | Some entry =>
        if negb (str_empty tid) && negb (str_empty (ce_traderID entry))
           && negb (tid =s ce_traderID entry)
        then mret (inl (ENew ("session " +:+ sid +:+ " belongs to trader " +:+ ce_traderID entry
                               +:+ ", got " +:+ tid)))
        else
          now ← time_now;
          at_ ← time_now;
          now' ← time_now;
          mret (inr (ce_conn entry,
            newLatencyTestEnvelope now' ("lat-test-" +:+ Itoa (time_unix_milli now))
              {| lt_Exchanges := normalizeExchangeList exchanges;
                 lt_Reason := "periodic_retest";
                 lt_RequestedAt := time_unix_milli at_ |}))
    end.

Definition DispatchLatencyTest (sid tid : string) (exchanges : list string) : M (option go_error) :=
  r ← latencyTestMessage sid tid exchanges;
  match r with
  | inl err => mret (Some err)
  | inr (conn, msg) => sendEnvelope conn msg;; mret None
  end.

(** *** Database retry

    [attempts] is the number of attempts left; [attempt] the one made now. *)

Fixpoint retry_loop {A} (attempts : nat) (delay : Z) (fn : M (res A)) : M (res A) :=
  match attempts with
  | O => mret (Err (ENew "%!w(<nil>)"))
  | Datatypes.S more =>
      r ← fn;
      match r with
      | Ok a => mret (Ok a)
      | Err err =>
          if errors_is err ErrActiveSessionExists then mret (Err err)
          else match more with
          | O => mret (Err err)
          | Datatypes.S _ =>
              emit (OutSleep delay);;
              let delay := wrap64 (delay * 2) in
              let delay := if (delay >? MaxDelay (dbRetry h))%Z then MaxDelay (dbRetry h) else delay in
              retry_loop more delay fn
          end
      end
  end.

(** [dflt] are the values the captured variables keep when no call is made. *)
Definition withDBWriteRetry {A} (op : string) (dflt : A) (fn : M (res A)) : M (res A) :=
  if negb (persistence h) then mret (Ok dflt)
  else
    r ← retry_loop (Z.to_nat (MaxAttempts (dbRetry h))) (InitialDelay (dbRetry h)) fn;
    mret (match r with
          | Ok a => Ok a
          | Err err =>
              if errors_is err ErrActiveSessionExists then Err err
              else Err (EWrap (op +:+ " failed after " +:+ Itoa (MaxAttempts (dbRetry h))
                               +:+ " attempts: ") err "")
          end).

(** *** The branches of the message loop *)

Definition resolveRequestID (requestID : string) (n : Z) : string :=
  if negb (str_empty requestID) then requestID else "srv-" +:+ Itoa n.

Definition durationSecondsCeil (d : Z) : Z :=
  if (d <=? 0)%Z then 1%Z
  else
    let secs := go_div (wrap64 (wrap64 (d + Second) - 1)) Second in
    if (secs <? 1)%Z then 1%Z else secs.

Definition invalidPayloadDetails (field path expectedType reason : string)
    : list (string * detail) :=
  [("field", DStr field); ("path", DStr path); ("expected_type", DStr expectedType);
   ("reason", DStr reason)].

Definition requiredFieldDetails (field path expectedType : string) : list (string * detail) :=
  [("field", DStr field); ("path", DStr path); ("expected_type", DStr expectedType);
   ("reason", DStr "required")].

Definition mismatchFieldDetails (field path : string) (expected received : detail)
    : list (string * detail) :=
  [("field", DStr field); ("path", DStr path); ("expected", expected);
   ("received", received); ("reason", DStr "mismatch")].

(** [conn.SetReadDeadline(time.Now().Add(h.heartbeatTimeout))] under its guard. *)
Definition extend_read_deadline : M unit :=
  when (heartbeatTimeout h >? 0)%Z
    (now ← time_now;
     modify_loc (fun l => l <| readDeadline := time_add now (heartbeatTimeout h) |>)).

(** The exchange catalog of a registration. *)
Definition load_catalog : M (list ExchangeCatalogEntry) :=
  if persistence h then
    match ListAvailableExchanges with
    | Some f =>
        r ← db_call f;
        mret (match r with Ok catalog => catalog | Err _ => [] end)
    | None => mret defaultAvailableExchanges
    end
  else mret defaultAvailableExchanges.

(** What follows a resolved and persisted registration. *)
Definition complete_registration (c : serve_ctx) (msgRequestID : string) (nowMs : Z)
    (role_ : string) (caps effective : list string) (loads : f64 * f64)
    (canonicalTraderID : string) (dbid : Z) (status : string) : M ctl :=
  let canonicalTraderID := normalizeTraderIDForProtocol canonicalTraderID in
  modify_session (markRegistered canonicalTraderID nowMs);;
  modify_session (setRegistrationInfo role_ caps effective dbid status);;
  s ← gets (session ∘ loc);
  bindConnectionTrader (sessionID s) canonicalTraderID;;
  modify_session (setTelemetry loads.1 loads.2);;
  upsertSessionSnapshot;;
  extend_read_deadline;;
  let timeoutSec := durationSecondsCeil (heartbeatTimeout h) in
  now ← time_now;
  sendEnvelope (sc_conn c)
    (newRegisterAckEnvelope now msgRequestID
       {| ra_Status := "ok"; ra_TraderID := canonicalTraderID; ra_SessionID := sessionID s;
          ra_SessionTimeoutSec := timeoutSec; ra_ServerTime := nowMs |});;
  (match effective with
   | [] => mret tt
   | _ =>
       requestedAt ← time_now;
       now ← time_now;
       sendEnvelope (sc_conn c)
         (newLatencyTestEnvelope now ("lat-boot-" +:+ Itoa nowMs)
            {| lt_Exchanges := effective; lt_Reason := "post_register";
               lt_RequestedAt := time_unix_milli requestedAt |})
   end);;
  mret Continue.

(** Resolution of the certificate name in the database: the canonical id, the
    database id and the status; [None] when the error reply has been sent. *)
Definition resolve_identity (c : serve_ctx) (msgRequestID cn : string)
    : M (option (string * Z * string)) :=
  r ← withDBWriteRetry "resolve_or_create_trader" (cn, 0%Z, "")
        (r ← db_call (ResolveOrCreateTraderByCN cn);
         mret (match r with
               | Ok identity =>
                   Ok (if negb (str_empty (TrimSpace (ti_TraderID identity)))
                       then TrimSpace (ti_TraderID identity) else cn,
                       ti_TraderDBID identity, ti_Status identity)
               | Err e => Err e
               end));
  match r with
  | Ok v => mret (Some v)
  | Err _ =>
      send_error c msgRequestID errInternalError "Failed to resolve trader registration" [];;
      mret None
  end.

(** Creation of the session row and the best-effort release update;
    [inl tt] continues the registration, [inr ctl] leaves it. *)
Definition persist_session (c : serve_ctx) (msgRequestID : string) (nowMs : Z)
    (clientRelease canonical : string) (dbid : Z) : M (unit + ctl) :=
  sid ← gets (fun w => sessionID (session (loc w)));
  r ← withDBWriteRetry "create_session" tt
        (db_call (CreateSession
           {| sci_TraderID := dbid; sci_SessionID := sid; sci_WSConnectionID := sc_connID c;
              sci_IPAddress := sc_clientIP c; sci_ConnectedAt := time_of_milli nowMs;
              sci_LastHeartbeat := time_of_milli nowMs |}));
  match r with
  | Err err =>
      if errors_is err ErrActiveSessionExists then
        send_error c msgRequestID errDuplicateConnection "Trader already has an active session"
          [("trader_id", DStr canonical)];;
        _ ← closeConnection (sc_connEntry c) ClosePolicyViolation "duplicate_connection";
        mret (inr Return)
      else
        send_error c msgRequestID errInternalError "Failed to create trader session" [];;
        mret (inr Continue)
  | Ok _ =>
      modify_loc (fun l => l <| persistedSession := true |>);;
      (if (dbid >? 0)%Z && negb (str_empty clientRelease)
       then _ ← withDBWriteRetry "update_trader_release" tt
                  (db_call (UpdateTraderRelease dbid clientRelease)); mret tt
       else mret tt);;
      mret (inl tt)
  end.

Definition handle_register (c : serve_ctx) (msg : envelope string) (msgRequestID : string) : M ctl :=
  if negb (Type_ msg =s msgTypeRequest) then
    send_error c msgRequestID errInvalidMessage "trader.register must be request type" [];;
    mret Continue
  else
    tid ← gets (fun w => traderID (session (loc w)));
    if negb (str_empty tid) then
      send_error c msgRequestID errDuplicateConnection
        "Trader already registered for this connection" [("trader_id", DStr tid)];;
      mret Continue
    else
      match unmarshal_register (Payload msg) with
      | Err err =>
          send_error c msgRequestID errInvalidPayload "Invalid register payload"
            (invalidPayloadDetails "payload" "payload" "object" (error_text err));;
          mret Continue
      | Ok req =>
          now ← time_now;
          let nowMs := time_unix_milli now in
          let role_ := normalizeTraderRole (rr_Role req) in
          let caps := normalizeCapabilities (rr_Capabilities req) in
          let clientRelease := TrimSpace (rr_Release req) in
          availableExchanges ← load_catalog;
          let effective := buildEffectiveExchanges caps availableExchanges in
          let loads := extractCurrentLoadIndices (rr_CurrentLoad req) in
          let canonical := TrimSpace (sc_clientCertCN c) in
          if str_empty canonical then
            send_error c msgRequestID errInvalidPayload "certificate CN is required"
              (requiredFieldDetails "certificate_cn" "tls.peer_certificate.subject.cn" "string");;
            mret Continue
          else if persistence h then
            id ← resolve_identity c msgRequestID canonical;
            match id with
            | None => mret Continue
            | Some (canonical, dbid, status) =>
                r ← persist_session c msgRequestID nowMs clientRelease canonical dbid;
                match r with
                | inr k => mret k
                | inl _ =>
                    complete_registration c msgRequestID nowMs role_ caps effective loads
                      canonical dbid status
                end
            end
          else
            complete_registration c msgRequestID nowMs role_ caps effective loads canonical 0 ""
      end.

(** The telemetry part of a heartbeat. *)
Definition heartbeat_telemetry (req : heartbeatRequest) (s : sessionRuntime) : sessionRuntime :=
  let latencyMap := extractLatencyMap (hr_ExchangeStats req) in
  let s := if bool_decide (latencyMap = ∅) then s else setExchangeLatencies latencyMap s in
  let s := match buildLatencyProfileFromExchangeStats (hr_ExchangeStats req) (effectiveExchs s) with
           | Some profile => setLatencyProfile profile s
           | None => s
           end in
  match hr_LoadIndex req, hr_TradeLoadIndex req with
  | None, None => s
  | Some l, Some t => setTelemetry (normalizeUnitRange l) (normalizeUnitRange t) s
  | Some l, None => setTelemetry (normalizeUnitRange l) (normalizeUnitRange l) s
  | None, Some t => setTelemetry (loadIndex s) (normalizeUnitRange t) s
  end.

Definition handle_heartbeat (c : serve_ctx) (msg : envelope string) (msgRequestID : string) : M ctl :=
  s ← gets (session ∘ loc);
  if str_empty (traderID s) then
    send_error c msgRequestID errInvalidMessage "trader.register is required before heartbeat" [];;
    mret Continue
  else
    match unmarshal_heartbeat (Payload msg) with
    | Err err =>
        send_error c msgRequestID errInvalidPayload "Invalid heartbeat payload"
          (invalidPayloadDetails "payload" "payload" "object" (error_text err));;
        mret Continue
    | Ok req =>
        if negb (str_empty (hr_SessionID req)) && negb (hr_SessionID req =s sessionID s) then
          send_error c msgRequestID errInvalidPayload "session_id does not match active session"
            (mismatchFieldDetails "session_id" "payload.session_id" (DStr (sessionID s))
               (DStr (hr_SessionID req)));;
          mret Continue
        else
          now ← time_now;
          let nowMs := time_unix_milli now in
          persisted ← gets (persistedSession ∘ loc);
          r ← (if persistence h && persisted
               then withDBWriteRetry "update_heartbeat" tt (db_call (UpdateHeartbeat (sessionID s)))
               else mret (Ok tt));
          match r with
          | Err _ =>
              send_error c msgRequestID errInternalError "Failed to persist heartbeat" [];;
              mret Continue
          | Ok _ =>
              modify_session (markHeartbeat nowMs);;
              modify_session (heartbeat_telemetry req);;
              upsertSessionSnapshot;;
              syncRuntimeHeartbeat (go_div nowMs 1000);;
              extend_read_deadline;;
              when (Type_ msg =s msgTypeRequest)
                (now ← time_now;
                 sendEnvelope (sc_conn c)
                   (newHeartbeatAckEnvelope now msgRequestID
                      {| ha_Status := "ok"; ha_TraderID := traderID s; ha_SessionID := sessionID s;
                         ha_ServerTime := nowMs |}));;
              mret Continue
          end
    end.

Definition handle_latency_result (c : serve_ctx) (msg : envelope string) (msgRequestID : string)
    : M ctl :=
  s ← gets (session ∘ loc);
  if str_empty (traderID s) then
    send_error c msgRequestID errInvalidMessage
      "trader.register is required before latency.test_result" [];;
    mret Continue
  else
    match unmarshal_latency_result (Payload msg) with
    | Err err =>
        send_error c msgRequestID errInvalidPayload "Invalid latency.test_result payload"
          (invalidPayloadDetails "payload" "payload" "object" (error_text err));;
        mret Continue
    | Ok req =>
        if negb (str_empty (lr_SessionID req)) && negb (lr_SessionID req =s sessionID s) then
          send_error c msgRequestID errInvalidPayload "session_id does not match active session"
            (mismatchFieldDetails "session_id" "payload.session_id" (DStr (sessionID s))
               (DStr (lr_SessionID req)));;
          mret Continue
        else
          let latencyMap := extractLatencyMap (lr_ExchangeStats req) in
          let latencyMap :=
            if bool_decide (latencyMap = ∅) then mapLatencyResults req else latencyMap in
          if bool_decide (latencyMap = ∅) then
            send_error c msgRequestID errInvalidPayload
              "latency.test_result must include exchange latency values"
              (requiredFieldDetails "exchange_stats|results"
                 "payload.exchange_stats|payload.results" "object|array");;
            mret Continue
          else
            modify_session (setExchangeLatencies latencyMap);;
            modify_session (fun s =>
              match buildLatencyProfileFromLatencyMap latencyMap (effectiveExchs s) with
              | Some profile => setLatencyProfile profile s
              | None => s
              end);;
            upsertSessionSnapshot;;
            when (Type_ msg =s msgTypeRequest)
              (serverTime ← time_now;
               now ← time_now;
               sendEnvelope (sc_conn c)
                 (newLatencyTestResultAckEnvelope now msgRequestID
                    {| la_Status := "ok"; la_TraderID := traderID s; la_SessionID := sessionID s;
                       la_ServerTime := time_unix_milli serverTime |}));;
            mret Continue
    end.

(** The bookkeeping of the unknown-action window. *)
Definition count_unknown (now : Z) (l : serve_locals) : serve_locals :=
  let l := if (time_sub now (unknownWindowStart l) >=? unknownActionWindow h)%Z
           then l <| unknownWindowStart := now |> <| unknownActionCount := 0%Z |> else l in
  l <| unknownActionCount ::= fun n => wrap64 (n + 1) |>.

Definition handle_unknown (c : serve_ctx) (now : Z) (msg : envelope string) (msgRequestID : string)
    : M ctl :=
  modify_loc (count_unknown now);;
  send_error c msgRequestID errUnknownAction "Unsupported action" [("action", DStr (Action msg))];;
  n ← gets (unknownActionCount ∘ loc);
  if (n >=? maxUnknownActions h)%Z then
    send_error c msgRequestID errActionFlood "Too many unknown actions"
      [("max_unknown_actions", DInt (maxUnknownActions h))];;
    mret Return
  else mret Continue.

Definition dispatch_action (c : serve_ctx) (now : Z) (msg : envelope string) (msgRequestID : string)
    : M ctl :=
  if Action msg =s actionTraderRegister then handle_register c msg msgRequestID
  else if Action msg =s actionTraderHeartbeat then handle_heartbeat c msg msgRequestID
  else if Action msg =s actionLatencyTestResp then handle_latency_result c msg msgRequestID
  else handle_unknown c now msg msgRequestID.

(** The sequence check, the acknowledgement and the action switch. *)
Definition serve_sequenced (c : serve_ctx) (now : Z) (msg : envelope string) (msgRequestID : string)
    : M ctl :=
  let p := sc_connEntry c in
  v ← gets (fun w => match entries (hs w) !! p with
                     | Some e => (observeInboundSeq (Seq msg) e).1
                     | None => Build_seq_verdict true false false 0 end);
  with_entry p (fun e => (observeInboundSeq (Seq msg) e).2);;
  if negb (sv_ok v) then
    if sv_gap v then closeOnSequenceGap p (sv_expected v) (Seq msg);; mret Return
    else if sv_duplicate v then mret Continue
    else
      send_error c msgRequestID errInvalidMessage "Invalid sequence"
        [("expected_seq", DInt (sv_expected v)); ("received_seq", DInt (Seq msg))];;
      mret Continue
  else
    when (Ack msg >? 0)%Z (with_entry p (observePeerAck (Ack msg)));;
    dispatch_action c now msg msgRequestID.

(** The eviction and the lookup of the request-id window: whether [id] is a
    duplicate at [now], and the table after the message. *)
Definition dedup_request (window now : Z) (id : string) (m : gmap string Z) : bool * gmap string Z :=
  let cutoff := time_add now (- window) in
  let m := filter (fun kv => (kv.2 <? cutoff)%Z = false) m in
  match m !! id with
  | Some _ => (true, m)
  | None => (false, <[id := now]> m)
  end.

(** Whether the message repeats a request id, with the table update. *)
Definition note_request (now : Z) (msg : envelope string) : M bool :=
  if (Type_ msg =s msgTypeRequest) && negb (str_empty (RequestID msg)) then
    d ← gets (fun w => dedup_request (requestDedupWindow h) now (RequestID msg)
                         (requestIDs (loc w)));
    modify_loc (fun l => l <| requestIDs := d.2 |>);;
    mret d.1
  else mret false.

(** From the decoded envelope to the sequence check. *)
Definition serve_envelope (c : serve_ctx) (now : Z) (msg : envelope string) (id : Z) : M ctl :=
  let msgRequestID := resolveRequestID (RequestID msg) id in
  if negb (str_empty (ProtocolVersion msg))
     && negb (ProtocolVersion msg =s supportedProtocolVersion) then
    send_error c msgRequestID errUnsupportedVersion "Unsupported protocol version"
      [("supported", DStr supportedProtocolVersion); ("received", DStr (ProtocolVersion msg))];;
    mret Continue
  else
    dup ← note_request now msg;
    if (dup : bool) then
      send_error c msgRequestID errDuplicateRequest "Duplicate request_id"
        [("request_id", DStr (RequestID msg))];;
      mret Continue
    else if negb (Type_ msg =s msgTypeRequest) && negb (Type_ msg =s msgTypeEvent) then
      send_error c msgRequestID errInvalidMessage "Unsupported message type"
        [("type", DStr (Type_ msg))];;
      mret Continue
    else serve_sequenced c now msg msgRequestID.

(** The inbound rate window: whether the message passes, and the new window. *)
Definition rate_window (limit now : Z) (w : Z * Z) : bool * (Z * Z) :=
  let '(start, count) := w in
  let '(start, count) :=
    if (time_sub now start >=? Second)%Z then (now, 0%Z) else (start, count) in
  let count := wrap64 (count + 1) in
  (negb (count >? limit)%Z, (start, count)).

(** One inbound message, after [ReadMessage] returned it. *)
Definition serve_message (c : serve_ctx) (isText : bool) (rawPayload : string) : M ctl :=
  modify_loc (fun l => l <| msgID ::= fun n => wrap64 (n + 1) |>);;
  id ← gets (msgID ∘ loc);
  extend_read_deadline;;
  let msgRequestID := resolveRequestID "" id in
  if (str_len rawPayload >? maxPayloadBytes h)%Z then
    send_error c msgRequestID errMessageTooLarge "Payload exceeds maximum size"
      [("max_bytes", DInt (maxPayloadBytes h)); ("size_bytes", DInt (str_len rawPayload))];;
    mret Continue
  else
    now ← time_now;
    rw ← gets (fun w => rate_window (maxMessagesPerSec h) now
                          (rateWindowStart (loc w), rateWindowCount (loc w)));
    modify_loc (fun l => l <| rateWindowStart := rw.2.1 |> <| rateWindowCount := rw.2.2 |>);;
    if negb rw.1 then
      send_error c msgRequestID errRateLimited "Inbound message rate limit exceeded"
        [("limit_per_sec", DInt (maxMessagesPerSec h))];;
      mret Continue
    else if negb isText then
      send_error c msgRequestID errInvalidMessage "Only text WS frames are supported" [];;
      mret Continue
    else
      match unmarshal_envelope rawPayload with
      | Err err =>
          send_error c msgRequestID errInvalidMessage "Malformed JSON payload"
            [("error", DStr (error_text err))];;
          mret Continue
      | Ok msg => serve_envelope c now msg id
      end.

(** [session.sessionID]. *)
Definition current_session_id : M string := gets (fun w => sessionID (session (loc w))).

(** [ReadMessage] returned an error: the end of the session. *)
Definition serve_read_error (c : serve_ctx) (err : go_error) : M unit :=
  now ← time_now;
  let nowMs := time_unix_milli now in
  let '(reason, isClose4009) := classifyWSDisconnectReason (Some err) in
  recordDisconnect reason isClose4009;;
  (if reason =s wsDisconnectReasonTimeout then
     ok ← gets (fun w => (markTimedOut nowMs (session (loc w))).1);
     modify_session (fun s => (markTimedOut nowMs s).2);;
     when ok (syncRuntimeTimeout (go_div nowMs 1000))
   else mret tt);;
  s ← gets (session ∘ loc);
  persisted ← gets (persistedSession ∘ loc);
  (if persistence h && persisted then
     _ ← withDBWriteRetry "finalize_session" tt
           (db_call (FinalizeSession (sessionID s) reason (Some (error_text err))));
     mret tt
   else mret tt);;
  modify_session markDisconnected;;
  (sid ← current_session_id; deleteSessionSnapshot sid);;
  (sid ← current_session_id; removeConnection sid).

(** *** Control frames *)

Definition decodeControlSeqAck (raw : string) : option (Z * Z) :=
  if (str_len raw <? 16)%Z then None
  else
    let be := fun l : list ascii => fold_left (fun acc b => (acc * 256 + byte_code b)%Z) l 0%Z in
    let bytes := String.list_ascii_of_string raw in
    Some (be (firstn 8 bytes), be (firstn 8 (skipn 8 bytes))).

Definition on_pong (c : serve_ctx) : M unit :=
  since ← time_now;
  now ← time_now;
  with_entry (sc_connEntry c) (recordPongReceived since now);;
  extend_read_deadline.

Definition on_ping (c : serve_ctx) (raw : string) : M (option go_error) :=
  e ← withWriteLock (sc_connEntry c) (fun k => OutControl k (CtlPong raw));
  match e with
  | Some err => mret (Some err)
  | None => extend_read_deadline;; mret None
  end.

(** What arrives on the connection.  [ReadMessage] runs the control handlers
    itself and returns their error; a failing [SetReadDeadline] in one of them
    is an [InError]. *)
Inductive inbound :=
  | InMessage (isText : bool) (rawPayload : string)
  | InPing (raw : string)
  | InPong
  | InError (err : go_error).

(** One turn of the loop. *)
Definition serve_turn (c : serve_ctx) (i : inbound) : M ctl :=
  match i with
  | InMessage isText rawPayload => serve_message c isText rawPayload
  | InPing raw =>
      e ← on_ping c raw;
      match e with
      | Some err => serve_read_error c err;; mret Return
      | None => mret Continue
      end
  | InPong => on_pong c;; mret Continue
  | InError err => serve_read_error c err;; mret Return
  end.

(** The loop over the traffic of the connection; [None] when the traffic is used
    up and the loop waits in [ReadMessage]. *)
Fixpoint serve_loop (c : serve_ctx) (traffic : list inbound) : M (option ctl) :=
  match traffic with
  | [] => mret None
  | i :: rest =>
      k ← serve_turn c i;
      match k with
      | Continue => serve_loop c rest
      | Return => mret (Some Return)
      end
  end.

(** *** [Serve] around its loop *)

(** [random] is what [rand.Read] filled the 12-byte buffer with, if it succeeded. *)
Definition generateConnID (random : option (list ascii)) : string :=
  match random with
  | None => ""
  | Some buf => hex_encode buf
  end.

(** From the counters to the [connected] greeting.  [conn] is the upgraded
    connection and [sid] the generated session id. *)
Definition serve_open (conn : Z) (connID sid requestID clientIP clientCertCN : string)
    : M serve_ctx :=
  modify_hs (fun s => s <| active ::= fun n => wrap64 (n + 1) |>
                        <| total ::= fun n => wrap64 (n + 1) |>);;
  now ← time_now;
  modify_hs (fun s => s <| lastSeen := time_unix now |>);;
  syncRuntimeState;;
  p ← addConnection sid conn;
  modify_session (fun _ => newSessionRuntime sid);;
  extend_read_deadline;;
  r ← time_now;
  u ← time_now;
  modify_loc (fun l =>
    l <| persistedSession := false |> <| requestIDs := ∅ |> <| rateWindowStart := r |>
      <| rateWindowCount := 0%Z |> <| unknownWindowStart := u |> <| unknownActionCount := 0%Z |>
      <| msgID := 0%Z |>);;
  e ← writeConnected p;
  when (bool_decide (e = None)) (modify_loc (fun l => l <| msgID ::= fun n => wrap64 (n + 1) |>));;
  mret {| sc_conn := conn; sc_connID := connID; sc_requestID := requestID;
          sc_clientIP := clientIP; sc_clientCertCN := clientCertCN; sc_connEntry := p |}.

(** The deferred calls, last deferred first. *)
Definition serve_defers (conn : Z) (sid : string) : M unit :=
  removeConnection sid;;
  modify_hs (fun s => s <| active ::= fun n => wrap64 (n - 1) |>);;
  syncRuntimeState;;
  emit (OutConnClose conn).

(** A whole call: [inr reason] is the 401 reply, [inl None] a call still waiting
    for traffic, [inl (Some Return)] a call that returned. *)
Definition Serve (r : http_request) (conn : Z) (connID sid requestID clientIP : string)
    (traffic : list inbound) : M (option ctl + string) :=
  match authorizeWSClientCertificate (auth h) r with
  | inr reason => mret (inr reason)
  | inl _ =>
      let clientCertCN := extractClientCertificateCN r in
      c ← serve_open conn connID sid requestID clientIP clientCertCN;
      k ← serve_loop c traffic;
      match k with
      | None => mret (inl None)
      | Some k => serve_defers conn sid;; mret (inl (Some k))
      end
  end.
End handler.
