(* ===== verification/HandlerDemo.v ===== *)
(** * A concrete environment for the handler

    One instance of every interface of the handler, small enough to run [Serve] by
    evaluation: the properties' witnesses are runs in it. *)

From S2P Require Import Prelude GoFloat Protocol Session Conn Telemetry Auth StateM Interfaces Handler.

(** The database is the log of the calls it received; [cn] resolves to itself. *)
#[export] Instance demo_persistence : SessionPersistence (list string) := {
  ResolveOrCreateTraderByCN := fun cn d =>
    (Ok {| ti_TraderDBID := 7; ti_TraderID := cn; ti_Status := "ACTIVE" |}, d ++ ["resolve " +:+ cn]);
  CreateSession := fun i d => (Ok tt, d ++ ["create " +:+ sci_SessionID i]);
  UpdateTraderRelease := fun _ r d => (Ok tt, d ++ ["release " +:+ r]);
  UpdateHeartbeat := fun sid d => (Ok tt, d ++ ["heartbeat " +:+ sid]);
  FinalizeSession := fun sid reason _ d => (Ok tt, d ++ ["finalize " +:+ sid +:+ " " +:+ reason]);
  ListAvailableExchanges := None
}.

(** The sink keeps the last active count. *)
#[export] Instance demo_sink : RuntimeSink Z := {
  SetRuntimeWS := fun a _ _ => a;
  SetRuntimeWSHeartbeat := None;
  IncrementRuntimeWSTimeout := None;
  SetRuntimeWSDisconnect := None
}.

Definition demo_msg (ty action id : string) (seq : Z) : envelope string :=
  {| Type_ := ty; Action := action; ProtocolVersion := "1"; Seq := seq; Ack := 0;
     RequestID := id; Payload := ""; TS := 0 |}.

(** Four frames decode; anything else is malformed. *)
#[export] Instance demo_json : WsJson := {
  unmarshal_envelope := fun raw =>
    if raw =s "register" then Ok (demo_msg "request" actionTraderRegister "r1" 1)
    else if raw =s "heartbeat" then Ok (demo_msg "request" actionTraderHeartbeat "r2" 2)
    else if raw =s "gap" then Ok (demo_msg "request" actionTraderHeartbeat "r3" 9)
    else if raw =s "unknown" then Ok (demo_msg "event" "trader.dance" "" 0)
    else Err (ENew "unexpected end of JSON input");
  unmarshal_register := fun _ =>
    Ok {| rr_TraderID := "someone-else"; rr_Release := ""; rr_Region := "eu"; rr_Role := " Trade ";
          rr_Capabilities := ["Binance"; "okx"]; rr_CurrentLoad := None |};
  unmarshal_heartbeat := fun _ =>
    Ok {| hr_TraderID := "someone-else"; hr_SessionID := ""; hr_Status := "ok";
          hr_LoadIndex := Some (f_lit 3 2); hr_TradeLoadIndex := None;
          hr_ExchangeStats := [("binance", {| LatencyMS := Some (f_of_Z 12) |})] |};
  unmarshal_latency_result := fun _ => Err (ENew "no results")
}.

(** Every clock reading is one second later; no write fails. *)
#[export] Instance demo_env : ServeEnv := {
  clock := fun n => (1000 * Second + Z.of_nat n * Second)%Z;
  conn_write := fun _ => None
}.

Definition demo_options : HandlerOptions :=
  {| ho_HeartbeatInterval := 0; ho_HeartbeatTimeout := 0; ho_WriteTimeout := 0;
     ho_MaxPayloadBytes := 0; ho_MaxMessagesPerSec := 0; ho_MaxUnknownActions := 2;
     ho_UnknownActionWindow := Hour; ho_RequestDedupWindow := 0; ho_RequireClientCert := true;
     ho_AllowedCommonNames := []; ho_AllowedOUs := []; ho_AllowedDNSNames := [];
     ho_Persistence := true;
     ho_DBRetry := {| MaxAttempts := 0; InitialDelay := 0; MaxDelay := 0 |} |}.

Definition demo_config : handler_config := NewHandlerWithOptions demo_options.

Definition demo_locals (sid : string) : serve_locals :=
  {| session := newSessionRuntime sid; persistedSession := false; requestIDs := ∅;
     rateWindowStart := 0; rateWindowCount := 0; unknownWindowStart := 0; unknownActionCount := 0;
     msgID := 0; readDeadline := 0 |}.

Definition demo_world : world (list string) Z :=
  {| hs := new_handler_state; loc := demo_locals ""; db := []; sink := Some 0%Z; tick := 0;
     wtick := 0; out := [] |}.

Definition demo_request : http_request :=
  {| TLS := Some [{| CommonName := "alpha-cts-client"; OrganizationalUnit := []; DNSNames := [] |}] |}.

(** One call on connection 5 with session id [s1]. *)
Definition demo_serve (traffic : list inbound) : (option ctl + string) * world (list string) Z :=
  Serve demo_config demo_request 5 "c1" "s1" "q1" "10.0.0.1" traffic demo_world.
