(* ===== verification/HandlerFrame.v ===== *)
(** * Framing the message loop

    Most facts about the handler are relations between the world before and after a
    turn of the loop of [Serve] that are kept by every primitive operation.
    [base_frame] lists the primitives without sends, [serve_frame] adds sends and
    entry updates, [serve_frame_full] database calls and session updates, and [end_frame] is what
    the clean-up after a read error needs; from them the relation is derived once
    for every function of Handler.v. *)

From S2P Require Import Prelude GoFloat Protocol Session Conn Telemetry Auth StateM Interfaces Handler.

(** The code of an outbound error is one of the protocol's. *)
Definition error_supported (msg : out_envelope) : Prop :=
  match out_error_code msg with
  | Some code => isSupportedWSErrorCode code = true
  | None => True
  end.

Lemma error_supported_new now id code text details :
  isSupportedWSErrorCode code = true ->
  error_supported (newErrorEnvelope now id code text details).
Proof. done. Qed.

(** Reads are classified as a sequence gap of the peer exactly under that reason. *)
Lemma classify_close_4009 err :
  (classifyWSDisconnectReason err).2 =
  ((classifyWSDisconnectReason err).1 =s wsDisconnectReasonClose4009).
Proof.
  destruct err as [e|]; [|done]. unfold classifyWSDisconnectReason.
  assert (forall r, (disconnectReason_string r =s wsDisconnectReasonClose4009) = false) as Hr
    by (intros []; done).
  destruct (errors_as_close e) as [code|]; [destruct (_ =? _)%Z|]; cbn; by rewrite ?Hr.
Qed.

Fixpoint is_text (e : out_event) : bool :=
  match e with
  | OutText _ _ _ | OutConnected _ _ => true
  | OutUnwritten e => is_text e
  | _ => false
  end.

Section frame.
Context {DB S : Type} `{!SessionPersistence DB} `{!RuntimeSink S} `{!WsJson} `{!ServeEnv}.
Context (h : handler_config).

Abbreviation M := (st (world DB S)).

(** A function of the local variables that keeps the session and the record that it
    has a row in the database. *)
Definition local_update (f : serve_locals -> serve_locals) : Prop :=
  forall l, session (f l) = session l /\ persistedSession (f l) = persistedSession l.

(** The operations that neither send nor touch the session. *)
Record base_frame (R : world DB S -> world DB S -> Prop) : Prop := {
  bf_tick : steps R time_now;
  bf_call : steps R conn_call;
  bf_heartbeat : forall n, steps R (syncRuntimeHeartbeat n);
  bf_timeout : forall n, steps R (syncRuntimeTimeout n);
  bf_emit : forall e, is_text e = false -> steps R (emit e);
  bf_locals : forall f, local_update f -> steps R (modify_loc f);
  bf_record : forall r b, b = (r =s wsDisconnectReasonClose4009) -> steps R (recordDisconnect r b)
}.

(** For relations that do not look at the state sink. *)
Record base_prims (R : world DB S -> world DB S -> Prop) : Prop := {
  bp_tick : steps R time_now;
  bp_call : steps R conn_call;
  bp_sink : forall f : S -> S, steps R (modify_sink f);
  bp_emit : forall e, is_text e = false -> steps R (emit e);
  bp_locals : forall f, (forall l, session (f l) = session l) -> steps R (modify_loc f);
  bp_disconnect : forall r b, b = (r =s wsDisconnectReasonClose4009) ->
    steps R (modify_hs (count_disconnect r b))
}.

Lemma base_of_prims R `{!PreOrder R} : base_prims R -> base_frame R.
Proof.
  intros [Ht Hc Hs He Hl Hd]. split; try done.
  - intros n. unfold syncRuntimeHeartbeat. steps_auto.
  - intros n. unfold syncRuntimeTimeout. steps_auto.
  - intros f Hf. apply Hl. intros l. apply Hf.
  - intros r b Hb. unfold recordDisconnect, syncRuntimeDisconnect. cbv zeta.
    apply (steps_bind R); [apply Hd|intros _; steps_auto].
    subst b. destruct (str_empty r) eqn:E; [|done].
    apply str_empty_true in E as ->. done.
Qed.

(** The session has got its row. *)
Definition persist_frame (R : world DB S -> world DB S -> Prop) : Prop :=
  steps R (modify_loc (fun l => l <| persistedSession := true |>)).

Lemma persist_of_prims R : base_prims R -> persist_frame R.
Proof. intros HR. by apply (bp_locals R HR). Qed.

Record serve_frame (c : serve_ctx) (R : world DB S -> world DB S -> Prop) : Prop := {
  sf_base : base_frame R;
  sf_send : forall msg, error_supported msg -> steps R (sendEnvelope (sc_conn c) msg);
  sf_inbound : forall s,
    steps R (with_entry (sc_connEntry c) (fun e => (observeInboundSeq s e).2));
  sf_ack : forall a, steps R (with_entry (sc_connEntry c) (observePeerAck a));
  sf_pong : forall t u, steps R (with_entry (sc_connEntry c) (recordPongReceived t u))
}.

Definition session_frame (R : world DB S -> world DB S -> Prop) : Prop :=
  forall f, (forall s, sessionID (f s) = sessionID s) -> steps R (modify_session f).

(** The calls of the database interface. *)
Record db_frame (R : world DB S -> world DB S -> Prop) : Prop := {
  df_resolve : forall cn, steps R (db_call (ResolveOrCreateTraderByCN cn));
  df_create : forall i, steps R (db_call (CreateSession i));
  df_release : forall id r, steps R (db_call (UpdateTraderRelease id r));
  df_heartbeat : forall sid, steps R (db_call (UpdateHeartbeat sid));
  df_finalize : forall sid r m, steps R (db_call (FinalizeSession sid r m));
  df_catalog : forall f, ListAvailableExchanges = Some f -> steps R (db_call f)
}.

(** For relations that do not look at the database. *)
Lemma db_frame_any R :
  (forall A (f : DB -> res A * DB), steps R (db_call f)) -> db_frame R.
Proof. intros Hany. split; intros; apply Hany. Qed.

(** A session binds its trader to its own connection. *)
Definition bind_own_trader (tid : string) : M unit :=
  s ← gets (session ∘ loc); bindConnectionTrader (sessionID s) tid.

Record serve_frame_full (c : serve_ctx) (R : world DB S -> world DB S -> Prop) : Prop := {
  sff_frame : serve_frame c R;
  sff_db : db_frame R;
  sff_session : session_frame R;
  sff_persist : persistence h = true -> forall id ms rel can dbid,
    steps R (persist_session h c id ms rel can dbid);
  sff_bind : forall tid, steps R (bind_own_trader tid);
  sff_upsert : steps R upsertSessionSnapshot
}.

(** The clean-up after a read error. *)
Record end_frame (R : world DB S -> world DB S -> Prop) : Prop := {
  ef_base : base_frame R;
  ef_db : db_frame R;
  ef_session : session_frame R;
  ef_delete : steps R (sid ← current_session_id; deleteSessionSnapshot sid);
  ef_remove : steps R (sid ← current_session_id; removeConnection sid)
}.

Lemma markTimedOut_sessionID n s : sessionID (markTimedOut n s).2 = sessionID s.
Proof. unfold markTimedOut. by case_match. Qed.

Section base.
Context (R : world DB S -> world DB S -> Prop) `{!PreOrder R} (HR : base_frame R).

Local Hint Extern 0 (steps R time_now) => exact (bf_tick R HR) : steps.
Local Hint Extern 0 (steps R conn_call) => exact (bf_call R HR) : steps.
Local Hint Extern 0 (steps R (emit _)) => (apply (bf_emit R HR); reflexivity) : steps.
Local Hint Extern 0 (steps R (modify_loc _)) =>
  (apply (bf_locals R HR); intros []; split; reflexivity) : steps.

Lemma frame_write_control p fr :
  steps R (withWriteLock p (fun k => OutControl k fr)).
Proof. unfold withWriteLock, writeWithDeadline, entry_conn. steps_auto. Qed.

Lemma frame_extend_read_deadline : steps R (extend_read_deadline h).
Proof. unfold extend_read_deadline. steps_auto. Qed.

Lemma frame_closeConnection p code reason : steps R (closeConnection p code reason).
Proof. unfold closeConnection. pose proof frame_write_control. steps_auto. Qed.

Lemma frame_closeOnSequenceGap p x y : steps R (closeOnSequenceGap p x y).
Proof.
  unfold closeOnSequenceGap. cbv zeta. apply (steps_bind R); [apply frame_write_control|].
  intros _. by apply (bf_record R HR).
Qed.

Lemma frame_retry_loop A n d (fn : M (res A)) : steps R fn -> steps R (retry_loop h n d fn).
Proof.
  intros Hfn. revert d. induction n as [|n IH]; intros d; cbn; [steps_auto|].
  apply (steps_bind R); [done|intros [a|e]; [steps_auto|]].
  destruct (errors_is e _); [steps_auto|]. destruct n; [steps_auto|].
  apply (steps_bind R); [auto with steps|intros _; apply IH].
Qed.

Lemma frame_withDBWriteRetry A op d (fn : M (res A)) :
  steps R fn -> steps R (withDBWriteRetry h op d fn).
Proof.
  intros Hfn. unfold withDBWriteRetry. steps_auto. by apply frame_retry_loop.
Qed.

Local Hint Extern 1 (steps R (withDBWriteRetry h _ _ _)) =>
  (apply frame_withDBWriteRetry) : steps.

Lemma frame_load_catalog (HD : db_frame R) : steps R (load_catalog h).
Proof.
  unfold load_catalog. pose proof (df_catalog R HD) as Hc.
  destruct ListAvailableExchanges as [f|]; [specialize (Hc f eq_refl)|]; steps_auto.
Qed.

Lemma frame_note_request now msg : steps R (note_request h now msg).
Proof. unfold note_request. steps_auto. Qed.

Lemma frame_on_ping c raw : steps R (on_ping h c raw).
Proof.
  unfold on_ping. pose proof frame_write_control. pose proof frame_extend_read_deadline.
  steps_auto.
Qed.

Lemma frame_serve_read_error c err (HE : end_frame R) : steps R (serve_read_error h c err).
Proof.
  unfold serve_read_error. pose proof (classify_close_4009 (Some err)) as Hc.
  destruct (classifyWSDisconnectReason (Some err)) as [reason b]. cbn in Hc.
  pose proof (bf_record R HR reason b Hc). pose proof (bf_timeout R HR).
  pose proof (ef_session R HE markDisconnected (fun _ => eq_refl)).
  pose proof (df_finalize R (ef_db R HE)).
  repeat first [exact (ef_delete R HE) | exact (ef_remove R HE)
               | apply (ef_session R HE), markTimedOut_sessionID | cbv zeta; steps_step].
Qed.
End base.

Section derived.
Context (c : serve_ctx) (R : world DB S -> world DB S -> Prop) `{!PreOrder R}.
Context (HR : serve_frame c R).

Local Hint Extern 0 (steps R time_now) => exact (bf_tick R (sf_base c R HR)) : steps.
Local Hint Extern 0 (steps R (modify_loc _)) =>
  (apply (bf_locals R (sf_base c R HR)); intros []; split; reflexivity) : steps.
Local Hint Extern 0 (steps R (with_entry _ (recordPongReceived _ _))) =>
  exact (sf_pong c R HR _ _) : steps.
Local Hint Extern 1 (steps R (withDBWriteRetry h _ _ _)) =>
  (apply (frame_withDBWriteRetry R (sf_base c R HR))) : steps.

Lemma frame_send_error id code text details :
  isSupportedWSErrorCode code = true -> steps R (send_error c id code text details).
Proof.
  intros Hc. unfold send_error. apply (steps_bind R); [auto with steps|intros now].
  by apply (sf_send c R HR).
Qed.

Local Hint Extern 0 (steps R (send_error c _ _ _ _)) =>
  (apply frame_send_error; reflexivity) : steps.

Lemma frame_resolve_identity id cn (HD : db_frame R) : steps R (resolve_identity h c id cn).
Proof.
  pose proof (df_resolve R HD). unfold resolve_identity. apply (steps_bind R); [|intros; steps_auto].
  apply (frame_withDBWriteRetry R (sf_base c R HR)). steps_auto.
Qed.

Lemma frame_persist_session id ms rel can dbid (HD : db_frame R) (HP : persist_frame R) :
  steps R (persist_session h c id ms rel can dbid).
Proof.
  pose proof (df_create R HD). pose proof (df_release R HD).
  pose proof (frame_closeConnection R (sf_base c R HR)).
  unfold persist_session. repeat (cbv zeta; first [exact HP|steps_step]).
Qed.

Lemma count_unknown_session now : local_update (count_unknown h now).
Proof. intros []. unfold count_unknown. cbn. by case_match. Qed.

Lemma frame_handle_unknown now msg id : steps R (handle_unknown h c now msg id).
Proof.
  unfold handle_unknown.
  apply (steps_bind R); [apply (bf_locals R (sf_base c R HR)), count_unknown_session|].
  intros _. steps_auto.
Qed.

Lemma frame_on_pong : steps R (on_pong h c).
Proof.
  unfold on_pong. pose proof (frame_extend_read_deadline R (sf_base c R HR)). steps_auto.
Qed.
End derived.

(** The full frame of a relation that looks at no local variable but the session. *)
Lemma full_of_prims c R `{!PreOrder R} :
  base_prims R -> serve_frame c R -> db_frame R -> session_frame R ->
  (forall tid, steps R (bind_own_trader tid)) -> steps R upsertSessionSnapshot -> serve_frame_full c R.
Proof.
  intros HP HF HD HS HB HU. split; try done.
  intros _ *. by apply frame_persist_session, persist_of_prims.
Qed.

Section derived_full.
Context (c : serve_ctx) (R : world DB S -> world DB S -> Prop) `{!PreOrder R}.
Context (HR : serve_frame_full c R).

Let HF : serve_frame c R := sff_frame c R HR.
Let HB : base_frame R := sf_base c R HF.

Local Hint Extern 0 (steps R time_now) => exact (bf_tick R HB) : steps.
Local Hint Extern 0 (steps R (db_call (UpdateHeartbeat _))) =>
  exact (df_heartbeat R (sff_db c R HR) _) : steps.
Local Hint Extern 0 (steps R (modify_loc _)) =>
  (apply (bf_locals R HB); intros []; split; reflexivity) : steps.
Local Hint Extern 0 (steps R (with_entry _ (observePeerAck _))) => exact (sf_ack c R HF _) : steps.
Local Hint Extern 0 (steps R (with_entry _ (fun e => (observeInboundSeq _ e).2))) =>
  exact (sf_inbound c R HF _) : steps.
Local Hint Extern 0 (steps R (sendEnvelope (sc_conn c) _)) =>
  (apply (sf_send c R HF); exact I) : steps.
Local Hint Extern 0 (steps R (send_error c _ _ _ _)) =>
  (apply (frame_send_error c R HF); reflexivity) : steps.
Local Hint Extern 0 (steps R upsertSessionSnapshot) => exact (sff_upsert c R HR) : steps.
Local Hint Extern 1 (steps R (withDBWriteRetry h _ _ _)) =>
  (apply (frame_withDBWriteRetry R HB)) : steps.
Local Hint Extern 0 (steps R (extend_read_deadline h)) =>
  exact (frame_extend_read_deadline R HB) : steps.
Local Hint Extern 0 (steps R (syncRuntimeHeartbeat _)) =>
  exact (bf_heartbeat R HB _) : steps.
Local Hint Extern 0 (steps R (closeOnSequenceGap _ _ _)) =>
  exact (frame_closeOnSequenceGap R HB _ _ _) : steps.
Local Hint Extern 0 (steps R (load_catalog h)) => exact (frame_load_catalog R (sff_db c R HR)) : steps.
Local Hint Extern 0 (steps R (note_request h _ _)) => exact (frame_note_request R HB _ _) : steps.
Local Hint Extern 0 (steps R (resolve_identity h c _ _)) =>
  exact (frame_resolve_identity c R HF _ _ (sff_db c R HR)) : steps.
Local Hint Extern 0 (steps R (persist_session h c _ _ _ _ _)) =>
  (apply (sff_persist c R HR); assumption) : steps.
Local Hint Extern 0 (steps R (handle_unknown h c _ _ _)) =>
  exact (frame_handle_unknown c R HF _ _ _) : steps.

Lemma setExchangeLatencies_sessionID m s : sessionID (setExchangeLatencies m s) = sessionID s.
Proof. unfold setExchangeLatencies. by case_match. Qed.

Lemma heartbeat_telemetry_sessionID req s : sessionID (heartbeat_telemetry req s) = sessionID s.
Proof.
  unfold heartbeat_telemetry, setExchangeLatencies. repeat case_match; reflexivity.
Qed.

Local Hint Resolve setExchangeLatencies_sessionID
  heartbeat_telemetry_sessionID : steps.
Local Hint Extern 0 (steps R (modify_session _)) =>
  (apply (sff_session c R HR);
   first [solve [auto with steps] | intros s; repeat case_match; reflexivity]) : steps.

Lemma full_complete_registration id ms ro caps eff lo can dbid sta :
  steps R (complete_registration h c id ms ro caps eff lo can dbid sta).
Proof.
  unfold complete_registration. cbv zeta. do 2 (apply (steps_bind R); [auto with steps|intros _]).
  apply (steps_read_bind R); [exact (sff_bind c R HR _)|]. intros s _. steps_auto.
Qed.

Local Hint Resolve full_complete_registration : steps.

Lemma full_handle_register msg id : steps R (handle_register h c msg id).
Proof. unfold handle_register. destruct (persistence h) eqn:Ep; steps_auto. Qed.

Lemma full_handle_heartbeat msg id : steps R (handle_heartbeat h c msg id).
Proof. unfold handle_heartbeat. steps_auto. Qed.

Lemma full_handle_latency_result msg id : steps R (handle_latency_result c msg id).
Proof. unfold handle_latency_result. steps_auto. Qed.

Local Hint Resolve full_handle_register full_handle_heartbeat full_handle_latency_result : steps.

Lemma full_serve_sequenced now msg id : steps R (serve_sequenced h c now msg id).
Proof. unfold serve_sequenced, dispatch_action. steps_auto. Qed.

Local Hint Resolve full_serve_sequenced : steps.

Lemma full_serve_envelope now msg id : steps R (serve_envelope h c now msg id).
Proof. unfold serve_envelope. steps_auto. Qed.

Local Hint Resolve full_serve_envelope : steps.

Lemma full_serve_message b raw : steps R (serve_message h c b raw).
Proof. unfold serve_message. steps_auto. Qed.

(** Every turn but a read error. *)
Lemma full_serve_input i :
  match i with
  | InMessage isText raw => steps R (serve_message h c isText raw)
  | InPing raw => steps R (on_ping h c raw)
  | InPong => steps R (on_pong h c)
  | InError _ => True
  end.
Proof.
  destruct i; [apply full_serve_message|by apply frame_on_ping|by apply frame_on_pong|done].
Qed.
End derived_full.

Section derived_end.
Context (c : serve_ctx) (R : world DB S -> world DB S -> Prop) `{!PreOrder R}.
Context (HR : serve_frame_full c R) (HE : end_frame R).

Lemma end_serve_turn i : steps R (serve_turn h c i).
Proof.
  pose proof (full_serve_input c R HR) as Hi.
  pose proof (fun err => frame_serve_read_error R (ef_base R HE) c err HE).
  pose proof (fun b raw => Hi (InMessage b raw)). pose proof (fun raw => Hi (InPing raw)).
  pose proof (Hi InPong). unfold serve_turn. steps_auto.
Qed.

Lemma end_serve_loop l : steps R (serve_loop h c l).
Proof.
  induction l as [|i l IH]; cbn; [steps_auto|].
  apply (steps_bind R); [apply end_serve_turn|intros []; [done|steps_auto]].
Qed.
End derived_end.
End frame.

(** For a relation with a frame for [c] and a database frame: the steps of a turn
    that keep it as hypotheses, and the tactic that walks along the others. *)
Ltac frame_facts h c frame db persist :=
  pose proof (frame c) as HF; pose proof (sf_base c _ HF) as HB; pose proof db as HD;
  pose proof (frame_extend_read_deadline h _ HB); pose proof (bf_tick _ HB);
  pose proof (frame_load_catalog h _ HD); pose proof (bf_heartbeat _ HB);
  pose proof (frame_note_request h _ HB); pose proof (frame_closeOnSequenceGap _ HB);
  pose proof (fun id cn => frame_resolve_identity h c _ HF id cn HD);
  pose proof (fun id ms rel can d => frame_persist_session h c _ HF id ms rel can d HD persist);
  pose proof (frame_handle_unknown h c _ HF);
  pose proof (fun op d sid => frame_withDBWriteRetry h _ HB unit op d _ (df_heartbeat _ HD sid));
  pose proof (sf_ack c _ HF); pose proof (sf_inbound c _ HF).
Ltac frame_keep c frame :=
  repeat (cbv zeta; lazymatch goal with
    | |- steps _ (sendEnvelope _ _) => apply (sf_send c _ (frame c)); exact I
    | |- steps _ (send_error _ _ _ _ _) => apply (frame_send_error c _ (frame c)); reflexivity
    | |- steps _ (modify_loc _) =>
        apply (bf_locals _ (sf_base c _ (frame c))); intros []; split; reflexivity
    | |- _ => steps_step
    end).
