(* ===== verification/HandlerFacts.v ===== *)
(** * Facts about the WebSocket handler

    What a turn, and hence any run, of the message loop of [Serve] does to the
    outbound traffic, the connection registry, the session and the metrics. *)

From S2P Require Import Prelude GoFloat Protocol Session Conn Telemetry Auth StateM Interfaces Handler HandlerFrame.

(** ** Sending *)

(** The numbers [sendEnvelope] puts on a message. *)
Definition stamp (sa : Z * Z) (msg : out_envelope) : out_envelope :=
  let msg := msg <| Seq := sa.1 |> in
  if (sa.2 >? 0)%Z then msg <| Ack := sa.2 |> else msg.

Lemma stamp_Payload sa msg : Payload (stamp sa msg) = Payload msg.
Proof. unfold stamp. by case_match. Qed.
Lemma stamp_Seq sa msg : Seq (stamp sa msg) = sa.1.
Proof. unfold stamp. by case_match. Qed.

Section facts.
Context {DB S : Type} `{!SessionPersistence DB} `{!RuntimeSink S} `{!WsJson} `{!ServeEnv}.
Context (h : handler_config).

Abbreviation W := (world DB S).

(** The message as it leaves and the connection it leaves on. *)
Definition outgoing (s : HandlerState) (conn : Z) (msg : out_envelope) : Z * out_envelope :=
  match connectionsByConn s !! conn with
  | None => (conn, msg)
  | Some p =>
      match entries s !! p with
      | Some e => (ce_conn e, stamp (nextOutboundSeqAck e).1 msg)
      | None => (0%Z, stamp (0, 0)%Z msg)
      end
  end.

Definition after_send (s : HandlerState) (conn : Z) : HandlerState :=
  match connectionsByConn s !! conn with
  | None => s
  | Some p => s <| entries ::= alter (fun en => (nextOutboundSeqAck en).2) p |>
  end.

(** What a message leaves behind: the write of a frame, or a frame not written. *)
Definition sent_event (k : Z) (msg : out_envelope) (ev : out_event) : Prop :=
  exists err, ev = OutText k msg err \/ ev = OutUnwritten (OutText k msg err).

Lemma sendEnvelope_spec (w : W) conn msg :
  let w' := (sendEnvelope conn msg w).2 in
  hs w' = after_send (hs w) conn /\ loc w' = loc w /\ db w' = db w /\ sink w' = sink w /\
  exists ev, out w' = out w ++ [ev] /\
    sent_event (outgoing (hs w) conn msg).1 (outgoing (hs w) conn msg).2 ev.
Proof.
  destruct w as [hst l d sk t wt o].
  unfold sendEnvelope, stampEnvelope, after_send, outgoing, writeMessage, withWriteLock, writeWithDeadline,
    entry_conn, sent_event. unfold mbind, st_bind, mret, st_ret, gets, with_entry, modify_hs, modify, time_now,
    conn_call, emit.
  cbn. destruct (connectionsByConn hst !! conn) as [p|] eqn:Ec; cbn; rewrite ?Ec; cbn.
  - destruct (entries hst !! p) as [e|] eqn:Ee; cbn;
      destruct (conn_write wt) as [err|] eqn:E1; cbn; split_and!; try done;
      eexists; (split; [reflexivity|]); rewrite list_lookup_alter_eq, Ee; eauto.
  - destruct (conn_write wt) as [err|] eqn:E1; cbn; split_and!; try done;
      eexists; (split; [reflexivity|]); eauto.
Qed.

(** ** Invariants of the shared state and the traffic *)

(** The changes the loop of connection [c] makes to an entry outside of sending. *)
Inductive entry_update : (wsConnectionEntry -> wsConnectionEntry) -> Prop :=
  | eu_inbound seq : entry_update (fun e => (observeInboundSeq seq e).2)
  | eu_ack ack : entry_update (observePeerAck ack)
  | eu_pong t u : entry_update (recordPongReceived t u)
  | eu_trader tid : entry_update (fun e => e <| ce_traderID := tid |>).

(** The registry part of [removeConnection]. *)
Definition unregister (sid : string) (p : nat) (s : HandlerState) : HandlerState :=
  s <| connections ::= delete sid |>
    <| connectionsByConn ::= fun m =>
         match entries s !! p with Some e => delete (ce_conn e) m | None => m end |>
    <| entries ::= alter markClosed p |>.

(** [I sid s o]: the invariant of the loop that serves session [sid]. *)
Record loop_invariant (c : serve_ctx) (I : string -> HandlerState -> list out_event -> Prop)
    : Prop := {
  li_emit : forall sid s o e, is_text e = false -> I sid s o -> I sid s (o ++ [e]);
  li_send : forall sid s o msg ev,
    error_supported msg -> I sid s o ->
    sent_event (outgoing s (sc_conn c) msg).1 (outgoing s (sc_conn c) msg).2 ev ->
    I sid (after_send s (sc_conn c)) (o ++ [ev]);
  li_entry : forall sid s o f p,
    entry_update f -> p = sc_connEntry c \/ connections s !! sid = Some p ->
    I sid s o -> I sid (s <| entries ::= alter f p |>) o;
  li_disconnect : forall sid s o r b,
    b = (r =s wsDisconnectReasonClose4009) -> I sid s o -> I sid (count_disconnect r b s) o;
  li_upsert : forall sid s o sr,
    traderID sr <> "" -> sessionID sr = sid -> I sid s o ->
    I sid (s <| sessions ::= <[sid := snapshot_of sr]> |>) o
}.

Record end_invariant (I : string -> HandlerState -> list out_event -> Prop) : Prop := {
  ei_delete : forall sid s o, I sid s o -> I sid (s <| sessions ::= delete sid |>) o;
  ei_remove : forall sid s o p,
    connections s !! sid = Some p -> I sid s o -> I sid (unregister sid p s) o
}.

Section invariant.
Context (c : serve_ctx) (I : string -> HandlerState -> list out_event -> Prop).

Definition in_world (w : W) : Prop := I (sessionID (session (loc w))) (hs w) (out w).

Lemma loop_invariant_frame : loop_invariant c I -> serve_frame_full h c (keeps in_world).
Proof.
  intros [Hemit Hsend Hentry Hdisc Hups]. assert (base_prims (keeps in_world)) as HP.
  { split; try (intros; intros w; exact (fun H => H)).
    - intros e He w. exact (Hemit _ _ _ _ He).
    - intros f Hf w Hw. unfold in_world in *. cbn. by rewrite Hf.
    - intros r b Hb w Hw. exact (Hdisc _ (hs w) (out w) _ _ Hb Hw). }
  apply full_of_prims; [apply _|done|split; [apply base_of_prims; [apply _|done]|..]|..].
  - intros msg Hmsg w Hw. unfold in_world in *.
    destruct (sendEnvelope_spec w (sc_conn c) msg) as (-> & -> & _ & _ & ev & -> & Hev).
    by apply (Hsend _ _ _ msg).
  - intros s w Hw. exact (Hentry _ (hs w) (out w) _ _ (eu_inbound s) (or_introl eq_refl) Hw).
  - intros a w Hw. exact (Hentry _ (hs w) (out w) _ _ (eu_ack a) (or_introl eq_refl) Hw).
  - intros t u w Hw. exact (Hentry _ (hs w) (out w) _ _ (eu_pong t u) (or_introl eq_refl) Hw).
  - apply db_frame_any. intros A f w. unfold db_call. destruct (f (db w)). exact (fun H => H).
  - intros f Hf w Hw. unfold in_world in *. cbn. by rewrite Hf.
  - intros tid w Hw. unfold in_world, bind_own_trader, bindConnectionTrader, mbind, st_bind, gets in *.
    cbn. destruct (_ || _); [done|]. cbn.
    destruct (connections (hs w) !! _) as [p|] eqn:E; [|done].
    exact (Hentry _ (hs w) (out w) _ p (eu_trader tid) (or_intror E) Hw).
  - intros w Hw. unfold in_world, upsertSessionSnapshot, mbind, st_bind, gets in *; cbn.
    destruct (str_empty _) eqn:E; [done|]. autorewrite with cts_norm in E.
    exact (Hups _ (hs w) (out w) _ E eq_refl Hw).
Qed.

Lemma end_invariant_frame :
  loop_invariant c I -> end_invariant I -> end_frame (keeps in_world).
Proof.
  intros Hl [Hdel Hrem]. destruct (loop_invariant_frame Hl) as [[Hb _ _ _ _] Hd Hs _ _ _].
  split; [done..| |]; intros w Hw;
    unfold current_session_id, in_world, mbind, st_bind, gets in *; cbn.
  - unfold deleteSessionSnapshot. destruct (str_empty _); [done|].
    exact (Hdel _ (hs w) (out w) Hw).
  - unfold removeConnection. destruct (str_empty _); [done|].
    unfold mbind, st_bind, gets in *; cbn.
    destruct (connections (hs w) !! _) as [p|] eqn:E; [|done].
    exact (Hrem _ (hs w) (out w) p E Hw).
Qed.

(** An invariant of both kinds holds after any traffic. *)
Lemma serve_loop_invariant traffic w :
  loop_invariant c I -> end_invariant I -> in_world w ->
  in_world (serve_loop h c traffic w).2.
Proof.
  intros Hl He. apply (end_serve_loop h c (keeps in_world));
    [by apply loop_invariant_frame|by apply end_invariant_frame].
Qed.
End invariant.

Lemma loop_invariant_and c I J :
  loop_invariant c I -> loop_invariant c J -> loop_invariant c (fun sid s o => I sid s o /\ J sid s o).
Proof. intros [] []. split; naive_solver. Qed.

Lemma end_invariant_and I J :
  end_invariant I -> end_invariant J -> end_invariant (fun sid s o => I sid s o /\ J sid s o).
Proof. intros [] []. split; naive_solver. Qed.

(** A turn keeps [R], except that it may end with the clean-up after a read error. *)
Lemma serve_turn_cases c (R R' : world DB S -> world DB S -> Prop) `{!PreOrder R} i w :
  serve_frame_full h c R -> (forall err, steps R' (serve_read_error h c err)) ->
  let '(k, w') := serve_turn h c i w in
  R w w' \/ (k = Return /\ exists w1, R w w1 /\ R' w1 w').
Proof.
  intros HF Herr. pose proof (full_serve_input h c R HF i) as Hi.
  destruct i as [b raw|raw| |err]; cbn [serve_turn]; unfold mbind, st_bind, mret, st_ret.
  - specialize (Hi w). destruct (serve_message h c b raw w); cbn in Hi |- *. by left.
  - specialize (Hi w). destruct (on_ping h c raw w) as [[e|] w1]; cbn in Hi |- *; [|by left].
    specialize (Herr e w1). destruct (serve_read_error h c e w1) as [[] w2]; cbn in Herr |- *. right. eauto.
  - specialize (Hi w). destruct (on_pong h c w) as [[] w1]; cbn in Hi |- *. by left.
  - specialize (Herr err w). destruct (serve_read_error h c err w) as [[] w2]; cbn in Herr |- *.
    right. split; [done|]. exists w. split; [reflexivity|done].
Qed.

(** The phases of a [Serve] call. *)
Inductive serve_phases (r : http_request) (conn : Z) (connID sid rid ip : string)
    (traffic : list inbound) (w : W) : option ctl + string -> W -> Prop :=
  | sp_rejected reason :
      authorizeWSClientCertificate (auth h) r = inr reason ->
      serve_phases r conn connID sid rid ip traffic w (inr reason) w
  | sp_waiting c w1 w2 :
      authorizeWSClientCertificate (auth h) r = inl tt ->
      serve_open h conn connID sid rid ip (extractClientCertificateCN r) w = (c, w1) ->
      serve_loop h c traffic w1 = (None, w2) ->
      serve_phases r conn connID sid rid ip traffic w (inl None) w2
  | sp_returned c w1 k w2 :
      authorizeWSClientCertificate (auth h) r = inl tt ->
      serve_open h conn connID sid rid ip (extractClientCertificateCN r) w = (c, w1) ->
      serve_loop h c traffic w1 = (Some k, w2) ->
      serve_phases r conn connID sid rid ip traffic w (inl (Some k)) (serve_defers conn sid w2).2.

Lemma Serve_phases r conn connID sid rid ip traffic (w : W) :
  let '(res, w') := Serve h r conn connID sid rid ip traffic w in
  serve_phases r conn connID sid rid ip traffic w res w'.
Proof.
  unfold Serve. destruct (authorizeWSClientCertificate (auth h) r) as [[]|reason] eqn:Ea; cbn.
  - unfold mbind, st_bind, mret, st_ret.
    destruct (serve_open _ _ _ _ _ _ _ w) as [c w1] eqn:Eo.
    destruct (serve_loop h c traffic w1) as [[k|] w2] eqn:El.
    + destruct (serve_defers conn sid w2) as [[] w3] eqn:Ed.
      replace w3 with (serve_defers conn sid w2).2 by (by rewrite Ed). by econstructor.
    + by econstructor.
  - by constructor.
Qed.
End facts.
