(* ===== verification/HandlerInv.v ===== *)
(** * Invariants of the WebSocket handler

    Instances of the loop invariants of HandlerFacts.v: outbound error codes, the
    disconnect metrics, the snapshot table, the connection registry and the outbound
    numbering; and the properties of [Serve] that follow. *)

From S2P Require Import Prelude GoFloat Protocol Session Conn Telemetry Auth StateM Interfaces Handler HandlerDemo HandlerFrame HandlerFacts.

(** ** Outbound errors *)

Definition codes_ok (o : list out_event) : Prop :=
  Forall (fun e => match e with OutText _ msg _ => error_supported msg | _ => True end) o.

Lemma error_supported_stamp sa msg : error_supported (stamp sa msg) = error_supported msg.
Proof. unfold error_supported, out_error_code. by rewrite stamp_Payload. Qed.

Lemma outgoing_supported s conn msg :
  error_supported msg -> error_supported (outgoing s conn msg).2.
Proof.
  unfold outgoing. intros H. repeat case_match; cbn; rewrite ?error_supported_stamp; done.
Qed.

Lemma codes_ok_loop c : loop_invariant c (fun _ _ o => codes_ok o).
Proof.
  split; try done.
  - intros ? s o e He Ho. apply Forall_app. split; [done|]. constructor; [|done]. by destruct e.
  - intros ? s o msg ev Hm Ho (err & [->| ->]); apply Forall_app; (split; [done|]);
      (constructor; [|done]); [by apply outgoing_supported|done].
Qed.

Lemma codes_ok_end : end_invariant (fun _ _ o => codes_ok o).
Proof. by split. Qed.

(** ** Disconnect metrics *)

Definition sum_map (m : gmap string Z) : Z := map_fold (fun _ n acc => (n + acc)%Z) 0%Z m.

Lemma sum_map_insert_new m r n : m !! r = None -> sum_map (<[r := n]> m) = (n + sum_map m)%Z.
Proof. intros Hr. unfold sum_map. rewrite map_fold_insert_L; [done|intros; lia|done]. Qed.

Lemma sum_map_insert m r n :
  (sum_map (<[r := n]> m) = n + sum_map m - default 0 (m !! r))%Z.
Proof.
  destruct (m !! r) as [x|] eqn:E; cbn.
  - rewrite <- insert_delete_eq, sum_map_insert_new by apply lookup_delete_eq.
    rewrite <- (insert_delete_id m r x E) at 2.
    rewrite sum_map_insert_new by apply lookup_delete_eq. lia.
  - rewrite sum_map_insert_new by done. lia.
Qed.

(** The total is the sum over the reasons, and the 4009 counter is the count of its
    reason; counters are [uint64]. *)
Record metrics_ok (s : HandlerState) : Prop := {
  mo_total : disconnectTotal s = wrapu64 (sum_map (disconnectByReason s));
  mo_close : disconnectClose4009 s =
             default 0%Z (disconnectByReason s !! wsDisconnectReasonClose4009)
}.

Lemma metrics_ok_count r s :
  metrics_ok s -> metrics_ok (count_disconnect r (r =s wsDisconnectReasonClose4009) s).
Proof.
  intros [Ht Hc]. unfold count_disconnect.
  assert (forall f, sum_map (<[r := wrapu64 (default 0 (disconnectByReason s !! r) + 1)]>
    (disconnectByReason s)) mod two64 = f -> wrapu64 (disconnectTotal s + 1) = f)%Z as Hsum.
  { intros f <-. rewrite sum_map_insert, Ht. unfold wrapu64.
    generalize (default 0%Z (disconnectByReason s !! r)) (sum_map (disconnectByReason s)).
    intros x y. rewrite Zplus_mod_idemp_l.
    replace ((x + 1) mod two64 + y - x)%Z with ((x + 1) mod two64 + (y - x))%Z by lia.
    rewrite Zplus_mod_idemp_l. f_equal; lia. }
  destruct (str_eqb r wsDisconnectReasonClose4009) eqn:E;
    [apply str_eqb_eq in E as ->|apply str_eqb_neq in E]; split; cbn.
  - by apply Hsum.
  - rewrite lookup_insert_eq. cbn. by rewrite Hc.
  - by apply Hsum.
  - by rewrite lookup_insert_ne by done.
Qed.

Lemma after_send_other {V} (f : HandlerState -> V) s conn :
  (forall g : list wsConnectionEntry -> list wsConnectionEntry, f (s <| entries ::= g |>) = f s) ->
  f (after_send s conn) = f s.
Proof. intros Hf. unfold after_send. case_match; [|done]. apply Hf. Qed.

Lemma metrics_ok_proj s s' :
  disconnectTotal s' = disconnectTotal s -> disconnectClose4009 s' = disconnectClose4009 s ->
  disconnectByReason s' = disconnectByReason s -> metrics_ok s -> metrics_ok s'.
Proof. intros H1 H2 H3 []. split; congruence. Qed.

Lemma metrics_ok_loop c : loop_invariant c (fun _ s _ => metrics_ok s).
Proof.
  split; try done.
  - intros ? s o msg evs _ Hs _. by apply (metrics_ok_proj s); [apply after_send_other..|].
  - intros ? s o f p _ _ Hs. by apply (metrics_ok_proj s).
  - intros ? s o r b ->. apply metrics_ok_count.
  - intros ? s o sr _ _ Hs. by apply (metrics_ok_proj s).
Qed.

Lemma metrics_ok_end : end_invariant (fun _ s _ => metrics_ok s).
Proof. split; intros ? s **; by apply (metrics_ok_proj s). Qed.

(** ** Snapshots *)

(** Every snapshot is stored under its own session id and names a trader. *)
Definition snapshots_ok (s : HandlerState) : Prop :=
  map_Forall (fun sid t => ts_SessionID t = sid /\ ts_TraderID t <> "") (sessions s).

Lemma snapshots_ok_loop c : loop_invariant c (fun _ s _ => snapshots_ok s).
Proof.
  split; try done; unfold snapshots_ok.
  - intros ? s o msg evs _ Hs _. by rewrite (after_send_other sessions) by done.
  - intros ? s o r b _. unfold count_disconnect. by destruct b.
  - intros ? s o sr Htid <- Hs. by apply map_Forall_insert_2.
Qed.

Lemma snapshots_ok_end : end_invariant (fun _ s _ => snapshots_ok s).
Proof. split; [|done]. intros sid s o Hs. by apply map_Forall_delete. Qed.

(** ** The connection registry *)

(** Both maps describe the same set of open entries. *)
Record registry_ok (s : HandlerState) : Prop := {
  ro_session : forall sid p, connections s !! sid = Some p ->
    exists e, entries s !! p = Some e /\ ce_sessionID e = sid /\ ce_closed e = false /\
      connectionsByConn s !! ce_conn e = Some p;
  ro_conn : forall k p, connectionsByConn s !! k = Some p ->
    exists e, entries s !! p = Some e /\ ce_conn e = k /\ connections s !! ce_sessionID e = Some p
}.

(** The fields of an entry that identify it. *)
Definition entry_id (e : wsConnectionEntry) : string * Z * bool :=
  (ce_sessionID e, ce_conn e, ce_closed e).

Lemma registry_ok_ext s s' :
  connections s' = connections s -> connectionsByConn s' = connectionsByConn s ->
  (forall p, entry_id <$> entries s' !! p = entry_id <$> entries s !! p) ->
  registry_ok s -> registry_ok s'.
Proof.
  intros Hc Hk He [H1 H2].
  assert (forall p e, entries s !! p = Some e -> exists e', entries s' !! p = Some e' /\
    ce_sessionID e' = ce_sessionID e /\ ce_conn e' = ce_conn e /\ ce_closed e' = ce_closed e) as Hx.
  { intros p e Hp. specialize (He p). rewrite Hp in He. unfold entry_id in He.
    destruct (entries s' !! p) as [e'|]; cbn in He; naive_solver. }
  split; rewrite Hc, Hk.
  - intros sid p Hp. destruct (H1 sid p Hp) as (e & He1 & ? & ? & ?).
    destruct (Hx p e He1) as (e' & ? & Hs' & Hk' & Hcl'). exists e'. rewrite Hs', Hk', Hcl'. done.
  - intros k p Hp. destruct (H2 k p Hp) as (e & He1 & ? & ?).
    destruct (Hx p e He1) as (e' & ? & Hs' & Hk' & Hcl'). exists e'. by rewrite Hs', Hk'.
Qed.

Lemma entry_update_id f e : entry_update f -> entry_id (f e) = entry_id e.
Proof.
  destruct 1; unfold observeInboundSeq, observePeerAck, recordPongReceived, entry_id;
    repeat case_match; done.
Qed.

Lemma alter_entry_id (f : wsConnectionEntry -> wsConnectionEntry) (l : list wsConnectionEntry) (p q : nat) :
  (forall e, entry_id (f e) = entry_id e) ->
  entry_id <$> alter f p l !! q = entry_id <$> l !! q.
Proof.
  intros Hf. rewrite list_lookup_alter. destruct (decide (p = q)) as [->|]; [|done].
  destruct (l !! q); cbn; by rewrite ?Hf.
Qed.

Lemma after_send_entry_id s conn q :
  entry_id <$> entries (after_send s conn) !! q = entry_id <$> entries s !! q.
Proof.
  unfold after_send. destruct (connectionsByConn s !! conn); [|done].
  cbn. by apply alter_entry_id.
Qed.

Lemma registry_ok_unregister s sid p :
  registry_ok s -> connections s !! sid = Some p -> registry_ok (unregister sid p s).
Proof.
  intros [H1 H2] Hp. destruct (H1 sid p Hp) as (e & He & Hsid & Hcl & Hk).
  split; unfold unregister; cbn; rewrite He; cbn.
  - intros sid' p' [Hne Hp']%lookup_delete_Some.
    destruct (H1 sid' p' Hp') as (e' & He' & Hsid' & Hcl' & Hk').
    assert (p <> p') as Hpp by (intros ->; simplify_eq).
    exists e'. rewrite list_lookup_alter_ne by done. split_and!; try done.
    apply lookup_delete_Some. split; [|done]. intros Heq. rewrite Heq in Hk. congruence.
  - intros k p' [Hne Hp']%lookup_delete_Some.
    destruct (H2 k p' Hp') as (e' & He' & Hk' & Hc').
    assert (p <> p') as Hpp by (intros ->; simplify_eq).
    exists e'. rewrite list_lookup_alter_ne by done. split_and!; try done.
    apply lookup_delete_Some. split; [|done]. intros Heq. congruence.
Qed.

Lemma registry_ok_add s sid conn :
  connections s !! sid = None -> connectionsByConn s !! conn = None -> registry_ok s ->
  registry_ok (s <| entries ::= fun l => l ++ [new_entry sid conn] |>
                 <| connections ::= <[sid := length (entries s)]> |>
                 <| connectionsByConn ::= <[conn := length (entries s)]> |>).
Proof.
  intros Hs Hk [H1 H2]. split; cbn.
  - intros sid' p [[<- <-]|[Hne Hp]]%lookup_insert_Some.
    + exists (new_entry sid conn). rewrite list_lookup_middle by done. cbn.
      split_and!; try done. by rewrite lookup_insert_eq.
    + destruct (H1 sid' p Hp) as (e & He & ? & ? & Hkp). exists e.
      rewrite lookup_app_l_Some with (x := e) by done. split_and!; try done.
      rewrite lookup_insert_ne; [done|]. intros ->. congruence.
  - intros k p [[<- <-]|[Hne Hp]]%lookup_insert_Some.
    + exists (new_entry sid conn). rewrite list_lookup_middle by done. cbn.
      split_and!; try done. by rewrite lookup_insert_eq.
    + destruct (H2 k p Hp) as (e & He & ? & Hc). exists e.
      rewrite lookup_app_l_Some with (x := e) by done. split_and!; try done.
      rewrite lookup_insert_ne; [done|]. intros ->. congruence.
Qed.

Lemma registry_ok_proj s s' :
  connections s' = connections s -> connectionsByConn s' = connectionsByConn s ->
  entries s' = entries s -> registry_ok s -> registry_ok s'.
Proof. intros ? ? He. apply registry_ok_ext; [done..|]. by rewrite He. Qed.

Lemma registry_ok_loop c : loop_invariant c (fun _ s _ => registry_ok s).
Proof.
  split; try done.
  - intros ? s o msg evs _ Hs _. apply (registry_ok_ext s); try done.
    + by apply (after_send_other connections).
    + by apply (after_send_other connectionsByConn).
    + apply after_send_entry_id.
  - intros ? s o f p Hf _ Hs. apply (registry_ok_ext s); try done.
    intros q. apply alter_entry_id. intros e. by apply entry_update_id.
  - intros ? s o r b _ Hs. apply (registry_ok_proj s); unfold count_disconnect; by destruct b.
  - intros ? s o sr _ _ Hs. by apply (registry_ok_proj s).
Qed.

Lemma registry_ok_end : end_invariant (fun _ s _ => registry_ok s).
Proof.
  split; [intros ? s o Hs; by apply (registry_ok_proj s)|].
  intros sid s o p Hp Hs. by apply registry_ok_unregister.
Qed.

Section serve.
Context {DB S : Type} `{!SessionPersistence DB} `{!RuntimeSink S} `{!WsJson} `{!ServeEnv}.
Context (h : handler_config).

Abbreviation W := (world DB S).

(** ** Opening and closing *)

(** The answer to the upgrade, written or not. *)
Definition greeting (conn : Z) (e : out_event) : Prop :=
  exists err, e = OutConnected conn err \/ e = OutUnwritten (OutConnected conn err).

(** The handler state right after [serve_open]. *)
Definition opened (s : HandlerState) (now : Z) (sid : string) (conn : Z) : HandlerState :=
  let s := s <| active ::= fun n => wrap64 (n + 1) |> <| total ::= fun n => wrap64 (n + 1) |>
             <| lastSeen := time_unix now |> in
  s <| entries ::= fun l => l ++ [new_entry sid conn] |>
    <| connections ::= <[sid := length (entries s)]> |>
    <| connectionsByConn ::= <[conn := length (entries s)]> |>.

Lemma serve_open_spec (w : W) conn connID sid rid ip cn c w' :
  serve_open h conn connID sid rid ip cn w = (c, w') ->
  hs w' = opened (hs w) (clock (tick w)) sid conn /\
  session (loc w') = newSessionRuntime sid /\ persistedSession (loc w') = false /\
  db w' = db w /\
  c = {| sc_conn := conn; sc_connID := connID; sc_requestID := rid; sc_clientIP := ip;
         sc_clientCertCN := cn; sc_connEntry := length (entries (hs w)) |} /\
  exists evs, out w' = out w ++ evs /\ Forall (greeting conn) evs.
Proof.
  destruct w as [hst l d sk t wt o]. unfold serve_open.
  unfold syncRuntimeState, addConnection, extend_read_deadline, writeConnected, withWriteLock,
    writeWithDeadline, greeting, entry_conn, modify_session, modify_loc, modify_hs, modify_sink,
    modify, when, gets, emit, conn_call, time_now, mbind, st_bind, mret, st_ret.
  cbn. destruct (heartbeatTimeout h >? 0)%Z; cbn;
    destruct (conn_write wt) as [e1|]; cbn; try destruct (conn_write (Datatypes.S wt)) as [e2|]; cbn;
    intros [= <- <-]; cbn; split_and!; try done;
    (eexists; split; [reflexivity|]; constructor; [|constructor];
     rewrite list_lookup_middle by done; cbn; eauto).
Qed.

(** The registry while [sid] is served, relative to the state [s0] before. *)
Definition served (sid : string) (conn : Z) (p : nat) (s0 : HandlerState)
    (sid' : string) (s : HandlerState) (o : list out_event) : Prop :=
  sid' = sid /\ registry_ok s /\ active s = wrap64 (active s0 + 1) /\
  ((connections s = <[sid := p]> (connections s0) /\
    connectionsByConn s = <[conn := p]> (connectionsByConn s0)) \/
   (connections s = connections s0 /\ connectionsByConn s = connectionsByConn s0)).

Lemma served_loop sid conn p s0 c : loop_invariant c (served sid conn p s0).
Proof.
  destruct (registry_ok_loop c) as [Hemit Hsend Hentry Hdisc Hups].
  split; unfold served.
  - done.
  - intros sid' s o msg evs Hm (Hsid & Hr & Ha & Hc) Hev.
    rewrite (after_send_other active), (after_send_other connections),
      (after_send_other connectionsByConn) by done.
    split_and!; [done|by apply (Hsend sid s o _ _ Hm Hr Hev)|done..].
  - intros sid' s o f q Hf Hq (Hsid & Hr & Ha & Hc).
    split_and!; [done|by apply (Hentry sid' s o f q Hf Hq)|done..].
  - intros sid' s o r b Hb (Hsid & Hr & Ha & Hc).
    split_and!; [done|by apply (Hdisc sid s o)|unfold count_disconnect; by destruct b..].
  - intros sid' s o sr Ht Heq (Hsid & Hr & Ha & Hc).
    split_and!; [done|by apply (Hups sid' s o)|done..].
Qed.

Lemma served_end sid conn p s0 :
  connections s0 !! sid = None -> connectionsByConn s0 !! conn = None ->
  end_invariant (served sid conn p s0).
Proof.
  intros Hf1 Hf2. split; unfold served.
  - intros sid' s o (-> & Hr & Ha & Hc). split_and!; try done.
    by apply (ei_delete _ registry_ok_end sid s o).
  - intros sid' s o q Hq (-> & Hr & Ha & Hc). split_and!; try done.
    { by apply registry_ok_unregister. }
    right. destruct Hc as [[Hc Hk]|[Hc Hk]]; [|rewrite Hc in Hq; congruence].
    rewrite Hc, lookup_insert_eq in Hq. injection Hq as <-.
    destruct (ro_conn s Hr conn p) as (e & He & Hek & _); [by rewrite Hk, lookup_insert_eq|].
    unfold unregister. cbn. rewrite He, Hek, Hc, Hk, !delete_insert_id by done. done.
Qed.

Lemma serve_defers_hs (w : W) conn sid :
  sid <> "" ->
  hs (serve_defers conn sid w).2 =
    (match connections (hs w) !! sid with
     | Some p => unregister sid p (hs w)
     | None => hs w
     end) <| active ::= fun n => wrap64 (n - 1) |>.
Proof.
  intros Hne. unfold serve_defers, removeConnection, syncRuntimeState, modify_sink.
  rewrite (proj2 (str_empty_false sid) Hne).
  unfold modify_hs, with_entry, modify, gets, emit, mbind, st_bind, mret, st_ret; cbn.
  by destruct (connections (hs w) !! sid).
Qed.

(** ** Properties of [Serve] *)

(** What every goroutine may assume of the shared state and the traffic. *)
Definition handler_ok (s : HandlerState) (o : list out_event) : Prop :=
  registry_ok s /\ snapshots_ok s /\ metrics_ok s /\ codes_ok o.

Lemma handler_ok_loop c : loop_invariant c (fun _ s o => handler_ok s o).
Proof.
  apply (loop_invariant_and c (fun _ s _ => registry_ok s)); [apply registry_ok_loop|].
  apply (loop_invariant_and c (fun _ s _ => snapshots_ok s)); [apply snapshots_ok_loop|].
  apply (loop_invariant_and c (fun _ s _ => metrics_ok s));
    [apply metrics_ok_loop|apply codes_ok_loop].
Qed.

Lemma handler_ok_end : end_invariant (fun _ s o => handler_ok s o).
Proof.
  apply (end_invariant_and (fun _ s _ => registry_ok s)); [apply registry_ok_end|].
  apply (end_invariant_and (fun _ s _ => snapshots_ok s)); [apply snapshots_ok_end|].
  apply (end_invariant_and (fun _ s _ => metrics_ok s));
    [apply metrics_ok_end|apply codes_ok_end].
Qed.

Lemma handler_ok_init : handler_ok new_handler_state [].
Proof. split_and!; [split; cbn; intros; simplify_map_eq|apply map_Forall_empty|done|constructor]. Qed.

Lemma codes_ok_connected o evs conn :
  codes_ok o -> Forall (greeting conn) evs -> codes_ok (o ++ evs).
Proof.
  intros Ho Hevs. apply Forall_app. split; [done|].
  eapply Forall_impl; [exact Hevs|]. by intros e (err & [->| ->]).
Qed.

Lemma registry_ok_opened s now sid conn :
  connections s !! sid = None -> connectionsByConn s !! conn = None ->
  registry_ok s -> registry_ok (opened s now sid conn).
Proof.
  intros Hs Hk Hr.
  apply (registry_ok_add (s <| active ::= fun n => wrap64 (n + 1) |>
    <| total ::= fun n => wrap64 (n + 1) |> <| lastSeen := time_unix now |>)); [done..|].
  by apply (registry_ok_proj s).
Qed.

Lemma handler_ok_opened s o now sid conn :
  connections s !! sid = None -> connectionsByConn s !! conn = None ->
  handler_ok s o -> handler_ok (opened s now sid conn) o.
Proof.
  intros Hs Hk (Hr & Hsn & Hm & Ho). split_and!; try done.
  - by apply registry_ok_opened.
  - by apply (metrics_ok_proj s).
Qed.

Lemma handler_ok_defers (w : W) conn sid :
  sid <> "" -> handler_ok (hs w) (out w) ->
  handler_ok (hs (serve_defers conn sid w).2) (out (serve_defers conn sid w).2).
Proof.
  intros Hne (Hr & Hsn & Hm & Ho). rewrite serve_defers_hs by done.
  assert (codes_ok (out (serve_defers conn sid w).2)) as Ho'.
  { unfold serve_defers, removeConnection, syncRuntimeState, modify_sink.
    rewrite (proj2 (str_empty_false sid) Hne).
    unfold modify_hs, with_entry, modify, gets, emit, mbind, st_bind, mret, st_ret; cbn.
    destruct (connections (hs w) !! sid); cbn; apply Forall_app; (split; [done|]);
      repeat constructor. }
  destruct (connections (hs w) !! sid) as [p|] eqn:E.
  - split_and!; [|done| |done].
    + apply (registry_ok_proj (unregister sid p (hs w))); [done..|]. by apply registry_ok_unregister.
    + by apply (metrics_ok_proj (hs w)).
  - split_and!; [|done| |done]; [by apply (registry_ok_proj (hs w))|by apply (metrics_ok_proj (hs w))].
Qed.

(** A whole [Serve] call, whatever its traffic and however its writes and
    database calls fail, keeps the shared state sound: the two connection maps
    describe the same open entries, every snapshot sits under its own session id
    and names a trader, the disconnect total is the sum over the reasons and the
    4009 counter the count of its reason, and every error ever sent carries a
    code of the protocol. *)
Theorem Serve_keeps_handler_ok (r : http_request) (conn : Z) (connID sid rid ip : string)
    (traffic : list inbound) (w : W)
    (Hsid : sid <> "") (Hfresh : connections (hs w) !! sid = None)
    (Hconn : connectionsByConn (hs w) !! conn = None)
    (Hok : handler_ok (hs w) (out w)) :
  let w' := (Serve h r conn connID sid rid ip traffic w).2 in handler_ok (hs w') (out w').
Proof.
  pose proof (Serve_phases h r conn connID sid rid ip traffic w) as Hp.
  destruct (Serve _ _ _ _ _ _ _ _ w) as [res w']; cbn.
  assert (forall c w1 w2, serve_open h conn connID sid rid ip (extractClientCertificateCN r) w = (c, w1) ->
    (serve_loop h c traffic w1).2 = w2 -> handler_ok (hs w2) (out w2)) as Hloop.
  { intros c w1 w2 Ho <-.
    destruct (serve_open_spec w _ _ _ _ _ _ _ _ Ho) as (Hs & _ & _ & _ & _ & evs & He & Hevs).
    apply (serve_loop_invariant h c (fun _ s o => handler_ok s o));
      [apply handler_ok_loop|apply handler_ok_end|].
    unfold in_world. rewrite Hs, He.
    destruct (handler_ok_opened _ _ (clock (tick w)) _ _ Hfresh Hconn Hok) as (? & ? & ? & ?).
    split_and!; [done..|]. by apply (codes_ok_connected _ _ conn). }
  destruct Hp as [|c w1 w2 _ Ho Hl|c w1 k w2 _ Ho Hl]; [done|..];
    specialize (Hloop c w1 w2 Ho ltac:(by rewrite Hl)); [done|].
  by apply handler_ok_defers.
Qed.

(** When a [Serve] call has returned, for whatever reason, the connection maps
    and the counter of active connections are what they were before it. *)
Theorem Serve_releases_connection (r : http_request) (conn : Z) (connID sid rid ip : string)
    (traffic : list inbound) (w w' : W) (k : ctl)
    (Hsid : sid <> "") (Hfresh : connections (hs w) !! sid = None)
    (Hconn : connectionsByConn (hs w) !! conn = None)
    (Hok : registry_ok (hs w)) (Hact : in_int64 (active (hs w)))
    (Hret : Serve h r conn connID sid rid ip traffic w = (inl (Some k), w')) :
  connections (hs w') = connections (hs w) /\
  connectionsByConn (hs w') = connectionsByConn (hs w) /\
  active (hs w') = active (hs w).
Proof.
  pose proof (Serve_phases h r conn connID sid rid ip traffic w) as Hp. rewrite Hret in Hp.
  inversion Hp as [| |c w1 k' w2 _ Ho Hl]; subst. clear Hp.
  destruct (serve_open_spec w _ _ _ _ _ _ _ _ Ho) as (Hs & Hse & _ & _ & _ & _).
  assert (served sid conn (length (entries (hs w))) (hs w) (sessionID (session (loc w2)))
    (hs w2) (out w2)) as (_ & Hr2 & Ha2 & Hc2).
  { replace w2 with (serve_loop h c traffic w1).2 by (by rewrite Hl).
    apply (serve_loop_invariant h c (served sid conn (length (entries (hs w))) (hs w)));
      [apply served_loop|by apply served_end|].
    unfold in_world. rewrite Hs, Hse. split_and!; [done| |done|by left].
    by apply registry_ok_opened. }
  rewrite serve_defers_hs by done.
  assert (wrap64 (wrap64 (active (hs w) + 1) - 1) = active (hs w)) as Hw by ints.
  destruct Hc2 as [[Hc Hk]|[Hc Hk]]; rewrite Hc; [rewrite lookup_insert_eq|rewrite Hfresh].
  - destruct (ro_conn _ Hr2 conn (length (entries (hs w)))) as (e & He & Hek & _);
      [by rewrite Hk, lookup_insert_eq|].
    cbn. by rewrite He, Hek, Hc, Hk, !delete_insert_id, Ha2.
  - cbn. by rewrite Hc, Hk, Ha2.
Qed.
End serve.

Definition demo_traffic : list inbound :=
  [InMessage true "register"; InMessage true "heartbeat"; InMessage false "x"; InPong;
   InPing "0123456789abcdef"; InError (EClose 4009 "gap")].

Lemma Serve_keeps_handler_ok_witness :
  let w' := (demo_serve demo_traffic).2 in
  handler_ok (hs w') (out w') /\ disconnectTotal (hs w') = 1%Z /\ length (out w') = 7%nat.
Proof.
  split; [|split; vm_compute; reflexivity].
  apply (Serve_keeps_handler_ok demo_config demo_request 5 "c1" "s1" "q1" "10.0.0.1" demo_traffic
    demo_world); [done..|apply handler_ok_init].
Defined.

Lemma Serve_releases_connection_witness :
  let w' := (demo_serve demo_traffic).2 in
  connections (hs w') = connections (hs demo_world) /\
  connectionsByConn (hs w') = connectionsByConn (hs demo_world) /\
  active (hs w') = active (hs demo_world).
Proof.
  cbv zeta. apply (Serve_releases_connection demo_config demo_request 5 "c1" "s1" "q1" "10.0.0.1"
    demo_traffic demo_world (demo_serve demo_traffic).2 Return).
  - discriminate.
  - reflexivity.
  - reflexivity.
  - apply handler_ok_init.
  - cbn. ints.
  - vm_compute. reflexivity.
Defined.
