(* ===== verification/HandlerSession.v ===== *)
(** * The session of a connection

    The session state machine as the message loop drives it, turn by turn: its life
    cycle, where
    its identity comes from, and what its telemetry satisfies.  The session is only
    written by [modify_session], so a turn of the loop is run symbolically on it. *)

From S2P Require Import Prelude GoFloat Protocol Session Conn Telemetry Auth StateM Interfaces Handler HandlerDemo HandlerFrame HandlerFacts.

(** ** The life cycle *)

(** What a message with action [a] may do to the state of a live session: a register
    message takes a connected session to registered, a heartbeat a registered one to
    active, and nothing else moves it. *)
Definition moves (a : string) (s s' : sessionState) : Prop :=
  s' = s \/
  (a = actionTraderRegister /\ s = sessionStateConnected /\ s' = sessionStateRegistered) \/
  (a = actionTraderHeartbeat /\ s = sessionStateRegistered /\ s' = sessionStateActive).

(** Values of load indices: NaN, which JSON cannot carry, aside, between 0 and 1. *)
Definition in_unit (v : f64) : Prop := f_lt v f_zero = false /\ f_lt f_one v = false.

Record session_data_ok (s : sessionRuntime) : Prop := {
  sd_latencies : latencies_ok (exchangeLatencies s);
  sd_load : in_unit (loadIndex s);
  sd_trade : in_unit (tradeLoadIndex s);
  sd_profile : f_lt (latencyProfileMs s) f_zero = false
}.

(** A session of a loop that still runs. *)
Definition session_live (s : sessionRuntime) : Prop :=
  match state s with
  | sessionStateConnected => traderID s = ""
  | sessionStateRegistered | sessionStateActive => traderID s <> ""
  | _ => False
  end /\ session_data_ok s.

Lemma normalizeUnitRange_in_unit v : in_unit (normalizeUnitRange v).
Proof.
  unfold in_unit, normalizeUnitRange, f_gt.
  destruct (f_lt v f_zero) eqn:E1; [by vm_compute|].
  destruct (f_lt f_one v) eqn:E2; [by vm_compute|]. done.
Qed.

Lemma setTelemetry_ok l t s : session_data_ok s -> session_data_ok (setTelemetry l t s).
Proof. intros []. split; try done; apply normalizeUnitRange_in_unit. Qed.

Lemma setLatencyProfile_ok p s : session_data_ok s -> session_data_ok (setLatencyProfile p s).
Proof. intros []. split; try done. cbn. by destruct (f_lt p f_zero) eqn:E. Qed.

Lemma setExchangeLatencies_ok m s :
  latencies_ok m -> session_data_ok s -> session_data_ok (setExchangeLatencies m s).
Proof.
  intros Hm []. unfold setExchangeLatencies. case_bool_decide; split; try done; cbn.
  intros k v [Hk _]%map_lookup_filter_Some. by apply Hm.
Qed.

Lemma markHeartbeat_ok n s : session_data_ok s -> session_data_ok (markHeartbeat n s).
Proof. by intros []. Qed.
Lemma markRegistered_ok t n s : session_data_ok s -> session_data_ok (markRegistered t n s).
Proof. by intros []. Qed.
Lemma setRegistrationInfo_ok r c e d st_ s :
  session_data_ok s -> session_data_ok (setRegistrationInfo r c e d st_ s).
Proof. by intros []. Qed.

Lemma heartbeat_telemetry_ok req s :
  session_data_ok s -> session_data_ok (heartbeat_telemetry req s).
Proof.
  intros Hs. unfold heartbeat_telemetry. cbv zeta.
  set (s1 := if bool_decide _ then s else _).
  assert (session_data_ok s1) as H1
    by (unfold s1; case_bool_decide; [done|]; apply setExchangeLatencies_ok; auto with cts).
  set (s2 := match buildLatencyProfileFromExchangeStats _ _ with Some _ => _ | None => _ end).
  assert (session_data_ok s2) as H2 by (unfold s2; case_match; auto using setLatencyProfile_ok).
  destruct (hr_LoadIndex req), (hr_TradeLoadIndex req); auto using setTelemetry_ok.
Qed.

Lemma session_data_ok_new sid : session_data_ok (newSessionRuntime sid).
Proof. split; try by vm_compute. Qed.

(** The fields telemetry leaves alone. *)
Lemma heartbeat_telemetry_fields req s :
  state (heartbeat_telemetry req s) = state s /\ traderID (heartbeat_telemetry req s) = traderID s.
Proof. unfold heartbeat_telemetry, setExchangeLatencies. repeat case_match; split; reflexivity. Qed.

Lemma setExchangeLatencies_fields m s :
  state (setExchangeLatencies m s) = state s /\ traderID (setExchangeLatencies m s) = traderID s.
Proof. unfold setExchangeLatencies. by case_match. Qed.

#[export] Hint Resolve setTelemetry_ok setLatencyProfile_ok setExchangeLatencies_ok markHeartbeat_ok
  markRegistered_ok setRegistrationInfo_ok heartbeat_telemetry_ok session_data_ok_new : cts.

(** ** Symbolic runs on the session *)

Section session.
Context {DB S : Type} `{!SessionPersistence DB} `{!RuntimeSink S} `{!WsJson} `{!ServeEnv}.
Context (h : handler_config).

Abbreviation W := (world DB S).
Abbreviation M := (st (world DB S)).

Definition the_session (w : W) : sessionRuntime := session (loc w).

(** From session [s], [m] ends with a result and a session in [Q]. *)
Definition runs {A} (s : sessionRuntime) (m : M A) (Q : A -> sessionRuntime -> Prop) : Prop :=
  triple (fun w => the_session w = s) m (fun a w => Q a (the_session w)).

Lemma runs_ret {A} s (a : A) (Q : A -> sessionRuntime -> Prop) : Q a s -> runs s (mret a) Q.
Proof. intros HQ w <-. done. Qed.

Lemma runs_bind {A B} s (m : M A) (f : A -> M B) P Q :
  runs s m P -> (forall a s', P a s' -> runs s' (f a) Q) -> runs s (m ≫= f) Q.
Proof.
  intros Hm Hf w Hw. specialize (Hm w Hw). unfold mbind, st_bind.
  destruct (m w) as [a w']; cbn in *. by apply (Hf a _ Hm).
Qed.

Lemma runs_weaken {A} s (m : M A) (P Q : A -> sessionRuntime -> Prop) :
  runs s m P -> (forall a s', P a s' -> Q a s') -> runs s m Q.
Proof. intros Hm HPQ w Hw. by apply HPQ, Hm. Qed.

(** A step that leaves the session alone, with what is known of its result. *)
Lemma runs_same {A B} s (m : M A) (f : A -> M B) (φ : A -> Prop) Q :
  steps (same the_session) m -> (forall w, φ (m w).1) ->
  (forall a, φ a -> runs s (f a) Q) -> runs s (m ≫= f) Q.
Proof.
  intros Hm Hφ Hf w Hw. specialize (Hm w). specialize (Hφ w). unfold mbind, st_bind, same in *.
  destruct (m w) as [a w']; cbn in *. apply (Hf a Hφ). congruence.
Qed.

Lemma runs_session {A} s (k : sessionRuntime -> M A) Q :
  runs s (k s) Q -> runs s (gets (session ∘ loc) ≫= k) Q.
Proof. intros Hk w <-. exact (Hk w eq_refl). Qed.

Lemma runs_traderID {A} s (k : string -> M A) Q :
  runs s (k (traderID s)) Q -> runs s (gets (fun w => traderID (session (loc w))) ≫= k) Q.
Proof. intros Hk w <-. exact (Hk w eq_refl). Qed.

Lemma runs_modify {A} s f (k : unit -> M A) Q :
  runs (f s) (k tt) Q -> runs s (modify_session f ≫= k) Q.
Proof. intros Hk w <-. by apply (Hk (w <| loc ::= fun l => l <| session ::= f |> |>)). Qed.

(** The primitives that leave the session alone. *)
Lemma session_frame_serve c : serve_frame c (same the_session).
Proof.
  split; [apply base_of_prims; [apply _|split]|..]; try (intros; intros w; reflexivity).
  - intros f Hf w. unfold same, the_session. cbn. by rewrite Hf.
  - intros msg _ w. unfold same, the_session.
    by destruct (sendEnvelope_spec w (sc_conn c) msg) as (_ & -> & _).
Qed.

Lemma session_frame_db : db_frame (same the_session).
Proof. apply db_frame_any. intros A f w. unfold same, db_call. by destruct (f (db w)). Qed.

Lemma session_frame_persist : persist_frame (same the_session).
Proof. by intros w. Qed.

Lemma same_upsert : steps (same the_session) upsertSessionSnapshot.
Proof.
  intros w. unfold upsertSessionSnapshot, mbind, st_bind, gets; cbn.
  by destruct (str_empty _).
Qed.

Lemma same_bind sid tid : steps (same the_session) (bindConnectionTrader sid tid).
Proof.
  intros w. unfold bindConnectionTrader. destruct (_ || _); [done|].
  unfold mbind, st_bind, gets; cbn. by destruct (connections (hs w) !! sid).
Qed.

(** ** Identity *)

(** The ids a connection with certificate name [cn] may be given. *)
Definition issued (cn t : string) : Prop :=
  exists canonical, t = normalizeTraderIDForProtocol canonical /\ TrimSpace canonical <> "" /\
    (canonical = TrimSpace cn \/
     (persistence h = true /\ exists d identity d',
        ResolveOrCreateTraderByCN (TrimSpace cn) d = (Ok identity, d') /\
        canonical = TrimSpace (ti_TraderID identity))).

Lemma retry_loop_result {A} n d (fn : M (res A)) w a :
  (retry_loop h n d fn w).1 = Ok a -> exists w', (fn w').1 = Ok a.
Proof.
  revert d w. induction n as [|n IH]; intros d w; [done|]. cbn.
  unfold mbind, st_bind. destruct (fn w) as [[b|e] w1] eqn:E; cbn.
  - intros [= ->]. exists w. by rewrite E.
  - destruct (errors_is e _); [done|]. destruct n as [|n]; [done|]. cbn. apply IH.
Qed.

Lemma withDBWriteRetry_result {A} op d (fn : M (res A)) w a :
  persistence h = true -> (withDBWriteRetry h op d fn w).1 = Ok a -> exists w', (fn w').1 = Ok a.
Proof.
  intros Hp. unfold withDBWriteRetry. rewrite Hp. cbn. unfold mbind, st_bind.
  destruct (retry_loop _ _ _ _ w) as [[b|e] w'] eqn:E; cbn.
  - intros [= ->]. apply (retry_loop_result (Z.to_nat (MaxAttempts (dbRetry h)))
      (InitialDelay (dbRetry h)) fn w). by rewrite E.
  - by destruct (errors_is e _).
Qed.

Lemma resolve_identity_result c id cn (w : W) canonical dbid status :
  persistence h = true -> TrimSpace cn <> "" ->
  (resolve_identity h c id (TrimSpace cn) w).1 = Some (canonical, dbid, status) ->
  issued cn (normalizeTraderIDForProtocol canonical).
Proof.
  intros Hp Hcn. unfold resolve_identity.
  unfold mbind at 1, st_bind at 1.
  destruct (withDBWriteRetry _ _ _ _ w) as [[v|e] w'] eqn:E; cbn;
    [|unfold mbind, st_bind; by destruct (send_error c _ _ _ _ w')].
  intros [= ->].
  destruct (withDBWriteRetry_result _ _ _ w _ Hp (f_equal fst E)) as [w1 Hw1]. clear E.
  unfold mbind, st_bind, db_call in Hw1.
  destruct (ResolveOrCreateTraderByCN (TrimSpace cn) (db w1)) as [[identity|e] d'] eqn:Er; cbn in Hw1;
    [|done].
  injection Hw1 as <- _ _. exists (if negb (str_empty (TrimSpace (ti_TraderID identity)))
    then TrimSpace (ti_TraderID identity) else TrimSpace cn).
  destruct (str_empty (TrimSpace (ti_TraderID identity))) eqn:Ee; cbn [negb];
    (split; [done|]); rewrite TrimSpace_idem; split; auto.
  - by apply str_empty_false.
  - right. eauto 10.
Qed.

(** ** What a turn does to the session *)

(** [s'] is the live session [s] after a message with action [a] on a connection whose
    certificate has common name [cn]. *)
Record evolves (a cn : string) (s s' : sessionRuntime) : Prop := {
  ev_live : session_live s';
  ev_moves : moves a (state s) (state s');
  ev_id : sessionID s' = sessionID s;
  ev_trader : traderID s' = traderID s \/ (traderID s = "" /\ issued cn (traderID s'))
}.

Lemma evolves_refl a cn s : session_live s -> evolves a cn s s.
Proof. split; [done|by left|done|by left]. Qed.

Lemma runs_stay {A} s (m : M A) (P : sessionRuntime -> Prop) :
  steps (same the_session) m -> P s -> runs s m (fun _ s' => P s').
Proof. intros Hm Hs w <-. specialize (Hm w). unfold same in Hm. by rewrite Hm. Qed.

Lemma runs_keep {A} a cn s (m : M A) :
  steps (same the_session) m -> session_live s -> runs s m (fun _ s' => evolves a cn s s').
Proof. intros Hm Hs. apply runs_stay; [done|by apply evolves_refl]. Qed.

Lemma issued_nonempty cn t : issued cn t -> t <> "".
Proof. intros (can & -> & Hne & _). by apply normalizeTraderIDForProtocol_nonempty. Qed.

(** Calls that keep the session: one tactic for all of them. *)
Ltac session_same h c :=
  frame_facts h c session_frame_serve session_frame_db session_frame_persist;
  pose proof same_upsert; pose proof same_bind.
Ltac session_keep c := frame_keep c session_frame_serve.

Lemma complete_registration_runs cn s c id ms ro caps eff lo can dbid sta :
  session_live s -> traderID s = "" -> issued cn (normalizeTraderIDForProtocol can) ->
  runs s (complete_registration h c id ms ro caps eff lo can dbid sta)
    (fun _ s' => evolves actionTraderRegister cn s s').
Proof.
  intros Hs Ht Hi. unfold complete_registration. cbv zeta.
  apply runs_modify, runs_modify, runs_session.
  apply (runs_same _ _ _ (fun _ => True)); [apply same_bind|done|intros _ _].
  apply runs_modify. set (s1 := setTelemetry _ _ _).
  assert (evolves actionTraderRegister cn s s1) as Hev.
  { destruct Hs as [Hst Hd].
    assert (state s = sessionStateConnected) as Hc by (by destruct (state s)).
    split; [split|..]; cbn.
    - by apply (issued_nonempty cn).
    - unfold s1. auto with cts.
    - rewrite Hc. unfold moves. auto.
    - done.
    - by right. }
  apply (runs_stay s1); [|done].
  session_same h c. session_keep c.
Qed.

Lemma handle_register_runs s c msg id :
  session_live s ->
  runs s (handle_register h c msg id) (fun _ s' => evolves actionTraderRegister (sc_clientCertCN c) s s').
Proof.
  intros Hs. session_same h c. unfold handle_register.
  destruct (negb _); [apply runs_keep; [session_keep c|done]|].
  apply runs_traderID. destruct (str_empty (traderID s)) eqn:Et; cbn [negb];
    [|apply runs_keep; [session_keep c|done]].
  apply str_empty_true in Et.
  destruct (unmarshal_register _) as [req|err]; [|apply runs_keep; [session_keep c|done]].
  apply (runs_same _ _ _ (fun _ => True)); [done..|intros now _]. cbv zeta.
  apply (runs_same _ _ _ (fun _ => True)); [done..|intros avail _].
  destruct (str_empty (TrimSpace (sc_clientCertCN c))) eqn:Ecn;
    [apply runs_keep; [session_keep c|done]|apply str_empty_false in Ecn].
  destruct (persistence h) eqn:Ep.
  - apply (runs_same _ _ _ (fun r => match r with
      | Some (can, _, _) => issued (sc_clientCertCN c) (normalizeTraderIDForProtocol can)
      | None => True end)); [done| |intros [[[can dbid] sta]|] Hr].
    + intros w. destruct (resolve_identity h c id (TrimSpace (sc_clientCertCN c)) w).1
        as [[[can dbid] sta]|] eqn:E; [|done].
      by apply (resolve_identity_result c id _ w can dbid sta).
    + apply (runs_same _ _ _ (fun _ => True)); [done..|intros [[]|k] _].
      * by apply complete_registration_runs.
      * by apply runs_ret, evolves_refl.
    + by apply runs_ret, evolves_refl.
  - apply complete_registration_runs; [done..|].
    exists (TrimSpace (sc_clientCertCN c)). rewrite TrimSpace_idem. auto.
Qed.

Lemma telemetry_evolves a cn s s' :
  session_live s -> session_data_ok s' -> sessionID s' = sessionID s -> traderID s' = traderID s ->
  traderID s <> "" ->
  (state s' = state s \/ a = actionTraderHeartbeat /\ state s' = sessionStateActive) ->
  evolves a cn s s'.
Proof.
  intros [Hst Hd] Hd' Hid Ht Hne Hs'.
  split; [split; [|done]| |done|by left].
  - rewrite Ht. by destruct Hs' as [->|[_ ->]]; destruct (state s).
  - unfold moves. destruct Hs' as [->|[-> ->]]; [by left|]. destruct (state s); try done; auto.
Qed.

Lemma handle_heartbeat_runs s c msg id :
  session_live s ->
  runs s (handle_heartbeat h c msg id) (fun _ s' => evolves actionTraderHeartbeat (sc_clientCertCN c) s s').
Proof.
  intros Hs. session_same h c. unfold handle_heartbeat. apply runs_session.
  destruct (str_empty (traderID s)) eqn:Et; [apply runs_keep; [session_keep c|done]|].
  apply str_empty_false in Et.
  destruct (unmarshal_heartbeat _) as [req|err]; [|apply runs_keep; [session_keep c|done]].
  destruct (_ && _); [apply runs_keep; [session_keep c|done]|].
  apply (runs_same _ _ _ (fun _ => True)); [done..|intros now _]. cbv zeta.
  apply (runs_same _ _ _ (fun _ => True)); [session_keep c|done|intros persisted _].
  apply (runs_same _ _ _ (fun _ => True)); [session_keep c; auto|done|].
  intros [_|e] _; [|apply runs_keep; [session_keep c|done]].
  apply runs_modify, runs_modify. set (s1 := heartbeat_telemetry _ _).
  assert (evolves actionTraderHeartbeat (sc_clientCertCN c) s s1) as Hev.
  { unfold s1. set (s0 := markHeartbeat _ s).
    destruct (heartbeat_telemetry_fields req s0) as [Hst Htr].
    apply telemetry_evolves; rewrite ?Hst, ?Htr, ?heartbeat_telemetry_sessionID; auto.
    destruct Hs as [_ Hd]. unfold s0. auto with cts. }
  apply (runs_stay s1); [session_keep c|done].
Qed.

Lemma handle_latency_result_runs s c msg id :
  session_live s ->
  runs s (handle_latency_result c msg id) (fun _ s' => evolves actionLatencyTestResp (sc_clientCertCN c) s s').
Proof.
  intros Hs. session_same h c. unfold handle_latency_result. apply runs_session.
  destruct (str_empty (traderID s)) eqn:Et; [apply runs_keep; [session_keep c|done]|].
  apply str_empty_false in Et.
  destruct (unmarshal_latency_result _) as [req|err]; [|apply runs_keep; [session_keep c|done]].
  destruct (_ && _); [apply runs_keep; [session_keep c|done]|]. cbv zeta.
  set (m := if bool_decide (extractLatencyMap _ = ∅) then _ else _).
  assert (latencies_ok m) as Hm by (unfold m; case_bool_decide; auto with cts). clearbody m.
  case_bool_decide; [apply runs_keep; [session_keep c|done]|].
  apply runs_modify, runs_modify. set (s1 := match _ with Some _ => _ | None => _ end).
  assert (evolves actionLatencyTestResp (sc_clientCertCN c) s s1) as Hev.
  { unfold s1. destruct (setExchangeLatencies_fields m s) as [Hst Htr].
    pose proof (setExchangeLatencies_sessionID m s) as Hid. destruct Hs as [Hl Hd].
    apply telemetry_evolves; try done; destruct (buildLatencyProfileFromLatencyMap _ _);
      auto with cts. }
  apply (runs_stay s1); [session_keep c|done].
Qed.

(** The action of a message, if it decodes. *)
Definition message_action (raw : string) : string :=
  match unmarshal_envelope raw with Ok msg => Action msg | Err _ => "" end.

Lemma serve_message_runs s c b raw :
  session_live s ->
  runs s (serve_message h c b raw) (fun _ s' => evolves (message_action raw) (sc_clientCertCN c) s s').
Proof.
  intros Hs. session_same h c. unfold serve_message.
  apply (runs_same _ _ _ (fun _ => True)); [session_keep c|done|intros _ _].
  apply (runs_same _ _ _ (fun _ => True)); [session_keep c|done|intros id _].
  apply (runs_same _ _ _ (fun _ => True)); [done..|intros _ _]. cbv zeta.
  destruct (_ >? _)%Z; [apply runs_keep; [session_keep c|done]|].
  apply (runs_same _ _ _ (fun _ => True)); [done..|intros now _].
  apply (runs_same _ _ _ (fun _ => True)); [session_keep c|done|intros rw _].
  apply (runs_same _ _ _ (fun _ => True)); [session_keep c|done|intros _ _].
  destruct (negb rw.1); [apply runs_keep; [session_keep c|done]|].
  destruct (negb b); [apply runs_keep; [session_keep c|done]|].
  unfold message_action.
  destruct (unmarshal_envelope raw) as [msg|err]; [|apply runs_keep; [session_keep c|done]].
  unfold serve_envelope. cbv zeta.
  destruct (_ && _); [apply runs_keep; [session_keep c|done]|].
  apply (runs_same _ _ _ (fun _ => True)); [done..|intros dup _].
  destruct dup; [apply runs_keep; [session_keep c|done]|].
  destruct (_ && _); [apply runs_keep; [session_keep c|done]|].
  unfold serve_sequenced. cbv zeta.
  apply (runs_same _ _ _ (fun _ => True)); [session_keep c|done|intros v _].
  apply (runs_same _ _ _ (fun _ => True)); [done..|intros _ _].
  destruct (negb (sv_ok v)); [apply runs_keep; [session_keep c|done]|].
  apply (runs_same _ _ _ (fun _ => True)); [session_keep c; auto|done|intros _ _].
  unfold dispatch_action.
  destruct (Action msg =s actionTraderRegister) eqn:E;
    [apply str_eqb_eq in E as ->; by apply handle_register_runs|clear E].
  destruct (Action msg =s actionTraderHeartbeat) eqn:E;
    [apply str_eqb_eq in E as ->; by apply handle_heartbeat_runs|clear E].
  destruct (Action msg =s actionLatencyTestResp) eqn:E;
    [apply str_eqb_eq in E as ->; by apply handle_latency_result_runs|].
  by apply runs_keep.
Qed.

(** The session after the loop: a closed session is not live any more. *)
Record evolved (cn : string) (s s' : sessionRuntime) : Prop := {
  ed_id : sessionID s' = sessionID s;
  ed_trader : traderID s' = traderID s \/ (traderID s = "" /\ issued cn (traderID s'));
  ed_data : session_data_ok s'
}.

Lemma evolves_evolved a cn s s' : evolves a cn s s' -> evolved cn s s'.
Proof. intros [[] ? ? ?]. by split. Qed.

Lemma evolved_trans a cn s1 s2 s3 : evolves a cn s1 s2 -> evolved cn s2 s3 -> evolved cn s1 s3.
Proof.
  intros [? _ ? H2] [? H4 ?]. split; [congruence| |done].
  destruct H2 as [H2|[H2 ?]], H4 as [H4|[H4 ?]]; [left; congruence|right|right|right];
    rewrite ?H4, <- ?H2; split; done || congruence.
Qed.

(** The end of a session keeps its id, its trader and its data. *)
Definition closes (s s' : sessionRuntime) : Prop :=
  sessionID s' = sessionID s /\ traderID s' = traderID s /\ session_data_ok s'.

Lemma closes_evolved cn s s' : closes s s' -> evolved cn s s'.
Proof. intros (? & ? & ?). split; auto. Qed.

Lemma markTimedOut_closes n s : session_live s ->
  closes s (markTimedOut n s).2 /\ closes s (markDisconnected (markTimedOut n s).2) /\
  closes s (markDisconnected s).
Proof.
  intros [Hst Hd]. unfold markTimedOut.
  destruct (state s) eqn:E; try done; cbn; destruct Hd; split_and!; try done; by split.
Qed.

Lemma serve_read_error_runs s c err :
  session_live s -> runs s (serve_read_error h c err)
    (fun _ s' => closes s s' /\ state s' = sessionStateDisconnected).
Proof.
  intros Hs. session_same h c. unfold serve_read_error.
  apply (runs_same _ _ _ (fun _ => True)); [done..|intros now _]. cbv zeta.
  pose proof (classify_close_4009 (Some err)) as Hc.
  destruct (classifyWSDisconnectReason (Some err)) as [reason b]; cbn in Hc.
  apply (runs_same _ _ _ (fun _ => True)); [by apply (bf_record _ HB)|done|intros _ _].
  assert (forall s1, closes s (markDisconnected s1) ->
    runs s1 (s ← gets (session ∘ loc);
      persisted ← gets (persistedSession ∘ loc);
      (if persistence h && persisted then
         _ ← withDBWriteRetry h "finalize_session" tt
               (db_call (FinalizeSession (sessionID s) reason (Some (error_text err))));
         mret tt
       else mret tt);;
      modify_session markDisconnected;;
      (sid ← current_session_id; deleteSessionSnapshot sid);;
      (sid ← current_session_id; removeConnection sid))
    (fun _ s' => closes s s' /\ state s' = sessionStateDisconnected)) as Hrest.
  { intros s1 Hd1. apply runs_session.
    apply (runs_same _ _ _ (fun _ => True)); [session_keep c|done|intros persisted _].
    apply (runs_same _ _ _ (fun _ => True)); [|done|intros _ _].
    { pose proof (fun op d sid r e => frame_withDBWriteRetry h _ HB unit op d _
        (df_finalize _ HD sid r e)). session_keep c. }
    apply runs_modify. apply (runs_same _ _ _ (fun _ => True)); [|done|intros _ _].
    { intros w. unfold current_session_id, deleteSessionSnapshot, mbind, st_bind, gets. cbn.
      by case_match. }
    intros w Hw. cut (the_session ((sid ← current_session_id; removeConnection sid) w).2 = the_session w).
    { intros ->. by rewrite Hw. }
    unfold current_session_id, removeConnection, mbind, st_bind, gets. cbn.
    destruct (str_empty _); [done|]. cbn. by destruct (connections (hs w) !! _). }
  destruct (markTimedOut_closes (time_unix_milli now) s Hs) as (_ & He2 & He3).
  destruct (reason =s wsDisconnectReasonTimeout).
  - eapply runs_bind with (P := fun _ s' => s' = (markTimedOut (time_unix_milli now) s).2).
    + apply (runs_same _ _ _ (fun _ => True)); [session_keep c|done|intros ok _].
      apply runs_modify. intros w <-.
      destruct ok; cbn; [|done]. unfold same in *. apply (bf_timeout _ HB).
    + intros _ s' ->. by apply Hrest.
  - apply (runs_bind _ _ _ (fun _ s' => s' = s)); [by apply runs_ret|].
    intros _ s' ->. by apply Hrest.
Qed.

(** The action of what the loop receives; none for a control frame or an error. *)
Definition inbound_action (i : inbound) : string :=
  match i with InMessage _ raw => message_action raw | _ => "" end.

Lemma serve_turn_runs s c i :
  session_live s -> runs s (serve_turn h c i)
    (fun k s' => evolves (inbound_action i) (sc_clientCertCN c) s s' /\ (forall err, i <> InError err) \/
                 (closes s s' /\ state s' = sessionStateDisconnected /\ k = Return)).
Proof.
  intros Hs. destruct i as [b raw|raw| |err]; cbn [serve_turn inbound_action].
  - eapply runs_weaken; [by apply serve_message_runs|]. by left.
  - apply (runs_same _ _ _ (fun _ => True));
      [apply (frame_on_ping h _ (sf_base c _ (session_frame_serve c)))|done|].
    intros [err|] _; [|apply runs_ret; left; by split; [apply evolves_refl|]].
    eapply runs_bind; [by apply serve_read_error_runs|].
    intros _ s' [Hev ?]. apply runs_ret. by right.
  - apply (runs_same _ _ _ (fun _ => True));
      [apply (frame_on_pong h c _ (session_frame_serve c))|done|intros _ _].
    apply runs_ret. left. by split; [apply evolves_refl|].
  - eapply runs_bind; [by apply serve_read_error_runs|].
    intros _ s' [Hev ?]. apply runs_ret. by right.
Qed.

Lemma serve_loop_runs s c traffic :
  session_live s -> runs s (serve_loop h c traffic)
    (fun k s' => evolved (sc_clientCertCN c) s s' /\ (k = None -> session_live s')).
Proof.
  revert s. induction traffic as [|i rest IH]; intros s Hs.
  { apply runs_ret. split; [|done]. by apply (evolves_evolved ""), evolves_refl. }
  cbn [serve_loop]. eapply runs_bind; [by apply serve_turn_runs|].
  intros k s' [[Hev _]|(Hev & _ & ->)].
  - destruct k; [|apply runs_ret; split; [by eapply evolves_evolved|done]].
    eapply runs_weaken; [apply IH; by destruct Hev|].
    intros k' s2 [H1 H2]. split; [by eapply evolved_trans|done].
  - apply runs_ret. split; [by apply closes_evolved|discriminate].
Qed.

Lemma session_live_new sid : session_live (newSessionRuntime sid).
Proof. split; [done|apply session_data_ok_new]. Qed.

(** The world of a connection whose session is fresh. *)
Definition fresh_session (sid : string) (w : W) : W :=
  w <| loc ::= fun l => l <| session := newSessionRuntime sid |> |>.

Lemma serve_loop_fresh c sid traffic (w : W) :
  let s' := the_session (serve_loop h c traffic (fresh_session sid w)).2 in
  evolved (sc_clientCertCN c) (newSessionRuntime sid) s'.
Proof. by apply (serve_loop_runs _ c traffic (session_live_new sid)). Qed.

(** ** Properties *)

(** C13: the life cycle of a session.  After any traffic on a connection whose loop
    still runs, the session is connected and speaks for no trader, or registered or
    active and speaks for one.  The next turn, whatever it receives and whatever
    fails, leaves its state and its trader alone, or is a register message that takes
    a connected session to registered, or a heartbeat message that takes a registered
    one to active, or ends the loop with the session disconnected; and an error of
    the connection always does the last.  So no session goes back, none is active
    before it is registered, and none comes back to life.  The session id never
    changes. *)
Theorem session_life_cycle (c : serve_ctx) (sid : string) (traffic : list inbound) (w : W)
    (i : inbound) :
  let before := serve_loop h c traffic (fresh_session sid w) in
  let after := serve_turn h c i before.2 in
  let s := the_session before.2 in
  let s' := the_session after.2 in
  before.1 = None ->
  sessionID s = sid /\ sessionID s' = sid /\
  (state s = sessionStateConnected /\ traderID s = "" \/
   (state s = sessionStateRegistered \/ state s = sessionStateActive) /\ traderID s <> "") /\
  (state s' = state s /\ traderID s' = traderID s /\ (forall err, i <> InError err) \/
   state s' = sessionStateRegistered /\ state s = sessionStateConnected /\ traderID s' <> "" /\
     inbound_action i = actionTraderRegister \/
   state s' = sessionStateActive /\ state s = sessionStateRegistered /\ traderID s' = traderID s /\
     inbound_action i = actionTraderHeartbeat \/
   state s' = sessionStateDisconnected /\ traderID s' = traderID s /\ after.1 = Return).
Proof.
  intros before after s s' Hrun.
  destruct (serve_loop_runs _ c traffic (session_live_new sid) (fresh_session sid w) eq_refl)
    as [[Hid _ _] Hlive].
  specialize (Hlive Hrun).
  pose proof (serve_turn_runs _ c i Hlive before.2 eq_refl) as Ht. destruct Hlive as [Hlive _].
  fold before s in Hid, Hlive, Ht. fold after in Ht. cbv beta in Ht. fold s' in Ht. change (sessionID s = sid) in Hid.
  split; [done|]. split; [destruct Ht as [[[] _]|[(? & _) _]]; congruence|].
  split; [destruct (state s); try done; auto|].
  destruct Ht as [[[[Hl' _] Hm _ Ht] Hi]|((_ & ? & _) & ? & ?)]; [|auto 10].
  destruct Hm as [Hm|[(Ha & E & E')|(Ha & E & E')]].
  - left. split_and!; [done| |done]. destruct Ht as [|[Et Hn]]; [done|].
    rewrite Hm in Hl'. apply issued_nonempty in Hn. rewrite Et in *. by destruct (state s).
  - right; left. rewrite E' in Hl'. auto.
  - right; right; left. destruct Ht as [|[Et _]]; [done|]. rewrite E in Hlive. done.
Qed.

(** C14: the trader a session speaks for comes from the client certificate alone:
    it is none, or the protocol form of the certificate's common name, or of the id
    the database resolves this name to.  The ids a peer writes into its register,
    heartbeat and latency payloads have no say. *)
Theorem identity_from_certificate (c : serve_ctx) (sid : string) (traffic : list inbound) (w : W) :
  let s' := the_session (serve_loop h c traffic (fresh_session sid w)).2 in
  traderID s' = "" \/ issued (sc_clientCertCN c) (traderID s').
Proof. destruct (serve_loop_fresh c sid traffic w) as [_ [Ht|[_ ?]] _]; [left; exact Ht|by right]. Qed.

(** Once a session is bound to a trader no traffic rebinds it. *)
Theorem identity_is_final (c : serve_ctx) (traffic : list inbound) (w : W)
    (Hlive : session_live (the_session w)) (Hbound : traderID (the_session w) <> "") :
  traderID (the_session (serve_loop h c traffic w).2) = traderID (the_session w).
Proof.
  destruct (serve_loop_runs _ c traffic Hlive w eq_refl) as [[_ [?|[? _]] _] _]; congruence.
Qed.

(** C16: the telemetry of a session, whatever a peer reports, is in range: both
    load indices lie in [0, 1], the latency profile and every exchange latency are
    not negative, and latencies are filed under non-empty normalised codes. *)
Theorem telemetry_in_range (c : serve_ctx) (sid : string) (traffic : list inbound) (w : W) :
  session_data_ok (the_session (serve_loop h c traffic (fresh_session sid w)).2).
Proof. by destruct (serve_loop_fresh c sid traffic w). Qed.
End session.

(** A registered session, and a connection that now claims another certificate. *)
Definition demo_registered : world (list string) Z := (demo_serve [InMessage true "register"]).2.
Definition demo_ctx : serve_ctx :=
  {| sc_conn := 5; sc_connID := "c1"; sc_requestID := "q1"; sc_clientIP := "10.0.0.1";
     sc_clientCertCN := "beta"; sc_connEntry := 0 |}.

Lemma identity_is_final_witness :
  traderID (the_session (serve_loop demo_config demo_ctx
    [InMessage true "register"; InMessage true "heartbeat"] demo_registered).2) = "alpha".
Proof.
  refine (identity_is_final demo_config demo_ctx [InMessage true "register"; InMessage true "heartbeat"]
    demo_registered _ _).
  - split; [vm_compute; discriminate|].
    assert (exchangeLatencies (the_session demo_registered) = ∅) as E by (vm_compute; reflexivity).
    split; [rewrite E; apply map_Forall_empty|vm_compute; split; reflexivity..|vm_compute; reflexivity].
  - vm_compute. discriminate.
Defined.

(** A registered session that sends its first heartbeat. *)
Lemma session_life_cycle_witness :
  let before := serve_loop demo_config demo_ctx [InMessage true "register"]
                  (fresh_session "s9" demo_world) in
  state (the_session before.2) = sessionStateRegistered /\
  state (the_session (serve_turn demo_config demo_ctx (InMessage true "heartbeat") before.2).2)
  = sessionStateActive.
Proof.
  intros before.
  assert (before.1 = None) as Hrun by (vm_compute; reflexivity).
  pose proof (session_life_cycle demo_config demo_ctx "s9" [InMessage true "register"] demo_world
    (InMessage true "heartbeat") Hrun) as (_ & _ & _ & Ht).
  fold before in Ht. set (after := serve_turn _ _ _ before.2) in *.
  assert (state (the_session before.2) = sessionStateRegistered) as E by (vm_compute; reflexivity).
  assert (state (the_session after.2) = sessionStateActive) as E' by (vm_compute; reflexivity).
  clearbody before after. rewrite E, E' in Ht.
  destruct Ht as [H|[H|[H|H]]]; destruct H; [discriminate..|auto|discriminate].
Defined.
