(* ===== verification/HandlerTraffic.v ===== *)
(** * Traffic of the WebSocket handler

    What an unregistered peer can cause, how outbound messages are numbered, written
    or not, how long a database write is retried, and what the exits of the loop leave
    behind. *)

From S2P Require Import Prelude GoFloat Protocol Session Conn Telemetry Auth StateM Interfaces Handler HandlerDemo HandlerFrame HandlerFacts HandlerInv HandlerSession.

(** The numbers of the protocol messages written to connection [conn]. *)
Definition text_seqs (conn : Z) (o : list out_event) : list Z :=
  omap (fun e => match e with
                 | OutText k msg _ => if bool_decide (k = conn) then Some (Seq msg) else None
                 | _ => None
                 end) o.

(** The numbers of all messages that were to be sent on [conn], also of those that
    were not written because their deadline could not be set. *)
Definition attempt_seqs (conn : Z) (o : list out_event) : list Z :=
  omap (fun e => match e with
                 | OutText k msg _ | OutUnwritten (OutText k msg _) =>
                     if bool_decide (k = conn) then Some (Seq msg) else None
                 | _ => None
                 end) o.

Section traffic.
Context {DB S : Type} `{!SessionPersistence DB} `{!RuntimeSink S} `{!WsJson} `{!ServeEnv}.
Context (h : handler_config).

Abbreviation W := (world DB S).

(** ** Before registration *)

(** All that a trader's traffic may change for the rest of the program. *)
Definition trader_view (w : W) : sessionRuntime * gmap string TraderSnapshot * DB :=
  (the_session w, sessions (hs w), db w).

(** A step of an unregistered session changes none of it. *)
Definition inert (w w' : W) : Prop :=
  traderID (the_session w) = "" -> trader_view w' = trader_view w.

Instance inert_preorder : PreOrder inert.
Proof.
  split; [by intros w _|]. intros w1 w2 w3 H1 H2 Hw. specialize (H1 Hw).
  rewrite H2; [done|]. unfold trader_view in H1. congruence.
Qed.

Lemma trader_view_frame c : serve_frame c (same trader_view).
Proof.
  split; [apply base_of_prims; [apply _|split]|..]; try (intros; intros w; reflexivity).
  - intros f Hf w. unfold same, trader_view, the_session. cbn. by rewrite Hf.
  - intros r b _ w. unfold same, trader_view, count_disconnect, the_session. cbn. by destruct b.
  - intros msg _ w. unfold same, trader_view, the_session.
    destruct (sendEnvelope_spec w (sc_conn c) msg) as (-> & -> & -> & _).
    by rewrite (after_send_other sessions).
Qed.

Lemma same_inert {A} (m : st W A) : steps (same trader_view) m -> steps inert m.
Proof. intros Hm w _. apply Hm. Qed.

Lemma inert_frame c : serve_frame c inert.
Proof.
  destruct (trader_view_frame c) as [[] ? ? ? ?].
  split; [split|..]; intros; apply same_inert; auto.
Qed.

Lemma inert_send_error c id code text details :
  isSupportedWSErrorCode code = true -> steps inert (send_error c id code text details;; mret Continue).
Proof.
  intros Hc. apply (steps_bind inert); [|intros; apply (steps_ret inert)].
  by apply (frame_send_error c inert (inert_frame c)).
Qed.

Lemma inert_heartbeat c msg id : steps inert (handle_heartbeat h c msg id).
Proof.
  unfold handle_heartbeat. apply steps_gets_bind. intros w Hw. cbn.
  unfold the_session in Hw. rewrite Hw. by apply inert_send_error.
Qed.

Lemma inert_latency_result c msg id : steps inert (handle_latency_result c msg id).
Proof.
  unfold handle_latency_result. apply steps_gets_bind. intros w Hw. cbn.
  unfold the_session in Hw. rewrite Hw. by apply inert_send_error.
Qed.

Lemma inert_serve_message c b raw :
  (forall msg, unmarshal_envelope raw = Ok msg -> Action msg <> actionTraderRegister) ->
  steps inert (serve_message h c b raw).
Proof.
  intros Hact. pose proof (inert_frame c) as HF. pose proof (sf_base c _ HF) as HB.
  pose proof (frame_extend_read_deadline h _ HB). pose proof (bf_tick _ HB).
  pose proof (frame_note_request h _ HB). pose proof (frame_closeOnSequenceGap _ HB).
  pose proof (frame_handle_unknown h c _ HF). pose proof (sf_ack c _ HF).
  pose proof (sf_inbound c _ HF). pose proof inert_heartbeat. pose proof inert_latency_result.
  unfold serve_message, serve_envelope, serve_sequenced, dispatch_action.
  destruct (unmarshal_envelope raw) as [msg|err];
    [rewrite (proj2 (str_eqb_neq (Action msg) _) (Hact msg eq_refl))|].
  all: clear Hact.
  all: repeat (cbv zeta; lazymatch goal with
    | |- steps _ (send_error _ _ _ _ _) => apply (frame_send_error c _ HF); reflexivity
    | |- steps _ (modify_loc _) => apply (bf_locals _ HB); intros []; split; reflexivity
    | |- _ => steps_step
    end).
Qed.

(** C17: until a connection has registered, a message with any other action (or a
    malformed message) changes neither its session, nor
    the trader snapshots, nor the database: heartbeats and latency results are
    refused before they are even decoded. *)
Theorem unregistered_is_inert (c : serve_ctx) (isText : bool) (raw : string) (w : W)
    (Hact : forall msg, unmarshal_envelope raw = Ok msg -> Action msg <> actionTraderRegister)
    (Hunreg : traderID (the_session w) = "") :
  trader_view (serve_message h c isText raw w).2 = trader_view w.
Proof. exact (inert_serve_message c isText raw Hact w Hunreg). Qed.

(** ** Outbound numbering *)

(** The traffic of [conn], whose entry [p] has numbered [n] messages: they were
    numbered 1 to [n], in this order. *)
Definition numbered (conn : Z) (p : nat) (s : HandlerState) (o : list out_event) : Prop :=
  connectionsByConn s !! conn = Some p /\
  exists e (n : nat), entries s !! p = Some e /\ ce_conn e = conn /\
    outboundSeq e = wrapu64 (Z.of_nat n) /\ attempt_seqs conn o = wrapu64 <$> seqZ 1 (Z.of_nat n).

Lemma text_seqs_app conn o o' : text_seqs conn (o ++ o') = text_seqs conn o ++ text_seqs conn o'.
Proof. unfold text_seqs. apply omap_app. Qed.

Lemma attempt_seqs_app conn o o' :
  attempt_seqs conn (o ++ o') = attempt_seqs conn o ++ attempt_seqs conn o'.
Proof. unfold attempt_seqs. apply omap_app. Qed.

Lemma attempt_seqs_sent conn k msg ev :
  sent_event k msg ev -> attempt_seqs conn [ev] = if bool_decide (k = conn) then [Seq msg] else [].
Proof. intros (err & [->| ->]); cbn; by case_bool_decide. Qed.

Lemma seqZ_snoc_next (n : nat) :
  seqZ 1 (Z.of_nat (Datatypes.S n)) = seqZ 1 (Z.of_nat n) ++ [(Z.of_nat n + 1)%Z].
Proof. rewrite seqZ_S. by rewrite (Z.add_comm 1). Qed.

Lemma text_sublist_attempts conn o : text_seqs conn o `sublist_of` attempt_seqs conn o.
Proof.
  induction o as [|e o IH]; [constructor|].
  change (e :: o) with ([e] ++ o). rewrite text_seqs_app, attempt_seqs_app.
  apply sublist_app; [|done]. destruct e; cbn; try by case_bool_decide.
  all: apply sublist_nil_l.
Qed.

Lemma small_numbers (n : nat) :
  (Z.of_nat n < 2 ^ 64)%Z -> wrapu64 <$> seqZ 1 (Z.of_nat n) = seqZ 1 (Z.of_nat n).
Proof.
  intros Hn. rewrite <- (list_fmap_id (seqZ 1 (Z.of_nat n))) at 2. apply list_fmap_ext. intros i x Hx.
    apply lookup_seqZ in Hx as [-> Hi]. cbn. apply wrapu64_id. clear -Hi Hn. ints.
Qed.

Lemma small_numbers_distinct (n : nat) :
  (Z.of_nat n < 2 ^ 64)%Z -> NoDup (wrapu64 <$> seqZ 1 (Z.of_nat n)).
Proof. intros Hn. rewrite small_numbers by done. apply NoDup_seqZ. Qed.

(** Numbers 1 to [n] below 2^64 increase, and so does any part of them. *)
Lemma small_numbers_increase (n : nat) l :
  (Z.of_nat n < 2 ^ 64)%Z -> l `sublist_of` (wrapu64 <$> seqZ 1 (Z.of_nat n)) -> StronglySorted Z.lt l.
Proof.
  intros Hn Hsub. rewrite small_numbers in Hsub by done. clear Hn.
  assert (StronglySorted Z.lt (seqZ 1 (Z.of_nat n))) as Hs.
  { clear Hsub. induction n as [|n IH]; [constructor|]. rewrite seqZ_snoc_next. apply StronglySorted_app.
    split_and!; [|done|repeat constructor]. intros x y Hx Hy.
    apply list_elem_of_singleton in Hy as ->. apply elem_of_seqZ in Hx. lia. }
  induction Hsub as [|x l1 l2 Hsub IH|x l1 l2 Hsub IH]; [constructor| |].
  - apply StronglySorted_cons in Hs as [Hall Hs]. constructor; [by apply IH|].
    rewrite Forall_forall in Hall |- *. intros y Hy. apply Hall. by eapply elem_of_sublist.
  - apply StronglySorted_cons in Hs as [_ Hs]. by apply IH.
Qed.

Lemma numbered_send c p s o msg ev :
  numbered (sc_conn c) p s o -> sent_event (outgoing s (sc_conn c) msg).1 (outgoing s (sc_conn c) msg).2 ev ->
  numbered (sc_conn c) p (after_send s (sc_conn c)) (o ++ [ev]).
Proof.
  intros (Hk & e & n & He & Hek & Hn & Ht) Hev.
  unfold after_send. rewrite Hk. split; [done|].
  exists (nextOutboundSeqAck e).2, (Datatypes.S n).
  assert (wrapu64 (outboundSeq e + 1) = wrapu64 (Z.of_nat n + 1)) as Hw.
  { rewrite Hn. unfold wrapu64. apply Zplus_mod_idemp_l. }
  split_and!; [cbn; by rewrite list_lookup_alter_eq, He|done|cbn; rewrite Hw; f_equal; lia|].
  rewrite attempt_seqs_app, (attempt_seqs_sent _ _ _ _ Hev), Ht, seqZ_snoc_next, fmap_app.
  unfold outgoing. rewrite Hk, He. cbn. rewrite Hek, bool_decide_eq_true_2 by done.
  by rewrite stamp_Seq, <- Hw.
Qed.

Lemma entry_update_outbound f e :
  entry_update f -> ce_conn (f e) = ce_conn e /\ outboundSeq (f e) = outboundSeq e.
Proof.
  destruct 1; unfold observeInboundSeq, observePeerAck, recordPongReceived;
    repeat case_match; done.
Qed.

Lemma text_seqs_other conn o e : is_text e = false -> text_seqs conn (o ++ [e]) = text_seqs conn o.
Proof. intros He. rewrite text_seqs_app. destruct e; try done; cbn; by rewrite app_nil_r. Qed.

Lemma attempt_seqs_other conn o e :
  is_text e = false -> attempt_seqs conn (o ++ [e]) = attempt_seqs conn o.
Proof.
  intros He. rewrite attempt_seqs_app. destruct e as [| | |e' | |]; try done; cbn; try by rewrite app_nil_r.
  destruct e'; try done; cbn; by rewrite app_nil_r.
Qed.

Lemma numbered_loop c p : loop_invariant c (fun _ s o => numbered (sc_conn c) p s o).
Proof.
  split.
  - intros ? s o e He (Hk & x). split; [done|]. by rewrite attempt_seqs_other.
  - intros ? s o msg ev _. apply numbered_send.
  - intros ? s o f q Hf _ (Hk & e & n & He & Hek & Hn & Hrest). split; [done|].
    destruct (entry_update_outbound f e Hf) as [Hf1 Hf2].
    destruct (decide (q = p)) as [->|].
    + exists (f e), n. cbn. rewrite list_lookup_alter_eq, He, Hf1, Hf2. done.
    + exists e, n. cbn. rewrite list_lookup_alter_ne by done. done.
  - intros ? s o r b _ Hs. unfold count_disconnect. by destruct b.
  - intros ? s o sr _ _ Hs. done.
Qed.

Definition text_view (conn : Z) (w : W) : list Z := attempt_seqs conn (out w).

Lemma text_view_end conn : end_frame (same (text_view conn)).
Proof.
  split; [apply base_of_prims; [apply _|split]|..]; try (intros; intros w; reflexivity).
  - intros e He w. unfold same, text_view. cbn. by apply attempt_seqs_other.
  - apply db_frame_any. intros A f w. unfold same, db_call. by destruct (f (db w)).
  - by intros f Hf w.
  - intros w. unfold current_session_id, deleteSessionSnapshot, mbind, st_bind, gets. cbn.
    by destruct (str_empty _).
  - intros w. unfold current_session_id, removeConnection, mbind, st_bind, gets. cbn.
    destruct (str_empty _); [done|]. cbn. by destruct (connections (hs w) !! _).
Qed.

(** Numbers 1, 2, ... without a gap. *)
Definition consecutive_seqs (l : list Z) : Prop := l = wrapu64 <$> seqZ 1 (Z.of_nat (length l)).

Lemma numbered_consecutive conn p s o : numbered conn p s o -> consecutive_seqs (attempt_seqs conn o).
Proof.
  intros (_ & _ & n & _ & _ & _ & Ht). unfold consecutive_seqs.
  rewrite Ht at 2. by rewrite length_fmap, length_seqZ, Nat2Z.id.
Qed.

Lemma serve_loop_numbered c p traffic (w : W) :
  numbered (sc_conn c) p (hs w) (out w) ->
  consecutive_seqs (attempt_seqs (sc_conn c) (out (serve_loop h c traffic w).2)).
Proof.
  set (R := keeps (in_world (fun _ s o => numbered (sc_conn c) p s o)) : W -> W -> Prop).
  assert (serve_frame_full h c R) as HF by apply loop_invariant_frame, numbered_loop.
  assert (forall err w1, text_view (sc_conn c) (serve_read_error h c err w1).2 = text_view (sc_conn c) w1)
    as Herr.
  { intros err w1. by apply (frame_serve_read_error h _ (ef_base _ (text_view_end (sc_conn c))) c err
      (text_view_end (sc_conn c))). }
  revert w. induction traffic as [|i rest IH]; intros w Hw; [by eapply numbered_consecutive|].
  pose proof (full_serve_input h c R HF i) as Hi.
  cbn [serve_loop]. unfold mbind at 1, st_bind at 1.
  destruct i as [b raw|raw| |err]; cbn [serve_turn] in *.
  - specialize (Hi w Hw). destruct (serve_message h c b raw w) as [[] w1]; cbn in *; [by apply IH|].
    by eapply numbered_consecutive.
  - specialize (Hi w Hw). unfold mbind, st_bind, mret, st_ret.
    destruct (on_ping h c raw w) as [[e|] w1]; cbn in *; [|by apply IH].
    specialize (Herr e w1). destruct (serve_read_error h c e w1) as [[] w2]; cbn in *.
    unfold text_view in Herr. rewrite Herr. by eapply numbered_consecutive.
  - specialize (Hi w Hw). unfold mbind, st_bind, mret, st_ret.
    destruct (on_pong h c w) as [[] w1]; cbn in *. by apply IH.
  - unfold mbind, st_bind, mret, st_ret.
    specialize (Herr err w). destruct (serve_read_error h c err w) as [[] w2]; cbn in *.
    unfold text_view in Herr. rewrite Herr. by eapply numbered_consecutive.
Qed.

Lemma attempt_seqs_greeting conn k evs : Forall (greeting k) evs -> attempt_seqs conn evs = [].
Proof. induction 1 as [|e evs (err & [->| ->]) _ IH]; [done|exact IH..]. Qed.

(** C18: over a whole [Serve] call on a new connection, acknowledgements, errors and
    latency tests included, the protocol messages of the connection are numbered 1, 2,
    3, ... (modulo 2^64) in the order in which they are sent, without a gap and without
    a repetition.  What is written is a part of them: all but the messages whose
    deadline could not be set.  With fewer than 2^64 messages the numbers on the wire
    strictly increase. *)
Theorem wire_numbers_increase (r : http_request) (conn : Z) (connID sid rid ip : string)
    (traffic : list inbound) (w : W)
    (Hnew : attempt_seqs conn (out w) = []) (Hsid : sid <> "") :
  let o := out (Serve h r conn connID sid rid ip traffic w).2 in
  attempt_seqs conn o = wrapu64 <$> seqZ 1 (Z.of_nat (length (attempt_seqs conn o))) /\
  text_seqs conn o `sublist_of` attempt_seqs conn o /\
  ((Z.of_nat (length (attempt_seqs conn o)) < 2 ^ 64)%Z -> StronglySorted Z.lt (text_seqs conn o)).
Proof.
  intros o.
  enough (consecutive_seqs (attempt_seqs conn o)) as Hc.
  { pose proof (text_sublist_attempts conn o) as Hsub. split_and!; [exact Hc|exact Hsub|].
    intros Hn. apply (small_numbers_increase _ _ Hn). by rewrite <- Hc. }
  subst o. pose proof (Serve_phases h r conn connID sid rid ip traffic w) as Hp.
  destruct (Serve _ _ _ _ _ _ _ _ w) as [res w']; cbn.
  assert (forall c w1, serve_open h conn connID sid rid ip (extractClientCertificateCN r) w = (c, w1) ->
    consecutive_seqs (attempt_seqs conn (out (serve_loop h c traffic w1).2))) as Hloop.
  { intros c w1 Ho.
    destruct (serve_open_spec h w _ _ _ _ _ _ _ _ Ho) as (Hs & _ & _ & _ & -> & evs & He & Hevs).
    apply (serve_loop_numbered {| sc_conn := conn; sc_connID := connID; sc_requestID := rid;
      sc_clientIP := ip; sc_clientCertCN := extractClientCertificateCN r;
      sc_connEntry := length (entries (hs w)) |} (length (entries (hs w)))).
    rewrite Hs, He. split; [apply lookup_insert_eq|].
    exists (new_entry sid conn), 0%nat. split_and!; try done.
    - unfold opened. cbn. by apply list_lookup_middle.
    - cbn [sc_conn]. by rewrite attempt_seqs_app, Hnew, (attempt_seqs_greeting conn conn). }
  destruct Hp as [reason _|c w1 w2 _ Ho Hl|c w1 k w2 _ Ho Hl].
  - by rewrite Hnew.
  - specialize (Hloop c w1 Ho). by rewrite Hl in Hloop.
  - specialize (Hloop c w1 Ho). rewrite Hl in Hloop. cbn in Hloop.
    replace (attempt_seqs conn (out (serve_defers conn sid w2).2)) with (attempt_seqs conn (out w2)); [done|].
    unfold serve_defers, removeConnection, syncRuntimeState, modify_sink.
    rewrite (proj2 (str_empty_false sid) Hsid).
    unfold modify_hs, with_entry, modify, gets, emit, mbind, st_bind, mret, st_ret; cbn.
    destruct (connections (hs w2) !! sid); symmetry;
      exact (attempt_seqs_other conn (out w2) (OutConnClose conn) eq_refl).
Qed.

(** ** Database retry *)

(** The pauses between the attempts when every attempt fails. *)
Fixpoint backoffs (n : nat) (delay : Z) : list Z :=
  match n with
  | O => []
  | Datatypes.S n =>
      delay :: backoffs n (if (wrap64 (delay * 2) >? MaxDelay (dbRetry h))%Z
                           then MaxDelay (dbRetry h) else wrap64 (delay * 2))
  end.

Definition silent {A} (fn : st W (res A)) : Prop := forall w, out (fn w).2 = out w.

Lemma retry_loop_backoff {A} n delay (fn : st W (res A)) w :
  silent fn ->
  exists k, out (retry_loop h n delay fn w).2 = out w ++ (OutSleep <$> take k (backoffs (pred n) delay)) /\
    match (retry_loop h n delay fn w).1 with
    | Ok _ => True
    | Err e => errors_is e ErrActiveSessionExists = true \/ k = pred n
    end.
Proof.
  intros Hfn. revert delay w. induction n as [|n IH]; intros delay w.
  { exists 0%nat. cbn. rewrite app_nil_r. auto. }
  cbn [retry_loop]. unfold mbind, st_bind. specialize (Hfn w).
  destruct (fn w) as [[a|e] w1] eqn:E; cbn in Hfn.
  { exists 0%nat. cbn. rewrite app_nil_r, Hfn; auto. }
  destruct (errors_is e ErrActiveSessionExists) eqn:Ee.
  { exists 0%nat. cbn. rewrite app_nil_r. auto. }
  destruct n as [|n]; [exists 0%nat; cbn; rewrite app_nil_r; auto|].
  unfold emit, modify.
  destruct (IH (if (wrap64 (delay * 2) >? MaxDelay (dbRetry h))%Z then MaxDelay (dbRetry h)
    else wrap64 (delay * 2)) (w1 <| out ::= fun o => o ++ [OutSleep delay] |>)) as (k & Hout & Hres).
  exists (Datatypes.S k). rewrite Hout. cbn -[retry_loop] in Hres |- *. split.
  - rewrite Hfn, <- app_assoc. done.
  - destruct (retry_loop _ _ _ _ _).1; [done|]. naive_solver.
Qed.

Lemma backoffs_bounded n delay :
  (0 < delay <= MaxDelay (dbRetry h))%Z -> (MaxDelay (dbRetry h) < 2 ^ 62)%Z ->
  length (backoffs n delay) = n /\
  Forall (fun d => 0 < d <= MaxDelay (dbRetry h))%Z (backoffs n delay).
Proof.
  intros Hd Hmax. revert delay Hd. induction n as [|n IH]; intros delay Hd; [done|]. cbn.
  destruct (IH (if (wrap64 (delay * 2) >? MaxDelay (dbRetry h))%Z then MaxDelay (dbRetry h)
    else wrap64 (delay * 2))) as [Hlen Hall].
  - rewrite wrap64_id by ints. destruct (Z.gtb_spec (delay * 2) (MaxDelay (dbRetry h))); lia.
  - split; [by rewrite Hlen|]. by constructor.
Qed.

(** A database write makes at most [MaxAttempts] attempts: the pauses between
    them are an initial part of the doubling schedule, positive and at most
    [MaxDelay] each; a failure means that all attempts were made, or that the
    database reported an active session, which is never retried. *)
Theorem db_retry_bounded (A : Type) (op : string) (dflt : A) (fn : st W (res A)) (w : W)
    (Hfn : silent fn)
    (Hmax : (MaxDelay (dbRetry h) < 2 ^ 62)%Z) (Hp : persistence h = true)
    (Hcfg : dbRetry h = normalizeDBRetryConfig (dbRetry h)) :
  let '(r, w') := withDBWriteRetry h op dflt fn w in
  exists pauses, out w' = out w ++ (OutSleep <$> pauses) /\
    pauses `prefix_of` backoffs (Z.to_nat (MaxAttempts (dbRetry h)) - 1) (InitialDelay (dbRetry h)) /\
    Forall (fun d => 0 < d <= MaxDelay (dbRetry h))%Z pauses /\
    (Z.of_nat (length pauses) < MaxAttempts (dbRetry h))%Z /\
    match r with
    | Ok _ => True
    | Err e => errors_is e ErrActiveSessionExists = true \/
               Z.of_nat (length pauses) = (MaxAttempts (dbRetry h) - 1)%Z
    end.
Proof.
  assert (0 < MaxAttempts (dbRetry h) /\ 0 < InitialDelay (dbRetry h) <= MaxDelay (dbRetry h))%Z
    as (Hn & Hd).
  { rewrite Hcfg. clear. unfold normalizeDBRetryConfig. destruct (dbRetry h) as [a i m]. cbn.
    repeat (case_match; cbn in * ); unfold Millisecond, Second in *; lia. }
  unfold withDBWriteRetry. rewrite Hp. cbn [negb]. unfold mbind, st_bind, mret, st_ret.
  destruct (retry_loop_backoff (Z.to_nat (MaxAttempts (dbRetry h))) (InitialDelay (dbRetry h)) fn w Hfn)
    as (k & Hout & Hres).
  destruct (retry_loop _ _ _ _ w) as [r w']; cbn in Hout, Hres.
  rewrite <- Nat.sub_1_r in Hout, Hres.
  set (sched := backoffs (Z.to_nat (MaxAttempts (dbRetry h)) - 1) (InitialDelay (dbRetry h))) in *.
  destruct (backoffs_bounded (Z.to_nat (MaxAttempts (dbRetry h)) - 1) (InitialDelay (dbRetry h)) Hd Hmax)
    as [Hlen Hall]. fold sched in Hlen, Hall.
  exists (take k sched). rewrite length_take, Hlen.
  split_and!; [done|apply prefix_take|by apply Forall_take|lia|].
  destruct r as [a|e]; [done|]. destruct Hres as [Hres|Hres].
  - rewrite Hres. by left.
  - destruct (errors_is e _) eqn:Ee; [left; by rewrite Ee|]. right. lia.
Qed.

(** ** What the exits of the loop leave behind *)

Lemma snapshot_present_loop sid c :
  loop_invariant c (fun _ s _ => is_Some (sessions s !! sid)).
Proof.
  split; try done.
  - intros ? s o msg evs _ Hs _. by rewrite (after_send_other sessions).
  - intros ? s o r b _ Hs. unfold count_disconnect. by destruct b.
  - intros sid' s o sr _ _ Hs. cbn. rewrite lookup_insert. case_decide; eauto.
Qed.

(** Only a read error removes a trader's snapshot.  When an inbound message
    ends the call (a sequence gap, an action flood, a duplicate session), the
    snapshot of its session is still served to the scheduler after [Serve] has
    returned, although the connection is gone. *)
Theorem message_exit_keeps_snapshot (c : serve_ctx) (isText : bool) (raw : string) (w : W)
    (conn : Z) (sid : string) (Hsid : sid <> "")
    (Hsnap : is_Some (sessions (hs w) !! sid)) :
  let w' := (serve_message h c isText raw w).2 in
  is_Some (sessions (hs (serve_defers conn sid w').2) !! sid).
Proof.
  assert (is_Some (sessions (hs (serve_message h c isText raw w).2) !! sid)) as Hs.
  { exact (full_serve_message h c _ (loop_invariant_frame h c _ (snapshot_present_loop sid c)) isText raw w
      Hsnap). }
  cbv zeta. rewrite serve_defers_hs by done.
  by destruct (connections (hs (serve_message h c isText raw w).2) !! sid).
Qed.
End traffic.

Lemma unregistered_is_inert_witness :
  trader_view (serve_message demo_config demo_ctx true "heartbeat" demo_world).2 = trader_view demo_world.
Proof.
  apply (unregistered_is_inert demo_config demo_ctx true "heartbeat" demo_world).
  - intros msg [= <-]. discriminate.
  - reflexivity.
Defined.

Lemma wire_numbers_increase_witness :
  StronglySorted Z.lt (text_seqs 5 (out (demo_serve demo_traffic).2)) /\
  text_seqs 5 (out (demo_serve demo_traffic).2) = [1; 2; 3; 4]%Z.
Proof.
  split; [|vm_compute; reflexivity].
  apply (wire_numbers_increase demo_config demo_request 5 "c1" "s1" "q1" "10.0.0.1" demo_traffic demo_world);
    [reflexivity|discriminate|vm_compute; reflexivity].
Defined.

Definition demo_failing : st (world (list string) Z) (res Z) := fun w => (Err (ENew "down"), w).

Lemma db_retry_bounded_witness :
  let '(r, w') := withDBWriteRetry demo_config "op" 0%Z demo_failing demo_world in
  exists pauses, out w' = out demo_world ++ (OutSleep <$> pauses) /\
    pauses `prefix_of` backoffs demo_config (Z.to_nat (MaxAttempts (dbRetry demo_config)) - 1)
      (InitialDelay (dbRetry demo_config)) /\
    Forall (fun d => 0 < d <= MaxDelay (dbRetry demo_config))%Z pauses /\
    (Z.of_nat (length pauses) < MaxAttempts (dbRetry demo_config))%Z /\
    match r with
    | Ok _ => True
    | Err e => errors_is e ErrActiveSessionExists = true \/
               Z.of_nat (length pauses) = (MaxAttempts (dbRetry demo_config) - 1)%Z
    end.
Proof.
  apply (db_retry_bounded demo_config Z "op" 0%Z demo_failing demo_world).
  - intros w. reflexivity.
  - vm_compute. reflexivity.
  - reflexivity.
  - reflexivity.
Defined.

Lemma message_exit_keeps_snapshot_witness :
  is_Some (sessions (hs (serve_defers 5 "s1" (serve_message demo_config demo_ctx true "gap"
    demo_registered).2).2) !! "s1") /\
  (serve_message demo_config demo_ctx true "gap" demo_registered).1 = Return.
Proof.
  split; [|vm_compute; reflexivity].
  apply (message_exit_keeps_snapshot demo_config demo_ctx true "gap" demo_registered 5 "s1").
  - discriminate.
  - vm_compute. eexists. reflexivity.
Defined.
