(* ===== verification/Snapshots.v ===== *)
(** * What the scheduler is shown

    The handler publishes a copy of each registered session in its snapshot table.
    Every turn of the message loop that goes on leaves the copy equal to the session:
    an operation that changes a bound session publishes it before the turn ends. *)

From S2P Require Import Prelude GoFloat Protocol Session Conn Telemetry Auth StateM Interfaces Handler HandlerFrame HandlerFacts HandlerInv HandlerSession.

Section snapshots.
Context {DB S : Type} `{!SessionPersistence DB} `{!RuntimeSink S} `{!WsJson} `{!ServeEnv}.
Context (h : handler_config).

Abbreviation W := (world DB S).
Abbreviation M := (st (world DB S)).

(** What the table must hold for a session: nothing before it has a trader. *)
Definition snapshot_for (s : sessionRuntime) : option TraderSnapshot :=
  if str_empty (traderID s) then None else Some (snapshot_of s).

Definition published (w : W) : Prop :=
  sessions (hs w) !! sessionID (the_session w) = snapshot_for (the_session w).

(** The session and the table. *)
Definition session_view (w : W) : sessionRuntime * gmap string TraderSnapshot :=
  (the_session w, sessions (hs w)).

Lemma published_view (w w' : W) : session_view w' = session_view w -> published w -> published w'.
Proof. unfold session_view, published. intros [= -> ->]. done. Qed.

Lemma session_view_frame c : serve_frame c (same session_view).
Proof.
  split; [apply base_of_prims; [apply _|split]|..]; try (intros; intros w; reflexivity).
  - intros f Hf w. unfold same, session_view, the_session. cbn. by rewrite Hf.
  - intros r b _ w. unfold same, session_view, count_disconnect. cbn. by destruct b.
  - intros msg _ w. unfold same, session_view, the_session.
    destruct (sendEnvelope_spec w (sc_conn c) msg) as (-> & -> & _).
    by rewrite (after_send_other sessions).
Qed.

Lemma session_view_db : db_frame (same session_view).
Proof. apply db_frame_any. intros A f w. unfold same, db_call. by destruct (f (db w)). Qed.

Lemma session_view_persist : persist_frame (same session_view).
Proof. by intros w. Qed.

Lemma session_view_bind sid tid : steps (same session_view) (bindConnectionTrader sid tid).
Proof.
  intros w. unfold bindConnectionTrader. destruct (_ || _); [done|].
  unfold mbind, st_bind, gets; cbn. by destruct (connections (hs w) !! sid).
Qed.

(** ** Symbolic runs

    [clean s m]: from session [s], published, [m] ends published; [dirty s m]: from
    session [s], whatever the table holds. *)

Definition clean {A} (s : sessionRuntime) (m : M A) : Prop :=
  forall w, the_session w = s -> published w -> published (m w).2.
Definition dirty {A} (s : sessionRuntime) (m : M A) : Prop :=
  forall w, the_session w = s -> published (m w).2.

Lemma clean_keep {A} s (m : M A) : steps (same session_view) m -> clean s m.
Proof. intros Hm w _ Hw. exact (published_view w _ (Hm w) Hw). Qed.

Lemma clean_session {A} s (k : sessionRuntime -> M A) :
  clean s (k s) -> clean s (gets (session ∘ loc) ≫= k).
Proof. intros Hk w <- Hw. exact (Hk w eq_refl Hw). Qed.

Lemma clean_traderID {A} s (k : string -> M A) :
  clean s (k (traderID s)) -> clean s (gets (fun w => traderID (session (loc w))) ≫= k).
Proof. intros Hk w <- Hw. exact (Hk w eq_refl Hw). Qed.

(** A step that leaves session and table alone, with what is known of its result. *)
Lemma clean_same {A B} s (m : M A) (k : A -> M B) (φ : A -> Prop) :
  steps (same session_view) m -> (forall w, φ (m w).1) -> (forall a, φ a -> clean s (k a)) ->
  clean s (m ≫= k).
Proof.
  intros Hm Hφ Hk w Hs Hw. specialize (Hm w). specialize (Hφ w). unfold mbind, st_bind.
  destruct (m w) as [a w1]; cbn in *. apply (Hk a Hφ).
  - unfold same, session_view in Hm. congruence.
  - by apply (published_view w).
Qed.

Lemma clean_modify {A} s f (k : unit -> M A) :
  dirty (f s) (k tt) -> clean s (modify_session f ≫= k).
Proof. intros Hk w <- _. by apply (Hk (w <| loc ::= fun l => l <| session ::= f |> |>)). Qed.

Lemma dirty_modify {A} s f (k : unit -> M A) :
  dirty (f s) (k tt) -> dirty s (modify_session f ≫= k).
Proof. intros Hk w <-. by apply (Hk (w <| loc ::= fun l => l <| session ::= f |> |>)). Qed.

Lemma dirty_session {A} s (k : sessionRuntime -> M A) :
  dirty s (k s) -> dirty s (gets (session ∘ loc) ≫= k).
Proof. intros Hk w <-. exact (Hk w eq_refl). Qed.

Lemma dirty_same {A B} s (m : M A) (k : A -> M B) :
  steps (same the_session) m -> (forall a, dirty s (k a)) -> dirty s (m ≫= k).
Proof.
  intros Hm Hk w Hs. specialize (Hm w). unfold mbind, st_bind.
  destruct (m w) as [a w1]; cbn in *. apply (Hk a). unfold same in Hm. congruence.
Qed.

Lemma dirty_upsert {A} s (k : unit -> M A) :
  traderID s <> "" -> steps (same session_view) (k tt) -> dirty s (upsertSessionSnapshot ≫= k).
Proof.
  intros Hne Hk w <-. unfold upsertSessionSnapshot, mbind, st_bind, gets. cbn.
  unfold the_session in Hne. rewrite (proj2 (str_empty_false _) Hne). cbn.
  eapply published_view; [apply Hk|]. unfold published, snapshot_for, the_session. cbn.
  rewrite lookup_insert_eq. by rewrite (proj2 (str_empty_false _) Hne).
Qed.

(** The steps of a turn that touch neither session nor table. *)
Ltac view_facts h c :=
  frame_facts h c session_view_frame session_view_db session_view_persist; pose proof session_view_bind.
Ltac view_keep c := frame_keep c session_view_frame.
Ltac clean_step := apply (clean_same _ _ _ (fun _ => True)).

Lemma complete_registration_clean s c id ms ro caps eff lo can dbid sta :
  normalizeTraderIDForProtocol can <> "" ->
  clean s (complete_registration h c id ms ro caps eff lo can dbid sta).
Proof.
  intros Hne. unfold complete_registration. cbv zeta.
  apply clean_modify, dirty_modify, dirty_session, dirty_same; [apply same_bind|intros _].
  apply dirty_modify, dirty_upsert; [exact Hne|].
  view_facts h c. view_keep c.
Qed.

Lemma handle_register_clean s c msg id : clean s (handle_register h c msg id).
Proof.
  view_facts h c. unfold handle_register.
  destruct (negb _); [apply clean_keep; view_keep c|].
  apply clean_traderID. destruct (negb (str_empty (traderID s))); [apply clean_keep; view_keep c|].
  destruct (unmarshal_register _) as [req|err]; [|apply clean_keep; view_keep c].
  clean_step; [done..|intros now _]. cbv zeta. clean_step; [done..|intros avail _].
  destruct (str_empty (TrimSpace (sc_clientCertCN c))) eqn:Ecn;
    [apply clean_keep; view_keep c|apply str_empty_false in Ecn].
  destruct (persistence h) eqn:Ep; [|by apply complete_registration_clean,
    normalizeTraderIDForProtocol_nonempty; rewrite TrimSpace_idem].
  apply (clean_same _ _ _ (fun r => match r with
    | Some (can, _, _) => normalizeTraderIDForProtocol can <> "" | None => True end)).
  - done.
  - intros w. destruct (resolve_identity _ _ _ _ w).1 as [[[can dbid] sta]|] eqn:E; [|done].
    apply (issued_nonempty h (sc_clientCertCN c)). by apply (resolve_identity_result h c id _ w can dbid sta).
  - intros [[[can dbid] sta]|] Hr; [|apply clean_keep; view_keep c].
    clean_step; [done..|intros [[]|k] _]; [by apply complete_registration_clean|].
    apply clean_keep. view_keep c.
Qed.

Lemma handle_heartbeat_clean s c msg id : clean s (handle_heartbeat h c msg id).
Proof.
  view_facts h c. unfold handle_heartbeat. apply clean_session.
  destruct (str_empty (traderID s)) eqn:Et; [apply clean_keep; view_keep c|].
  apply str_empty_false in Et.
  destruct (unmarshal_heartbeat _) as [req|err]; [|apply clean_keep; view_keep c].
  destruct (_ && _); [apply clean_keep; view_keep c|].
  clean_step; [done..|intros now _]. cbv zeta.
  clean_step; [view_keep c|done|intros persisted _].
  clean_step; [view_keep c; auto|done|]. intros [_|e] _; [|apply clean_keep; view_keep c].
  apply clean_modify, dirty_modify, dirty_upsert; [|view_keep c].
  by destruct (heartbeat_telemetry_fields req (markHeartbeat (time_unix_milli now) s)) as [_ ->].
Qed.

Lemma handle_latency_result_clean s c msg id : clean s (handle_latency_result c msg id).
Proof.
  view_facts h c. unfold handle_latency_result. apply clean_session.
  destruct (str_empty (traderID s)) eqn:Et; [apply clean_keep; view_keep c|].
  apply str_empty_false in Et.
  destruct (unmarshal_latency_result _) as [req|err]; [|apply clean_keep; view_keep c].
  destruct (_ && _); [apply clean_keep; view_keep c|]. cbv zeta.
  set (m := if bool_decide (extractLatencyMap _ = ∅) then _ else _). clearbody m.
  case_bool_decide; [apply clean_keep; view_keep c|].
  apply clean_modify, dirty_modify, dirty_upsert; [|view_keep c].
  destruct (setExchangeLatencies_fields m s) as [_ Ht].
  by destruct (buildLatencyProfileFromLatencyMap _ _); cbn; rewrite Ht.
Qed.

Lemma serve_message_clean s c b raw : clean s (serve_message h c b raw).
Proof.
  view_facts h c. unfold serve_message.
  clean_step; [view_keep c|done|intros _ _]. clean_step; [view_keep c|done|intros id _].
  clean_step; [done..|intros _ _]. cbv zeta.
  destruct (_ >? _)%Z; [apply clean_keep; view_keep c|].
  clean_step; [done..|intros now _]. clean_step; [view_keep c|done|intros rw _].
  clean_step; [view_keep c|done|intros _ _].
  destruct (negb rw.1); [apply clean_keep; view_keep c|].
  destruct (negb b); [apply clean_keep; view_keep c|].
  destruct (unmarshal_envelope raw) as [msg|err]; [|apply clean_keep; view_keep c].
  unfold serve_envelope. cbv zeta. destruct (_ && _); [apply clean_keep; view_keep c|].
  clean_step; [done..|intros dup _]. destruct dup; [apply clean_keep; view_keep c|].
  destruct (_ && _); [apply clean_keep; view_keep c|]. unfold serve_sequenced. cbv zeta.
  clean_step; [view_keep c|done|intros v _]. clean_step; [done..|intros _ _].
  destruct (negb (sv_ok v)); [apply clean_keep; view_keep c|].
  clean_step; [view_keep c; auto|done|intros _ _].
  unfold dispatch_action. destruct (_ =s _); [by apply handle_register_clean|].
  destruct (_ =s _); [by apply handle_heartbeat_clean|].
  destruct (_ =s _); [by apply handle_latency_result_clean|].
  by apply clean_keep.
Qed.

(** A turn after which the loop goes on keeps the table current. *)
Lemma serve_turn_published c i (w : W) :
  published w -> (serve_turn h c i w).1 = Continue -> published (serve_turn h c i w).2.
Proof.
  intros Hw. pose proof (session_view_frame c) as HF. destruct i as [b raw|raw| |err]; cbn [serve_turn].
  - intros _. by apply (serve_message_clean (the_session w)).
  - pose proof (frame_on_ping h _ (sf_base c _ HF) c raw w) as Hp. unfold mbind, st_bind, mret, st_ret.
    destruct (on_ping h c raw w) as [[e|] w1]; cbn in *; [by destruct (serve_read_error h c e w1)|].
    intros _. by apply (published_view w).
  - pose proof (frame_on_pong h c _ HF w) as Hp. unfold mbind, st_bind, mret, st_ret.
    destruct (on_pong h c w) as [[] w1]; cbn in *. intros _. by apply (published_view w).
  - unfold mbind, st_bind, mret, st_ret. by destruct (serve_read_error h c err w).
Qed.
End snapshots.
