(* ===== verification/Fleet.v ===== *)
(** * Connections side by side

    Handler.v runs one call of [Serve] at a time; here any number of them share the
    handler.  One step is one turn of the loop of one connection, or one step of
    another goroutine: a ping, a close from [CloseAll], the latency tests of the
    scheduler, other users of the state manager.  Where a goroutine gives up its
    locks inside an operation and the order matters, the operation is more than one
    step: [DispatchLatencyTest] looks its connection up, numbers the message and
    writes it in three, and a leaving connection counts down and reports the count
    in two. *)

From S2P Require Import Prelude GoFloat Protocol Session Conn Telemetry Auth StateM Interfaces Handler.

(** Where a [Serve] call stands: in its loop, returned from it with the deferred
    calls pending, or about to report the counters it has read. *)
Inductive conn_phase :=
  | Serving
  | Leaving
  | Syncing (activeNow lastSeenNow : Z).

Record connection := {
  cn_ctx : serve_ctx;
  cn_sid : string;
  cn_loc : serve_locals;
  cn_phase : conn_phase
}.

(** A message on its way through [sendEnvelope], before and after its number. *)
Inductive send_job :=
  | Unstamped (conn : Z) (msg : out_envelope)
  | Stamped (conn : Z) (msg : out_envelope).

(** [conns] is keyed by the entries of the connections.  [certs] is a history: the
    sessions ever opened, with the common names of their certificates. *)
Record fleet (DB S : Type) := mk_fleet {
  shared : world DB S;
  conns : gmap nat connection;
  jobs : list send_job;
  certs : gmap string string
}.
Arguments mk_fleet {DB S}.
Arguments shared {DB S}.
Arguments conns {DB S}.
Arguments jobs {DB S}.
Arguments certs {DB S}.

#[export] Instance eta_connection : Eta connection := fun c =>
  {| cn_ctx := cn_ctx c; cn_sid := cn_sid c; cn_loc := cn_loc c; cn_phase := cn_phase c |}.
#[export] Instance eta_fleet DB S : Eta (fleet DB S) := fun f =>
  mk_fleet (shared f) (conns f) (jobs f) (certs f).

(** What happens next. *)
Inductive fleet_event (S : Type) :=
  | EvOpen (r : http_request) (conn : Z) (connID sid requestID clientIP : string)
  | EvTurn (p : nat) (i : inbound)
  | EvLeave (p : nat)
  | EvSync (p : nat)
  | EvPing (p : nat)
  | EvClose (p : nat) (code : Z) (reason : string)
  | EvDispatch (sid tid : string) (exchanges : list string)
  | EvStamp (j : nat)
  | EvDeliver (j : nat)
  | EvSink (g : S -> S).
Arguments EvOpen {S}.
Arguments EvTurn {S}.
Arguments EvLeave {S}.
Arguments EvSync {S}.
Arguments EvPing {S}.
Arguments EvClose {S}.
Arguments EvDispatch {S}.
Arguments EvStamp {S}.
Arguments EvDeliver {S}.
Arguments EvSink {S}.

Section fleet.
Context {DB S : Type} `{!SessionPersistence DB} `{!RuntimeSink S} `{!WsJson} `{!ServeEnv}.
Context (h : handler_config).

(** The deferred calls of [Serve], split where [syncRuntimeState] has read the
    counters and has not yet reported them. *)
Definition leave_registry (sid : string) : st (world DB S) (Z * Z) :=
  removeConnection sid;;
  modify_hs (fun s => s <| active ::= fun n => wrap64 (n - 1) |>);;
  a ← gets (active ∘ hs);
  l ← gets (lastSeen ∘ hs);
  mret (a, l).

Definition leave_report (conn a l : Z) : st (world DB S) unit :=
  modify_sink (SetRuntimeWS a l);;
  emit (OutConnClose conn).

(** The shared world with the local variables of a connection. *)
Definition with_loc (l : serve_locals) (w : world DB S) : world DB S := w <| loc := l |>.

Definition set_conn (p : nat) (cn : connection) (f : fleet DB S) : fleet DB S :=
  f <| conns ::= <[p := cn]> |>.

(** Session ids are random: no id is given twice.  Two connections are two objects. *)
Definition unused_conn (conn : Z) (s : HandlerState) : bool :=
  forallb (fun e => negb (ce_conn e =? conn)%Z) (entries s).

Definition open_connection (r : http_request) (conn : Z) (connID sid requestID clientIP : string)
    (f : fleet DB S) : option (fleet DB S) :=
  match authorizeWSClientCertificate (auth h) r with
  | inr _ => None
  | inl _ =>
      if str_empty sid || bool_decide (is_Some (certs f !! sid))
         || negb (unused_conn conn (hs (shared f))) then None
      else
        let cn := extractClientCertificateCN r in
        let '(c, w) := serve_open h conn connID sid requestID clientIP cn (shared f) in
        Some (f <| shared := w |>
                <| conns ::= <[sc_connEntry c :=
                     {| cn_ctx := c; cn_sid := sid; cn_loc := loc w; cn_phase := Serving |}]> |>
                <| certs ::= <[sid := cn]> |>)
  end.

(** One turn of the loop of the connection [p]. *)
Definition connection_turn (p : nat) (i : inbound) (f : fleet DB S) : option (fleet DB S) :=
  match conns f !! p with
  | Some {| cn_ctx := c; cn_sid := sid; cn_loc := l; cn_phase := Serving |} =>
      let '(k, w) := serve_turn h c i (with_loc l (shared f)) in
      Some (set_conn p {| cn_ctx := c; cn_sid := sid; cn_loc := loc w;
                          cn_phase := match k with Continue => Serving | Return => Leaving end |}
              (f <| shared := w |>))
  | _ => None
  end.

Definition leave_connection (p : nat) (f : fleet DB S) : option (fleet DB S) :=
  match conns f !! p with
  | Some {| cn_ctx := c; cn_sid := sid; cn_loc := l; cn_phase := Leaving |} =>
      let '((a, n), w) := leave_registry sid (shared f) in
      Some (set_conn p {| cn_ctx := c; cn_sid := sid; cn_loc := l; cn_phase := Syncing a n |}
              (f <| shared := w |>))
  | _ => None
  end.

Definition sync_connection (p : nat) (f : fleet DB S) : option (fleet DB S) :=
  match conns f !! p with
  | Some {| cn_ctx := c; cn_phase := Syncing a n |} =>
      let '(_, w) := leave_report (sc_conn c) a n (shared f) in
      Some (f <| shared := w |> <| conns ::= delete p |>)
  | _ => None
  end.

(** A program of another goroutine that only works on the shared world. *)
Definition on_shared {A} (m : st (world DB S) A) (f : fleet DB S) : fleet DB S :=
  f <| shared := (m (shared f)).2 |>.

Definition dispatch_latency_test (sid tid : string) (exchanges : list string) (f : fleet DB S)
    : fleet DB S :=
  let '(r, w) := latencyTestMessage sid tid exchanges (shared f) in
  f <| shared := w |>
    <| jobs ::= fun js => match r with
                          | inl _ => js
                          | inr (conn, msg) => js ++ [Unstamped conn msg]
                          end |>.

Definition stamp_job (j : nat) (f : fleet DB S) : option (fleet DB S) :=
  match jobs f !! j with
  | Some (Unstamped conn msg) =>
      let '(msg, w) := stampEnvelope conn msg (shared f) in
      Some (f <| shared := w |> <| jobs ::= <[j := Stamped conn msg]> |>)
  | _ => None
  end.

Definition deliver_job (j : nat) (f : fleet DB S) : option (fleet DB S) :=
  match jobs f !! j with
  | Some (Stamped conn msg) =>
      Some (on_shared (writeMessage conn msg) f <| jobs ::= delete j |>)
  | _ => None
  end.

Definition fleet_next (e : fleet_event S) (f : fleet DB S) : option (fleet DB S) :=
  match e with
  | EvOpen r conn connID sid requestID clientIP =>
      open_connection r conn connID sid requestID clientIP f
  | EvTurn p i => connection_turn p i f
  | EvLeave p => leave_connection p f
  | EvSync p => sync_connection p f
  | EvPing p => Some (on_shared (ping_tick p) f)
  | EvClose p code reason => Some (on_shared (closeConnection p code reason) f)
  | EvDispatch sid tid exchanges => Some (dispatch_latency_test sid tid exchanges f)
  | EvStamp j => stamp_job j f
  | EvDeliver j => deliver_job j f
  | EvSink g => Some (on_shared (modify_sink g) f)
  end.

Fixpoint fleet_run (es : list (fleet_event S)) (f : fleet DB S) : option (fleet DB S) :=
  match es with
  | [] => Some f
  | e :: es => f ← fleet_next e f; fleet_run es f
  end.

(** Before the first connection. *)
Definition fleet_start (w : world DB S) : fleet DB S :=
  {| shared := w <| hs := new_handler_state |> <| out := [] |>; conns := ∅; jobs := [];
     certs := ∅ |}.

Inductive reachable (w : world DB S) : fleet DB S -> Prop :=
  | reach_start : reachable w (fleet_start w)
  | reach_step e f f' : reachable w f -> fleet_next e f = Some f' -> reachable w f'.

(** Rule induction, for properties that are inductive. *)
Lemma reachable_invariant (I : fleet DB S -> Prop) w :
  I (fleet_start w) -> (forall e f f', I f -> fleet_next e f = Some f' -> I f') ->
  forall f, reachable w f -> I f.
Proof. intros Hstart Hstep f. induction 1; eauto. Qed.

Lemma fleet_run_reachable w es f f' :
  reachable w f -> fleet_run es f = Some f' -> reachable w f'.
Proof.
  revert f. induction es as [|e es IH]; intros f Hf; cbn; [by intros [= <-]|].
  destruct (fleet_next e f) as [f1|] eqn:E; cbn; [|done].
  apply IH. by apply (reach_step w e f).
Qed.

Lemma fleet_run_app es es' f :
  fleet_run (es ++ es') f = f' ← fleet_run es f; fleet_run es' f'.
Proof.
  revert f. induction es as [|e es IH]; intros f; cbn; [done|].
  destruct (fleet_next e f); cbn; auto.
Qed.

(** The steps of a split operation, taken together, are the operation. *)
Lemma leave_steps conn sid (w : world DB S) :
  (al ← leave_registry sid; leave_report conn al.1 al.2) w = serve_defers conn sid w.
Proof.
  unfold leave_registry, leave_report, serve_defers, syncRuntimeState, mbind, st_bind, gets, mret, st_ret.
  by destruct (removeConnection sid w) as [[] w1].
Qed.

Lemma dispatch_steps sid tid exchanges (w : world DB S) :
  DispatchLatencyTest sid tid exchanges w =
  (r ← latencyTestMessage sid tid exchanges;
   match r with
   | inl err => mret (Some err)
   | inr (conn, msg) => msg ← stampEnvelope conn msg; _ ← writeMessage conn msg; mret None
   end) w.
Proof.
  unfold DispatchLatencyTest, sendEnvelope, mbind, st_bind.
  destruct (latencyTestMessage sid tid exchanges w) as [[err|[conn msg]] w1]; [done|].
  destruct (stampEnvelope conn msg w1) as [msg' w2].
  by destruct (writeMessage conn msg' w2).
Qed.
End fleet.
