(* ===== verification/FleetTurn.v ===== *)
(** * What a turn touches

    A turn of the message loop changes nothing that belongs to another connection:
    of the shared state it changes its own entry, its own registration and its own
    snapshot, and it sends on its own connection only. *)

From S2P Require Import Prelude GoFloat Protocol Session Conn Telemetry Auth StateM Interfaces Handler HandlerFrame HandlerFacts HandlerInv HandlerSession HandlerTraffic Snapshots.

(** What identifies an entry. *)
Definition entry_ids (e : wsConnectionEntry) : string * Z := (ce_sessionID e, ce_conn e).

Section effects.
Context {DB S : Type} `{!SessionPersistence DB} `{!RuntimeSink S} `{!WsJson} `{!ServeEnv}.
Context (h : handler_config).

Abbreviation W := (world DB S).

(** ** What one turn touches *)

(** Connection [conn] with entry [p], which had numbered [n] messages, numbers some
    more: from [o0] to [o] its numbers go on. *)
Definition sends_more (conn : Z) (p : nat) (n : nat) (o0 : list out_event) (s : HandlerState)
    (o : list out_event) : Prop :=
  exists e (j : nat), entries s !! p = Some e /\ outboundSeq e = wrapu64 (Z.of_nat (n + j)) /\
    attempt_seqs conn o =
      attempt_seqs conn o0 ++ (wrapu64 <$> seqZ (1 + Z.of_nat n) (Z.of_nat j)).

(** The messages of the other connections are what they were. *)
Definition others_silent (conn : Z) (o0 o : list out_event) : Prop :=
  forall conn', conn' <> conn ->
    text_seqs conn' o = text_seqs conn' o0 /\ attempt_seqs conn' o = attempt_seqs conn' o0.

(** Everything a turn leaves alone, as an invariant of the loop. *)
Record turn_keeps (p : nat) (sid0 : string) (conn : Z) (n : nat) (s0 : HandlerState) (o0 : list out_event)
    (sid : string) (s : HandlerState) (o : list out_event) : Prop := {
  tk_sid : sid = sid0;
  tk_own : connections s0 !! sid0 = Some p /\ connectionsByConn s0 !! conn = Some p;
  tk_connections : connections s = connections s0;
  tk_byConn : connectionsByConn s = connectionsByConn s0;
  tk_active : active s = active s0;
  tk_ids : exists e, entries s !! p = Some e /\ entry_ids e = (sid0, conn);
  tk_entries : forall q, q <> p -> entries s !! q = entries s0 !! q;
  tk_sessions : forall sid', sid' <> sid0 -> sessions s !! sid' = sessions s0 !! sid';
  tk_numbers : sends_more conn p n o0 s o;
  tk_text : others_silent conn o0 o
}.

Lemma sends_more_quiet conn p n o0 s s' o o' :
  outboundSeq <$> entries s' !! p = outboundSeq <$> entries s !! p ->
  attempt_seqs conn o' = attempt_seqs conn o -> sends_more conn p n o0 s o -> sends_more conn p n o0 s' o'.
Proof.
  intros He Ho (e & j & Hp & Hn & Ht). rewrite Hp in He. cbn in He.
  destruct (entries s' !! p) as [e'|] eqn:Hp'; [|done]. injection He as He.
  exists e', j. split_and!; congruence.
Qed.

Lemma text_seqs_single conn k msg err :
  text_seqs conn [OutText k msg err] = if bool_decide (k = conn) then [Seq msg] else [].
Proof. cbn. by case_bool_decide. Qed.

Lemma text_seqs_sent_other conn k msg ev : sent_event k msg ev -> k <> conn -> text_seqs conn [ev] = [].
Proof. intros (err & [->| ->]) Hne; cbn; by rewrite ?bool_decide_eq_false_2. Qed.

(** A message that goes out on the connection itself. *)
Lemma turn_keeps_send p sid0 conn n s0 o0 sid s o msg ev :
  turn_keeps p sid0 conn n s0 o0 sid s o ->
  sent_event (outgoing s conn msg).1 (outgoing s conn msg).2 ev ->
  turn_keeps p sid0 conn n s0 o0 sid (after_send s conn) (o ++ [ev]).
Proof.
  intros [Hsid [Ho1 Ho2] Hc Hk Ha (e & He & Hids) Hents Hsess Hnum Htxt] Hev.
  assert (connectionsByConn s !! conn = Some p) as Hp by (by rewrite Hk).
  injection Hids as Hes Hec.
  assert (outgoing s conn msg = (conn, stamp (nextOutboundSeqAck e).1 msg)) as Hout.
  { unfold outgoing. by rewrite Hp, He, Hec. }
  rewrite Hout in Hev. cbn in Hev. unfold after_send. rewrite Hp.
  split; cbn; try done.
  - exists (nextOutboundSeqAck e).2. rewrite list_lookup_alter_eq, He. cbn. unfold entry_ids. cbn. by rewrite Hes, Hec.
  - intros q Hq. rewrite list_lookup_alter_ne by done. by apply Hents.
  - destruct Hnum as (e1 & j & He1 & Hn & Ht).
    assert (e1 = e) as -> by congruence.
    assert (outboundSeq (nextOutboundSeqAck e).2 = wrapu64 (Z.of_nat (n + Datatypes.S j))) as Hn'.
    { cbn. rewrite Hn. unfold wrapu64. rewrite Zplus_mod_idemp_l. f_equal. lia. }
    exists (nextOutboundSeqAck e).2, (Datatypes.S j). split_and!; [cbn; by rewrite list_lookup_alter_eq, He|done|].
    rewrite attempt_seqs_app, Ht, (attempt_seqs_sent _ _ _ _ Hev), bool_decide_eq_true_2 by done.
    rewrite seqZ_S, fmap_app, <- app_assoc. cbn. rewrite stamp_Seq. cbn in Hn' |- *. rewrite Hn'.
    do 4 f_equal. lia.
  - intros conn' Hne. destruct (Htxt conn' Hne) as [Ht1 Ht2].
    rewrite text_seqs_app, attempt_seqs_app, Ht1, Ht2, (attempt_seqs_sent _ _ _ _ Hev),
      (text_seqs_sent_other _ _ _ _ Hev), bool_decide_eq_false_2, !app_nil_r by congruence. done.
Qed.

Lemma entry_update_keeps f e :
  entry_update f -> entry_ids (f e) = entry_ids e /\ outboundSeq (f e) = outboundSeq e.
Proof.
  intros Hf. pose proof (entry_update_id f e Hf) as Hi. unfold entry_id, entry_ids in *.
  injection Hi as -> -> _. split; [done|]. by apply entry_update_outbound.
Qed.

Lemma turn_keeps_loop c p sid0 n s0 o0 :
  sc_connEntry c = p -> loop_invariant c (turn_keeps p sid0 (sc_conn c) n s0 o0).
Proof.
  intros Hcp. split.
  - intros sid s o e He [Hsid Ho Hc Hk Ha Hi Hents Hsess Hnum Htxt]. split; try done.
    + eapply sends_more_quiet; [reflexivity|by apply attempt_seqs_other|done].
    + intros conn' Hne. rewrite text_seqs_other, attempt_seqs_other by done. by apply Htxt.
  - intros sid s o msg ev _. apply turn_keeps_send.
  - intros sid s o f q Hf Hq [Hsid [Ho1 Ho2] Hc Hk Ha (e & He & Hids) Hents Hsess Hnum Htxt].
    assert (q = p) as ->.
    { destruct Hq as [->|Hq]; [done|]. rewrite Hsid, Hc, Ho1 in Hq. by injection Hq. }
    destruct (entry_update_keeps f e Hf) as [Hf1 Hf2].
    split; cbn; try done.
    + exists (f e). rewrite list_lookup_alter_eq, He. cbn. by rewrite Hf1.
    + intros q Hne. rewrite list_lookup_alter_ne by done. by apply Hents.
    + eapply sends_more_quiet; [|reflexivity|exact Hnum]. cbn.
      rewrite list_lookup_alter_eq, He. cbn. by rewrite Hf2.
  - intros sid s o r b _ [Hsid Ho Hc Hk Ha Hi Hents Hsess Hnum Htxt].
    unfold count_disconnect. destruct b; split; cbn; done.
  - intros sid s o sr _ Hsr [Hsid Ho Hc Hk Ha Hi Hents Hsess Hnum Htxt]. split; cbn; try done.
    intros sid' Hne. rewrite lookup_insert_ne by congruence. by apply Hsess.
Qed.

(** What the clean-up after a read error touches. *)
Record end_keeps (w w' : W) : Prop := {
  ek_sid : sessionID (the_session w') = sessionID (the_session w);
  ek_connections : forall sid, sid <> sessionID (the_session w) ->
    connections (hs w') !! sid = connections (hs w) !! sid;
  ek_removed : connections (hs w') !! sessionID (the_session w) =
                 connections (hs w) !! sessionID (the_session w) \/
               connections (hs w') !! sessionID (the_session w) = None;
  ek_active : active (hs w') = active (hs w);
  ek_ids : forall q, entry_ids <$> entries (hs w') !! q = entry_ids <$> entries (hs w) !! q;
  ek_seqs : forall q, outboundSeq <$> entries (hs w') !! q = outboundSeq <$> entries (hs w) !! q;
  ek_entries : forall q, connections (hs w) !! sessionID (the_session w) <> Some q ->
    entries (hs w') !! q = entries (hs w) !! q;
  ek_sessions : forall sid, sid <> sessionID (the_session w) ->
    sessions (hs w') !! sid = sessions (hs w) !! sid;
  ek_snapshot : sessions (hs w') !! sessionID (the_session w) =
                  sessions (hs w) !! sessionID (the_session w) \/
                sessions (hs w') !! sessionID (the_session w) = None;
  ek_text : forall conn, text_seqs conn (out w') = text_seqs conn (out w) /\
    attempt_seqs conn (out w') = attempt_seqs conn (out w)
}.

#[export] Instance end_keeps_preorder : PreOrder end_keeps.
Proof.
  split; [intros w; split; auto|]. intros w1 w2 w3 [H1 H2 H3 H4 H5 H6 H7 H8 H10 H9]
    [K1 K2 K3 K4 K5 K6 K7 K8 K10 K9].
  rewrite H1 in *. split; try congruence.
  - intros sid Hs. rewrite K2, H2; done.
  - destruct K3 as [->|K3]; [|by right]. done.
  - intros q Hq. rewrite K7; [by apply H7|]. destruct H3 as [->| ->]; done.
  - intros sid Hs. rewrite K8, H8; done.
  - destruct K10 as [->|K10]; [|by right]. done.
  - intros conn. destruct (H9 conn), (K9 conn). split; congruence.
Qed.

(** A step that leaves all of it. *)
Definition end_view (w : W) :=
  (sessionID (the_session w), connections (hs w), active (hs w), entries (hs w), sessions (hs w)).

Lemma end_keeps_view w w' :
  end_view w' = end_view w -> (forall conn, text_seqs conn (out w') = text_seqs conn (out w) /\
    attempt_seqs conn (out w') = attempt_seqs conn (out w)) ->
  end_keeps w w'.
Proof. unfold end_view. intros [= E1 E2 E3 E4 E5] Ho. split; try congruence; intros; rewrite ?E2, ?E4, ?E5; auto. Qed.

Lemma end_keeps_base : base_frame end_keeps.
Proof.
  apply base_of_prims; [apply _|]. split; try (intros; intros w; by apply end_keeps_view).
  - intros e He w. apply end_keeps_view; [done|]. intros conn.
    split; [by apply text_seqs_other|by apply attempt_seqs_other].
  - intros f Hf w. apply end_keeps_view; [|done]. unfold end_view, the_session. cbn. by rewrite Hf.
  - intros r b _ w. apply end_keeps_view; [|done]. unfold end_view, count_disconnect. cbn. by destruct b.
Qed.

Lemma end_keeps_frame : end_frame end_keeps.
Proof.
  split; [apply end_keeps_base| | | |].
  - apply db_frame_any. intros A f w. unfold db_call. destruct (f (db w)).
    by apply end_keeps_view.
  - intros f Hf w. apply end_keeps_view; [|done]. unfold end_view, the_session. cbn. by rewrite Hf.
  - intros w. unfold current_session_id, deleteSessionSnapshot, mbind, st_bind, gets. cbn.
    destruct (str_empty _); [reflexivity|]. split; cbn; auto.
    + unfold the_session. intros sid Hs. by rewrite lookup_delete_ne by congruence.
    + right. apply lookup_delete_eq.
  - intros w. unfold current_session_id, removeConnection, mbind, st_bind, gets. cbn.
    destruct (str_empty _); [reflexivity|]. cbn.
    destruct (connections (hs w) !! _) as [p|] eqn:E; [|reflexivity].
    split; cbn; auto; unfold the_session in *.
    + intros sid Hs. by rewrite lookup_delete_ne by congruence.
    + right. apply lookup_delete_eq.
    + intros q. rewrite list_lookup_alter. case_decide; [|done]. subst. by destruct (entries (hs w) !! q).
    + intros q. rewrite list_lookup_alter. case_decide; [|done]. subst. by destruct (entries (hs w) !! q).
    + intros q Hq. rewrite list_lookup_alter_ne; [done|]. congruence.
Qed.

(** A whole turn of the connection [conn] of session [sid] with entry [p]. *)
Record turn_effect (p : nat) (sid : string) (conn : Z) (n : nat) (w w' : W) : Prop := {
  te_sid : sessionID (the_session w') = sid;
  te_connections : forall sid', sid' <> sid ->
    connections (hs w') !! sid' = connections (hs w) !! sid';
  te_own : connections (hs w') !! sid = Some p \/ connections (hs w') !! sid = None;
  te_active : active (hs w') = active (hs w);
  te_ids : forall q, entry_ids <$> entries (hs w') !! q = entry_ids <$> entries (hs w) !! q;
  te_entries : forall q, q <> p -> entries (hs w') !! q = entries (hs w) !! q;
  te_sessions : forall sid', sid' <> sid -> sessions (hs w') !! sid' = sessions (hs w) !! sid';
  te_numbers : sends_more conn p n (out w) (hs w') (out w');
  te_text : others_silent conn (out w) (out w')
}.

Lemma turn_keeps_effect p sid conn n (w w' : W) e :
  entries (hs w) !! p = Some e -> entry_ids e = (sid, conn) ->
  turn_keeps p sid conn n (hs w) (out w) (sessionID (the_session w')) (hs w') (out w') ->
  turn_effect p sid conn n w w'.
Proof.
  intros He Hids [Hsid [Ho1 Ho2] Hc Hk Ha (e' & He' & Hids') Hents Hsess Hnum Htxt].
  split; try done.
  - intros sid' _. by rewrite Hc.
  - left. by rewrite Hc.
  - intros q. destruct (decide (q = p)) as [->|Hq]; [|by rewrite Hents].
    rewrite He, He'. cbn. congruence.
Qed.

Lemma end_keeps_effect p sid conn n (w w1 w' : W) :
  turn_effect p sid conn n w w1 -> end_keeps w1 w' -> turn_effect p sid conn n w w'.
Proof.
  intros [H1 H2 H3 H4 H5 H6 H7 H8 H9]
    [K1 K2 K3 K4 K5 K6 K7 K8 K10 K9]. rewrite H1 in *.
  split; try congruence.
  - intros sid' Hs. by rewrite K2, H2.
  - destruct K3 as [->|K3]; [done|by right].
  - intros q Hq. rewrite K7; [by apply H6|]. destruct H3 as [->| ->]; congruence.
  - intros sid' Hs. by rewrite K8, H7.
  - eapply sends_more_quiet; [apply K6|apply K9|done].
  - intros conn' Hc. destruct (H9 conn' Hc), (K9 conn'). split; congruence.
Qed.

Lemma serve_turn_effect c p sid n i (w : W) e :
  sc_connEntry c = p -> sessionID (the_session w) = sid -> connections (hs w) !! sid = Some p ->
  connectionsByConn (hs w) !! sc_conn c = Some p -> entries (hs w) !! p = Some e ->
  entry_ids e = (sid, sc_conn c) -> outboundSeq e = wrapu64 (Z.of_nat n) ->
  turn_effect p sid (sc_conn c) n w (serve_turn h c i w).2 /\
  ((serve_turn h c i w).1 = Continue -> connections (hs (serve_turn h c i w).2) !! sid = Some p).
Proof.
  intros Hcp Hsid Hreg Hbyc He Hids Hn.
  pose proof (loop_invariant_frame h c _ (turn_keeps_loop c p sid n (hs w) (out w) Hcp)) as HF.
  pose proof (serve_turn_cases h c _ end_keeps i w HF
    (fun err => frame_serve_read_error h _ end_keeps_base c err end_keeps_frame)) as Hcases.
  assert (forall w1, keeps (in_world (turn_keeps p sid (sc_conn c) n (hs w) (out w))) w w1 ->
    turn_effect p sid (sc_conn c) n w w1 /\ connections (hs w1) !! sid = Some p) as Hk.
  { intros w1 Hk.
    assert (turn_keeps p sid (sc_conn c) n (hs w) (out w) (sessionID (the_session w1)) (hs w1) (out w1)) as Ht.
    { apply Hk. split; try done; [by exists e|].
      exists e, 0%nat. split_and!; [done|by rewrite Nat.add_0_r|by rewrite app_nil_r]. }
    split; [by apply (turn_keeps_effect _ _ _ _ _ _ e)|]. destruct Ht. congruence. }
  destruct (serve_turn h c i w) as [k w']; cbn.
  destruct Hcases as [Hk1|(-> & w1 & Hk1 & He1)]; [naive_solver|].
  split; [|done]. destruct (Hk w1 Hk1). by eapply end_keeps_effect.
Qed.
End effects.
