(* ===== verification/FleetFacts.v ===== *)
(** * Invariants of connections side by side

    [fleet_ok] holds in every fleet that can be reached: what holds of a call of
    [Serve] alone holds of any number of them, whatever the order of their turns and
    whatever the other goroutines do in between. *)

From S2P Require Import Prelude GoFloat Protocol Session Conn Telemetry Auth StateM Interfaces Handler HandlerFrame HandlerFacts HandlerInv HandlerSession HandlerTraffic Snapshots Fleet FleetTurn.

(** ** The invariant *)

(** Whether a connection is still in the handler's count. *)
Definition counted (cn : connection) : bool :=
  match cn_phase cn with Syncing _ _ => false | _ => true end.

Definition count_conns (m : gmap nat connection) : nat :=
  size (filter (fun kv => counted kv.2 = true) m).

(** The numbers of [conn] that have been given out and are not yet written. *)
Definition pending (conn : Z) (js : list send_job) : list Z :=
  omap (fun j => match j with
                 | Stamped k msg => if bool_decide (k = conn) then Some (Seq msg) else None
                 | Unstamped _ _ => None
                 end) js.

(** A connection the handler has served. *)
Definition known_conn (s : HandlerState) (conn : Z) : Prop :=
  exists p sid, entry_ids <$> entries s !! p = Some (sid, conn).

Definition job_ok (s : HandlerState) (j : send_job) : Prop :=
  match j with
  | Unstamped conn msg => known_conn s conn /\ error_supported msg /\ Seq msg = 0%Z
  | Stamped conn msg => known_conn s conn /\ error_supported msg
  end.

Lemma known_conn_dec (s : HandlerState) conn : known_conn s conn \/ ~ known_conn s conn.
Proof.
  destruct (decide (Exists (fun e => ce_conn e = conn) (entries s))) as [Hx|Hx]; [left|right].
  - apply Exists_exists in Hx as (e & Hin & <-). apply list_elem_of_lookup in Hin as [p Hp].
    exists p, (ce_sessionID e). by rewrite Hp.
  - intros (p & sid & Hp). apply Hx. destruct (entries s !! p) as [e|] eqn:E; [|done].
    injection Hp as _ <-. apply Exists_exists. exists e. split; [by eapply list_elem_of_lookup_2|done].
Qed.

(** Messages go to served connections only. *)
Record wire_ok (s : HandlerState) (o : list out_event) (js : list send_job) : Prop := {
  wo_text : forall conn, attempt_seqs conn o <> [] -> known_conn s conn;
  wo_jobs : Forall (job_ok s) js
}.

(** Every entry belongs to an opened session, and no two share session or connection. *)
Record entries_ok (s : HandlerState) (cs : gmap string string) : Prop := {
  eo_known : forall p sid conn, entry_ids <$> entries s !! p = Some (sid, conn) -> is_Some (cs !! sid);
  eo_distinct : forall p q sid conn sid' conn',
    entry_ids <$> entries s !! p = Some (sid, conn) ->
    entry_ids <$> entries s !! q = Some (sid', conn') -> sid = sid' \/ conn = conn' -> p = q
}.

Definition same_ids (s s' : HandlerState) : Prop :=
  forall q, entry_ids <$> entries s' !! q = entry_ids <$> entries s !! q.

Lemma known_conn_ids s s' conn : same_ids s s' -> known_conn s conn -> known_conn s' conn.
Proof. intros Hids (p & sid & Hp). exists p, sid. by rewrite Hids. Qed.

Lemma entries_ok_ids s s' cs : same_ids s s' -> entries_ok s cs -> entries_ok s' cs.
Proof.
  intros Hids [Hk Hd]. split.
  - intros p sid conn. rewrite Hids. apply Hk.
  - intros p q sid conn sid' conn'. rewrite !Hids. apply Hd.
Qed.

Lemma job_ok_ids s s' j : same_ids s s' -> job_ok s j -> job_ok s' j.
Proof. intros Hids. destruct j; cbn; intuition; by eapply known_conn_ids. Qed.

Lemma wire_ok_ids s s' o o' js :
  same_ids s s' -> (forall conn, attempt_seqs conn o' <> [] -> attempt_seqs conn o <> [] \/ known_conn s conn) ->
  wire_ok s o js -> wire_ok s' o' js.
Proof.
  intros Hids Ho [Ht Hj]. split.
  - intros conn Hc. apply (known_conn_ids s); [done|]. destruct (Ho conn Hc); auto.
  - eapply Forall_impl; [exact Hj|]. intros j. by apply job_ok_ids.
Qed.

(** A connection has numbered [n] messages 1 to [n], once each; [m] messages have met
    it after it was removed, and carry no number (0).  Each of them has been sent or is
    about to be. *)
Definition numbered_entry (o : list out_event) (js : list send_job) (e : wsConnectionEntry) : Prop :=
  exists (n m : nat), outboundSeq e = wrapu64 (Z.of_nat n) /\
    attempt_seqs (ce_conn e) o ++ pending (ce_conn e) js ≡ₚ
      (wrapu64 <$> seqZ 1 (Z.of_nat n)) ++ replicate m 0%Z.

Section invariant.
Context {DB S : Type} `{!SessionPersistence DB} `{!RuntimeSink S} `{!WsJson} `{!ServeEnv}.
Context (h : handler_config).

(** A connection in its loop: registered, its session alive, speaking for the trader
    of its certificate, and published. *)
Record serving_ok (s : HandlerState) (p : nat) (cn : connection) : Prop := {
  so_registered : connections s !! cn_sid cn = Some p;
  so_live : session_live (session (cn_loc cn));
  so_sid : sessionID (session (cn_loc cn)) = cn_sid cn;
  so_trader : traderID (session (cn_loc cn)) = "" \/
    issued (DB := DB) h (sc_clientCertCN (cn_ctx cn)) (traderID (session (cn_loc cn)));
  so_published : sessions s !! cn_sid cn = snapshot_for (session (cn_loc cn))
}.

Record conn_ok (s : HandlerState) (cs : gmap string string) (p : nat) (cn : connection) : Prop := {
  co_entry : sc_connEntry (cn_ctx cn) = p;
  co_sid : cn_sid cn <> "";
  co_ids : entry_ids <$> entries s !! p = Some (cn_sid cn, sc_conn (cn_ctx cn));
  co_cert : cs !! cn_sid cn = Some (sc_clientCertCN (cn_ctx cn));
  co_serving : cn_phase cn = Serving -> serving_ok s p cn
}.

Record fleet_ok (f : fleet DB S) : Prop := {
  fo_handler : handler_ok (hs (shared f)) (out (shared f));
  fo_conns : map_Forall (conn_ok (hs (shared f)) (certs f)) (conns f);
  fo_registry : forall sid p, connections (hs (shared f)) !! sid = Some p ->
    exists cn, conns f !! p = Some cn /\ cn_sid cn = sid /\ counted cn = true;
  fo_active : active (hs (shared f)) =
    wrap64 (Z.of_nat (count_conns (conns f)));
  fo_entries : entries_ok (hs (shared f)) (certs f);
  fo_snapshots : forall sid t, sessions (hs (shared f)) !! sid = Some t ->
    exists cn, certs f !! sid = Some cn /\ issued (DB := DB) h cn (ts_TraderID t);
  fo_numbers : forall p e, entries (hs (shared f)) !! p = Some e ->
    numbered_entry (out (shared f)) (jobs f) e;
  fo_wire : wire_ok (hs (shared f)) (out (shared f)) (jobs f)
}.

Lemma fleet_ok_start w : fleet_ok (fleet_start w).
Proof.
  split; cbn; try done; try (intros; simplify_map_eq; done); [apply handler_ok_init|..];
    split; done.
Qed.

Lemma entry_ids_Some (s : HandlerState) p sid conn :
  entry_ids <$> entries s !! p = Some (sid, conn) ->
  exists e, entries s !! p = Some e /\ ce_sessionID e = sid /\ ce_conn e = conn.
Proof.
  destruct (entries s !! p) as [e|]; [|done]. cbn. unfold entry_ids. intros [= <- <-]. by exists e.
Qed.

Lemma conn_ok_ids s s' cs p cn :
  same_ids s s' -> (serving_ok s p cn -> serving_ok s' p cn) -> conn_ok s cs p cn -> conn_ok s' cs p cn.
Proof. intros Hids Hs [H1 H2 H3 H4 H5]. split; auto. by rewrite Hids. Qed.

(** Two connections have different sessions. *)
Lemma conns_distinct f p q cn cn' :
  fleet_ok f -> conns f !! p = Some cn -> conns f !! q = Some cn' ->
  cn_sid cn = cn_sid cn' \/ sc_conn (cn_ctx cn) = sc_conn (cn_ctx cn') -> p = q.
Proof.
  intros Hf Hp Hq. apply (eo_distinct _ _ (fo_entries f Hf)); eapply co_ids, fo_conns; eauto.
Qed.

(** *** Steps that only write control frames or tick *)

Definition entry_kept (e : wsConnectionEntry) := (entry_id e, outboundSeq e).

Record quiet (w w' : world DB S) : Prop := {
  qu_registry : connections (hs w') = connections (hs w) /\
    connectionsByConn (hs w') = connectionsByConn (hs w) /\ active (hs w') = active (hs w);
  qu_sessions : sessions (hs w') = sessions (hs w);
  qu_metrics : disconnectTotal (hs w') = disconnectTotal (hs w) /\
    disconnectClose4009 (hs w') = disconnectClose4009 (hs w) /\
    disconnectByReason (hs w') = disconnectByReason (hs w);
  qu_entries : forall q, entry_kept <$> entries (hs w') !! q = entry_kept <$> entries (hs w) !! q;
  qu_out : exists evs, out w' = out w ++ evs /\ Forall (fun e => is_text e = false) evs
}.

#[export] Instance quiet_preorder : PreOrder quiet.
Proof.
  split.
  - intros w. split; auto. exists []. by rewrite app_nil_r.
  - intros w1 w2 w3 [(?&?&?) ? (?&?&?) He (evs & Ho & Hev)] [(?&?&?) ? (?&?&?) He' (evs' & Ho' & Hev')].
    split; [split_and!; congruence|congruence|split_and!; congruence| |].
    + intros q. by rewrite He', He.
    + exists (evs ++ evs'). rewrite Ho', Ho, app_assoc. split; [done|]. by apply Forall_app.
Qed.

Lemma quiet_same (w w' : world DB S) : hs w' = hs w -> out w' = out w -> quiet w w'.
Proof.
  intros Hh Ho. split; rewrite ?Hh; auto. exists []. by rewrite app_nil_r.
Qed.

Lemma quiet_emit e : is_text e = false -> steps quiet (emit e).
Proof. intros He w. split; auto. exists [e]. split; [done|]. by constructor. Qed.

Lemma quiet_tick : steps quiet (time_now (DB := DB) (S := S)).
Proof. intros w. by apply quiet_same. Qed.
Lemma quiet_call : steps quiet (conn_call (DB := DB) (S := S)).
Proof. intros w. by apply quiet_same. Qed.
Lemma quiet_sink g : steps quiet (modify_sink (DB := DB) (S := S) g).
Proof. intros w. by apply quiet_same. Qed.
Lemma quiet_entry p g : (forall e, entry_kept (g e) = entry_kept e) ->
  steps quiet (with_entry (DB := DB) (S := S) p g).
Proof.
  intros Hg w. split; cbn; auto; [|exists []; by rewrite app_nil_r].
  intros q. rewrite list_lookup_alter. case_decide; [|done]. subst.
  destruct (entries (hs w) !! q); cbn; by rewrite ?Hg.
Qed.

Local Hint Resolve quiet_tick quiet_call quiet_sink : steps.
Local Hint Extern 0 (steps quiet (emit _)) => (apply quiet_emit; reflexivity) : steps.
Local Hint Extern 0 (steps quiet (with_entry _ _)) => (apply quiet_entry; reflexivity) : steps.

Lemma quiet_ping_tick p : steps quiet (ping_tick p).
Proof.
  unfold ping_tick, writePingMessage, withWriteLock, writeWithDeadline, entry_conn.
  steps_auto.
Qed.

Lemma quiet_closeConnection p code reason : steps quiet (closeConnection p code reason).
Proof.
  unfold closeConnection, withWriteLock, writeWithDeadline, entry_conn. steps_auto.
Qed.

Lemma quiet_latencyTestMessage sid tid ex : steps quiet (latencyTestMessage sid tid ex).
Proof. unfold latencyTestMessage. steps_auto. Qed.

Lemma quiet_ids w w' : quiet w w' -> same_ids (hs w) (hs w').
Proof.
  intros Hq p. pose proof (qu_entries _ _ Hq p) as Hk. unfold entry_kept, entry_id, entry_ids in *.
  destruct (entries (hs w) !! p), (entries (hs w') !! p); cbn in *; congruence.
Qed.

Lemma attempt_seqs_quiet conn evs :
  Forall (fun e => is_text e = false) evs -> attempt_seqs conn evs = [].
Proof.
  induction 1 as [|e evs He _ IH]; [done|].
  change (e :: evs) with ([e] ++ evs). rewrite attempt_seqs_app, IH, app_nil_r.
  exact (attempt_seqs_other conn [] e He).
Qed.

Lemma handler_ok_quiet w w' :
  quiet w w' -> handler_ok (hs w) (out w) -> handler_ok (hs w') (out w').
Proof.
  intros [(Hc & Hk & Ha) Hs (Hm1 & Hm2 & Hm3) He (evs & Ho & Hev)] (Hr & Hsn & Hm & Hco). split_and!.
  - apply (registry_ok_ext (hs w)); try done. intros p. specialize (He p). unfold entry_kept in He.
    destruct (entries (hs w) !! p), (entries (hs w') !! p); cbn in *; congruence.
  - unfold snapshots_ok. by rewrite Hs.
  - by apply (metrics_ok_proj (hs w)).
  - rewrite Ho. apply Forall_app. split; [done|].
    eapply Forall_impl; [exact Hev|]. by intros [].
Qed.

Lemma fleet_ok_quiet f w' : fleet_ok f -> quiet (shared f) w' -> fleet_ok (f <| shared := w' |>).
Proof.
  intros [Hh Hc Hr Ha He Hsn Hn Hw] Hq.
  pose proof (handler_ok_quiet _ _ Hq Hh) as Hh'. pose proof (quiet_ids _ _ Hq) as Hids.
  pose proof (qu_entries _ _ Hq) as Hents.
  destruct Hq as [(Ec & Ek & Ea) Es _ _ (evs & Eo & Hev)].
  assert (forall conn, attempt_seqs conn (out w') = attempt_seqs conn (out (shared f))) as Ht
    by (intros conn; by rewrite Eo, attempt_seqs_app, (attempt_seqs_quiet _ evs), app_nil_r).
  split; cbn; rewrite ?Ec, ?Ea, ?Es; try done.
  - intros p cn Hp. apply (conn_ok_ids (hs (shared f))); [done| |by apply Hc].
    intros []. by split; rewrite ?Ec, ?Es.
  - by apply (entries_ok_ids (hs (shared f))).
  - intros p e' He'. specialize (Hents p). rewrite He' in Hents.
    destruct (entries (hs (shared f)) !! p) as [e|] eqn:Ee; [|done]. cbn in Hents.
    unfold entry_kept, entry_id in Hents. injection Hents as _ Hce _ Hse.
    destruct (Hn p e Ee) as (n & m & ? & Hsub). exists n, m. rewrite Hce, Hse, Ht. done.
  - apply (wire_ok_ids (hs (shared f)) _ (out (shared f))); [done| |done]. intros conn. rewrite Ht. by left.
Qed.

(** *** Counting connections *)

Lemma count_insert_new m p cn :
  m !! p = None -> counted cn = true -> count_conns (<[p := cn]> m) = Datatypes.S (count_conns m).
Proof.
  intros Hp Hc. unfold count_conns. rewrite map_filter_insert_True by done.
  apply map_size_insert_None, map_lookup_filter_None. by left.
Qed.

Lemma count_delete_out m p cn :
  m !! p = Some cn -> counted cn = false -> count_conns (delete p m) = count_conns m.
Proof.
  intros Hp Hc. unfold count_conns. f_equal. apply map_filter_delete_not.
  intros cn' Hp'. cbn. congruence.
Qed.

Lemma count_delete_in m p cn :
  m !! p = Some cn -> counted cn = true -> Datatypes.S (count_conns (delete p m)) = count_conns m.
Proof.
  intros Hp Hc. rewrite <- (insert_delete_id m p cn Hp) at 2.
  symmetry. apply count_insert_new; [apply lookup_delete_eq|done].
Qed.

Lemma count_insert_out m p cn cn' :
  m !! p = Some cn -> counted cn = true -> counted cn' = false ->
  Datatypes.S (count_conns (<[p := cn']> m)) = count_conns m.
Proof.
  intros Hp Hc Hc'. rewrite <- (count_delete_in m p cn), <- insert_delete_eq by done. f_equal.
  rewrite <- (count_delete_out (<[p := cn']> (delete p m)) p cn'), delete_insert_id; try done;
    [apply lookup_delete_eq|apply lookup_insert_eq].
Qed.

Lemma count_insert_in m p cn cn' :
  m !! p = Some cn -> counted cn = true -> counted cn' = true ->
  count_conns (<[p := cn']> m) = count_conns m.
Proof.
  intros Hp Hc Hc'. rewrite <- (count_delete_in m p cn), <- insert_delete_eq by done.
  apply count_insert_new; [apply lookup_delete_eq|done].
Qed.

(** *** Opening *)

Lemma conns_entry f p cn : fleet_ok f -> conns f !! p = Some cn -> (p < length (entries (hs (shared f))))%nat.
Proof.
  intros Hf Hp. apply lookup_lt_is_Some. pose proof (co_ids _ _ _ _ (fo_conns f Hf p cn Hp)) as Hi.
  destruct (entries (hs (shared f)) !! p); [by eexists|done].
Qed.

Lemma unused_sid f sid :
  fleet_ok f -> certs f !! sid = None -> connections (hs (shared f)) !! sid = None.
Proof.
  intros Hf Hn. destruct (connections (hs (shared f)) !! sid) as [p|] eqn:E; [|done].
  destruct (ro_session _ (proj1 (fo_handler f Hf)) sid p E) as (e & He & Hs & _).
  destruct (eo_known _ _ (fo_entries f Hf) p (ce_sessionID e) (ce_conn e)) as [cn Hcn]; [by rewrite He|].
  congruence.
Qed.

Lemma unused_known (f : fleet DB S) conn : unused_conn conn (hs (shared f)) = true -> ~ known_conn (hs (shared f)) conn.
Proof.
  intros Hu (p & sid & Hp). destruct (entry_ids_Some _ _ _ _ Hp) as (e & He & _ & Hc).
  unfold unused_conn in Hu. rewrite forallb_forall in Hu.
  specialize (Hu e). rewrite <- list_elem_of_In in Hu. specialize (Hu (list_elem_of_lookup_2 _ _ _ He)).
  rewrite Hc, Z.eqb_refl in Hu. done.
Qed.

Lemma unused_byConn f conn :
  fleet_ok f -> ~ known_conn (hs (shared f)) conn -> connectionsByConn (hs (shared f)) !! conn = None.
Proof.
  intros Hf Hu. destruct (connectionsByConn (hs (shared f)) !! conn) as [p|] eqn:E; [|done].
  destruct (ro_conn _ (proj1 (fo_handler f Hf)) conn p E) as (e & He & Hc & _).
  destruct Hu. exists p, (ce_sessionID e). rewrite He. cbn. unfold entry_ids. by rewrite Hc.
Qed.

Lemma wrap64_succ k : wrap64 (wrap64 (Z.of_nat k) + 1) = wrap64 (Z.of_nat (Datatypes.S k)).
Proof. rewrite Nat2Z.inj_succ. ints. Qed.

Lemma entries_snoc (s : HandlerState) now sid conn q :
  entry_ids <$> entries (opened s now sid conn) !! q =
    if decide (q = length (entries s)) then Some (sid, conn) else entry_ids <$> entries s !! q.
Proof.
  unfold opened. cbn. case_decide as E; [subst; by rewrite list_lookup_middle|].
  destruct (decide (q < length (entries s))%nat).
  - by rewrite lookup_app_l.
  - by rewrite !lookup_ge_None_2 by (rewrite ?length_app; cbn; lia).
Qed.

Lemma known_conn_opened s now sid conn conn' :
  known_conn s conn' -> known_conn (opened s now sid conn) conn'.
Proof.
  intros (p & sid' & Hp). exists p, sid'. rewrite entries_snoc. case_decide as E; [|done].
  subst. rewrite lookup_ge_None_2 in Hp by lia. done.
Qed.

Lemma entries_ok_opened s cs now sid conn cn :
  entries_ok s cs -> cs !! sid = None -> ~ known_conn s conn ->
  entries_ok (opened s now sid conn) (<[sid := cn]> cs).
Proof.
  intros [Hk Hd] Hs Hc.
  assert (forall p sid' conn', entry_ids <$> entries s !! p = Some (sid', conn') ->
    sid <> sid' /\ conn <> conn') as Hne.
  { intros p sid' conn' Hp. split; intros <-; [|destruct Hc; by exists p, sid'].
    destruct (Hk p sid conn' Hp). congruence. }
  split.
  - intros p sid' conn'. rewrite entries_snoc. case_decide; intros Hp.
    + injection Hp as <- <-. rewrite lookup_insert_eq. eauto.
    + destruct (Hne p sid' conn' Hp). rewrite lookup_insert_ne by done. by apply (Hk p sid' conn').
  - intros p q sid1 conn1 sid2 conn2. rewrite !entries_snoc.
    case_decide as Ep; case_decide as Eq; subst; intros Hp Hq; simplify_eq; try done.
    + destruct (Hne q sid2 conn2 Hq). naive_solver.
    + destruct (Hne p sid1 conn1 Hp). naive_solver.
    + by apply (Hd p q sid1 conn1 sid2 conn2).
Qed.

Lemma pending_unknown s conn js :
  Forall (job_ok s) js -> ~ known_conn s conn -> pending conn js = [].
Proof.
  intros Hj Hc. induction Hj as [|[|k msg] js Hj _ IH]; cbn; [done|exact IH|].
  destruct (bool_decide_reflect (k = conn)) as [->|]; [destruct Hc; apply Hj|exact IH].
Qed.

Lemma fleet_ok_open f r conn connID sid rid ip f' :
  fleet_ok f -> open_connection h r conn connID sid rid ip f = Some f' -> fleet_ok f'.
Proof.
  intros Hf. unfold open_connection. destruct (authorizeWSClientCertificate _ _); [|done].
  destruct (str_empty sid || _ || _) eqn:Eg; [done|].
  apply orb_false_iff in Eg as [[Hsid Hnew]%orb_false_iff Hu].
  apply str_empty_false in Hsid. apply bool_decide_eq_false in Hnew. apply eq_None_not_Some in Hnew.
  apply negb_false_iff in Hu. pose proof (unused_known f conn Hu) as Hunk.
  destruct (serve_open _ _ _ _ _ _ _ _) as [c w'] eqn:Eo.
  destruct (serve_open_spec h _ _ _ _ _ _ _ _ _ Eo) as (Hh & Hses & _ & _ & -> & evs & Hout & Hevs).
  intros [= <-]. set (s := hs (shared f)) in *. set (now := clock _) in *.
  assert (conns f !! length (entries s) = None) as Hnone.
  { destruct (conns f !! length (entries s)) eqn:E; [|done].
    pose proof (conns_entry f _ _ Hf E). unfold s in *. lia. }
  assert (forall conn', attempt_seqs conn' (out w') = attempt_seqs conn' (out (shared f))) as Ht.
  { intros conn'. by rewrite Hout, attempt_seqs_app, (attempt_seqs_greeting conn' conn evs), app_nil_r. }
  pose proof (unused_sid f sid Hf Hnew) as Hreg. pose proof (unused_byConn f conn Hf Hunk) as Hby.
  destruct Hf as [Hok Hc Hr Ha He Hsn Hn Hw]. fold s in Hok, Hc, Hr, Ha, He, Hsn, Hn, Hw, Hreg, Hby.
  split; cbn; rewrite ?Hh.
  - apply handler_ok_opened with (now := now) (sid := sid) (conn := conn) in Hok; [|done..].
    destruct Hok as (? & ? & ? & ?). split_and!; try done. rewrite Hout. by apply (codes_ok_connected _ _ conn).
  - apply map_Forall_insert_2.
    + split; cbn -[opened]; try done.
      * rewrite entries_snoc. by case_decide.
      * apply lookup_insert_eq.
      * intros _. split; cbn; rewrite ?Hses; try done.
        -- apply lookup_insert_eq.
        -- by left.
        -- destruct (sessions s !! sid) as [t|] eqn:E; [|done].
           destruct (Hsn sid t E) as (? & ? & _). congruence.
    + intros p cn Hp. destruct (Hc p cn Hp) as [H1 H2 H3 H4 H5].
      assert (sid <> cn_sid cn) by congruence. split; try done.
      * rewrite entries_snoc. case_decide; [|done]. subst. congruence.
      * by rewrite lookup_insert_ne.
      * intros Hs. destruct (H5 Hs). split; try done. cbn. by rewrite lookup_insert_ne.
  - intros sid' p. cbn. intros [[<- <-]|[Hne Hp]]%lookup_insert_Some.
    + rewrite lookup_insert_eq. eauto.
    + destruct (Hr sid' p Hp) as (cn & Hcn & ?). exists cn. rewrite lookup_insert_ne by congruence. done.
  - rewrite count_insert_new by done. unfold opened. cbn. rewrite Ha. apply wrap64_succ.
  - by apply entries_ok_opened.
  - intros sid' t Hs. destruct (Hsn sid' t Hs) as (cn & Hcn & Hi). exists cn.
    rewrite lookup_insert_ne by congruence. done.
  - intros p e Hp. unfold opened in Hp. cbn in Hp.
    apply lookup_app_Some in Hp as [Hp|[_ Hp]].
    + destruct (Hn p e Hp) as (n & m & ? & ?). exists n, m. by rewrite Ht.
    + apply list_lookup_singleton_Some in Hp as [_ <-].
      exists 0%nat, 0%nat. cbn. split; [done|].
      rewrite Ht. destruct Hw as [Hw1 Hw2].
      destruct (attempt_seqs conn (out (shared f))) eqn:E; [|destruct Hunk; apply Hw1; by rewrite E].
      by rewrite (pending_unknown s).
  - destruct Hw as [Hw1 Hw2]. split.
    + intros conn'. rewrite Ht. intros Hne. by apply known_conn_opened, Hw1.
    + eapply Forall_impl; [exact Hw2|]. intros []; cbn; intuition; by apply known_conn_opened.
Qed.

(** *** Turns *)

Lemma end_keeps_snapshot c err (w : world DB S) :
  let sid := sessionID (the_session w) in
  let w' := (serve_read_error h c err w).2 in
  sessions (hs w') !! sid = sessions (hs w) !! sid \/ sessions (hs w') !! sid = None.
Proof.
  pose proof (frame_serve_read_error h _ end_keeps_base c err end_keeps_frame w) as He.
  destruct He as [_ _ _ _ _ _ _ _ Hs _]. exact Hs.
Qed.

(** The snapshot of a session after a turn is the copy of one it had a right to. *)
Lemma serve_turn_snapshot c i (w : world DB S) t :
  session_live (the_session w) -> published w ->
  sessions (hs (serve_turn h c i w).2) !! sessionID (the_session w) = Some t ->
  (traderID (the_session w) <> "" /\ ts_TraderID t = traderID (the_session w)) \/
  issued (DB := DB) h (sc_clientCertCN c) (ts_TraderID t).
Proof.
  intros Hlive Hpub.
  assert (forall t, sessions (hs w) !! sessionID (the_session w) = Some t ->
    traderID (the_session w) <> "" /\ ts_TraderID t = traderID (the_session w)) as Hold.
  { intros t' Ht. unfold published, snapshot_for in Hpub. rewrite Ht in Hpub.
    destruct (str_empty _) eqn:E; [done|]. injection Hpub as ->. by apply str_empty_false in E. }
  pose proof (session_view_frame (DB := DB) (S := S) c) as HF.
  assert (forall err (w1 : world DB S), session_view w1 = session_view w ->
    sessions (hs (serve_read_error h c err w1).2) !! sessionID (the_session w) = Some t ->
    traderID (the_session w) <> "" /\ ts_TraderID t = traderID (the_session w)) as Herr.
  { intros err w1 Hv Ht. unfold session_view in Hv. injection Hv as Hs Hm.
    pose proof (end_keeps_snapshot c err w1) as He. cbv zeta in He. rewrite Hs, Hm, Ht in He.
    destruct He as [He|He]; [|done]. by apply Hold. }
  destruct i as [b raw|raw| |err]; cbn [serve_turn]; unfold mbind, st_bind, mret, st_ret.
  - intros Ht. pose proof (serve_message_clean h (the_session w) c b raw w eq_refl Hpub) as Hp.
    destruct (serve_message_runs h (the_session w) c b raw Hlive w eq_refl) as [_ _ Hid Htr].
    unfold published, snapshot_for in Hp. rewrite Hid, Ht in Hp.
    destruct (str_empty _) eqn:E; [done|]. injection Hp as ->. apply str_empty_false in E. cbn.
    destruct Htr as [Htr|[_ ?]]; [left; split; [congruence|done]|by right].
  - pose proof (frame_on_ping h _ (sf_base c _ HF) c raw w) as Hv. unfold same in Hv.
    destruct (on_ping h c raw w) as [[e|] w1]; cbn in *.
    + specialize (Herr e w1 Hv). destruct (serve_read_error h c e w1) as [[] w2]; cbn in *. auto.
    + injection Hv as _ ->. auto.
  - pose proof (frame_on_pong h c _ HF w) as Hv. unfold same in Hv.
    destruct (on_pong h c w) as [[] w1]; cbn in *. injection Hv as _ ->. auto.
  - specialize (Herr err w eq_refl). destruct (serve_read_error h c err w) as [[] w2]; cbn in *. auto.
Qed.

(** The session of a connection that goes on. *)
Lemma serve_turn_serving c i (w : world DB S) :
  session_live (the_session w) -> published w ->
  (traderID (the_session w) = "" \/ issued (DB := DB) h (sc_clientCertCN c) (traderID (the_session w))) ->
  (serve_turn h c i w).1 = Continue ->
  let s' := the_session (serve_turn h c i w).2 in
  session_live s' /\ sessionID s' = sessionID (the_session w) /\
  (traderID s' = "" \/ issued (DB := DB) h (sc_clientCertCN c) (traderID s')) /\
  sessions (hs (serve_turn h c i w).2) !! sessionID s' = snapshot_for s'.
Proof.
  intros Hlive Hpub Htr Hk. pose proof (serve_turn_runs h _ c i Hlive w eq_refl) as Hr.
  pose proof (serve_turn_published h c i w Hpub Hk) as Hp.
  destruct (serve_turn h c i w) as [k w']; cbn in *. subst k.
  destruct Hr as [[[Hl _ Hid Ht] _]|(_ & _ & ?)]; [|done]. split_and!; try done.
  destruct Ht as [->|[_ ?]]; [done|by right].
Qed.

(** The numbers of an entry after a turn of its own connection. *)
Lemma numbered_entry_sends p o js n m (s : HandlerState) o' e e' :
  attempt_seqs (ce_conn e) o ++ pending (ce_conn e) js ≡ₚ
    (wrapu64 <$> seqZ 1 (Z.of_nat n)) ++ replicate m 0%Z ->
  sends_more (ce_conn e) p n o s o' -> entries s !! p = Some e' -> ce_conn e' = ce_conn e ->
  numbered_entry o' js e'.
Proof.
  intros Hsub (e1 & j & He & Hn & Ht) He' Hc.
  assert (e1 = e') as -> by congruence. exists (n + j)%nat, m. rewrite Hc. split; [done|].
  rewrite Ht, Nat2Z.inj_add, seqZ_app, fmap_app, <- !app_assoc by lia.
  rewrite (Permutation_app_comm (wrapu64 <$> seqZ (1 + Z.of_nat n) _) (pending _ _)), app_assoc, Hsub.
  rewrite <- app_assoc. f_equiv. apply Permutation_app_comm.
Qed.

(** What is known after a turn of connection [p], besides what it has not touched. *)
Record turn_result (f : fleet DB S) (p : nat) (cn : connection) (k : ctl) (w' : world DB S) : Prop := {
  tr_handler : handler_ok (hs w') (out w');
  tr_serving : k = Continue -> serving_ok (hs w') p (cn <| cn_loc := loc w' |>);
  tr_snapshot : forall t, sessions (hs w') !! cn_sid cn = Some t ->
    issued (DB := DB) h (sc_clientCertCN (cn_ctx cn)) (ts_TraderID t);
  tr_numbers : forall e, entries (hs w') !! p = Some e -> numbered_entry (out w') (jobs f) e
}.

Definition phase_after (k : ctl) : conn_phase :=
  match k with Continue => Serving | Return => Leaving end.

Lemma connection_turn_spec f p i f' :
  fleet_ok f -> connection_turn h p i f = Some f' ->
  exists cn k w' n, conns f !! p = Some cn /\
    f' = set_conn p (cn <| cn_loc := loc w' |> <| cn_phase := phase_after k |>) (f <| shared := w' |>) /\
    cn_phase cn = Serving /\
    turn_effect p (cn_sid cn) (sc_conn (cn_ctx cn)) n (shared f) w' /\ turn_result f p cn k w'.
Proof.
  intros Hf. unfold connection_turn. destruct (conns f !! p) as [[c sid l [| |]]|] eqn:Ep; [|done..].
  pose proof (fo_conns f Hf p _ Ep) as [Hcp Hne Hids Hcert Hserv]. cbn in *.
  specialize (Hserv eq_refl). destruct Hserv as [Hreg Hlive Hsid Htr Hpub]. cbn in *.
  set (w0 := with_loc l (shared f)) in *. set (s := hs (shared f)) in *.
  destruct (entry_ids_Some _ _ _ _ Hids) as (e & He & Hes & Hec).
  destruct (fo_numbers f Hf p e He) as (n & m & Hn & Hsub).
  assert (connectionsByConn s !! sc_conn c = Some p) as Hby.
  { destruct (ro_session _ (proj1 (fo_handler f Hf)) sid p Hreg) as (e1 & He1 & _ & _ & Hb).
    fold s in He1, Hb. congruence. }
  assert (entry_ids e = (sid, sc_conn c)) as Hide by (unfold entry_ids; congruence).
  destruct (serve_turn_effect h c p sid n i w0 e Hcp Hsid Hreg Hby He Hide Hn) as [Heff Hcont].
  assert (published w0) as Hpub0 by (unfold published, the_session; cbn; by rewrite Hsid).
  pose proof (fun t => serve_turn_snapshot c i w0 t Hlive Hpub0) as Hsnap.
  pose proof (serve_turn_serving c i w0 Hlive Hpub0 Htr) as Hserv.
  assert (handler_ok (hs (serve_turn h c i w0).2) (out (serve_turn h c i w0).2)) as Hok'.
  { apply (end_serve_turn h c (keeps (in_world (fun _ s o => handler_ok s o)))
      (loop_invariant_frame h c _ (handler_ok_loop c))
      (end_invariant_frame h c _ (handler_ok_loop c) handler_ok_end) i w0).
    exact (fo_handler f Hf). }
  change (the_session w0) with (session l) in Hsnap, Hserv. rewrite Hsid in Hsnap, Hserv.
  destruct (serve_turn h c i w0) as [k w'] eqn:Et. cbn in Heff, Hcont, Hsnap, Hserv, Hok'.
  intros [= <-]. exists {| cn_ctx := c; cn_sid := sid; cn_loc := l; cn_phase := Serving |}, k, w', n.
  split; [done|]. split; [by destruct k|]. split; [done|]. split; [by destruct Heff; split|]. split; cbn; [done|..].
  - intros Hk. destruct (Hserv Hk) as (? & Hid & ? & Hpb). unfold the_session in *. rewrite Hid in Hpb.
    split; cbn; auto.
  - intros t Ht. destruct (Hsnap t Ht) as [[Hnt ->]|?]; [|done]. by destruct Htr.
  - intros e' He'. destruct Heff as [_ _ _ _ E5 _ _ E8 _].
    apply (numbered_entry_sends p (out (shared f)) (jobs f) n m (hs w') (out w') e); try done;
      [by rewrite Hec|].
    specialize (E5 p). cbn in E5. fold s in E5. rewrite He', He in E5. cbn in E5.
    unfold entry_ids in E5. congruence.
Qed.

(** The other connections after such a turn. *)
Lemma other_conn_ok f p q cn cn' n w' :
  fleet_ok f -> conns f !! p = Some cn -> conns f !! q = Some cn' -> q <> p ->
  turn_effect p (cn_sid cn) (sc_conn (cn_ctx cn)) n (shared f) w' ->
  conn_ok (hs w') (certs f) q cn'.
Proof.
  intros Hf Hp Hq Hpq [_ E2 _ _ E5 _ E7 _ _].
  apply (conn_ok_ids (hs (shared f))); [exact E5| |by apply fo_conns].
  assert (cn_sid cn' <> cn_sid cn) by (intros Heq; apply Hpq; apply (conns_distinct f q p cn' cn Hf); auto).
  intros []. split; try done; [by rewrite E2|by rewrite E7].
Qed.

Lemma fleet_ok_turn f p i f' :
  fleet_ok f -> connection_turn h p i f = Some f' -> fleet_ok f'.
Proof.
  intros Hf Ht. destruct (connection_turn_spec f p i f' Hf Ht) as (cn & k & w' & n & Ep & -> & Hs & Heff & Hres).
  pose proof (fun q cn' H1 H2 => other_conn_ok f p q cn cn' n w' Hf Ep H1 H2 Heff) as Hother.
  pose proof (fo_conns f Hf p _ Ep) as [Hcp Hne Hids Hcert Hserv].
  destruct Hf as [Hok Hc Hr Ha Hent Hsn Hnum Hw]. destruct Hres as [Hok' Hserv' Hsnap' Hnum'].
  destruct Heff as [_ E2 E3 E4 E5 E6 E7 _ E9].
  set (cn1 := cn <| cn_loc := loc w' |> <| cn_phase := phase_after k |>).
  assert (counted cn1 = true) as Hcnt by (by destruct k).
  split; cbn; try done.
  - intros q cn' [[<- <-]|[Hq Hcn]]%lookup_insert_Some; [|by apply Hother].
    split; unfold cn1; cbn; [done|done|by rewrite E5|done|]. intros Hk. destruct k; [|done].
    destruct (Hserv' eq_refl). by split.
  - intros sid' q Hq. destruct (decide (sid' = cn_sid cn)) as [->|Hne'].
    + destruct E3 as [E3|E3]; rewrite E3 in Hq; [|done]. injection Hq as <-.
      exists cn1. by rewrite lookup_insert_eq.
    + rewrite E2 in Hq by done. destruct (Hr sid' q Hq) as (cn' & Hcn & Hcs & ?). exists cn'.
      rewrite lookup_insert_ne; [done|]. intros <-. congruence.
  - rewrite E4, Ha. rewrite (count_insert_in _ _ _ _ Ep); [done| |done]. unfold counted. by rewrite Hs.
  - by apply (entries_ok_ids (hs (shared f))).
  - intros sid' t Ht'. destruct (decide (sid' = cn_sid cn)) as [->|Hne'];
      [|rewrite E7 in Ht' by done; by apply Hsn].
    exists (sc_clientCertCN (cn_ctx cn)). auto.
  - intros q e' He'. destruct (decide (q = p)) as [->|Hq]; [by apply Hnum'|].
    rewrite E6 in He' by done. destruct (Hnum q e' He') as (n' & m1 & ? & Hs').
    exists n', m1. destruct (E9 (ce_conn e')) as [_ ->]; [|done]. intros Heq. apply Hq.
    apply (eo_distinct _ _ Hent q p (ce_sessionID e') (ce_conn e') (cn_sid cn) (sc_conn (cn_ctx cn)));
      [by rewrite He'|done|by right].
  - apply (wire_ok_ids (hs (shared f)) _ (out (shared f))); [exact E5| |done]. intros conn Hne'.
    destruct (decide (conn = sc_conn (cn_ctx cn))) as [->|]; [right; by exists p, (cn_sid cn)|left].
    by destruct (E9 conn) as [_ <-].
Qed.

(** *** Leaving *)

Lemma leave_registry_spec sid (w : world DB S) :
  sid <> "" ->
  let '(al, w') := leave_registry sid w in
  al = (active (hs w'), lastSeen (hs w')) /\
  hs w' = (match connections (hs w) !! sid with
           | Some p => unregister sid p (hs w)
           | None => hs w
           end) <| active ::= fun n => wrap64 (n - 1) |> /\
  out w' = out w.
Proof.
  intros Hne. unfold leave_registry, removeConnection. rewrite (proj2 (str_empty_false sid) Hne).
  unfold modify_hs, with_entry, modify, gets, mbind, st_bind, mret, st_ret; cbn.
  by destruct (connections (hs w) !! sid) as [p|].
Qed.

(** The registry without session [sid]. *)
Record left (sid : string) (s s' : HandlerState) : Prop := {
  lf_connections : connections s' = delete sid (connections s);
  lf_active : active s' = wrap64 (active s - 1);
  lf_ids : same_ids s s';
  lf_seqs : forall q, outboundSeq <$> entries s' !! q = outboundSeq <$> entries s !! q;
  lf_sessions : sessions s' = sessions s
}.

Lemma leave_registry_left sid (w : world DB S) :
  sid <> "" -> left sid (hs w) (hs (leave_registry sid w).2).
Proof.
  intros Hne. pose proof (leave_registry_spec sid w Hne) as Hl.
  destruct (leave_registry sid w) as [al w']. cbn. destruct Hl as (_ & -> & _).
  destruct (connections (hs w) !! sid) as [p|] eqn:E; split; cbn; try done.
  - intros q. cbn. rewrite list_lookup_alter. case_decide; [|done]. subst. by destruct (entries (hs w) !! q).
  - intros q. rewrite list_lookup_alter. case_decide; [|done]. subst. by destruct (entries (hs w) !! q).
  - by rewrite delete_id.
Qed.

Lemma handler_ok_left sid (w : world DB S) :
  sid <> "" -> handler_ok (hs w) (out w) ->
  handler_ok (hs (leave_registry sid w).2) (out (leave_registry sid w).2).
Proof.
  intros Hne (Hr & Hsn & Hm & Ho). pose proof (leave_registry_spec sid w Hne) as Hl.
  destruct (leave_registry sid w) as [al w']. cbn. destruct Hl as (_ & -> & ->).
  destruct (connections (hs w) !! sid) as [p|] eqn:E.
  - split_and!; [|done| |done].
    + apply (registry_ok_proj (unregister sid p (hs w))); [done..|]. by apply registry_ok_unregister.
    + by apply (metrics_ok_proj (hs w)).
  - split_and!; [by apply (registry_ok_proj (hs w))|done|by apply (metrics_ok_proj (hs w))|done].
Qed.

(** Entries that keep their ids and numbers keep their numbering. *)
Lemma numbered_same s s' o js p e' :
  (forall p e, entries s !! p = Some e -> numbered_entry o js e) -> same_ids s s' ->
  (forall q, outboundSeq <$> entries s' !! q = outboundSeq <$> entries s !! q) ->
  entries s' !! p = Some e' -> numbered_entry o js e'.
Proof.
  intros Hn Hids Hseq He'. specialize (Hids p). specialize (Hseq p). rewrite He' in Hids, Hseq.
  destruct (entries s !! p) as [e|] eqn:E; [|done]. cbn in *. unfold entry_ids in Hids.
  destruct (Hn p e E) as (n & m & ? & Hs). exists n, m.
  replace (ce_conn e') with (ce_conn e) by congruence. split_and!; congruence || done.
Qed.

Lemma fleet_ok_leave f p f' : fleet_ok f -> leave_connection p f = Some f' -> fleet_ok f'.
Proof.
  intros Hf. unfold leave_connection. destruct (conns f !! p) as [[c sid l [| |]]|] eqn:Ep; [done| |done..].
  pose proof (fo_conns f Hf p _ Ep) as [Hcp Hne Hids Hcert _]. cbn in *.
  pose proof (leave_registry_left sid (shared f) Hne) as [E1 E2 E3 E4 E5].
  pose proof (handler_ok_left sid (shared f) Hne (fo_handler f Hf)) as Hok'.
  pose proof (leave_registry_spec sid (shared f) Hne) as Hl.
  destruct (leave_registry sid (shared f)) as [[a n] w'] eqn:Et. cbn in *.
  destruct Hl as (_ & _ & Eo). intros [= <-].
  assert (forall q cn, q <> p -> conns f !! q = Some cn -> cn_sid cn <> sid) as Hother.
  { intros q cn Hq Hcn Heq. apply Hq. by apply (conns_distinct f q p cn _ Hf Hcn Ep); left. }
  destruct Hf as [Hok Hc Hr Ha Hent Hsn Hnum Hw].
  split; cbn; try done.
  - intros q cn [[<- <-]|[Hq Hcn]]%lookup_insert_Some.
    + split; cbn; try done. by rewrite E3.
    + apply (conn_ok_ids (hs (shared f))); [exact E3| |by apply Hc].
      intros []. pose proof (Hother q cn (not_eq_sym Hq) Hcn).
      split; try done; [by rewrite E1, lookup_delete_ne|by rewrite E5].
  - intros sid' q. rewrite E1. intros [Hs Hq]%lookup_delete_Some.
    destruct (Hr sid' q Hq) as (cn & Hcn & Hcs & ?). exists cn.
    rewrite lookup_insert_ne; [done|]. intros <-. rewrite Ep in Hcn. injection Hcn as <-. by subst.
  - rewrite E2, Ha. rewrite <- (count_insert_out (conns f) p _ {| cn_ctx := c; cn_sid := sid; cn_loc := l; cn_phase := Syncing a n |} Ep) by done.
    rewrite Nat2Z.inj_succ. ints.
  - by apply (entries_ok_ids (hs (shared f))).
  - rewrite E5. done.
  - intros q e' He'. rewrite Eo. by apply (numbered_same (hs (shared f)) (hs w') _ _ q).
  - rewrite Eo. apply (wire_ok_ids (hs (shared f)) _ (out (shared f))); auto.
Qed.

Lemma fleet_ok_sync f p f' : fleet_ok f -> sync_connection p f = Some f' -> fleet_ok f'.
Proof.
  intros Hf. unfold sync_connection. destruct (conns f !! p) as [[c sid l [| |a n]]|] eqn:Ep; [done..| |done].
  assert (quiet (shared f) (leave_report (sc_conn c) a n (shared f)).2) as Hq.
  { assert (steps quiet (leave_report (DB := DB) (sc_conn c) a n)) as Hs; [|apply Hs].
    unfold leave_report. steps_auto. }
  destruct (leave_report _ _ _ _) as [u w']. cbn in Hq. intros [= <-].
  pose proof (fleet_ok_quiet f w' Hf Hq) as [Hok Hc Hr Ha Hent Hsn Hnum Hw].
  split; cbn in *; try done.
  - by apply map_Forall_delete.
  - intros sid' q Hq'. destruct (Hr sid' q Hq') as (cn & Hcn & Hcs & Hct). exists cn.
    rewrite lookup_delete_ne; [done|]. intros <-. rewrite Ep in Hcn. injection Hcn as <-. done.
  - by rewrite (count_delete_out _ _ _ Ep).
Qed.

(** *** Latency tests *)

Lemma fleet_ok_dispatch f sid tid ex : fleet_ok f -> fleet_ok (dispatch_latency_test sid tid ex f).
Proof.
  intros Hf. unfold dispatch_latency_test.
  pose proof (quiet_latencyTestMessage sid tid ex (shared f)) as Hq.
  assert (match (latencyTestMessage sid tid ex (shared f)).1 with
          | inl _ => True
          | inr (conn, msg) => job_ok (hs (shared f)) (Unstamped conn msg)
          end) as Hj.
  { unfold latencyTestMessage. destruct (str_empty sid); [done|].
    unfold mbind at 1, st_bind at 1, gets. destruct (_ ≫= _) as [e|] eqn:E; [|done].
    apply bind_Some in E as (p & Hp & He). destruct (_ && _); [done|].
    cbn. split; [|done]. exists p, (ce_sessionID e). by rewrite He. }
  destruct (latencyTestMessage sid tid ex (shared f)) as [[err|[conn msg]] w']; cbn in Hq, Hj;
    [exact (fleet_ok_quiet f w' Hf Hq)|].
  pose proof (job_ok_ids _ _ (Unstamped conn msg) (quiet_ids _ _ Hq) Hj) as Hj'.
  destruct (fleet_ok_quiet f w' Hf Hq) as [Hok Hc Hr Ha Hent Hsn Hnum [Hw1 Hw2]]. split; cbn in *; try done.
  - intros p e He. destruct (Hnum p e He) as (n & m & ? & ?). exists n, m.
    unfold pending. rewrite omap_app. cbn. rewrite app_nil_r. done.
  - split; [done|]. apply Forall_app. split; [done|]. by constructor.
Qed.

Lemma stampEnvelope_spec conn msg (w : world DB S) :
  let '(msg', w') := stampEnvelope conn msg w in
  hs w' = after_send (hs w) conn /\ out w' = out w /\ msg' = (outgoing (hs w) conn msg).2.
Proof.
  unfold stampEnvelope, after_send, outgoing, mbind, st_bind, gets, mret, st_ret, with_entry, modify_hs, modify.
  cbn. destruct (connectionsByConn (hs w) !! conn) as [p|]; cbn; [|done].
  by destruct (entries (hs w) !! p).
Qed.

Lemma writeMessage_spec conn msg (w : world DB S) :
  let w' := (writeMessage conn msg w).2 in
  hs w' = hs w /\ exists ev, out w' = out w ++ [ev] /\
    sent_event (match connectionsByConn (hs w) !! conn with
                | Some p => match entries (hs w) !! p with Some e => ce_conn e | None => 0%Z end
                | None => conn
                end) msg ev.
Proof.
  destruct w as [hst l d sk t wt o].
  unfold writeMessage, withWriteLock, writeWithDeadline, entry_conn, sent_event, mbind, st_bind, mret,
    st_ret, gets, modify, time_now, conn_call, emit.
  cbn. destruct (connectionsByConn hst !! conn) as [p|] eqn:Ec; cbn;
    destruct (conn_write wt) as [err|] eqn:E1; cbn; (split; [done|]); eexists; (split; [reflexivity|]); eauto.
Qed.

(** Numbering a message keeps the handler in order. *)
Lemma handler_ok_after_send s o conn : handler_ok s o -> handler_ok (after_send s conn) o.
Proof.
  intros (Hr & Hsn & Hm & Hco). set (c := {| sc_conn := conn; sc_connID := ""; sc_requestID := "";
    sc_clientIP := ""; sc_clientCertCN := ""; sc_connEntry := 0 |}).
  split_and!; [| | |done].
  - apply (registry_ok_ext s); try done; [by apply (after_send_other connections)
      |by apply (after_send_other connectionsByConn)|apply after_send_entry_id].
  - unfold snapshots_ok. by rewrite (after_send_other sessions).
  - by apply (metrics_ok_proj s); [apply after_send_other..|].
Qed.

Lemma pending_stamp js j k msg msg' conn :
  js !! j = Some (Unstamped k msg) ->
  pending conn (<[j := Stamped k msg']> js) ≡ₚ
    (if bool_decide (k = conn) then [Seq msg'] else []) ++ pending conn js.
Proof.
  intros Hj. rewrite <- (take_drop_middle js j _ Hj) at 2.
  rewrite insert_take_drop by (by apply lookup_lt_Some in Hj).
  unfold pending. rewrite !omap_app. cbn. case_bool_decide; cbn; [|done].
  symmetry. apply Permutation_middle.
Qed.

Lemma pending_deliver js j k msg conn :
  js !! j = Some (Stamped k msg) ->
  pending conn js ≡ₚ (if bool_decide (k = conn) then [Seq msg] else []) ++ pending conn (delete j js).
Proof.
  intros Hj. rewrite <- (take_drop_middle js j _ Hj) at 1. rewrite delete_take_drop.
  unfold pending. rewrite !omap_app. cbn. case_bool_decide; cbn; [|done].
  symmetry. apply Permutation_middle.
Qed.

(** An entry gives out a number, or a message goes without. *)
Lemma numbered_entry_give o js js' e (msg' : out_envelope) :
  numbered_entry o js e ->
  pending (ce_conn e) js' ≡ₚ Seq msg' :: pending (ce_conn e) js ->
  Seq msg' = wrapu64 (outboundSeq e + 1) ->
  numbered_entry o js' (nextOutboundSeqAck e).2.
Proof.
  intros (n & m & Hn & Hsub) Hp Hs. exists (Datatypes.S n), m.
  assert (wrapu64 (outboundSeq e + 1) = wrapu64 (Z.of_nat (Datatypes.S n))) as Hw.
  { rewrite Hn. unfold wrapu64. rewrite Zplus_mod_idemp_l. f_equal. lia. }
  split; [done|]. change (ce_conn (nextOutboundSeqAck e).2) with (ce_conn e).
  rewrite Hp, Hs, Hw, seqZ_snoc_next, fmap_app, <- Permutation_middle, Hsub. cbn.
  rewrite <- app_assoc. cbn. rewrite <- Permutation_middle.
  by replace (Z.of_nat (Datatypes.S n)) with (Z.of_nat n + 1)%Z by lia.
Qed.

Lemma numbered_entry_none o js js' e :
  numbered_entry o js e -> pending (ce_conn e) js' ≡ₚ 0%Z :: pending (ce_conn e) js ->
  numbered_entry o js' e.
Proof.
  intros (n & m & ? & Hsub) Hp. exists n, (Datatypes.S m). split; [done|].
  rewrite Hp. cbn. by rewrite <- !Permutation_middle, Hsub.
Qed.

Lemma fleet_ok_stamp f j f' : fleet_ok f -> stamp_job j f = Some f' -> fleet_ok f'.
Proof.
  intros Hf. unfold stamp_job. destruct (jobs f !! j) as [[conn msg|]|] eqn:Ej; [|done..].
  pose proof (stampEnvelope_spec conn msg (shared f)) as Hst.
  destruct (stampEnvelope conn msg (shared f)) as [msg' w']. destruct Hst as (Eh & Eo & Em).
  intros [= <-]. destruct Hf as [Hok Hc Hr Ha Hent Hsn Hnum [Hw1 Hw2]].
  pose proof (Forall_lookup_1 _ _ _ _ Hw2 Ej) as (Hkn & Hsup & Hz).
  set (s := hs (shared f)) in *.
  assert (same_ids s (hs w')) as Hids.
  { intros q. rewrite Eh. pose proof (after_send_entry_id s conn q) as Hq. unfold entry_id, entry_ids in *.
    destruct (entries (after_send s conn) !! q), (entries s !! q); cbn in *; congruence. }
  assert (connections (hs w') = connections s) as Ec by (by rewrite Eh, (after_send_other connections)).
  assert (sessions (hs w') = sessions s) as Es by (by rewrite Eh, (after_send_other sessions)).
  assert (active (hs w') = active s) as Ea by (by rewrite Eh, (after_send_other active)).
  split; cbn; rewrite ?Ec, ?Es, ?Ea; try done.
  - rewrite Eh, Eo. by apply handler_ok_after_send.
  - intros p cn Hp. apply (conn_ok_ids s); [done| |by apply Hc]. intros []. by split; rewrite ?Ec, ?Es.
  - by apply (entries_ok_ids s).
  - intros q e' He'. rewrite Eo. pose proof (fun k => pending_stamp (jobs f) j conn msg msg' k Ej) as Hpend.
    unfold after_send in Eh. unfold outgoing in Em.
    destruct (connectionsByConn s !! conn) as [p|] eqn:Ek.
    + destruct (ro_conn s (proj1 Hok) conn p Ek) as (e & He & Hek & _). rewrite He in Em. cbn in Em.
      rewrite Eh in He'. cbn in He'. destruct (decide (q = p)) as [->|Hq].
      * rewrite list_lookup_alter_eq, He in He'. injection He' as <-.
        apply (numbered_entry_give _ (jobs f) _ _ msg'); [by apply (Hnum p)| |by rewrite Em, stamp_Seq].
        rewrite Hpend, bool_decide_eq_true_2 by done. done.
      * rewrite list_lookup_alter_ne in He' by done.
        destruct (Hnum q e' He') as (n & m & ? & ?). exists n, m.
        rewrite Hpend, bool_decide_eq_false_2; [done|]. intros ->. apply Hq.
        apply (eo_distinct _ _ Hent q p (ce_sessionID e') (ce_conn e') (ce_sessionID e) (ce_conn e));
          [by rewrite He'|by rewrite He|by right].
    + rewrite Eh in He'. subst msg'. specialize (Hpend (ce_conn e')).
      destruct (bool_decide_reflect (conn = ce_conn e')).
      * apply (numbered_entry_none _ (jobs f)); [by apply (Hnum q)|]. rewrite Hpend. cbn. by rewrite Hz.
      * destruct (Hnum q e' He') as (n' & m & ? & ?). exists n', m. by rewrite Hpend.
  - apply (wire_ok_ids s _ (out (shared f))); [done|rewrite Eo; by left|]. split; [done|].
    apply Forall_insert; [done|]. split; [done|]. rewrite Em. by apply outgoing_supported.
Qed.

Lemma fleet_ok_deliver f j f' : fleet_ok f -> deliver_job j f = Some f' -> fleet_ok f'.
Proof.
  intros Hf. unfold deliver_job. destruct (jobs f !! j) as [[|conn msg]|] eqn:Ej; [done| |done].
  pose proof (writeMessage_spec conn msg (shared f)) as Hwr. cbv zeta in Hwr.
  intros [= <-]. unfold on_shared. cbn. set (w' := (writeMessage conn msg (shared f)).2) in *. clearbody w'.
  destruct Hwr as (Eh & ev & Eo & Hev). destruct Hf as [Hok Hc Hr Ha Hent Hsn Hnum [Hw1 Hw2]].
  pose proof (Forall_lookup_1 _ _ _ _ Hw2 Ej) as (Hkn & Hsup).
  set (s := hs (shared f)) in *.
  assert (sent_event conn msg ev) as Hev'.
  { destruct (connectionsByConn s !! conn) as [p|] eqn:Ek; [|done].
    destruct (ro_conn s (proj1 Hok) conn p Ek) as (e & He & Hek & _). by rewrite He, Hek in Hev. }
  pose proof (fun k => attempt_seqs_sent k conn msg ev Hev') as Ht.
  split; cbn; rewrite ?Eh; try done.
  - destruct Hok as (? & ? & ? & Ho). split_and!; try done. rewrite Eo. apply Forall_app. split; [done|].
    constructor; [|done]. by destruct Hev' as (err & [->| ->]).
  - intros q e He. destruct (Hnum q e He) as (n & m & ? & Hsub). exists n, m.
    split; [done|]. rewrite Eo, attempt_seqs_app, Ht, <- Hsub, (pending_deliver _ _ _ _ (ce_conn e) Ej).
    by rewrite app_assoc.
  - split.
    + intros k Hk. rewrite Eo, attempt_seqs_app, Ht in Hk.
      destruct (bool_decide_reflect (conn = k)) as [->|]; [done|].
      rewrite app_nil_r in Hk. by apply Hw1.
    + apply Forall_delete. done.
Qed.

(** ** Every reachable fleet is in order *)

Lemma fleet_ok_next e f f' : fleet_ok f -> fleet_next h e f = Some f' -> fleet_ok f'.
Proof.
  intros Hf. destruct e; cbn [fleet_next].
  - by apply fleet_ok_open.
  - by apply fleet_ok_turn.
  - by apply fleet_ok_leave.
  - by apply fleet_ok_sync.
  - intros [= <-]. by apply fleet_ok_quiet, quiet_ping_tick.
  - intros [= <-]. by apply fleet_ok_quiet, quiet_closeConnection.
  - intros [= <-]. by apply fleet_ok_dispatch.
  - by apply fleet_ok_stamp.
  - by apply fleet_ok_deliver.
  - intros [= <-]. by apply fleet_ok_quiet, quiet_sink.
Qed.

Lemma reachable_fleet_ok w f : reachable h w f -> fleet_ok f.
Proof.
  apply reachable_invariant; [apply fleet_ok_start|]. intros e g g' Hg. by apply fleet_ok_next.
Qed.
End invariant.
