(* ===== verification/HandlerStats.v ===== *)
(** * Statistics and shutdown of the WebSocket handler (internal/api/ws/handler.go)

    [GetStats] and its aggregates, the log filter, and [CloseAll]. *)

From S2P Require Import Prelude GoFloat Protocol Session Conn Telemetry Auth StateM Interfaces Handler.

Record PingStats := { LastPingUnix : Z; LastPongUnix : Z; LastRTTMs : Z }.
Record DisconnectStats := { ds_Total : Z; ds_Close4009 : Z; ds_ByReason : gmap string Z }.
Record Stats := {
  ActiveConnections : Z;
  TotalConnections : Z;
  LastConnectUnix : Z;
  Ping : PingStats;
  Disconnect : DisconnectStats
}.

(** The body of the loop of [aggregatePingStats]. *)
Definition select_ping (selected s : pingSnapshot) : pingSnapshot :=
  if (ps_lastPingAt selected <? ps_lastPingAt s)%Z then s
  else if (ps_lastPingAt s =? ps_lastPingAt selected)%Z
          && (ps_lastPongAt selected <? ps_lastPongAt s)%Z then s
  else selected.

(** The ping state of the connected entries, in some order of the Go map. *)
Definition connected_pings (s : HandlerState) : list pingSnapshot :=
  omap (fun kv => entry_pingSnapshot <$> entries s !! (kv.2)) (map_to_list (connections s)).

Definition aggregatePingStats (s : HandlerState) : PingStats :=
  let selected := foldl select_ping zeroPingSnapshot (connected_pings s) in
  {| LastPingUnix := time_unix (ps_lastPingAt selected);
     LastPongUnix := time_unix (ps_lastPongAt selected);
     LastRTTMs := duration_milliseconds (ps_lastRTT selected) |}.

Definition aggregateDisconnectStats (s : HandlerState) : DisconnectStats :=
  {| ds_Total := disconnectTotal s; ds_Close4009 := disconnectClose4009 s;
     ds_ByReason := disconnectByReason s |}.

Definition GetStats (s : HandlerState) : Stats :=
  {| ActiveConnections := active s; TotalConnections := total s; LastConnectUnix := lastSeen s;
     Ping := aggregatePingStats s; Disconnect := aggregateDisconnectStats s |}.

Definition shouldLogWSBusinessActionInfo (action : string) : bool :=
  let action := TrimSpace action in
  if str_empty action then false
  else if action =s actionHeartbeatAck then false
  else if HasPrefix action "task." then true
  else (action =s actionTraderRegister) || (action =s actionRegisterAck)
       || (action =s actionTraderHeartbeat) || (action =s actionLatencyTest)
       || (action =s actionLatencyTestResp) || (action =s actionLatencyTestAck)
       || (action =s actionError).

Definition decodeEnvelope `{!WsJson} (raw : string) : option (envelope string) :=
  match unmarshal_envelope raw with
  | Err _ => None
  | Ok env => if str_empty (TrimSpace (Action env)) then None else Some env
  end.

Definition closeHandshakeWaitTimeout (h : handler_config) : Z :=
  let wait := writeTimeout h in
  let wait := if (wait <=? 0)%Z then defaultWSWriteTimeout else wait in
  if (wait >? 2 * Second)%Z then (2 * Second)%Z else wait.

Section shutdown.
Context {DB S : Type} `{!ServeEnv}.

(** [closed] answers the select of [waitForConnectionClose]: whether the entry is
    closed by its own goroutine before the timer fires. *)
Definition waitForConnectionClose (closed : nat -> bool) (p : nat) (timeout : Z) : bool :=
  if (timeout <=? 0)%Z then false else closed p.

(** The entries are closed one after the other, in some order of the Go map. *)
Fixpoint close_entries (code : Z) (reason : string) (l : list nat) : st (world DB S) unit :=
  match l with
  | [] => mret tt
  | p :: rest => _ ← closeConnection p code reason; close_entries code reason rest
  end.

Definition CloseAll (code : Z) (reason : string) : st (world DB S) unit :=
  ps ← gets (fun w => (map_to_list (connections (hs w))).*2);
  close_entries code reason ps.
End shutdown.

(** ** Lemmas *)

(** Lexicographic order of ping snapshots: by ping, then by pong. *)
Definition ping_le (a b : pingSnapshot) : Prop :=
  (ps_lastPingAt a < ps_lastPingAt b \/
   ps_lastPingAt a = ps_lastPingAt b /\ ps_lastPongAt a <= ps_lastPongAt b)%Z.

Lemma select_ping_spec a b :
  (select_ping a b = a \/ select_ping a b = b) /\ ping_le a (select_ping a b) /\ ping_le b (select_ping a b).
Proof.
  unfold select_ping, ping_le.
  destruct (Z.ltb_spec (ps_lastPingAt a) (ps_lastPingAt b)); [split_and!; auto; lia|].
  destruct (Z.eqb_spec (ps_lastPingAt b) (ps_lastPingAt a)); cbn; [|split_and!; auto; lia].
  destruct (Z.ltb_spec (ps_lastPongAt a) (ps_lastPongAt b)); split_and!; auto; lia.
Qed.

Lemma fold_select_ping l a :
  let r := foldl select_ping a l in
  (r = a \/ r ∈ l) /\ ping_le a r /\ Forall (fun s => ping_le s r) l.
Proof.
  revert a. induction l as [|s l IH]; intros a; cbn.
  { split_and!; [by left|unfold ping_le; lia|constructor]. }
  destruct (IH (select_ping a s)) as (Hin & Hle & Hall).
  destruct (select_ping_spec a s) as (Hs & Ha & Hb).
  assert (forall x y z, ping_le x y -> ping_le y z -> ping_le x z) as Htrans
    by (unfold ping_le; intros; lia).
  split_and!; [|by eapply Htrans|constructor; [by eapply Htrans|done]].
  destruct Hin as [->|Hin]; [destruct Hs as [->| ->]; set_solver|set_solver].
Qed.

(** ** Properties *)

(** The ping statistics are those of one connection, the one pinged last
    (latest pong among equals), whatever the order in which Go visits the map; they
    are the zero value only if no connection has been pinged after it. *)
Theorem ping_stats_of_latest (s : HandlerState) :
  exists selected, aggregatePingStats s =
      {| LastPingUnix := time_unix (ps_lastPingAt selected);
         LastPongUnix := time_unix (ps_lastPongAt selected);
         LastRTTMs := duration_milliseconds (ps_lastRTT selected) |} /\
    (selected = zeroPingSnapshot \/ selected ∈ connected_pings s) /\
    Forall (fun p => ping_le p selected) (connected_pings s).
Proof.
  destruct (fold_select_ping (connected_pings s) zeroPingSnapshot) as (Hin & _ & Hall).
  eexists. split; [reflexivity|]. done.
Qed.

(** Before the first ping the statistics report the Unix time of the zero [time.Time]. *)
Lemma ping_stats_without_pings :
  aggregatePingStats new_handler_state =
    {| LastPingUnix := -62135596800; LastPongUnix := -62135596800; LastRTTMs := 0 |}.
Proof. vm_compute. reflexivity. Qed.
