(* ===== verification/Windows.v ===== *)
(** * Time windows of the message loop

    What the inbound rate limit and the request-id deduplication of Handler.v
    guarantee over a whole run of messages. *)

From S2P Require Import Prelude FixedWindow Handler.

(** ** Rate limit *)

(** The messages of a run that pass the limiter. *)
Fixpoint rate_accepted (limit : Z) (ts : list Z) (w : Z * Z) : list Z :=
  match ts with
  | [] => []
  | t :: ts' =>
      let '(ok, w') := rate_window limit t w in
      if ok then t :: rate_accepted limit ts' w' else rate_accepted limit ts' w'
  end.

Lemma rate_window_step limit now w :
  (w.1 <= now)%Z -> (0 <= w.2 < 2 ^ 63 - 1)%Z -> rate_window limit now w = window_step Second limit now w.
Proof.
  destruct w as [start count]. cbn -[Z.pow]. intros Hle Hc. unfold rate_window, window_step. cbn [fst snd].
  assert ((time_sub now start >=? Second) = (now - start >=? Second))%Z as ->.
  { unfold time_sub, Second. unfold_ints. rewrite !Z.geb_leb.
    apply eq_bool_prop_intro. rewrite !Is_true_true, !Z.leb_le. lia. }
  destruct (_ >=? _)%Z; [done|]. by rewrite wrap64_id by ints.
Qed.

Lemma rate_accepted_window limit ts w :
  StronglySorted Z.le (w.1 :: ts) -> (0 <= w.2 /\ w.2 + Z.of_nat (length ts) < 2 ^ 63)%Z ->
  rate_accepted limit ts w = window_accepted Second limit ts w.
Proof.
  revert w. induction ts as [|t ts IH]; intros w Hsort Hcount; [done|].
  apply StronglySorted_cons in Hsort as [Hall Hsort].
  inversion Hall as [|? ? Ht Hall']; subst. cbn [rate_accepted window_accepted length] in *.
  rewrite rate_window_step by (done || lia).
  assert (StronglySorted Z.le ((window_step Second limit t w).2.1 :: ts)) as Hsort'.
  { unfold window_step. destruct (_ >=? _)%Z; [done|]. cbn.
    apply StronglySorted_cons in Hsort as [? ?]. by constructor. }
  assert (0 <= (window_step Second limit t w).2.2 <= w.2 + 1)%Z as Hc'.
  { unfold window_step. destruct (_ >=? _)%Z; cbn; lia. }
  destruct (window_step Second limit t w) as [[] w'] eqn:E; cbn in Hsort', Hc'; rewrite IH by (done || lia); done.
Qed.

(** C11: on a clock that does not go back, no second of real time, wherever it
    starts, sees more than twice [maxMessagesPerSec] messages pass the inbound
    limiter of a connection.  The connection has received fewer than 2^63 messages, so
    its counter, a Go [int], has not wrapped around. *)
Theorem rate_limit_per_second (limit start : Z) (ts : list Z) (t0 : Z)
    (Hlimit : (0 <= limit)%Z) (Hclock : StronglySorted Z.le (start :: ts))
    (Hcount : (Z.of_nat (length ts) < 2 ^ 63)%Z) :
  (in_second t0 (rate_accepted limit ts (start, 0%Z)) <= 2 * limit)%Z.
Proof.
  rewrite rate_accepted_window by (done || (cbn -[Z.pow]; lia)). by apply window_per_second.
Qed.

(** The bound is reached: two full windows meet inside one second. *)
Lemma rate_limit_per_second_witness :
  (in_second 900000000 (rate_accepted 2
    [900000000; 950000000; 960000000; 1000000000; 1050000000; 1060000000] (0, 0)) <= 2 * 2)%Z /\
  (in_second 900000000 (rate_accepted 2
    [900000000; 950000000; 960000000; 1000000000; 1050000000; 1060000000] (0, 0)) = 4)%Z.
Proof.
  split; [|vm_compute; reflexivity].
  apply (rate_limit_per_second 2 0 [900000000; 950000000; 960000000; 1000000000; 1050000000; 1060000000]%Z
    900000000); [lia| |cbn; lia].
  repeat constructor; lia.
Defined.

(** ** Request-id deduplication *)

(** The requests of a run that are not rejected as duplicates. *)
Fixpoint dedup_accepted (window : Z) (l : list (Z * string)) (m : gmap string Z) : list (Z * string) :=
  match l with
  | [] => []
  | (t, id) :: l' =>
      let '(dup, m') := dedup_request window t id m in
      if dup then dedup_accepted window l' m' else (t, id) :: dedup_accepted window l' m'
  end.

Lemma dedup_request_cases window t id m :
  let '(dup, m') := dedup_request window t id m in
  if dup then exists t', m !! id = Some t' /\ (t - window <= t')%Z /\
                m' = filter (fun kv => (kv.2 <? t - window)%Z = false) m
  else m' = <[id := t]> (filter (fun kv => (kv.2 <? t - window)%Z = false) m).
Proof.
  unfold dedup_request, time_add. change (t + - window)%Z with (t - window)%Z.
  destruct (filter _ m !! id) as [t'|] eqn:E; [|done].
  apply map_lookup_filter_Some in E as [E1 E2]. cbn in E2. apply Z.ltb_ge in E2. eauto.
Qed.

Lemma dedup_accepted_after window l m id t0 :
  m !! id = Some t0 -> StronglySorted Z.le (t0 :: l.*1) ->
  Forall (fun b => b.2 = id -> (b.1 - t0 > window)%Z) (dedup_accepted window l m).
Proof.
  revert m. induction l as [|[t i] l IH]; intros m Hm Hsort; cbn; [constructor|].
  apply StronglySorted_cons in Hsort as [Hall Hsort].
  pose proof Hsort as Hsort2. apply StronglySorted_cons in Hsort2 as [Hall2 Hsort2].
  inversion Hall as [|? ? Ht Hall']; subst.
  assert (StronglySorted Z.le (t0 :: l.*1)) as Hs0 by by constructor.
  destruct (Z.leb_spec (t - window) t0) as [Hkeep|Hgone].
  - pose proof (dedup_request_cases window t i m) as Hc.
    assert (filter (fun kv => (kv.2 <? t - window)%Z = false) m !! id = Some t0) as Hf.
    { apply map_lookup_filter_Some. split; [done|]. cbn. apply Z.ltb_ge. lia. }
    destruct (dedup_request window t i m) as [[] m'] eqn:E.
    + destruct Hc as (t' & _ & _ & ->). by apply IH.
    + subst m'. destruct (decide (i = id)) as [->|Hne].
      * unfold dedup_request, time_add in E. change (t + - window)%Z with (t - window)%Z in E.
        by rewrite Hf in E.
      * constructor; [done|]. apply IH; [by rewrite lookup_insert_ne|done].
  - assert (forall m', Forall (fun b => b.2 = id -> (b.1 - t0 > window)%Z) (dedup_accepted window l m')) as Hrest.
    { clear -Hgone Hall2. cbn in Hall2. induction l as [|[u j] l IH]; intros m'; cbn; [constructor|].
      inversion Hall2; subst. destruct (dedup_request window u j m') as [[] m'']; [by apply IH|].
      constructor; [cbn; lia|by apply IH]. }
    destruct (dedup_request window t i m) as [[] m']; [apply Hrest|].
    constructor; [cbn; lia|apply Hrest].
Qed.

(** C12: on a clock that does not go back, two requests with the same id are both
    processed only if more than the deduplication window lies between them. *)
Theorem dedup_separates_requests (window : Z) (l : list (Z * string)) (m : gmap string Z)
    (Hclock : StronglySorted Z.le l.*1) :
  StronglySorted (fun a b => a.2 = b.2 -> (b.1 - a.1 > window)%Z) (dedup_accepted window l m).
Proof.
  revert m. induction l as [|[t i] l IH]; intros m; cbn; [constructor|].
  cbn in Hclock. pose proof Hclock as Hc. apply StronglySorted_cons in Hc as [_ Hc].
  pose proof (dedup_request_cases window t i m) as Hd.
  destruct (dedup_request window t i m) as [[] m']; [by apply IH|]. subst m'.
  constructor; [by apply IH|].
  eapply Forall_impl; [apply (dedup_accepted_after window l _ i t)|].
  - by rewrite lookup_insert_eq.
  - done.
  - cbn. intros b Hb Heq. by apply Hb.
Qed.

Lemma dedup_separates_requests_witness :
  StronglySorted (fun a b => a.2 = b.2 -> (b.1 - a.1 > 60)%Z)
    (dedup_accepted 60 [(0, "a"); (10, "b"); (60, "a"); (61, "a"); (70, "b")]%Z ∅) /\
  dedup_accepted 60 [(0, "a"); (10, "b"); (60, "a"); (61, "a"); (70, "b")]%Z ∅ =
    [(0, "a"); (10, "b"); (61, "a")]%Z.
Proof.
  split; [|vm_compute; reflexivity].
  apply dedup_separates_requests. cbn; repeat constructor; lia.
Defined.
