(* ===== verification/HandlerDB.v ===== *)
(** * The database under the handler

    [PersistenceKeeps R] is what an implementation of [SessionPersistence] promises a
    client that cares about the relation [R] on database states: each of its calls
    moves along [R].  A whole call of [Serve] then does too. *)

From S2P Require Import Prelude GoFloat Protocol Session Conn Telemetry Auth StateM Interfaces Handler HandlerFrame HandlerFacts HandlerInv.

Class PersistenceKeeps {DB} `{!SessionPersistence DB} (R : DB -> DB -> Prop) : Prop := {
  pk_resolve : forall cn, steps R (ResolveOrCreateTraderByCN cn);
  pk_create : forall i, steps R (CreateSession i);
  pk_release : forall id r, steps R (UpdateTraderRelease id r);
  pk_heartbeat : forall sid, steps R (UpdateHeartbeat sid);
  pk_finalize : forall sid r m, steps R (FinalizeSession sid r m);
  pk_catalog : forall f, ListAvailableExchanges = Some f -> steps R f
}.

Section handler_db.
Context {DB S : Type} `{!SessionPersistence DB} `{!RuntimeSink S} `{!WsJson} `{!ServeEnv}.
Context (h : handler_config) (R : DB -> DB -> Prop) `{!PreOrder R} `{!PersistenceKeeps R}.

Abbreviation W := (world DB S).

Definition in_db (w w' : W) : Prop := R (db w) (db w').

#[export] Instance in_db_preorder : PreOrder in_db.
Proof. split; [by intros w; unfold in_db|]. intros w1 w2 w3. unfold in_db. by etransitivity. Qed.

Lemma db_call_in_db {A} (f : DB -> res A * DB) : steps R f -> steps in_db (db_call (S := S) f).
Proof. intros Hf w. unfold db_call, in_db. specialize (Hf (db w)). by destruct (f (db w)). Qed.

Lemma same_db {A} (m : st W A) : (forall w, db (m w).2 = db w) -> steps in_db m.
Proof. intros Hm w. unfold in_db. by rewrite Hm. Qed.

Lemma in_db_db_frame : db_frame in_db.
Proof.
  split; intros; apply db_call_in_db;
    [apply pk_resolve|apply pk_create|apply pk_release|apply pk_heartbeat|apply pk_finalize
    |by apply pk_catalog].
Qed.

Lemma sendEnvelope_db conn msg (w : W) : db (sendEnvelope conn msg w).2 = db w.
Proof. by destruct (sendEnvelope_spec w conn msg) as (_ & _ & -> & _). Qed.

Lemma removeConnection_db sid (w : W) : db (removeConnection sid w).2 = db w.
Proof.
  unfold removeConnection. destruct (str_empty sid); [done|].
  unfold mbind, st_bind, gets; cbn. by destruct (connections (hs w) !! sid).
Qed.

Lemma in_db_base : base_frame (DB := DB) (S := S) in_db.
Proof. apply base_of_prims; [apply _|]. split; intros; by apply same_db. Qed.

Lemma in_db_full c : serve_frame_full h c in_db.
Proof.
  apply full_of_prims; [apply _|split; intros; by apply same_db|split|..];
    try (intros; by apply same_db).
  - apply in_db_base.
  - intros msg _. apply same_db, sendEnvelope_db.
  - apply in_db_db_frame.
  - intros f _. by apply same_db.
  - intros tid. apply same_db. intros w.
    unfold bind_own_trader, bindConnectionTrader, mbind, st_bind, gets; cbn.
    destruct (_ || _); [done|]. cbn. by destruct (connections (hs w) !! _).
  - apply same_db. intros w. unfold upsertSessionSnapshot, mbind, st_bind, gets; cbn.
    by destruct (str_empty _).
Qed.

Lemma in_db_end : end_frame in_db.
Proof.
  split; [apply in_db_base|apply in_db_db_frame|intros f _; by apply same_db| |].
  - apply same_db. intros w. unfold current_session_id, deleteSessionSnapshot, mbind, st_bind, gets; cbn.
    by destruct (str_empty _).
  - apply same_db. intros w. apply (removeConnection_db (sessionID (session (loc w)))).
Qed.

Lemma serve_loop_in_db c traffic : steps in_db (serve_loop h c traffic).
Proof. apply (end_serve_loop h c in_db (in_db_full c) in_db_end). Qed.

Lemma serve_defers_db conn sid (w : W) : db (serve_defers conn sid w).2 = db w.
Proof.
  unfold serve_defers, mbind, st_bind; cbn.
  destruct (removeConnection sid w) as [u w1] eqn:E. cbn.
  change w1 with ((u, w1).2). rewrite <- E. apply removeConnection_db.
Qed.

Lemma Serve_in_db r conn connID sid rid ip traffic :
  steps in_db (Serve h r conn connID sid rid ip traffic).
Proof.
  intros w. pose proof (Serve_phases h r conn connID sid rid ip traffic w) as Hp.
  destruct (Serve h r conn connID sid rid ip traffic w) as [res w'].
  destruct Hp as [reason _|c w1 w2 _ Eo El|c w1 k w2 _ Eo El].
  - by unfold in_db.
  - destruct (serve_open_spec h w _ _ _ _ _ _ _ _ Eo) as (_ & _ & _ & Ho & _).
    pose proof (serve_loop_in_db c traffic w1) as Hl. rewrite El in Hl.
    unfold in_db in *. cbn in *. by rewrite <- Ho.
  - destruct (serve_open_spec h w _ _ _ _ _ _ _ _ Eo) as (_ & _ & _ & Ho & _).
    pose proof (serve_loop_in_db c traffic w1) as Hl. rewrite El in Hl.
    unfold in_db in *. cbn in *. by rewrite serve_defers_db, <- Ho.
Qed.
End handler_db.
