(* ===== verification/HandlerRows.v ===== *)
(** * Persisted sessions have rows

    [BacksSessions R row_for] is what an implementation of [SessionPersistence]
    promises a client that relies on what it has written: a successful creation
    leaves a row for the session, and what moves along [R] keeps it.  A turn of the
    handler then keeps the connection between its two records of a session: the flag
    in the local variables and the row in the database. *)

From S2P Require Import Prelude GoFloat Protocol Session Conn Telemetry Auth StateM Interfaces Handler HandlerFrame HandlerFacts HandlerInv HandlerDB.

Class BacksSessions {DB} `{!SessionPersistence DB} (R : DB -> DB -> Prop)
    (row_for : string -> DB -> Prop) : Prop := {
  bs_create : forall i d d', CreateSession i d = (Ok tt, d') -> row_for (sci_SessionID i) d';
  bs_keep : forall sid d d', R d d' -> row_for sid d -> row_for sid d'
}.

Section rows.
Context {DB S : Type} `{!SessionPersistence DB} `{!RuntimeSink S} `{!WsJson} `{!ServeEnv}.
Context (h : handler_config) (R : DB -> DB -> Prop) `{!PreOrder R} `{!PersistenceKeeps R}.
Context (row_for : string -> DB -> Prop) `{!BacksSessions R row_for}.

Abbreviation W := (world DB S).

Definition backed_locals (l : serve_locals) (d : DB) : Prop :=
  persistedSession l = true -> row_for (sessionID (session l)) d.

Definition backed (w : W) : Prop := backed_locals (loc w) (db w).

Definition keeps_backed (w w' : W) : Prop := in_db R w w' /\ (backed w -> backed w').

#[export] Instance keeps_backed_preorder : PreOrder keeps_backed.
Proof.
  split; [intros w; by split|]. intros w1 w2 w3 [H1 H1'] [H2 H2'].
  split; [by transitivity w2|auto].
Qed.

(** What the flag and the row depend on. *)
Definition row_view (w : W) := (db w, persistedSession (loc w), sessionID (session (loc w))).

Lemma view_backed {A} (m : st W A) : steps (same row_view) m -> steps keeps_backed m.
Proof.
  intros Hm w. specialize (Hm w). unfold same, row_view in Hm. injection Hm as Hd Hp Hs.
  split; [by unfold in_db; rewrite Hd|]. unfold backed, backed_locals. by rewrite Hd, Hp, Hs.
Qed.

Lemma row_view_sink (f : S -> S) : steps (same row_view) (modify_sink (DB := DB) f).
Proof. by intros w. Qed.

Local Hint Extern 1 (steps (same row_view) _) => (intros w; reflexivity) : steps.

Lemma row_view_base : base_frame (same row_view).
Proof.
  split; try (intros; intros w; reflexivity).
  - intros n. unfold syncRuntimeHeartbeat. steps_auto.
  - intros n. unfold syncRuntimeTimeout. steps_auto.
  - intros f Hf w. unfold same, row_view. cbn. by destruct (Hf (loc w)) as [-> ->].
  - intros r b _. unfold recordDisconnect, syncRuntimeDisconnect. steps_auto.
Qed.

Lemma row_view_frame c : serve_frame c (same row_view).
Proof.
  split; [apply row_view_base|..]; try (intros; intros w; reflexivity).
  intros msg _ w. unfold same, row_view.
  by destruct (sendEnvelope_spec w (sc_conn c) msg) as (_ & -> & -> & _).
Qed.

Lemma backed_base : base_frame keeps_backed.
Proof. destruct row_view_base. split; intros; apply view_backed; auto. Qed.

Lemma backed_frame c : serve_frame c keeps_backed.
Proof. destruct (row_view_frame c). split; [apply backed_base|..]; intros; apply view_backed; auto. Qed.

Lemma backed_call {A} (f : DB -> res A * DB) : steps R f -> steps keeps_backed (db_call (S := S) f).
Proof.
  intros Hf w. unfold db_call. specialize (Hf (db w)). destruct (f (db w)) as [r d'].
  split; [exact Hf|]. intros Hb Hp. cbn in *. eapply bs_keep; [exact Hf|by apply Hb].
Qed.

Lemma backed_db : db_frame keeps_backed.
Proof.
  split; intros; apply backed_call;
    [apply pk_resolve|apply pk_create|apply pk_release|apply pk_heartbeat|apply pk_finalize
    |by apply pk_catalog].
Qed.

Lemma backed_session : session_frame keeps_backed.
Proof. intros f Hf. apply view_backed. intros w. unfold same, row_view. cbn. by rewrite Hf. Qed.

(** ** The one place where the flag is set *)

Lemma retry_loop_Ok {A} n d (fn : st W (res A)) (Q : W -> Prop) (w w' : W) a :
  (forall w1 w2 b, fn w1 = (Ok b, w2) -> Q w2) ->
  retry_loop h n d fn w = (Ok a, w') -> Q w'.
Proof.
  intros Hfn. revert d w. induction n as [|n IH]; intros d w; cbn; [done|].
  unfold mbind, st_bind. destruct (fn w) as [[b|e] w1] eqn:E.
  - intros [= <- <-]. by eapply Hfn.
  - destruct (errors_is e ErrActiveSessionExists); [done|]. destruct n; [done|]. apply IH.
Qed.

Lemma withDBWriteRetry_Ok {A} op dflt (fn : st W (res A)) (Q : W -> Prop) (w w' : W) a :
  persistence h = true -> (forall w1 w2 b, fn w1 = (Ok b, w2) -> Q w2) ->
  withDBWriteRetry h op dflt fn w = (Ok a, w') -> Q w'.
Proof.
  intros Hp Hfn. unfold withDBWriteRetry. rewrite Hp. cbn [negb]. unfold mbind at 1, st_bind.
  destruct (retry_loop _ _ _ _ w) as [[b|e] w1] eqn:E.
  - intros [= <- <-]. by eapply retry_loop_Ok.
  - destruct (errors_is e _); intros [=].
Qed.

Lemma db_call_Ok {A} (f : DB -> res A * DB) (w w' : W) a :
  db_call f w = (Ok a, w') -> f (db w) = (Ok a, db w').
Proof. unfold db_call. destruct (f (db w)) as [r d]. by intros [= -> <-]. Qed.

Definition session_id (w : W) : string := sessionID (session (loc w)).

Lemma session_id_base : base_frame (same session_id).
Proof.
  apply base_of_prims; [apply _|split]; try (intros; intros w; reflexivity).
  intros f Hf w. unfold same, session_id. cbn. by rewrite Hf.
Qed.

Lemma db_call_session_id {A} (f : DB -> res A * DB) : steps (same session_id) (db_call (S := S) f).
Proof. intros w. unfold same, db_call. by destruct (f (db w)). Qed.

(** Creating the row of the session itself: what follows may set the flag. *)
Lemma backed_create {B} op dflt i (k : res unit -> st W B) (w : W) :
  persistence h = true -> sci_SessionID i = session_id w ->
  (forall e, steps keeps_backed (k (Err e))) ->
  (forall w1, row_for (session_id w1) (db w1) -> keeps_backed w1 (k (Ok tt) w1).2) ->
  keeps_backed w ((r ← withDBWriteRetry h op dflt (db_call (CreateSession i)); k r) w).2.
Proof.
  intros Hp Hi Hk1 Hk2. set (m := withDBWriteRetry _ _ _ _).
  assert (keeps_backed w (m w).2) as H1
    by apply (frame_withDBWriteRetry h _ backed_base), (df_create _ backed_db).
  assert (session_id (m w).2 = session_id w) as H2
    by apply (frame_withDBWriteRetry h _ session_id_base), db_call_session_id.
  assert ((m w).1 = Ok tt -> row_for (sci_SessionID i) (db (m w).2)) as H3.
  { intros Hm. eapply (withDBWriteRetry_Ok op dflt _ (fun w1 => row_for (sci_SessionID i) (db w1))
      w _ tt Hp); [|by rewrite <- Hm; apply surjective_pairing].
    intros w1 w2 [] Hc%db_call_Ok. by eapply bs_create. }
  unfold mbind, st_bind. destruct (m w) as [[[]|e] w1]; cbn in *.
  - etransitivity; [exact H1|]. apply Hk2. rewrite H2, <- Hi. by apply H3.
  - etransitivity; [exact H1|]. apply Hk1.
Qed.

Lemma backed_persist_session c id ms rel can dbid :
  persistence h = true -> steps keeps_backed (persist_session h c id ms rel can dbid).
Proof.
  intros Hp. pose proof (backed_frame c) as HF. pose proof (sf_base c _ HF) as HB.
  pose proof (frame_closeConnection _ HB). pose proof (df_release _ backed_db dbid) as Hrel.
  pose proof (fun r => frame_withDBWriteRetry h _ HB unit "update_trader_release" tt _ (Hrel r)).
  unfold persist_session. apply steps_gets_bind. intros w. apply backed_create; [done|done| |].
  - intros e. destruct (errors_is e ErrActiveSessionExists);
      repeat (cbv zeta; first [apply (frame_send_error c _ HF); reflexivity|steps_step]).
  - intros w1 Hrow. set (rest := fun _ : unit => _ ≫= _).
    change (keeps_backed w1 (rest tt (w1 <| loc ::= fun l => l <| persistedSession := true |> |>)).2).
    transitivity (w1 <| loc ::= fun l => l <| persistedSession := true |> |>).
    { split; [unfold in_db; reflexivity|]. intros _ _. exact Hrow. }
    enough (steps keeps_backed (rest tt)) as Hrest by apply Hrest.
    subst rest. cbv beta. steps_auto.
Qed.

Lemma backed_full c : serve_frame_full h c keeps_backed.
Proof.
  split; [apply backed_frame|apply backed_db|apply backed_session|..].
  - intros Hp *. by apply backed_persist_session.
  - intros tid. apply view_backed. intros w.
    unfold bind_own_trader, bindConnectionTrader, same, mbind, st_bind, gets; cbn.
    destruct (_ || _); [done|]. cbn. by destruct (connections (hs w) !! _).
  - apply view_backed. intros w. unfold upsertSessionSnapshot, same, mbind, st_bind, gets; cbn.
    by destruct (str_empty _).
Qed.

Lemma backed_end : end_frame keeps_backed.
Proof.
  split; [apply backed_base|apply backed_db|apply backed_session|..]; apply view_backed; intros w;
    unfold current_session_id, deleteSessionSnapshot, removeConnection, same, row_view, mbind, st_bind, gets; cbn.
  - by destruct (str_empty _).
  - destruct (str_empty _); [done|]. cbn. by destruct (connections (hs w) !! _).
Qed.

(** Every turn keeps a persisted session backed by its row. *)
Lemma serve_turn_backed c i : steps keeps_backed (serve_turn h c i).
Proof. apply end_serve_turn; [apply _|apply backed_full|apply backed_end]. Qed.
End rows.
