(* ===== verification/Models.v ===== *)
(** * Row types (internal/db/models/)

    The rows of the resource, task, audit, order and re-encryption tables, with their
    enumerations; traders and sessions are in Tables.v.  A nullable column is an
    option, a DECIMAL column its text as the driver delivers it. *)

From S2P Require Import Prelude GoFloat.

(** ** trader_resource.go *)

Record TraderExchangeResource := {
  rs_ID : Z;
  rs_TraderID : Z;
  rs_ExchangeID : Z;
  rs_ExchangeAccountID : option Z;
  rs_ResourceType : string;
  rs_UsedValue : string;
  rs_MaxValue : string;
  rs_LastUpdated : Z;
  rs_ResetAt : Z
}.

#[export] Instance eta_resource : Eta TraderExchangeResource := fun r =>
  {| rs_ID := rs_ID r; rs_TraderID := rs_TraderID r; rs_ExchangeID := rs_ExchangeID r;
     rs_ExchangeAccountID := rs_ExchangeAccountID r; rs_ResourceType := rs_ResourceType r;
     rs_UsedValue := rs_UsedValue r; rs_MaxValue := rs_MaxValue r;
     rs_LastUpdated := rs_LastUpdated r; rs_ResetAt := rs_ResetAt r |}.

#[export] Instance resource_eq_dec : EqDecision TraderExchangeResource.
Proof. solve_decision. Defined.

Definition ResourceTypeAPIRequestsMinute : string := "api_requests_minute".
Definition ResourceTypeAPIWeightMinute : string := "api_weight_minute".
Definition ResourceTypeOrdersMinute : string := "orders_minute".
Definition ResourceTypeWebSocketConnections : string := "websocket_connections".

(** [used] and [max] are declared and never set: the amounts of the row are not read. *)
Definition CalculateAvailability (now : Z) (r : TraderExchangeResource) : f64 :=
  if (now >? rs_ResetAt r)%Z then f_one
  else
    let used := f_zero in
    let max := f_zero in
    if f_eq max f_zero then f_zero else f_div (f_sub max used) max.

(** Before its reset a resource always counts as used up. *)
Lemma CalculateAvailability_value now r :
  CalculateAvailability now r = if (now >? rs_ResetAt r)%Z then f_one else f_zero.
Proof. reflexivity. Qed.

(** ** scheduler.go *)

Record SchedulerTask := {
  tk_ID : Z;
  tk_TaskName : string;
  tk_TaskType : string;
  tk_ScheduleCron : option string;
  tk_ScheduleIntervalSec : option Z;
  tk_Enabled : bool;
  tk_Status : string;
  tk_LastRunAt : option Z;
  tk_LastRunDurationMS : option Z;
  tk_LastRunStatus : option string;
  tk_LastError : option string;
  tk_NextRunAt : option Z;
  tk_RunCount : Z;
  tk_ErrorCount : Z;
  tk_Config : option string;
  tk_DateCreate : Z;
  tk_DateModify : Z;
  tk_UserCreated : option Z;
  tk_UserModify : option Z
}.

#[export] Instance eta_task : Eta SchedulerTask := fun t =>
  {| tk_ID := tk_ID t; tk_TaskName := tk_TaskName t; tk_TaskType := tk_TaskType t;
     tk_ScheduleCron := tk_ScheduleCron t; tk_ScheduleIntervalSec := tk_ScheduleIntervalSec t;
     tk_Enabled := tk_Enabled t; tk_Status := tk_Status t; tk_LastRunAt := tk_LastRunAt t;
     tk_LastRunDurationMS := tk_LastRunDurationMS t; tk_LastRunStatus := tk_LastRunStatus t;
     tk_LastError := tk_LastError t; tk_NextRunAt := tk_NextRunAt t; tk_RunCount := tk_RunCount t;
     tk_ErrorCount := tk_ErrorCount t; tk_Config := tk_Config t; tk_DateCreate := tk_DateCreate t;
     tk_DateModify := tk_DateModify t; tk_UserCreated := tk_UserCreated t;
     tk_UserModify := tk_UserModify t |}.

#[export] Instance task_eq_dec : EqDecision SchedulerTask.
Proof. solve_decision. Defined.

Definition TaskTypeCleanup : string := "cleanup".
Definition TaskTypeReencryption : string := "reencryption".
Definition TaskTypeMonitoring : string := "monitoring".
Definition TaskTypeMaintenance : string := "maintenance".
Definition TaskTypeOther : string := "other".

Definition TaskStatusIdle : string := "idle".
Definition TaskStatusRunning : string := "running".
Definition TaskStatusFailed : string := "failed".
Definition TaskStatusDisabled : string := "disabled".

Definition TaskRunStatusSuccess : string := "success".
Definition TaskRunStatusError : string := "error".
Definition TaskRunStatusTimeout : string := "timeout".

(** The fields a default task leaves out have their zero values. *)
Definition default_task (name type : string) (cron : option string) (interval : option Z)
    (config : string) : SchedulerTask :=
  {| tk_ID := 0; tk_TaskName := name; tk_TaskType := type; tk_ScheduleCron := cron;
     tk_ScheduleIntervalSec := interval; tk_Enabled := true; tk_Status := "";
     tk_LastRunAt := None; tk_LastRunDurationMS := None; tk_LastRunStatus := None;
     tk_LastError := None; tk_NextRunAt := None; tk_RunCount := 0; tk_ErrorCount := 0;
     tk_Config := Some config; tk_DateCreate := time_zero; tk_DateModify := time_zero;
     tk_UserCreated := None; tk_UserModify := None |}.

(** A JSON object of one number. *)
Definition json_number (key : string) (n : Z) : string :=
  let q := String (ascii_of_nat 34) "" in "{" +:+ q +:+ key +:+ q +:+ ": " +:+ Itoa n +:+ "}".

Definition DefaultSchedulerTasks : list SchedulerTask :=
  [ default_task "cleanup_trader_sessions" TaskTypeCleanup (Some "0 2 * * *") None
      (json_number "retention_days" 7);
    default_task "cleanup_audit_logs" TaskTypeCleanup (Some "0 3 * * *") None
      (json_number "retention_days" 180);
    default_task "reset_daily_limits" TaskTypeMaintenance (Some "0 0 * * *") None "{}";
    default_task "check_reencryption_jobs" TaskTypeReencryption None (Some 60%Z)
      (json_number "check_interval_sec" 60) ].

(** ** audit.go *)

Record AuditLog := {
  au_ID : Z;
  au_Timestamp : Z;
  au_UID : option Z;
  au_Action : string;
  au_ResourceType : option string;
  au_ResourceID : option string;
  au_OldValue : option string;
  au_NewValue : option string;
  au_IPAddress : option string;
  au_UserAgent : option string;
  au_Success : bool;
  au_ErrorMessage : option string
}.

#[export] Instance eta_audit : Eta AuditLog := fun a =>
  {| au_ID := au_ID a; au_Timestamp := au_Timestamp a; au_UID := au_UID a; au_Action := au_Action a;
     au_ResourceType := au_ResourceType a; au_ResourceID := au_ResourceID a;
     au_OldValue := au_OldValue a; au_NewValue := au_NewValue a; au_IPAddress := au_IPAddress a;
     au_UserAgent := au_UserAgent a; au_Success := au_Success a;
     au_ErrorMessage := au_ErrorMessage a |}.

#[export] Instance audit_eq_dec : EqDecision AuditLog.
Proof. solve_decision. Defined.

(** ** arbitrage.go *)

Record ArbitrageOrder := {
  ao_ID : Z;
  ao_ArbitrageTransID : Z;
  ao_ExchangeID : Z;
  ao_ExchangeAccountID : Z;
  ao_ExchangeOrderID : string;
  ao_TraderID : Z;
  ao_Side : string;
  ao_OrderType : string;
  ao_PairID : Z;
  ao_RequestedQuantity : string;
  ao_FilledQuantity : string;
  ao_AvgPrice : option string;
  ao_TotalCost : option string;
  ao_TotalFee : string;
  ao_FeeCurrency : option string;
  ao_Status : string;
  ao_ErrorMessage : option string;
  ao_DateCreate : Z;
  ao_FilledAt : option Z
}.

#[export] Instance eta_order : Eta ArbitrageOrder := fun o =>
  {| ao_ID := ao_ID o; ao_ArbitrageTransID := ao_ArbitrageTransID o; ao_ExchangeID := ao_ExchangeID o;
     ao_ExchangeAccountID := ao_ExchangeAccountID o; ao_ExchangeOrderID := ao_ExchangeOrderID o;
     ao_TraderID := ao_TraderID o; ao_Side := ao_Side o; ao_OrderType := ao_OrderType o;
     ao_PairID := ao_PairID o; ao_RequestedQuantity := ao_RequestedQuantity o;
     ao_FilledQuantity := ao_FilledQuantity o; ao_AvgPrice := ao_AvgPrice o;
     ao_TotalCost := ao_TotalCost o; ao_TotalFee := ao_TotalFee o; ao_FeeCurrency := ao_FeeCurrency o;
     ao_Status := ao_Status o; ao_ErrorMessage := ao_ErrorMessage o; ao_DateCreate := ao_DateCreate o;
     ao_FilledAt := ao_FilledAt o |}.

#[export] Instance order_eq_dec : EqDecision ArbitrageOrder.
Proof. solve_decision. Defined.

Record ArbitrageOrderTrans := {
  at_ID : Z;
  at_ArbitrageOrderID : Z;
  at_ExchangeTransactionID : string;
  at_Quantity : string;
  at_Price : string;
  at_Cost : string;
  at_Fee : string;
  at_FeeCurrency : option string;
  at_Timestamp : Z;
  at_DateCreate : Z
}.

(** ** reencryption.go *)

Record ReencryptionJob := {
  rj_ID : Z;
  rj_JobType : string;
  rj_OldKeyVersion : Z;
  rj_NewKeyVersion : Z;
  rj_Context : string;
  rj_Status : string;
  rj_TotalRecords : Z;
  rj_ProcessedRecords : Z;
  rj_FailedRecords : Z;
  rj_BatchSize : Z;
  rj_StartedAt : option Z;
  rj_CompletedAt : option Z;
  rj_LastProcessedAt : option Z;
  rj_ErrorMessage : option string;
  rj_DateCreate : Z
}.

#[export] Instance eta_job : Eta ReencryptionJob := fun j =>
  {| rj_ID := rj_ID j; rj_JobType := rj_JobType j; rj_OldKeyVersion := rj_OldKeyVersion j;
     rj_NewKeyVersion := rj_NewKeyVersion j; rj_Context := rj_Context j; rj_Status := rj_Status j;
     rj_TotalRecords := rj_TotalRecords j; rj_ProcessedRecords := rj_ProcessedRecords j;
     rj_FailedRecords := rj_FailedRecords j; rj_BatchSize := rj_BatchSize j;
     rj_StartedAt := rj_StartedAt j; rj_CompletedAt := rj_CompletedAt j;
     rj_LastProcessedAt := rj_LastProcessedAt j; rj_ErrorMessage := rj_ErrorMessage j;
     rj_DateCreate := rj_DateCreate j |}.

#[export] Instance job_eq_dec : EqDecision ReencryptionJob.
Proof. solve_decision. Defined.

Definition ReencryptionJobStatusPending : string := "pending".
Definition ReencryptionJobStatusInProgress : string := "in_progress".
Definition ReencryptionJobStatusCompleted : string := "completed".
Definition ReencryptionJobStatusFailed : string := "failed".
Definition ReencryptionJobStatusCancelled : string := "cancelled".

Record ReencryptionProgress := {
  rp_ID : Z;
  rp_JobID : Z;
  rp_TableName : string;
  rp_RecordID : string;
  rp_Status : string;
  rp_AttemptCount : Z;
  rp_ErrorMessage : option string;
  rp_ProcessedAt : option Z;
  rp_DateCreate : Z
}.

#[export] Instance eta_progress : Eta ReencryptionProgress := fun p =>
  {| rp_ID := rp_ID p; rp_JobID := rp_JobID p; rp_TableName := rp_TableName p;
     rp_RecordID := rp_RecordID p; rp_Status := rp_Status p; rp_AttemptCount := rp_AttemptCount p;
     rp_ErrorMessage := rp_ErrorMessage p; rp_ProcessedAt := rp_ProcessedAt p;
     rp_DateCreate := rp_DateCreate p |}.

#[export] Instance progress_eq_dec : EqDecision ReencryptionProgress.
Proof. solve_decision. Defined.

Definition ReencryptionProgressStatusPending : string := "pending".
Definition ReencryptionProgressStatusCompleted : string := "completed".
Definition ReencryptionProgressStatusFailed : string := "failed".
Definition ReencryptionProgressStatusSkipped : string := "skipped".

(** ** The remaining enumerations

    String types whose constants the callers pass to the repositories. *)

Inductive OrderSide :=
  | OrderSideBuy
  | OrderSideSell.

Definition OrderSide_string (x : OrderSide) : string :=
  match x with
  | OrderSideBuy => "buy"
  | OrderSideSell => "sell"
  end.

Inductive OrderType :=
  | OrderTypeMarket
  | OrderTypeLimit
  | OrderTypeStopLimit.

Definition OrderType_string (x : OrderType) : string :=
  match x with
  | OrderTypeMarket => "market"
  | OrderTypeLimit => "limit"
  | OrderTypeStopLimit => "stop_limit"
  end.

Inductive OrderStatus :=
  | OrderStatusPending
  | OrderStatusPartial
  | OrderStatusFilled
  | OrderStatusCancelled
  | OrderStatusRejected
  | OrderStatusError.

Definition OrderStatus_string (x : OrderStatus) : string :=
  match x with
  | OrderStatusPending => "pending"
  | OrderStatusPartial => "partial"
  | OrderStatusFilled => "filled"
  | OrderStatusCancelled => "cancelled"
  | OrderStatusRejected => "rejected"
  | OrderStatusError => "error"
  end.

Inductive ReencryptionJobType :=
  | ReencryptionJobTypeUser2FA
  | ReencryptionJobTypeExchangeAccounts
  | ReencryptionJobTypeOther.

Definition ReencryptionJobType_string (x : ReencryptionJobType) : string :=
  match x with
  | ReencryptionJobTypeUser2FA => "user_2fa"
  | ReencryptionJobTypeExchangeAccounts => "exchange_accounts"
  | ReencryptionJobTypeOther => "other"
  end.

Inductive AuditAction :=
  | AuditActionTraderCreate
  | AuditActionTraderDelete
  | AuditActionTraderSuspend
  | AuditActionTraderResume
  | AuditActionTraderUpdate
  | AuditActionMonitorAssign
  | AuditActionMonitorUnassign
  | AuditActionMonitorPause
  | AuditActionMonitorResume
  | AuditActionUserCreate
  | AuditActionUserDelete
  | AuditActionUserUpdate
  | AuditActionUserLogin
  | AuditActionUserLogout
  | AuditActionUserGroupCreate
  | AuditActionUserGroupUpdate
  | AuditActionUserGroupDelete
  | AuditActionUserGroupAssign
  | AuditActionUserGroupUnassign
  | AuditActionConfigUpdate
  | AuditActionKeyRotation
  | AuditActionReencrypt
  | AuditActionExchangeAccountCreate
  | AuditActionExchangeAccountDelete
  | AuditActionExchangeAccountUpdate.

Definition AuditAction_string (x : AuditAction) : string :=
  match x with
  | AuditActionTraderCreate => "TRADER_CREATE"
  | AuditActionTraderDelete => "TRADER_DELETE"
  | AuditActionTraderSuspend => "TRADER_SUSPEND"
  | AuditActionTraderResume => "TRADER_RESUME"
  | AuditActionTraderUpdate => "TRADER_UPDATE"
  | AuditActionMonitorAssign => "MONITOR_ASSIGN"
  | AuditActionMonitorUnassign => "MONITOR_UNASSIGN"
  | AuditActionMonitorPause => "MONITOR_PAUSE"
  | AuditActionMonitorResume => "MONITOR_RESUME"
  | AuditActionUserCreate => "USER_CREATE"
  | AuditActionUserDelete => "USER_DELETE"
  | AuditActionUserUpdate => "USER_UPDATE"
  | AuditActionUserLogin => "USER_LOGIN"
  | AuditActionUserLogout => "USER_LOGOUT"
  | AuditActionUserGroupCreate => "USER_GROUP_CREATE"
  | AuditActionUserGroupUpdate => "USER_GROUP_UPDATE"
  | AuditActionUserGroupDelete => "USER_GROUP_DELETE"
  | AuditActionUserGroupAssign => "USER_GROUP_ASSIGN"
  | AuditActionUserGroupUnassign => "USER_GROUP_UNASSIGN"
  | AuditActionConfigUpdate => "CONFIG_UPDATE"
  | AuditActionKeyRotation => "KEY_ROTATION"
  | AuditActionReencrypt => "REENCRYPTION_JOB"
  | AuditActionExchangeAccountCreate => "EXCHANGE_ACCOUNT_CREATE"
  | AuditActionExchangeAccountDelete => "EXCHANGE_ACCOUNT_DELETE"
  | AuditActionExchangeAccountUpdate => "EXCHANGE_ACCOUNT_UPDATE"
  end.

Inductive ResourceType :=
  | ResourceTypeTrader
  | ResourceTypeMonitor
  | ResourceTypeUser
  | ResourceTypeUserGroup
  | ResourceTypeUserGroupMember
  | ResourceTypeConfig
  | ResourceTypeExchangeAccount
  | ResourceTypeExchange
  | ResourceTypeHSM
  | ResourceTypeScheduler.

Definition ResourceType_string (x : ResourceType) : string :=
  match x with
  | ResourceTypeTrader => "trader"
  | ResourceTypeMonitor => "monitor"
  | ResourceTypeUser => "user"
  | ResourceTypeUserGroup => "user_group"
  | ResourceTypeUserGroupMember => "user_group_member"
  | ResourceTypeConfig => "config"
  | ResourceTypeExchangeAccount => "exchange_account"
  | ResourceTypeExchange => "exchange"
  | ResourceTypeHSM => "hsm"
  | ResourceTypeScheduler => "scheduler"
  end.

(** No two constants of a type have the same text. *)
Lemma constants_distinct :
  Inj (=) (=) OrderSide_string /\ Inj (=) (=) OrderType_string /\ Inj (=) (=) OrderStatus_string /\
  Inj (=) (=) ReencryptionJobType_string /\ Inj (=) (=) AuditAction_string /\ Inj (=) (=) ResourceType_string.
Proof. split_and!; intros [] []; (reflexivity || discriminate). Qed.
