(* ===== verification/Tables.v ===== *)
(** * The trader tables (internal/db/models/trader.go, internal/db/repository/)

    The tables TRADER and TRADER_SESSION as maps from their primary keys, the SQL
    statements of trader.go and trader_session.go as functions on them, and the
    repository methods that send the statements.  The columns, unique keys and
    foreign keys are those of migrations/001 to 004. *)

From S2P Require Import Prelude StateM Models.

(** ** Rows (models/trader.go)

    A nullable column ([sql.NullString], [sql.NullTime], ...) is an option. *)

Definition TraderStatusPending : string := "pending".
Definition TraderStatusActive : string := "active".
Definition TraderStatusSuspended : string := "suspended".
Definition TraderStatusDecommissioned : string := "decommissioned".

Record Trader := {
  tr_ID : Z;
  tr_TraderName : string;
  tr_CertificateCN : string;
  tr_Region : option string;
  tr_Status : string;
  tr_ReleaseVersion : option string;
  tr_MaxTasks : Z;
  tr_DateCreate : Z;
  tr_DateModify : Z;
  tr_UserCreated : option Z;
  tr_UserModify : option Z;
  tr_Notes : option string
}.

#[export] Instance eta_Trader : Eta Trader := fun t =>
  {| tr_ID := tr_ID t; tr_TraderName := tr_TraderName t; tr_CertificateCN := tr_CertificateCN t;
     tr_Region := tr_Region t; tr_Status := tr_Status t; tr_ReleaseVersion := tr_ReleaseVersion t;
     tr_MaxTasks := tr_MaxTasks t; tr_DateCreate := tr_DateCreate t;
     tr_DateModify := tr_DateModify t; tr_UserCreated := tr_UserCreated t;
     tr_UserModify := tr_UserModify t; tr_Notes := tr_Notes t |}.

#[export] Instance Trader_eq_dec : EqDecision Trader.
Proof. solve_decision. Defined.

Record TraderSession := {
  se_ID : Z;
  se_TraderID : Z;
  se_SessionID : string;
  se_WSConnectionID : option string;
  se_IPAddress : option string;
  se_ConnectedAt : Z;
  se_LastHeartbeat : Z;
  se_EndedAt : option Z;
  se_DisconnectReason : option string;
  se_ErrorMessage : option string
}.

#[export] Instance eta_TraderSession : Eta TraderSession := fun s =>
  {| se_ID := se_ID s; se_TraderID := se_TraderID s; se_SessionID := se_SessionID s;
     se_WSConnectionID := se_WSConnectionID s; se_IPAddress := se_IPAddress s;
     se_ConnectedAt := se_ConnectedAt s; se_LastHeartbeat := se_LastHeartbeat s;
     se_EndedAt := se_EndedAt s; se_DisconnectReason := se_DisconnectReason s;
     se_ErrorMessage := se_ErrorMessage s |}.

#[export] Instance TraderSession_eq_dec : EqDecision TraderSession.
Proof. solve_decision. Defined.

Definition DisconnectGraceful : string := "graceful".
Definition DisconnectTimeout : string := "timeout".
Definition DisconnectError : string := "error".
Definition DisconnectServerShutdown : string := "server_shutdown".
Definition DisconnectKicked : string := "kicked".

(** ** The database

    [stmts] counts the statements sent so far and [reads] the clock readings; [more]
    holds the tables of Repositories.v. *)

Record more_tables := {
  trader_resources : gmap Z TraderExchangeResource;
  scheduler_tasks : gmap Z SchedulerTask;
  audit_logs : gmap Z AuditLog;
  arbitrage_orders : gmap Z ArbitrageOrder;
  reencryption_jobs : gmap Z ReencryptionJob;
  reencryption_records : gmap Z ReencryptionProgress
}.

#[export] Instance eta_more_tables : Eta more_tables := fun t =>
  {| trader_resources := trader_resources t; scheduler_tasks := scheduler_tasks t;
     audit_logs := audit_logs t; arbitrage_orders := arbitrage_orders t;
     reencryption_jobs := reencryption_jobs t; reencryption_records := reencryption_records t |}.

Definition no_more_tables : more_tables :=
  {| trader_resources := ∅; scheduler_tasks := ∅; audit_logs := ∅; arbitrage_orders := ∅;
     reencryption_jobs := ∅; reencryption_records := ∅ |}.

Record database := mk_database {
  traders : gmap Z Trader;
  trader_sessions : gmap Z TraderSession;
  more : more_tables;
  stmts : nat;
  reads : nat
}.

#[export] Instance eta_database : Eta database := fun d =>
  mk_database (traders d) (trader_sessions d) (more d) (stmts d) (reads d).

(** How a statement can end: it is executed and answered; it fails before it takes
    effect (a value that does not fit its column, a broken connection, ...); it takes
    effect but the answer is lost; it is answered, but the driver
    cannot tell the affected rows, or the generated id. *)
Inductive stmt_outcome :=
  | StmtDone
  | StmtFailed (e : go_error)
  | StmtLost (e : go_error)
  | StmtNoRows (e : go_error)
  | StmtNoId (e : go_error).

(** What lies outside the sources: the outcome of the [n]-th statement, the [n]-th
    clock reading of a repository, the clock of the server, the time a TIMESTAMP column keeps, the sort key
    of the collation (strings are equal when their keys are), the text of a server
    error, the next AUTO_INCREMENT value of a table, and sqlx's search for the named
    parameters of a query among the columns of the argument. *)
Class SqlEnv := {
  stmt : nat -> stmt_outcome;
  sql_clock : nat -> Z;
  server_now : nat -> Z;
  sql_time : Z -> Z;
  collate : string -> string;
  server_text : Z -> string;
  auto_id : gset Z -> nat -> Z;
  sqlx_bind : list string -> list string -> option go_error
}.

(** AUTO_INCREMENT never hands out a key in use. *)
Class SqlLaws `{!SqlEnv} : Prop := {
  auto_id_fresh : forall X n, auto_id X n ∉ X
}.

Definition er_dup_entry : Z := 1062.
Definition er_no_referenced_row : Z := 1452.

(** A method that sends several statements is written once for every monad [M] that can
    send one: the state of the database, where a call is alone, or the programs of
    Calls.v, where other calls come between two statements. *)
Class Sends (M : Type -> Type) := send : forall {A}, st database A -> M A.

#[export] Instance sends_alone : Sends (st database) := fun _ m => m.

Section tables.
Context `{!SqlEnv}.

Abbreviation Db := (st database).

Definition server_error (number : Z) : go_error := EMySQL number (server_text number).

Definition same_text (a b : string) : bool := bool_decide (collate a = collate b).

Definition repo_now : Db Z := fun d => (sql_clock (reads d), d <| reads ::= S |>).

(** *** Statements *)

(** The first row of a table that satisfies [p], in the order of the map. *)
Definition find_row {A} (p : A -> bool) (t : gmap Z A) : option A :=
  head (filter (fun r => p r = true) (map_to_list t).*2).

(** UPDATE: [f] on the rows where [p] holds.  The server counts the rows whose
    content changes (the DSN does not set clientFoundRows). *)
Definition update_rows {A} `{EqDecision A} (p : A -> bool) (f : A -> A) (t : gmap Z A)
    : Z * gmap Z A :=
  (Z.of_nat (size (filter (fun kv => p kv.2 = true /\ f kv.2 <> kv.2) t)),
   (fun r => if p r then f r else r) <$> t).

Definition delete_rows {A} (p : A -> bool) (t : gmap Z A) : Z * gmap Z A :=
  (Z.of_nat (size (filter (fun kv => p kv.2 = true) t)), filter (fun kv => p kv.2 = false) t).

(** What [sql.Result] answers. *)
Record sql_result := { RowsAffected : res Z; LastInsertId : res Z }.

(** [ExecContext]: [f] is the statement, giving the affected rows, the generated id
    and the new tables, or the error of the server. *)
Definition exec (f : database -> res (Z * Z * database)) : Db (res sql_result) := fun d =>
  let o := stmt (stmts d) in
  let d := d <| stmts ::= S |> in
  match o with
  | StmtFailed e => (Err e, d)
  | _ =>
      match f d with
      | Err e => (Err e, d)
      | Ok (rows, id, d') =>
          match o with
          | StmtLost e => (Err e, d')
          | StmtNoRows e => (Ok {| RowsAffected := Err e; LastInsertId := Ok id |}, d')
          | StmtNoId e => (Ok {| RowsAffected := Ok rows; LastInsertId := Err e |}, d')
          | _ => (Ok {| RowsAffected := Ok rows; LastInsertId := Ok id |}, d')
          end
      end
  end.

(** [GetContext] and [SelectContext]: a query changes nothing. *)
Definition query {A} (f : database -> A) : Db (res A) := fun d =>
  let o := stmt (stmts d) in
  let d := d <| stmts ::= S |> in
  (match o with
   | StmtFailed e | StmtLost e => Err e
   | _ => Ok (f d)
   end, d).

(** An Update method after its [ExecContext]: [RowsAffected], and an error if no row
    was affected. *)
Definition affected_or (what missing : string) (r : res sql_result) : res unit :=
  match r with
  | Err e => Err (EWrap what e "")
  | Ok result =>
      match RowsAffected result with
      | Err e => Err (EWrap "failed to get rows affected: " e "")
      | Ok rows => if (rows =? 0)%Z then Err (ENew missing) else Ok tt
      end
  end.

(** A SELECT of at most one row, with [sql.ErrNoRows] for none. *)
Definition get_row {A} (what : string) (f : database -> option A) : Db (res (option A)) :=
  r ← query f;
  mret (match r with
        | Ok row => Ok row
        | Err e => if bool_decide (e = ESentinel SqlErrNoRows) then Ok None
                   else Err (EWrap what e "")
        end).

(** ** trader_session.go *)

Definition is_active (s : TraderSession) : bool := bool_decide (se_EndedAt s = None).

(** INSERT INTO TRADER_SESSION: SESSION_ID and (TRADER_ID, ACTIVE_SESSION_SLOT) are
    unique, TRADER_ID references TRADER. *)
Definition insert_session (s : TraderSession) (d : database) : res (Z * Z * database) :=
  let t := trader_sessions d in
  match find_row (fun r => same_text (se_SessionID r) (se_SessionID s)) t with
  | Some _ => Err (server_error er_dup_entry)
  | None =>
      match find_row (fun r => (se_TraderID r =? se_TraderID s)%Z && is_active r) t with
      | Some _ => Err (server_error er_dup_entry)
      | None =>
          match traders d !! se_TraderID s with
          | None => Err (server_error er_no_referenced_row)
          | Some _ =>
              let id := auto_id (dom t) (stmts d) in
              let row := s <| se_ID := id |> <| se_ConnectedAt ::= sql_time |>
                           <| se_LastHeartbeat ::= sql_time |> <| se_EndedAt := None |>
                           <| se_DisconnectReason := None |> <| se_ErrorMessage := None |> in
              Ok (1%Z, id, d <| trader_sessions ::= <[id := row]> |>)
          end
      end
  end.

Definition session_Create_columns : list string :=
  ["trader_id"; "session_id"; "ws_connection_id"; "ip_address"; "connected_at"; "last_heartbeat"].

(** The generated id, which [Create] stores in its argument. *)
Definition session_Create (s : TraderSession) : Db (res Z) :=
  match sqlx_bind session_Create_columns session_Create_columns with
  | Some e => mret (Err (EWrap "failed to create trader session: " e ""))
  | None =>
      r ← exec (insert_session s);
      mret (match r with
            | Err e => Err (EWrap "failed to create trader session: " e "")
            | Ok result =>
                match LastInsertId result with
                | Err e => Err (EWrap "failed to get last insert id: " e "")
                | Ok id => Ok id
                end
            end)
  end.

Definition session_GetByID (id : Z) : Db (res (option TraderSession)) :=
  get_row "failed to get session by id: " (fun d => trader_sessions d !! id).

Definition session_GetBySessionID (sid : string) : Db (res (option TraderSession)) :=
  get_row "failed to get session by session id: "
    (fun d => find_row (fun r => same_text (se_SessionID r) sid) (trader_sessions d)).

(** ORDER BY CONNECTED_AT DESC; rows of the same time in the order of the map. *)
Definition newest_first (t : gmap Z TraderSession) (p : TraderSession -> bool) : list TraderSession :=
  sort_stable (fun a b => (se_ConnectedAt b <? se_ConnectedAt a)%Z)
    (filter (fun r => p r = true) (map_to_list t).*2).

Definition session_GetActiveByTraderID (traderID : Z) : Db (res (option TraderSession)) :=
  get_row "failed to get active session: "
    (fun d => head (newest_first (trader_sessions d)
                      (fun r => (se_TraderID r =? traderID)%Z && is_active r))).

Definition session_ListActive : Db (res (list TraderSession)) :=
  r ← query (fun d => newest_first (trader_sessions d) is_active);
  mret (match r with
        | Ok l => Ok l
        | Err e => Err (EWrap "failed to list active sessions: " e "")
        end).

(** WHERE SESSION_ID = ? AND ENDED_AT IS NULL *)
Definition active_session (sid : string) (r : TraderSession) : bool :=
  same_text (se_SessionID r) sid && is_active r.

Definition update_sessions (p : TraderSession -> bool) (f : TraderSession -> TraderSession)
    (d : database) : res (Z * Z * database) :=
  let '(n, t) := update_rows p f (trader_sessions d) in
  Ok (n, 0%Z, d <| trader_sessions := t |>).

Definition set_heartbeat (now : Z) (r : TraderSession) : TraderSession :=
  r <| se_LastHeartbeat := sql_time now |>.

Definition session_UpdateHeartbeat_in {M} `{!MRet M, !MBind M, !Sends M} (sid : string) : M (res unit) :=
  now ← send repo_now;
  r ← send (exec (update_sessions (active_session sid) (set_heartbeat now)));
  match r with
  | Err e => mret (Err (EWrap "failed to update heartbeat: " e ""))
  | Ok result =>
      match RowsAffected result with
      | Err e => mret (Err (EWrap "failed to get rows affected: " e ""))
      | Ok rows =>
          if (rows =? 0)%Z then
            s ← send (session_GetBySessionID sid);
            mret (match s with
                  | Err e => Err (EWrap "failed to verify heartbeat update state: " e "")
                  | Ok None => Err (ENew ("session not found: " +:+ sid))
                  | Ok (Some s) =>
                      if is_active s then Ok tt
                      else Err (ENew ("session already ended: " +:+ sid))
                  end)
          else mret (Ok tt)
      end
  end.

Definition session_UpdateHeartbeat (sid : string) : Db (res unit) :=
  Eval cbv beta delta [session_UpdateHeartbeat_in send sends_alone] in session_UpdateHeartbeat_in sid.

Definition set_ended (now : Z) (reason : string) (errorMsg : option string) (r : TraderSession)
    : TraderSession :=
  r <| se_EndedAt := Some (sql_time now) |> <| se_DisconnectReason := Some reason |>
    <| se_ErrorMessage := errorMsg |>.

Definition session_EndSession_in {M} `{!MRet M, !MBind M, !Sends M} (sid reason : string)
    (errorMsg : option string) : M (res unit) :=
  now ← send repo_now;
  r ← send (exec (update_sessions (active_session sid) (set_ended now reason errorMsg)));
  match r with
  | Err e => mret (Err (EWrap "failed to end session: " e ""))
  | Ok result =>
      match RowsAffected result with
      | Err e => mret (Err (EWrap "failed to get rows affected: " e ""))
      | Ok rows =>
          if (rows =? 0)%Z then
            s ← send (session_GetBySessionID sid);
            mret (match s with
                  | Err e => Err (EWrap "failed to verify session end state: " e "")
                  | Ok None => Err (ENew ("session not found: " +:+ sid))
                  | Ok (Some s) =>
                      if is_active s
                      then Err (ENew ("session not ended and no rows affected: " +:+ sid))
                      else Ok tt
                  end)
          else mret (Ok tt)
      end
  end.

Definition session_EndSession (sid reason : string) (errorMsg : option string) : Db (res unit) :=
  Eval cbv beta delta [session_EndSession_in send sends_alone] in
  session_EndSession_in sid reason errorMsg.

(** [NOW()] is the clock of the server. *)
Definition session_CleanupOldSessions (retentionDays : Z) : Db (res Z) :=
  r ← exec (fun d =>
        let old := fun r =>
          match se_EndedAt r with
          | Some t => (t <? server_now (stmts d) - retentionDays * 24 * Hour)%Z
          | None => false
          end in
        let '(n, t) := delete_rows old (trader_sessions d) in
        Ok (n, 0%Z, d <| trader_sessions := t |>));
  mret (match r with
        | Err e => Err (EWrap "failed to cleanup old sessions: " e "")
        | Ok result =>
            match RowsAffected result with
            | Err e => Err (EWrap "failed to get rows affected: " e "")
            | Ok rows => Ok rows
            end
        end).

(** ** trader.go *)

Definition trader_columns : list string :=
  ["ID"; "TRADER_NAME"; "CERTIFICATE_CN"; "REGION"; "STATUS"; "RELEASE_VERSION"; "MAX_TASKS";
   "DATE_CREATE"; "DATE_MODIFY"; "USER_CREATED"; "USER_MODIFY"; "NOTES"].

Definition trader_Create_params : list string :=
  ["trader_name"; "certificate_cn"; "region"; "status"; "max_tasks"; "date_create"; "date_modify";
   "user_created"; "user_modify"; "notes"].

Definition trader_of_cn (cn : string) (r : Trader) : bool := same_text (tr_CertificateCN r) cn.

(** INSERT INTO TRADER: CERTIFICATE_CN is unique. *)
Definition insert_trader (t : Trader) (d : database) : res (Z * Z * database) :=
  match find_row (trader_of_cn (tr_CertificateCN t)) (traders d) with
  | Some _ => Err (server_error er_dup_entry)
  | None =>
      let id := auto_id (dom (traders d)) (stmts d) in
      let row := t <| tr_ID := id |> <| tr_DateCreate ::= sql_time |>
                   <| tr_DateModify ::= sql_time |> <| tr_ReleaseVersion := None |> in
      Ok (1%Z, id, d <| traders ::= <[id := row]> |>)
  end.

Definition trader_Create (t : Trader) : Db (res Z) :=
  match sqlx_bind trader_Create_params trader_columns with
  | Some e => mret (Err (EWrap "failed to create trader: " e ""))
  | None =>
      r ← exec (insert_trader t);
      mret (match r with
            | Err e => Err (EWrap "failed to create trader: " e "")
            | Ok result =>
                match LastInsertId result with
                | Err e => Err (EWrap "failed to get last insert id: " e "")
                | Ok id => Ok id
                end
            end)
  end.

Definition trader_GetByID (id : Z) : Db (res (option Trader)) :=
  get_row "failed to get trader by id: " (fun d => traders d !! id).

Definition trader_GetByCertificateCN (cn : string) : Db (res (option Trader)) :=
  get_row "failed to get trader by certificate CN: "
    (fun d => find_row (trader_of_cn cn) (traders d)).

(** INSERT ... ON DUPLICATE KEY UPDATE ID = LAST_INSERT_ID(ID), DATE_MODIFY =
    DATE_MODIFY: one affected row and a new id, or no affected row, for a row that
    keeps its values, and its id. *)
Definition insert_or_touch_trader (t : Trader) (d : database) : res (Z * Z * database) :=
  match find_row (trader_of_cn (tr_CertificateCN t)) (traders d) with
  | Some r => Ok (0%Z, tr_ID r, d)
  | None => insert_trader t d
  end.

Definition pending_trader (cn : string) (now : Z) : Trader :=
  {| tr_ID := 0; tr_TraderName := cn; tr_CertificateCN := cn; tr_Region := Some "unknown";
     tr_Status := TraderStatusPending; tr_ReleaseVersion := None; tr_MaxTasks := 0;
     tr_DateCreate := now; tr_DateModify := now; tr_UserCreated := None; tr_UserModify := None;
     tr_Notes := None |}.

(** The trader and whether it was created. *)
Definition trader_GetOrCreateByCertificateCN_in {M} `{!MRet M, !MBind M, !Sends M} (cn : string)
    : M (res (Trader * bool)) :=
  let cn := TrimSpace cn in
  if str_empty cn then mret (Err (ENew "certificate CN is required"))
  else
    now ← send repo_now;
    r ← send (exec (insert_or_touch_trader (pending_trader cn now)));
    match r with
    | Err e => mret (Err (EWrap "failed to get-or-create trader by certificate CN: " e ""))
    | Ok result =>
        match RowsAffected result with
        | Err e => mret (Err (EWrap "failed to read rows affected after get-or-create: " e ""))
        | Ok rowsAffected =>
            let created := (rowsAffected =? 1)%Z in
            match LastInsertId result with
            | Err e => mret (Err (EWrap "failed to read trader id after get-or-create: " e ""))
            | Ok id =>
                trader ← send (trader_GetByID id);
                mret (match trader with
                      | Err e => Err e
                      | Ok None =>
                          Err (ENew ("trader id not found after get-or-create: id=" +:+ Itoa id))
                      | Ok (Some t) => Ok (t, created)
                      end)
            end
        end
    end.

Definition trader_GetOrCreateByCertificateCN (cn : string) : Db (res (Trader * bool)) :=
  Eval cbv beta delta [trader_GetOrCreateByCertificateCN_in send sends_alone] in
  trader_GetOrCreateByCertificateCN_in cn.

(** ORDER BY ID *)
Definition trader_List (status : option string) : Db (res (list Trader)) :=
  r ← query (fun d =>
        sort_stable (fun a b => (tr_ID a <? tr_ID b)%Z)
          (filter (fun r => match status with
                            | Some s => same_text (tr_Status r) s
                            | None => true
                            end = true) (map_to_list (traders d)).*2));
  mret (match r with
        | Ok l => Ok l
        | Err e => Err (EWrap "failed to list traders: " e "")
        end).

Definition update_traders (p : Trader -> bool) (f : Trader -> Trader) (d : database)
    : res (Z * Z * database) :=
  let '(n, t) := update_rows p f (traders d) in
  Ok (n, 0%Z, d <| traders := t |>).

Definition trader_has_id (id : Z) (r : Trader) : bool := (tr_ID r =? id)%Z.

Definition trader_not_found (id : Z) : string := "trader not found: id=" +:+ Itoa id.

Definition trader_Update_params : list string :=
  ["trader_name"; "certificate_cn"; "region"; "status"; "max_tasks"; "date_modify"; "user_modify";
   "notes"; "id"].

(** The columns [Update] sets, and the unique CERTIFICATE_CN. *)
Definition update_trader_row (t : Trader) (d : database) : res (Z * Z * database) :=
  match find_row (fun r => trader_of_cn (tr_CertificateCN t) r && negb (trader_has_id (tr_ID t) r))
          (traders d), traders d !! tr_ID t with
  | Some _, Some _ => Err (server_error er_dup_entry)
  | _, _ =>
      update_traders (trader_has_id (tr_ID t)) (fun r =>
        r <| tr_TraderName := tr_TraderName t |> <| tr_CertificateCN := tr_CertificateCN t |>
          <| tr_Region := tr_Region t |> <| tr_Status := tr_Status t |>
          <| tr_MaxTasks := tr_MaxTasks t |> <| tr_DateModify := sql_time (tr_DateModify t) |>
          <| tr_UserModify := tr_UserModify t |> <| tr_Notes := tr_Notes t |>) d
  end.

Definition trader_Update (t : Trader) : Db (res unit) :=
  now ← repo_now;
  let t := t <| tr_DateModify := now |> in
  match sqlx_bind trader_Update_params trader_columns with
  | Some e => mret (Err (EWrap "failed to update trader: " e ""))
  | None =>
      r ← exec (update_trader_row t);
      mret (affected_or "failed to update trader: " (trader_not_found (tr_ID t)) r)
  end.

Definition trader_UpdateStatus (id : Z) (status : string) : Db (res unit) :=
  now ← repo_now;
  r ← exec (update_traders (trader_has_id id) (fun r =>
        r <| tr_Status := status |> <| tr_DateModify := sql_time now |>));
  mret (affected_or "failed to update trader status: " (trader_not_found id) r).

Definition set_release (release : string) (now : Z) (r : Trader) : Trader :=
  r <| tr_ReleaseVersion := if str_empty release then None else Some release |>
    <| tr_DateModify := sql_time now |>.

Definition trader_UpdateRelease_in {M} `{!MRet M, !MBind M, !Sends M} (id : Z) (release : string)
    : M (res unit) :=
  let release := TrimSpace release in
  now ← send repo_now;
  r ← send (exec (update_traders (trader_has_id id) (set_release release now)));
  mret (affected_or "failed to update trader release: " (trader_not_found id) r).

Definition trader_UpdateRelease (id : Z) (release : string) : Db (res unit) :=
  Eval cbv beta delta [trader_UpdateRelease_in send sends_alone] in
  trader_UpdateRelease_in id release.

Definition trader_Delete (id : Z) : Db (res unit) :=
  trader_UpdateStatus id TraderStatusDecommissioned.
End tables.
