(* ===== verification/Repositories.v ===== *)
(** * The other repositories (internal/db/repository/)

    trader_resource.go, exchange_requirements.go, scheduler_task.go, audit_log.go,
    arbitrage_order.go, reencryption_job.go and reencryption_progress.go over the
    tables of Tables.v. *)

From S2P Require Import Prelude GoFloat StateM Models Tables.

Record ExchangeInfo := { ei_ExchangeID : Z; ei_ExchangeName : string }.

Record AuditLogFilters := {
  fl_UID : option Z;
  fl_Action : option string;
  fl_ResourceType : option string;
  fl_ResourceID : option string;
  fl_Success : option bool;
  fl_FromDate : option string;
  fl_ToDate : option string
}.

(** More of the server: whether a row of another table is there, by table and key; the
    text a DECIMAL column keeps of a text or of a float, its value in units of its
    last digit and the text of a value; the units of one; the time of a text; the
    complaint about the numbers of LIMIT and OFFSET; and the rows the queries over the
    trading tables find, by the number of the statement. *)
Class ReposEnv := {
  refers : string -> Z -> bool;
  decimal_kept : string -> string;
  decimal_of_float : f64 -> string;
  decimal_units : string -> Z;
  decimal_text : Z -> string;
  decimal_one : Z;
  sql_time_of : string -> Z;
  limit_error : Z -> Z -> option go_error;
  trade_exchanges : nat -> list ExchangeInfo;
  monitor_exchanges : nat -> list ExchangeInfo
}.

Definition er_bad_field : Z := 1054.

Section repositories.
Context `{!SqlEnv, !ReposEnv}.

Abbreviation Db := (st database).

(** *** Common shapes *)

(** [NamedExecContext]: the names of the query are looked up in the argument first. *)
Definition named_exec (names columns : list string) (f : database -> res (Z * Z * database))
    : Db (res sql_result) :=
  match sqlx_bind names columns with
  | Some e => mret (Err e)
  | None => exec f
  end.

(** The end of a Create method. *)
Definition inserted_id (what : string) (r : res sql_result) : res Z :=
  match r with
  | Err e => Err (EWrap what e "")
  | Ok result =>
      match LastInsertId result with
      | Err e => Err (EWrap "failed to get last insert id: " e "")
      | Ok id => Ok id
      end
  end.

(** The end of a cleanup method. *)
Definition affected_rows (what : string) (r : res sql_result) : res Z :=
  match r with
  | Err e => Err (EWrap what e "")
  | Ok result =>
      match RowsAffected result with
      | Err e => Err (EWrap "failed to get rows affected: " e "")
      | Ok rows => Ok rows
      end
  end.

(** A SELECT of a list. *)
Definition get_rows {A} (what : string) (f : database -> list A) : Db (res (list A)) :=
  r ← query f;
  mret (match r with Ok l => Ok l | Err e => Err (EWrap what e "") end).

Definition rows_where {A} (p : A -> bool) (t : gmap Z A) : list A :=
  filter (fun r => p r = true) (map_to_list t).*2.

(** An UPDATE of one of the tables. *)
Definition update_table {A} `{EqDecision A} (get : more_tables -> gmap Z A)
    (set : gmap Z A -> more_tables -> more_tables) (p : A -> bool) (f : A -> A) (d : database)
    : res (Z * Z * database) :=
  let '(n, t) := update_rows p f (get (more d)) in Ok (n, 0%Z, d <| more ::= set t |>).

Definition set_tasks (t : gmap Z SchedulerTask) (m : more_tables) : more_tables :=
  m <| scheduler_tasks := t |>.
Definition set_resources (t : gmap Z TraderExchangeResource) (m : more_tables) : more_tables :=
  m <| trader_resources := t |>.
Definition set_orders (t : gmap Z ArbitrageOrder) (m : more_tables) : more_tables :=
  m <| arbitrage_orders := t |>.
Definition set_jobs (t : gmap Z ReencryptionJob) (m : more_tables) : more_tables :=
  m <| reencryption_jobs := t |>.
Definition set_records (t : gmap Z ReencryptionProgress) (m : more_tables) : more_tables :=
  m <| reencryption_records := t |>.

(** A statement that names a column the table does not have. *)
Definition unknown_column : database -> res (Z * Z * database) := fun _ => Err (server_error er_bad_field).

(** *** scheduler_task.go *)

Definition task_columns : list string :=
  ["ID"; "TASK_NAME"; "TASK_TYPE"; "SCHEDULE_CRON"; "SCHEDULE_INTERVAL_SEC"; "ENABLED"; "STATUS";
   "LAST_RUN_AT"; "LAST_RUN_DURATION_MS"; "LAST_RUN_STATUS"; "LAST_ERROR"; "NEXT_RUN_AT"; "RUN_COUNT";
   "ERROR_COUNT"; "CONFIG"; "DATE_CREATE"; "DATE_MODIFY"; "USER_CREATED"; "USER_MODIFY"].

Definition task_Create_params : list string :=
  ["task_name"; "task_type"; "schedule_cron"; "schedule_interval_sec"; "enabled"; "status"; "config";
   "date_create"; "date_modify"; "user_created"; "user_modify"].

Definition user_known (u : option Z) : bool :=
  match u with Some id => refers "USER" id | None => true end.

(** TASK_NAME is unique; the users are those of USER. *)
Definition insert_task (t : SchedulerTask) (d : database) : res (Z * Z * database) :=
  let tasks := scheduler_tasks (more d) in
  match find_row (fun r => same_text (tk_TaskName r) (tk_TaskName t)) tasks with
  | Some _ => Err (server_error er_dup_entry)
  | None =>
      if negb (user_known (tk_UserCreated t) && user_known (tk_UserModify t))
      then Err (server_error er_no_referenced_row)
      else
        let id := auto_id (dom tasks) (stmts d) in
        let row := t <| tk_ID := id |> <| tk_DateCreate ::= sql_time |> <| tk_DateModify ::= sql_time |>
                     <| tk_LastRunAt := None |> <| tk_LastRunDurationMS := None |>
                     <| tk_LastRunStatus := None |> <| tk_LastError := None |>
                     <| tk_NextRunAt := None |> <| tk_RunCount := 0%Z |> <| tk_ErrorCount := 0%Z |> in
        Ok (1%Z, id, d <| more ::= set_tasks (<[id := row]> tasks) |>)
  end.

Definition task_Create (t : SchedulerTask) : Db (res Z) :=
  r ← named_exec task_Create_params task_columns (insert_task t);
  mret (inserted_id "failed to create scheduler task: " r).

Definition task_GetByID (id : Z) : Db (res (option SchedulerTask)) :=
  get_row "failed to get scheduler task by id: " (fun d => scheduler_tasks (more d) !! id).

Definition task_GetByName (name : string) : Db (res (option SchedulerTask)) :=
  get_row "failed to get scheduler task by name: "
    (fun d => find_row (fun r => same_text (tk_TaskName r) name) (scheduler_tasks (more d))).

Definition task_List (enabled : option bool) : Db (res (list SchedulerTask)) :=
  get_rows "failed to list scheduler tasks: " (fun d =>
    sort_stable (fun a b => (tk_ID a <? tk_ID b)%Z)
      (rows_where (fun r => match enabled with
                            | Some e => Bool.eqb (tk_Enabled r) e
                            | None => true
                            end) (scheduler_tasks (more d)))).

(** WHERE ENABLED = TRUE AND STATUS != 'disabled' AND (NEXT_RUN_AT IS NULL OR ...) *)
Definition task_due (now : Z) (t : SchedulerTask) : bool :=
  tk_Enabled t && negb (same_text (tk_Status t) TaskStatusDisabled) &&
  match tk_NextRunAt t with Some at_ => (at_ <=? now)%Z | None => true end.

(** ORDER BY NEXT_RUN_AT: null comes first. *)
Definition earlier_run (a b : SchedulerTask) : bool :=
  match tk_NextRunAt a, tk_NextRunAt b with
  | None, Some _ => true
  | Some x, Some y => (x <? y)%Z
  | _, None => false
  end.

Definition task_GetDueTasks : Db (res (list SchedulerTask)) :=
  now ← repo_now;
  get_rows "failed to get due tasks: " (fun d =>
    sort_stable earlier_run (rows_where (task_due now) (scheduler_tasks (more d)))).

Definition task_has_id (id : Z) (t : SchedulerTask) : bool := (tk_ID t =? id)%Z.

Definition task_not_found (id : Z) : string := "scheduler task not found: id=" +:+ Itoa id.

Definition update_task (id : Z) (f : SchedulerTask -> SchedulerTask) (d : database)
    : res (Z * Z * database) :=
  update_table scheduler_tasks set_tasks (task_has_id id) f d.

Definition task_Update_params : list string :=
  ["task_type"; "schedule_cron"; "schedule_interval_sec"; "enabled"; "config"; "date_modify";
   "user_modify"; "id"].

Definition task_Update (t : SchedulerTask) : Db (res unit) :=
  now ← repo_now;
  r ← named_exec task_Update_params task_columns (fun d =>
        if negb (user_known (tk_UserModify t)) && bool_decide (is_Some (scheduler_tasks (more d) !! tk_ID t))
        then Err (server_error er_no_referenced_row)
        else update_task (tk_ID t) (fun r =>
               r <| tk_TaskType := tk_TaskType t |> <| tk_ScheduleCron := tk_ScheduleCron t |>
                 <| tk_ScheduleIntervalSec := tk_ScheduleIntervalSec t |> <| tk_Enabled := tk_Enabled t |>
                 <| tk_Config := tk_Config t |> <| tk_DateModify := sql_time now |>
                 <| tk_UserModify := tk_UserModify t |>) d);
  mret (affected_or "failed to update scheduler task: " (task_not_found (tk_ID t)) r).

Definition task_UpdateStatus (id : Z) (status : string) : Db (res unit) :=
  now ← repo_now;
  r ← exec (update_task id (fun r => r <| tk_Status := status |> <| tk_DateModify := sql_time now |>));
  mret (affected_or "failed to update scheduler task status: " (task_not_found id) r).

Definition record_execution (ran durationMS : Z) (status : string) (errorMsg : option string) (modified : Z)
    (r : SchedulerTask) : SchedulerTask :=
  let failed := same_text status TaskRunStatusError in
  r <| tk_LastRunAt := Some (sql_time ran) |> <| tk_LastRunDurationMS := Some durationMS |>
    <| tk_LastRunStatus := Some status |> <| tk_LastError := errorMsg |>
    <| tk_RunCount ::= Z.succ |> <| tk_ErrorCount ::= Z.add (if failed then 1 else 0) |>
    <| tk_Status := if failed then TaskStatusFailed else TaskStatusIdle |>
    <| tk_DateModify := sql_time modified |>.

Definition task_RecordExecution (id durationMS : Z) (status : string) (errorMsg : option string)
    : Db (res unit) :=
  ran ← repo_now;
  modified ← repo_now;
  r ← exec (update_task id (record_execution ran durationMS status errorMsg modified));
  mret (affected_or "failed to record scheduler task execution: " (task_not_found id) r).

Definition task_UpdateNextRun (id : Z) : Db (res unit) :=
  now ← repo_now;
  r ← exec (update_task id (fun r => r <| tk_NextRunAt := None |> <| tk_DateModify := sql_time now |>));
  mret (affected_or "failed to update next run: " (task_not_found id) r).

Definition task_Delete (id : Z) : Db (res unit) :=
  r ← exec (fun d =>
        let '(n, t) := delete_rows (task_has_id id) (scheduler_tasks (more d)) in
        Ok (n, 0%Z, d <| more ::= set_tasks t |>));
  mret (affected_or "failed to delete scheduler task: " (task_not_found id) r).

(** *** trader_resource.go *)

Definition resource_columns : list string :=
  ["ID"; "TRADER_ID"; "EXCHANGE_ID"; "EXCHANGE_ACCOUNT_ID"; "RESOURCE_TYPE"; "USED_VALUE"; "MAX_VALUE";
   "LAST_UPDATED"; "RESET_AT"].

Definition resource_Upsert_params : list string :=
  ["TRADER_ID"; "EXCHANGE_ID"; "EXCHANGE_ACCOUNT_ID"; "RESOURCE_TYPE"; "USED_VALUE"; "MAX_VALUE";
   "LAST_UPDATED"; "RESET_AT"].

(** The unique key (TRADER_ID, EXCHANGE_ID, IFNULL(EXCHANGE_ACCOUNT_ID, 0), RESOURCE_TYPE). *)
Definition same_resource (a b : TraderExchangeResource) : bool :=
  (rs_TraderID a =? rs_TraderID b)%Z && (rs_ExchangeID a =? rs_ExchangeID b)%Z &&
  (default 0%Z (rs_ExchangeAccountID a) =? default 0%Z (rs_ExchangeAccountID b))%Z &&
  same_text (rs_ResourceType a) (rs_ResourceType b).

Definition resource_references (d : database) (r : TraderExchangeResource) : bool :=
  bool_decide (is_Some (traders d !! rs_TraderID r)) && refers "EXCHANGE" (rs_ExchangeID r) &&
  match rs_ExchangeAccountID r with Some id => refers "EXCHANGE_ACCOUNTS" id | None => true end.

(** INSERT ... ON DUPLICATE KEY UPDATE: one affected row for a new one, two for one
    that changes, none for one that does not. *)
Definition upsert_resource (r : TraderExchangeResource) (d : database) : res (Z * Z * database) :=
  let t := trader_resources (more d) in
  match find_row (same_resource r) t with
  | Some old =>
      let row := old <| rs_UsedValue := decimal_kept (rs_UsedValue r) |>
                     <| rs_MaxValue := decimal_kept (rs_MaxValue r) |>
                     <| rs_LastUpdated := sql_time (rs_LastUpdated r) |>
                     <| rs_ResetAt := sql_time (rs_ResetAt r) |> in
      Ok (if bool_decide (row = old) then 0%Z else 2%Z, rs_ID old,
          d <| more ::= set_resources (<[rs_ID old := row]> t) |>)
  | None =>
      if negb (resource_references d r) then Err (server_error er_no_referenced_row)
      else
        let id := auto_id (dom t) (stmts d) in
        let row := r <| rs_ID := id |> <| rs_UsedValue := decimal_kept (rs_UsedValue r) |>
                     <| rs_MaxValue := decimal_kept (rs_MaxValue r) |>
                     <| rs_LastUpdated ::= sql_time |> <| rs_ResetAt ::= sql_time |> in
        Ok (1%Z, id, d <| more ::= set_resources (<[id := row]> t) |>)
  end.

(** The ID of the argument afterwards; an error of [LastInsertId] is ignored, and the
    driver then gives 0. *)
Definition resource_Upsert (r : TraderExchangeResource) : Db (res Z) :=
  x ← named_exec resource_Upsert_params resource_columns (upsert_resource r);
  mret (match x with
        | Err e => Err (EWrap "failed to upsert trader resource: " e "")
        | Ok result =>
            Ok (if (rs_ID r =? 0)%Z
                then match LastInsertId result with Ok id => id | Err _ => 0%Z end
                else rs_ID r)
        end).

Definition resource_GetByTraderAndExchange (traderID exchangeID : Z) (accountID : option Z)
    : Db (res (list TraderExchangeResource)) :=
  get_rows "failed to get trader resources: " (fun d =>
    rows_where (fun r => (rs_TraderID r =? traderID)%Z && (rs_ExchangeID r =? exchangeID)%Z &&
                         bool_decide (rs_ExchangeAccountID r = accountID)) (trader_resources (more d))).

Definition resource_has_id (id : Z) (r : TraderExchangeResource) : bool := (rs_ID r =? id)%Z.

Definition resource_not_found (id : Z) : string := "trader resource not found: " +:+ Itoa id.

(** NOW() is the clock of the server. *)
Definition resource_IncrementUsage (id increment : Z) : Db (res unit) :=
  x ← exec (fun d => update_table trader_resources set_resources (resource_has_id id) (fun r =>
        r <| rs_UsedValue ::= fun v => decimal_text (decimal_units v + increment * decimal_one) |>
          <| rs_LastUpdated := sql_time (server_now (stmts d)) |>) d);
  mret (affected_or "failed to increment resource usage: " (resource_not_found id) x).

Definition resource_ResetUsage (id : Z) : Db (res unit) :=
  x ← exec (fun d => update_table trader_resources set_resources (resource_has_id id) (fun r =>
        r <| rs_UsedValue := decimal_text 0 |> <| rs_LastUpdated := sql_time (server_now (stmts d)) |>) d);
  mret (affected_or "failed to reset resource usage: " (resource_not_found id) x).

(** MAX_VALUE - USED_VALUE *)
Definition available_units (r : TraderExchangeResource) : Z :=
  (decimal_units (rs_MaxValue r) - decimal_units (rs_UsedValue r))%Z.

Definition resource_GetAvailable (exchangeID : Z) (resourceType : string) (minAvailable : Z)
    : Db (res (list TraderExchangeResource)) :=
  get_rows "failed to get available resources: " (fun d =>
    sort_stable (fun a b => (available_units b <? available_units a)%Z)
      (rows_where (fun r => (rs_ExchangeID r =? exchangeID)%Z && same_text (rs_ResourceType r) resourceType &&
                            (minAvailable * decimal_one <=? available_units r)%Z &&
                            (server_now (stmts d) <? rs_ResetAt r)%Z) (trader_resources (more d)))).

(** *** exchange_requirements.go *)

Definition ListTradeExchanges : Db (res (list ExchangeInfo)) :=
  get_rows "failed to list trade exchanges: " (fun d => trade_exchanges (stmts d)).

Definition ListMonitorExchanges : Db (res (list ExchangeInfo)) :=
  get_rows "failed to list monitor exchanges: " (fun d => monitor_exchanges (stmts d)).

(** *** audit_log.go *)

Definition audit_columns : list string :=
  ["ID"; "TIMESTAMP"; "UID"; "ACTION"; "RESOURCE_TYPE"; "RESOURCE_ID"; "OLD_VALUE"; "NEW_VALUE";
   "IP_ADDRESS"; "USER_AGENT"; "SUCCESS"; "ERROR_MESSAGE"].

Definition audit_Create_params : list string :=
  ["timestamp"; "uid"; "action"; "resource_type"; "resource_id"; "old_value"; "new_value"; "ip_address";
   "user_agent"; "success"; "error_message"].

Definition insert_audit (a : AuditLog) (d : database) : res (Z * Z * database) :=
  if negb (user_known (au_UID a)) then Err (server_error er_no_referenced_row)
  else
    let id := auto_id (dom (audit_logs (more d))) (stmts d) in
    Ok (1%Z, id, d <| more ::= fun m =>
      m <| audit_logs ::= <[id := a <| au_ID := id |> <| au_Timestamp ::= sql_time |>]> |> |>).

Definition audit_Create (a : AuditLog) : Db (res Z) :=
  t ← (if time_is_zero (au_Timestamp a) then repo_now else mret (au_Timestamp a));
  r ← named_exec audit_Create_params audit_columns (insert_audit (a <| au_Timestamp := t |>));
  mret (inserted_id "failed to create audit log: " r).

(** A condition that is added when the filter is set. *)
Definition when_set {A} (f : option A) (p : A -> bool) : bool :=
  match f with Some v => p v | None => true end.

Definition audit_matches (f : AuditLogFilters) (a : AuditLog) : bool :=
  when_set (fl_UID f) (fun u => bool_decide (au_UID a = Some u)) &&
  when_set (fl_Action f) (same_text (au_Action a)) &&
  when_set (fl_ResourceType f) (fun v => match au_ResourceType a with Some t => same_text t v | None => false end) &&
  when_set (fl_ResourceID f) (fun v => match au_ResourceID a with Some t => same_text t v | None => false end) &&
  when_set (fl_Success f) (Bool.eqb (au_Success a)) &&
  when_set (fl_FromDate f) (fun v => (sql_time_of v <=? au_Timestamp a)%Z) &&
  when_set (fl_ToDate f) (fun v => (au_Timestamp a <=? sql_time_of v)%Z).

(** ORDER BY TIMESTAMP DESC LIMIT ? OFFSET ? *)
Definition audit_List (f : AuditLogFilters) (limit offset : Z) : Db (res (list AuditLog)) :=
  match limit_error limit offset with
  | Some e => r ← query (fun _ => tt);
              mret (Err (EWrap "failed to list audit logs: " (match r with Err e' => e' | Ok _ => e end) ""))
  | None =>
      get_rows "failed to list audit logs: " (fun d =>
        take (Z.to_nat limit) (drop (Z.to_nat offset)
          (sort_stable (fun a b => (au_Timestamp b <? au_Timestamp a)%Z)
             (rows_where (audit_matches f) (audit_logs (more d))))))
  end.

Definition audit_Count (f : AuditLogFilters) : Db (res Z) :=
  r ← query (fun d => Z.of_nat (length (rows_where (audit_matches f) (audit_logs (more d)))));
  mret (match r with Ok n => Ok n | Err e => Err (EWrap "failed to count audit logs: " e "") end).

Definition audit_CleanupOld (retentionDays : Z) : Db (res Z) :=
  r ← exec (fun d =>
        let '(n, t) := delete_rows (fun a =>
          (au_Timestamp a <? server_now (stmts d) - retentionDays * 24 * Hour)%Z) (audit_logs (more d)) in
        Ok (n, 0%Z, d <| more ::= fun m => m <| audit_logs := t |> |>));
  mret (affected_rows "failed to cleanup old audit logs: " r).

(** [buildWhereClause]: its text and the number of its arguments. *)
Definition conditions (f : AuditLogFilters) : list string :=
  let c {A} (o : option A) (text : string) := match o with Some _ => [text] | None => [] end in
  c (fl_UID f) "UID = ?" ++ c (fl_Action f) "ACTION = ?" ++ c (fl_ResourceType f) "RESOURCE_TYPE = ?" ++
  c (fl_ResourceID f) "RESOURCE_ID = ?" ++ c (fl_Success f) "SUCCESS = ?" ++
  c (fl_FromDate f) "TIMESTAMP >= ?" ++ c (fl_ToDate f) "TIMESTAMP <= ?".

Definition buildWhereClause (f : AuditLogFilters) : string * nat :=
  match conditions f with
  | [] => ("", 0%nat)
  | cs => (" WHERE " +:+ String.concat " AND " cs, length cs)
  end.

(** *** arbitrage_order.go *)

Definition order_columns : list string :=
  ["ID"; "ARBITRAGE_TRANS_ID"; "EXCHANGE_ID"; "EXCHANGE_ACCOUNT_ID"; "EXCHANGE_ORDER_ID"; "TRADER_ID";
   "SIDE"; "ORDER_TYPE"; "PAIR_ID"; "REQUESTED_QUANTITY"; "FILLED_QUANTITY"; "AVG_PRICE"; "TOTAL_COST";
   "TOTAL_FEE"; "FEE_CURRENCY"; "STATUS"; "ERROR_MESSAGE"; "DATE_CREATE"; "FILLED_AT"].

Definition order_Create_params : list string :=
  ["ARBITRAGE_TRANS_ID"; "EXCHANGE_ID"; "EXCHANGE_ACCOUNT_ID"; "EXCHANGE_ORDER_ID"; "TRADER_ID";
   "SIDE"; "ORDER_TYPE"; "PAIR_ID"; "REQUESTED_QUANTITY"; "FILLED_QUANTITY"; "AVG_PRICE"; "TOTAL_COST";
   "TOTAL_FEE"; "FEE_CURRENCY"; "STATUS"; "ERROR_MESSAGE"; "DATE_CREATE"].

Definition order_references (d : database) (o : ArbitrageOrder) : bool :=
  refers "ARBITRAGE_TRANS" (ao_ArbitrageTransID o) && refers "EXCHANGE" (ao_ExchangeID o) &&
  refers "EXCHANGE_ACCOUNTS" (ao_ExchangeAccountID o) && refers "TRADE_PAIR" (ao_PairID o) &&
  bool_decide (is_Some (traders d !! ao_TraderID o)).

(** (ARBITRAGE_TRANS_ID, EXCHANGE_ORDER_ID) is unique. *)
Definition insert_order (o : ArbitrageOrder) (d : database) : res (Z * Z * database) :=
  let t := arbitrage_orders (more d) in
  match find_row (fun r => (ao_ArbitrageTransID r =? ao_ArbitrageTransID o)%Z &&
                           same_text (ao_ExchangeOrderID r) (ao_ExchangeOrderID o)) t with
  | Some _ => Err (server_error er_dup_entry)
  | None =>
      if negb (order_references d o) then Err (server_error er_no_referenced_row)
      else
        let id := auto_id (dom t) (stmts d) in
        let row := o <| ao_ID := id |> <| ao_RequestedQuantity ::= decimal_kept |>
                     <| ao_FilledQuantity ::= decimal_kept |> <| ao_AvgPrice ::= fmap decimal_kept |>
                     <| ao_TotalCost ::= fmap decimal_kept |> <| ao_TotalFee ::= decimal_kept |>
                     <| ao_DateCreate ::= sql_time |> <| ao_FilledAt := None |> in
        Ok (1%Z, id, d <| more ::= set_orders (<[id := row]> t) |>)
  end.

Definition order_Create (o : ArbitrageOrder) : Db (res Z) :=
  r ← named_exec order_Create_params order_columns (insert_order o);
  mret (inserted_id "failed to create arbitrage order: " r).

Definition order_GetByID (id : Z) : Db (res (option ArbitrageOrder)) :=
  get_row "failed to get arbitrage order: " (fun d => arbitrage_orders (more d) !! id).

Definition order_GetByExchangeOrderID (exchangeID : Z) (exchangeOrderID : string)
    : Db (res (option ArbitrageOrder)) :=
  get_row "failed to get arbitrage order by exchange order id: " (fun d =>
    find_row (fun r => (ao_ExchangeID r =? exchangeID)%Z && same_text (ao_ExchangeOrderID r) exchangeOrderID)
      (arbitrage_orders (more d))).

Definition order_ListByArbitrageTransID (transID : Z) : Db (res (list ArbitrageOrder)) :=
  get_rows "failed to list arbitrage orders: " (fun d =>
    sort_stable (fun a b => (ao_ID a <? ao_ID b)%Z)
      (rows_where (fun r => (ao_ArbitrageTransID r =? transID)%Z) (arbitrage_orders (more d)))).

(** COALESCE(?, column) for a float argument and a text column. *)
Definition coalesce_decimal (v : option f64) (old : string) : string :=
  match v with Some x => decimal_of_float x | None => old end.

Definition update_order_status (status : string) (filledQty avgPrice totalFee : option f64)
    (feeCurrency : option string) (o : ArbitrageOrder) : ArbitrageOrder :=
  o <| ao_Status := status |> <| ao_FilledQuantity ::= coalesce_decimal filledQty |>
    <| ao_AvgPrice ::= fun old => match avgPrice with Some x => Some (decimal_of_float x) | None => old end |>
    <| ao_TotalFee ::= coalesce_decimal totalFee |>
    <| ao_FeeCurrency ::= fun old => match feeCurrency with Some c => Some c | None => old end |>.

Definition order_UpdateStatus (id : Z) (status : string) (filledQty avgPrice totalFee : option f64)
    (feeCurrency : option string) : Db (res unit) :=
  r ← exec (update_table arbitrage_orders set_orders (fun o => (ao_ID o =? id)%Z)
        (update_order_status status filledQty avgPrice totalFee feeCurrency));
  mret (affected_or "failed to update arbitrage order status: " ("arbitrage order not found: " +:+ Itoa id) r).

Definition fill_columns : list string :=
  ["ID"; "ARBITRAGE_ORDER_ID"; "EXCHANGE_TRANSACTION_ID"; "QUANTITY"; "PRICE"; "COST"; "FEE"; "FEE_CURRENCY";
   "TIMESTAMP"; "DATE_CREATE"].

Definition order_AddFill_params : list string :=
  ["ORDER_ID"; "EXEC_QUANTITY"; "EXEC_PRICE"; "EXEC_COST"; "FEE_AMOUNT"; "FEE_CURRENCY"; "EXEC_TIMESTAMP"].

(** The statement names columns ARBITRAGE_ORDER_TRANS does not have. *)
Definition order_AddFill (fill : ArbitrageOrderTrans) : Db (res Z) :=
  r ← named_exec order_AddFill_params fill_columns unknown_column;
  mret (inserted_id "failed to add fill: " r).

Definition order_GetFills (orderID : Z) : Db (res (list ArbitrageOrderTrans)) :=
  r ← exec unknown_column;
  mret (match r with
        | Err e => Err (EWrap "failed to get fills: " e "")
        | Ok _ => Ok []
        end).

(** *** reencryption_job.go *)

Definition job_columns : list string :=
  ["ID"; "JOB_TYPE"; "OLD_KEY_VERSION"; "NEW_KEY_VERSION"; "CONTEXT"; "STATUS"; "TOTAL_RECORDS";
   "PROCESSED_RECORDS"; "FAILED_RECORDS"; "BATCH_SIZE"; "STARTED_AT"; "COMPLETED_AT"; "LAST_PROCESSED_AT";
   "ERROR_MESSAGE"; "DATE_CREATE"].

Definition job_Create_params : list string :=
  ["JOB_TYPE"; "OLD_KEY_VERSION"; "NEW_KEY_VERSION"; "CONTEXT"; "STATUS"; "TOTAL_RECORDS";
   "PROCESSED_RECORDS"; "FAILED_RECORDS"; "BATCH_SIZE"; "STARTED_AT"; "COMPLETED_AT"; "LAST_PROCESSED_AT";
   "LAST_ERROR"; "DATE_CREATE"; "USER_CREATED"].

(** LAST_ERROR and USER_CREATED are neither fields of the argument nor columns. *)
Definition job_Create (j : ReencryptionJob) : Db (res Z) :=
  r ← named_exec job_Create_params job_columns unknown_column;
  mret (inserted_id "failed to create reencryption job: " r).

Definition job_GetByID (id : Z) : Db (res (option ReencryptionJob)) :=
  get_row "failed to get reencryption job: " (fun d => reencryption_jobs (more d) !! id).

Definition job_ListPending : Db (res (list ReencryptionJob)) :=
  get_rows "failed to list pending jobs: " (fun d =>
    sort_stable (fun a b => (rj_ID a <? rj_ID b)%Z)
      (rows_where (fun j => same_text (rj_Status j) ReencryptionJobStatusPending ||
                            same_text (rj_Status j) ReencryptionJobStatusInProgress)
         (reencryption_jobs (more d)))).

Definition job_not_found (id : Z) : string := "reencryption job not found: " +:+ Itoa id.

Definition update_job (id : Z) (f : Z -> ReencryptionJob -> ReencryptionJob) (d : database)
    : res (Z * Z * database) :=
  update_table reencryption_jobs set_jobs (fun j => (rj_ID j =? id)%Z) (f (sql_time (server_now (stmts d)))) d.

Definition job_UpdateStatus (id : Z) (status : string) : Db (res unit) :=
  r ← exec (update_job id (fun now j =>
        j <| rj_Status := status |>
          <| rj_StartedAt ::= fun s =>
               if same_text status ReencryptionJobStatusInProgress && bool_decide (s = None)
               then Some now else s |>));
  mret (affected_or "failed to update job status: " (job_not_found id) r).

Definition job_UpdateProgress (id processed failed : Z) : Db (res unit) :=
  r ← exec (update_job id (fun now j =>
        j <| rj_ProcessedRecords ::= Z.add processed |> <| rj_FailedRecords ::= Z.add failed |>
          <| rj_LastProcessedAt := Some now |>));
  mret (affected_or "failed to update job progress: " (job_not_found id) r).

Definition job_Complete (id : Z) : Db (res unit) :=
  r ← exec (update_job id (fun now j =>
        j <| rj_Status := ReencryptionJobStatusCompleted |> <| rj_CompletedAt := Some now |>));
  mret (affected_or "failed to complete job: " (job_not_found id) r).

(** LAST_ERROR is not a column of REENCRYPTION_JOBS. *)
Definition job_Fail (id : Z) (errorMsg : string) : Db (res unit) :=
  r ← exec unknown_column;
  mret (affected_or "failed to mark job as failed: " (job_not_found id) r).

(** *** reencryption_progress.go *)

Definition same_record (a b : ReencryptionProgress) : bool :=
  (rp_JobID a =? rp_JobID b)%Z && same_text (rp_TableName a) (rp_TableName b) &&
  same_text (rp_RecordID a) (rp_RecordID b).

(** One INSERT of all rows: the first that fails undoes the statement. *)
Fixpoint insert_records (records : list ReencryptionProgress) (d : database) : res database :=
  match records with
  | [] => Ok d
  | r :: records =>
      let t := reencryption_records (more d) in
      match find_row (same_record r) t, reencryption_jobs (more d) !! rp_JobID r with
      | Some _, _ => Err (server_error er_dup_entry)
      | None, None => Err (server_error er_no_referenced_row)
      | None, Some _ =>
          let id := auto_id (dom t) (stmts d) in
          let row := r <| rp_ID := id |> <| rp_ProcessedAt ::= fmap sql_time |> <| rp_DateCreate ::= sql_time |> in
          insert_records records (d <| more ::= set_records (<[id := row]> t) |>)
      end
  end.

Definition insert_batch (records : list ReencryptionProgress) (d : database) : res (Z * Z * database) :=
  match insert_records records d with
  | Ok d' => Ok (Z.of_nat (length records), 0%Z, d')
  | Err e => Err e
  end.

Definition progress_CreateBatch (records : list ReencryptionProgress) : Db (res unit) :=
  match records with
  | [] => mret (Ok tt)
  | _ =>
      r ← exec (insert_batch records);
      mret (match r with
            | Err e => Err (EWrap "failed to create batch progress records: " e "")
            | Ok _ => Ok tt
            end)
  end.

(** LIMIT without ORDER BY: in the order of the map. *)
Definition progress_GetPendingBatch (jobID batchSize : Z) : Db (res (list ReencryptionProgress)) :=
  match limit_error batchSize 0 with
  | Some e => r ← query (fun _ => tt);
              mret (Err (EWrap "failed to get pending batch: " (match r with Err e' => e' | Ok _ => e end) ""))
  | None =>
      get_rows "failed to get pending batch: " (fun d =>
        take (Z.to_nat batchSize)
          (rows_where (fun r => (rp_JobID r =? jobID)%Z &&
                                same_text (rp_Status r) ReencryptionProgressStatusPending &&
                                (rp_AttemptCount r <? 3)%Z) (reencryption_records (more d))))
  end.

Definition progress_not_found (id : Z) : string := "reencryption progress not found: " +:+ Itoa id.

Definition update_record (id : Z) (f : Z -> ReencryptionProgress -> ReencryptionProgress) (d : database)
    : res (Z * Z * database) :=
  update_table reencryption_records set_records (fun r => (rp_ID r =? id)%Z)
    (f (sql_time (server_now (stmts d)))) d.

Definition progress_UpdateStatus (id : Z) (status : string) (errorMsg : option string) : Db (res unit) :=
  r ← exec (update_record id (fun now p =>
        p <| rp_Status := status |> <| rp_ErrorMessage := errorMsg |>
          <| rp_ProcessedAt ::= fun old =>
               if same_text status ReencryptionProgressStatusCompleted then Some now else old |>));
  mret (affected_or "failed to update progress status: " (progress_not_found id) r).

Definition progress_IncrementAttempts (id : Z) : Db (res unit) :=
  r ← exec (update_record id (fun _ p => p <| rp_AttemptCount ::= Z.succ |>));
  mret (affected_or "failed to increment attempts: " (progress_not_found id) r).

Definition progress_GetFailedRecords (jobID maxAttempts : Z) : Db (res (list ReencryptionProgress)) :=
  get_rows "failed to get failed records: " (fun d =>
    sort_stable (fun a b => (rp_ID a <? rp_ID b)%Z)
      (rows_where (fun r => (rp_JobID r =? jobID)%Z &&
                            same_text (rp_Status r) ReencryptionProgressStatusFailed &&
                            (rp_AttemptCount r <? maxAttempts)%Z) (reencryption_records (more d)))).
End repositories.
