(* ===== verification/Transactions.v ===== *)
(** * The repositories behind their interfaces (internal/db/repository/repository.go, interfaces.go)

    A record for each interface, with the implementations of Tables.v and Repositories.v,
    the [Repository] that holds them, and transactions.  BEGIN, COMMIT and ROLLBACK are
    statements too.  A rollback restores the tables; a transaction that is not
    committed because its connection broke is rolled back by the server. *)

From S2P Require Import Prelude GoFloat StateM Models Tables Repositories.

Section transactions.
Context `{!SqlEnv, !ReposEnv}.

Abbreviation Db := (st database).

(** ** Interfaces *)

Record TraderRepository := {
  Trader_Create : forall (t : Trader), Db (res Z);
  Trader_GetByID : forall (id : Z), Db (res (option Trader));
  Trader_GetByCertificateCN : forall (cn : string), Db (res (option Trader));
  Trader_GetOrCreateByCertificateCN : forall (cn : string), Db (res (Trader * bool));
  Trader_List : forall (status : option string), Db (res (list Trader));
  Trader_Update : forall (t : Trader), Db (res unit);
  Trader_UpdateStatus : forall (id : Z) (status : string), Db (res unit);
  Trader_UpdateRelease : forall (id : Z) (release : string), Db (res unit);
  Trader_Delete : forall (id : Z), Db (res unit)
}.

Record TraderSessionRepository := {
  TraderSession_Create : forall (s : TraderSession), Db (res Z);
  TraderSession_GetByID : forall (id : Z), Db (res (option TraderSession));
  TraderSession_GetBySessionID : forall (sid : string), Db (res (option TraderSession));
  TraderSession_GetActiveByTraderID : forall (traderID : Z), Db (res (option TraderSession));
  TraderSession_ListActive : Db (res (list TraderSession));
  TraderSession_UpdateHeartbeat : forall (sid : string), Db (res unit);
  TraderSession_EndSession : forall (sid reason : string) (errorMsg : option string), Db (res unit);
  TraderSession_CleanupOldSessions : forall (retentionDays : Z), Db (res Z)
}.

Record TraderResourceRepository := {
  TraderResource_Upsert : forall (r : TraderExchangeResource), Db (res Z);
  TraderResource_GetByTraderAndExchange : forall (traderID exchangeID : Z) (accountID : option Z), Db (res (list TraderExchangeResource));
  TraderResource_IncrementUsage : forall (id increment : Z), Db (res unit);
  TraderResource_ResetUsage : forall (id : Z), Db (res unit);
  TraderResource_GetAvailable : forall (exchangeID : Z) (resourceType : string) (minAvailable : Z), Db (res (list TraderExchangeResource))
}.

Record ArbitrageOrderRepository := {
  ArbitrageOrder_Create : forall (o : ArbitrageOrder), Db (res Z);
  ArbitrageOrder_GetByID : forall (id : Z), Db (res (option ArbitrageOrder));
  ArbitrageOrder_GetByExchangeOrderID : forall (exchangeID : Z) (exchangeOrderID : string), Db (res (option ArbitrageOrder));
  ArbitrageOrder_ListByArbitrageTransID : forall (transID : Z), Db (res (list ArbitrageOrder));
  ArbitrageOrder_UpdateStatus : forall (id : Z) (status : string) (filledQty avgPrice totalFee : option f64) (feeCurrency : option string), Db (res unit);
  ArbitrageOrder_AddFill : forall (fill : ArbitrageOrderTrans), Db (res Z);
  ArbitrageOrder_GetFills : forall (orderID : Z), Db (res (list ArbitrageOrderTrans))
}.

Record AuditLogRepository := {
  AuditLog_Create : forall (a : AuditLog), Db (res Z);
  AuditLog_List : forall (f : AuditLogFilters) (limit offset : Z), Db (res (list AuditLog));
  AuditLog_Count : forall (f : AuditLogFilters), Db (res Z);
  AuditLog_CleanupOld : forall (retentionDays : Z), Db (res Z)
}.

Record ReencryptionJobRepository := {
  ReencryptionJob_Create : forall (j : ReencryptionJob), Db (res Z);
  ReencryptionJob_GetByID : forall (id : Z), Db (res (option ReencryptionJob));
  ReencryptionJob_ListPending : Db (res (list ReencryptionJob));
  ReencryptionJob_UpdateStatus : forall (id : Z) (status : string), Db (res unit);
  ReencryptionJob_UpdateProgress : forall (id processed failed : Z), Db (res unit);
  ReencryptionJob_Complete : forall (id : Z), Db (res unit);
  ReencryptionJob_Fail : forall (id : Z) (errorMsg : string), Db (res unit)
}.

Record ReencryptionProgressRepository := {
  ReencryptionProgress_CreateBatch : forall (records : list ReencryptionProgress), Db (res unit);
  ReencryptionProgress_GetPendingBatch : forall (jobID batchSize : Z), Db (res (list ReencryptionProgress));
  ReencryptionProgress_UpdateStatus : forall (id : Z) (status : string) (errorMsg : option string), Db (res unit);
  ReencryptionProgress_IncrementAttempts : forall (id : Z), Db (res unit);
  ReencryptionProgress_GetFailedRecords : forall (jobID maxAttempts : Z), Db (res (list ReencryptionProgress))
}.

Record SchedulerTaskRepository := {
  SchedulerTask_Create : forall (t : SchedulerTask), Db (res Z);
  SchedulerTask_GetByID : forall (id : Z), Db (res (option SchedulerTask));
  SchedulerTask_GetByName : forall (name : string), Db (res (option SchedulerTask));
  SchedulerTask_List : forall (enabled : option bool), Db (res (list SchedulerTask));
  SchedulerTask_GetDueTasks : Db (res (list SchedulerTask));
  SchedulerTask_Update : forall (t : SchedulerTask), Db (res unit);
  SchedulerTask_UpdateStatus : forall (id : Z) (status : string), Db (res unit);
  SchedulerTask_RecordExecution : forall (id durationMS : Z) (status : string) (errorMsg : option string), Db (res unit);
  SchedulerTask_UpdateNextRun : forall (id : Z), Db (res unit);
  SchedulerTask_Delete : forall (id : Z), Db (res unit)
}.

Record ExchangeRequirementsRepository := {
  ExchangeRequirements_ListTradeExchanges : Db (res (list ExchangeInfo));
  ExchangeRequirements_ListMonitorExchanges : Db (res (list ExchangeInfo))
}.

(** ** Implementations

    The constructors only pick the connection the statements are sent on: the pool, or
    that of a transaction. *)

Definition NewTraderRepository : TraderRepository := {|
  Trader_Create := trader_Create;
  Trader_GetByID := trader_GetByID;
  Trader_GetByCertificateCN := trader_GetByCertificateCN;
  Trader_GetOrCreateByCertificateCN := trader_GetOrCreateByCertificateCN;
  Trader_List := trader_List;
  Trader_Update := trader_Update;
  Trader_UpdateStatus := trader_UpdateStatus;
  Trader_UpdateRelease := trader_UpdateRelease;
  Trader_Delete := trader_Delete
|}.

Definition NewTraderSessionRepository : TraderSessionRepository := {|
  TraderSession_Create := session_Create;
  TraderSession_GetByID := session_GetByID;
  TraderSession_GetBySessionID := session_GetBySessionID;
  TraderSession_GetActiveByTraderID := session_GetActiveByTraderID;
  TraderSession_ListActive := session_ListActive;
  TraderSession_UpdateHeartbeat := session_UpdateHeartbeat;
  TraderSession_EndSession := session_EndSession;
  TraderSession_CleanupOldSessions := session_CleanupOldSessions
|}.

Definition NewTraderResourceRepository : TraderResourceRepository := {|
  TraderResource_Upsert := resource_Upsert;
  TraderResource_GetByTraderAndExchange := resource_GetByTraderAndExchange;
  TraderResource_IncrementUsage := resource_IncrementUsage;
  TraderResource_ResetUsage := resource_ResetUsage;
  TraderResource_GetAvailable := resource_GetAvailable
|}.

Definition NewArbitrageOrderRepository : ArbitrageOrderRepository := {|
  ArbitrageOrder_Create := order_Create;
  ArbitrageOrder_GetByID := order_GetByID;
  ArbitrageOrder_GetByExchangeOrderID := order_GetByExchangeOrderID;
  ArbitrageOrder_ListByArbitrageTransID := order_ListByArbitrageTransID;
  ArbitrageOrder_UpdateStatus := order_UpdateStatus;
  ArbitrageOrder_AddFill := order_AddFill;
  ArbitrageOrder_GetFills := order_GetFills
|}.

Definition NewAuditLogRepository : AuditLogRepository := {|
  AuditLog_Create := audit_Create;
  AuditLog_List := audit_List;
  AuditLog_Count := audit_Count;
  AuditLog_CleanupOld := audit_CleanupOld
|}.

Definition NewReencryptionJobRepository : ReencryptionJobRepository := {|
  ReencryptionJob_Create := job_Create;
  ReencryptionJob_GetByID := job_GetByID;
  ReencryptionJob_ListPending := job_ListPending;
  ReencryptionJob_UpdateStatus := job_UpdateStatus;
  ReencryptionJob_UpdateProgress := job_UpdateProgress;
  ReencryptionJob_Complete := job_Complete;
  ReencryptionJob_Fail := job_Fail
|}.

Definition NewReencryptionProgressRepository : ReencryptionProgressRepository := {|
  ReencryptionProgress_CreateBatch := progress_CreateBatch;
  ReencryptionProgress_GetPendingBatch := progress_GetPendingBatch;
  ReencryptionProgress_UpdateStatus := progress_UpdateStatus;
  ReencryptionProgress_IncrementAttempts := progress_IncrementAttempts;
  ReencryptionProgress_GetFailedRecords := progress_GetFailedRecords
|}.

Definition NewSchedulerTaskRepository : SchedulerTaskRepository := {|
  SchedulerTask_Create := task_Create;
  SchedulerTask_GetByID := task_GetByID;
  SchedulerTask_GetByName := task_GetByName;
  SchedulerTask_List := task_List;
  SchedulerTask_GetDueTasks := task_GetDueTasks;
  SchedulerTask_Update := task_Update;
  SchedulerTask_UpdateStatus := task_UpdateStatus;
  SchedulerTask_RecordExecution := task_RecordExecution;
  SchedulerTask_UpdateNextRun := task_UpdateNextRun;
  SchedulerTask_Delete := task_Delete
|}.

Definition NewExchangeRequirementsRepository : ExchangeRequirementsRepository := {|
  ExchangeRequirements_ListTradeExchanges := ListTradeExchanges;
  ExchangeRequirements_ListMonitorExchanges := ListMonitorExchanges
|}.

Definition NewTraderRepositoryWithTx : TraderRepository := NewTraderRepository.
Definition NewTraderSessionRepositoryWithTx : TraderSessionRepository := NewTraderSessionRepository.
Definition NewTraderResourceRepositoryWithTx : TraderResourceRepository := NewTraderResourceRepository.
Definition NewArbitrageOrderRepositoryWithTx : ArbitrageOrderRepository := NewArbitrageOrderRepository.
Definition NewAuditLogRepositoryWithTx : AuditLogRepository := NewAuditLogRepository.
Definition NewReencryptionJobRepositoryWithTx : ReencryptionJobRepository := NewReencryptionJobRepository.
Definition NewReencryptionProgressRepositoryWithTx : ReencryptionProgressRepository := NewReencryptionProgressRepository.
Definition NewSchedulerTaskRepositoryWithTx : SchedulerTaskRepository := NewSchedulerTaskRepository.
Definition NewExchangeRequirementsRepositoryWithTx : ExchangeRequirementsRepository := NewExchangeRequirementsRepository.

(** ** repository.go *)

(** The fields and their accessors. *)
Record Repository := {
  Repository_Trader : TraderRepository;
  Repository_TraderSession : TraderSessionRepository;
  Repository_TraderResource : TraderResourceRepository;
  Repository_ArbitrageOrder : ArbitrageOrderRepository;
  Repository_AuditLog : AuditLogRepository;
  Repository_ReencryptionJob : ReencryptionJobRepository;
  Repository_ReencryptionProgress : ReencryptionProgressRepository;
  Repository_SchedulerTask : SchedulerTaskRepository;
  Repository_ExchangeRequirements : ExchangeRequirementsRepository
}.

Definition New : Repository := {|
  Repository_Trader := NewTraderRepository;
  Repository_TraderSession := NewTraderSessionRepository;
  Repository_TraderResource := NewTraderResourceRepository;
  Repository_ArbitrageOrder := NewArbitrageOrderRepository;
  Repository_AuditLog := NewAuditLogRepository;
  Repository_ReencryptionJob := NewReencryptionJobRepository;
  Repository_ReencryptionProgress := NewReencryptionProgressRepository;
  Repository_SchedulerTask := NewSchedulerTaskRepository;
  Repository_ExchangeRequirements := NewExchangeRequirementsRepository
|}.

Record Tx := {
  Tx_Commit : Db (option go_error);
  Tx_Rollback : Db (option go_error);
  Tx_Trader : TraderRepository;
  Tx_TraderSession : TraderSessionRepository;
  Tx_TraderResource : TraderResourceRepository;
  Tx_ArbitrageOrder : ArbitrageOrderRepository;
  Tx_AuditLog : AuditLogRepository;
  Tx_ReencryptionJob : ReencryptionJobRepository;
  Tx_ReencryptionProgress : ReencryptionProgressRepository;
  Tx_SchedulerTask : SchedulerTaskRepository;
  Tx_ExchangeRequirements : ExchangeRequirementsRepository
}.

(** A statement without effect of its own; true when it took effect. *)
Definition tx_statement : Db (option go_error * bool) := fun d =>
  (match stmt (stmts d) with
   | StmtFailed e => (Some e, false)
   | StmtLost e => (Some e, true)
   | _ => (None, true)
   end, d <| stmts ::= S |>).

Definition restore (d0 : database) : Db unit :=
  modify (fun d => d <| traders := traders d0 |> <| trader_sessions := trader_sessions d0 |>
                     <| more := more d0 |>).

Definition tx_Rollback (d0 : database) : Db (option go_error) :=
  r ← tx_statement;
  restore d0;;
  mret r.1.

Definition tx_Commit (d0 : database) : Db (option go_error) :=
  r ← tx_statement;
  (if r.2 : bool then mret tt else restore d0);;
  mret r.1.

(** A [*transaction] that began on the tables of [d0]. *)
Definition transaction (d0 : database) : Tx := {|
  Tx_Commit := tx_Commit d0;
  Tx_Rollback := tx_Rollback d0;
  Tx_Trader := NewTraderRepositoryWithTx;
  Tx_TraderSession := NewTraderSessionRepositoryWithTx;
  Tx_TraderResource := NewTraderResourceRepositoryWithTx;
  Tx_ArbitrageOrder := NewArbitrageOrderRepositoryWithTx;
  Tx_AuditLog := NewAuditLogRepositoryWithTx;
  Tx_ReencryptionJob := NewReencryptionJobRepositoryWithTx;
  Tx_ReencryptionProgress := NewReencryptionProgressRepositoryWithTx;
  Tx_SchedulerTask := NewSchedulerTaskRepositoryWithTx;
  Tx_ExchangeRequirements := NewExchangeRequirementsRepositoryWithTx
|}.

Definition BeginTx : Db (go_error + Tx) :=
  d0 ← gets id;
  began ← tx_statement;
  mret (match began.1 with
        | Some e => inl (EWrap "failed to begin transaction: " e "")
        | None => inr (transaction d0)
        end).

(** What a function does that gets a transaction: it returns an error or nil, or it
    panics. *)
Inductive tx_outcome :=
  | Returned (err : option go_error)
  | Panicked (p : string).

Definition WithTx (fn : Tx -> Db tx_outcome) : Db tx_outcome :=
  tx ← BeginTx;
  match tx with
  | inl err => mret (Returned (Some err))
  | inr tx =>
      r ← fn tx;
      match r with
      | Panicked p => _ ← Tx_Rollback tx; mret (Panicked p)
      | Returned (Some err) =>
          rbErr ← Tx_Rollback tx;
          mret (Returned (match rbErr with
                          | Some rbErr => Some (EWrap "tx error: " err (", rollback error: " +:+ error_text rbErr))
                          | None => Some err
                          end))
      | Returned None => err ← Tx_Commit tx; mret (Returned err)
      end
  end.

(** ** All or nothing *)

Definition tables_of (d : database) : gmap Z Trader * gmap Z TraderSession * more_tables :=
  (traders d, trader_sessions d, more d).

Definition started (d : database) : database := (tx_statement d).2.

Lemma tables_of_tx_statement d : tables_of (tx_statement d).2 = tables_of d.
Proof. done. Qed.

Lemma tx_Rollback_tables d0 d : tables_of (tx_Rollback d0 d).2 = tables_of d0.
Proof. done. Qed.

Lemma tx_Commit_cases d0 d :
  let '(r, d') := tx_Commit d0 d in
  (r = None /\ tables_of d' = tables_of d) \/
  (exists e, r = Some e /\ tables_of d' = tables_of d0) \/
  (exists e, r = Some e /\ stmt (stmts d) = StmtLost e /\ tables_of d' = tables_of d).
Proof.
  unfold tx_Commit, tx_statement, mbind, st_bind, mret, st_ret.
  destruct (stmt (stmts d)) as [|e|e|e|e]; cbn; eauto 10.
Qed.

(** After a success the tables are those [fn] left; after an error, and when [fn] panics
    (its panic goes on), they are those before the transaction, unless it is the answer
    of the COMMIT that was lost. *)
Theorem WithTx_atomic (fn : Tx -> Db tx_outcome) (d : database) :
  let '(o, d1) := fn (transaction d) (started d) in
  let '(r, d') := WithTx fn d in
  match r with
  | Returned None => o = Returned None /\ tables_of d' = tables_of d1
  | Returned (Some e) =>
      tables_of d' = tables_of d \/
      o = Returned None /\ stmt (stmts d1) = StmtLost e /\ tables_of d' = tables_of d1
  | Panicked p => o = Panicked p /\ tables_of d' = tables_of d
  end.
Proof.
  unfold WithTx, BeginTx, gets, mbind, st_bind, mret, st_ret, started. cbn [id].
  destruct (tx_statement d) as [[[e|] took] d0] eqn:Hb; cbn.
  - destruct (fn (transaction d) d0) as [o d1]. left. by rewrite <-(tables_of_tx_statement d), Hb.
  - change (id d) with d. destruct (fn (transaction d) d0) as [[[err|]|p] d1] eqn:Hfn; cbn.
    + pose proof (tx_Rollback_tables d d1) as Hr.
      destruct (tx_Rollback d d1) as [[rb|] d2]; cbn; by left.
    + pose proof (tx_Commit_cases d d1) as Hc.
      destruct (tx_Commit d d1) as [r d2].
      destruct Hc as [[-> Hc]|[(e & -> & Hc)|(e & -> & ? & Hc)]]; eauto.
    + pose proof (tx_Rollback_tables d d1) as Hr.
      destruct (tx_Rollback d d1) as [rb d2]; cbn. done.
Qed.

(** An error of [fn] is the error of the transaction, or is wrapped with that of the
    ROLLBACK. *)
Theorem WithTx_error (fn : Tx -> Db tx_outcome) (d : database) (err : go_error)
    (Hd : stmt (stmts d) = StmtDone) (Hfn : (fn (transaction d) (started d)).1 = Returned (Some err)) :
  (WithTx fn d).1 = Returned (Some err) \/
  exists e, (WithTx fn d).1 =
    Returned (Some (EWrap "tx error: " err (", rollback error: " +:+ error_text e))).
Proof.
  unfold WithTx, BeginTx, gets, mbind, st_bind, mret, st_ret, started in *. cbn [id].
  destruct (tx_statement d) as [[[e|] took] d0] eqn:Hb; cbn in *.
  - unfold tx_statement in Hb. by rewrite Hd in Hb.
  - change (id d) with d. destruct (fn (transaction d) d0) as [[?|] d1]; cbn in *; [|done].
    injection Hfn as ->. destruct (tx_Rollback d d1) as [[rb|] d2]; cbn; eauto.
Qed.
End transactions.
