(* ===== verification/Persistence.v ===== *)
(** * Sessions in the database (internal/api/rest/ws_persistence.go)

    [wsSessionPersistence] over the tables of Tables.v: the handler's
    [SessionPersistence].  A method that ends in [_in] sends its statements one at a
    time ([Tables.Sends]); the method of the same name without it runs them alone. *)

From S2P Require Import Prelude Protocol StateM Interfaces GoText Tables.

Record wsAvailableExchangeRow := {
  er_ExchangeID : Z;
  er_Code : string;
  er_Name : string;
  er_Enabled : bool;
  er_WSEndpoint : option string;
  er_RESTEndpoint : option string;
  er_MarketTypes : option string
}.

(** The rows the catalog query finds in the trading tables, which this library does
    not model, by the number of the statement. *)
Class CatalogEnv := { exchange_rows : nat -> list wsAvailableExchangeRow }.

Definition nullableString (v : string) : option string := if str_empty v then None else Some v.

(** [ns.String] of a [sql.NullString]. *)
Definition null_string (v : option string) : string := default "" v.

Definition isMySQLDuplicateEntryError (err : go_error) : bool :=
  match errors_as_mysql err with
  | Some number => (number =? er_dup_entry)%Z
  | None => false
  end.

Definition mapDisconnectReason (reason : string) : res string :=
  if reason =s "client_close" then Ok DisconnectGraceful
  else if reason =s "timeout" then Ok DisconnectTimeout
  else if reason =s "server_shutdown" then Ok DisconnectServerShutdown
  else if reason =s "protocol_error" then Ok DisconnectError
  else if reason =s "read_error" then Ok DisconnectError
  else Err (ENew ("unsupported disconnect reason: " +:+ reason)).

(** The loop of [parseMarketTypesCSV]; [seen] is its set. *)
Fixpoint market_types_loop (seen : gset string) (items : list string) : list string :=
  match items with
  | [] => []
  | item :: items =>
      let value := ToLower (TrimSpace item) in
      if negb (value =s "spot") && negb (value =s "futures") then market_types_loop seen items
      else if bool_decide (value ∈ seen) then market_types_loop seen items
      else value :: market_types_loop ({[value]} ∪ seen) items
  end.

Definition parseMarketTypesCSV (raw : string) : list string :=
  if str_empty (TrimSpace raw) then []
  else market_types_loop ∅ (split_on "," raw).

(** The loop body of [ListAvailableExchanges]. *)
Definition catalog_entry (row : wsAvailableExchangeRow) : ExchangeCatalogEntry :=
  let wsEndpoint := TrimSpace (null_string (er_WSEndpoint row)) in
  let types := parseMarketTypesCSV (null_string (er_MarketTypes row)) in
  {| ExchangeID := er_ExchangeID row;
     Code := TrimSpace (er_Code row);
     Name := TrimSpace (er_Name row);
     Enabled := er_Enabled row;
     MarketTypes := match types with [] => ["spot"] | _ => types end;
     WSPublicEndpoint := if str_empty wsEndpoint then "" else wsEndpoint;
     WSPrivateEndpoint := if str_empty wsEndpoint then "" else wsEndpoint;
     RESTEndpoint := TrimSpace (null_string (er_RESTEndpoint row));
     RateLimits := {[ "global" := 20%Z ]} |}.

(** For a session that is not nil and a [now] that is not the zero time, which is
    what the one caller passes. *)
Definition isSessionStale (session : TraderSession) (now staleAfter : Z) : bool :=
  if (staleAfter <=? 0)%Z then false
  else
    let reference :=
      if time_is_zero (se_LastHeartbeat session) then se_ConnectedAt session
      else se_LastHeartbeat session in
    if time_is_zero reference then false
    else negb (now <? time_add reference staleAfter)%Z.

Section persistence.
Context `{!SqlEnv, !CatalogEnv} (staleAfter : Z).

Abbreviation Db := (st database).

Definition ws_ListAvailableExchanges : Db (res (list ExchangeCatalogEntry)) :=
  rows ← query (fun d => exchange_rows (stmts d));
  mret (match rows with
        | Err e => Err (EWrap "list available exchanges: " e "")
        | Ok rows => Ok (catalog_entry <$> rows)
        end).

Definition ws_ResolveOrCreateTraderByCN_in {M} `{!MRet M, !MBind M, !Sends M} (certificateCN : string)
    : M (res TraderIdentity) :=
  r ← trader_GetOrCreateByCertificateCN_in certificateCN;
  mret (match r with
        | Err e => Err e
        | Ok (trader, _) =>
            Ok {| ti_TraderDBID := tr_ID trader; ti_TraderID := tr_CertificateCN trader;
                  ti_Status := tr_Status trader |}
        end).

Definition ws_ResolveOrCreateTraderByCN (certificateCN : string) : Db (res TraderIdentity) :=
  Eval cbv beta delta [ws_ResolveOrCreateTraderByCN_in] in ws_ResolveOrCreateTraderByCN_in certificateCN.

Definition stale_message (active : TraderSession) : string :=
  "stale session auto-finalized before new register: stale_after=" +:+ duration_string staleAfter
  +:+ " last_heartbeat=" +:+ rfc3339_nano (se_LastHeartbeat active).

Definition tryRecoverStaleActiveSession_in {M} `{!MRet M, !MBind M, !Sends M} (input : SessionCreateInput)
    : M (res bool) :=
  if (staleAfter <=? 0)%Z then mret (Ok false)
  else
    r ← send (session_GetActiveByTraderID (sci_TraderID input));
    match r with
    | Err e => mret (Err e)
    | Ok None => mret (Ok false)
    | Ok (Some active) =>
        now ← (if time_is_zero (sci_ConnectedAt input) then send repo_now
               else mret (sci_ConnectedAt input));
        if negb (isSessionStale active now staleAfter) then mret (Ok false)
        else
          r ← session_EndSession_in (se_SessionID active) DisconnectTimeout (Some (stale_message active));
          mret (match r with Err e => Err e | Ok _ => Ok true end)
    end.

Definition tryRecoverStaleActiveSession (input : SessionCreateInput) : Db (res bool) :=
  Eval cbv beta delta [tryRecoverStaleActiveSession_in send sends_alone] in
  tryRecoverStaleActiveSession_in input.

Definition session_of_input (input : SessionCreateInput) : TraderSession :=
  {| se_ID := 0; se_TraderID := sci_TraderID input; se_SessionID := sci_SessionID input;
     se_WSConnectionID := nullableString (sci_WSConnectionID input);
     se_IPAddress := nullableString (sci_IPAddress input);
     se_ConnectedAt := sci_ConnectedAt input; se_LastHeartbeat := sci_LastHeartbeat input;
     se_EndedAt := None; se_DisconnectReason := None; se_ErrorMessage := None |}.

Definition active_session_exists (input : SessionCreateInput) : go_error :=
  EWrap "" (ESentinel ErrActiveSessionExists) (": trader_id=" +:+ Itoa (sci_TraderID input)).

Definition ws_CreateSession_in {M} `{!MRet M, !MBind M, !Sends M} (input : SessionCreateInput) : M (res unit) :=
  let session := session_of_input input in
  r ← send (session_Create session);
  match r with
  | Ok _ => mret (Ok tt)
  | Err err =>
      if negb (isMySQLDuplicateEntryError err) then mret (Err err)
      else
        recovered ← tryRecoverStaleActiveSession_in input;
        match recovered with
        | Err e => mret (Err e)
        | Ok false => mret (Err (active_session_exists input))
        | Ok true =>
            r ← send (session_Create session);
            mret (match r with
                  | Ok _ => Ok tt
                  | Err retryErr =>
                      if isMySQLDuplicateEntryError retryErr
                      then Err (active_session_exists input) else Err retryErr
                  end)
        end
  end.

Definition ws_CreateSession (input : SessionCreateInput) : Db (res unit) :=
  Eval cbv beta delta [ws_CreateSession_in send sends_alone] in ws_CreateSession_in input.

Definition ws_UpdateTraderRelease_in {M} `{!MRet M, !MBind M, !Sends M} (traderID : Z) (release : string)
    : M (res unit) :=
  if (traderID <=? 0)%Z
  then mret (Err (ENew ("invalid trader id for release update: " +:+ Itoa traderID)))
  else trader_UpdateRelease_in traderID release.

Definition ws_UpdateTraderRelease (traderID : Z) (release : string) : Db (res unit) :=
  Eval cbv beta delta [ws_UpdateTraderRelease_in] in ws_UpdateTraderRelease_in traderID release.

Definition ws_UpdateHeartbeat (sid : string) : Db (res unit) := session_UpdateHeartbeat sid.

Definition ws_FinalizeSession_in {M} `{!MRet M, !MBind M, !Sends M} (sid reason : string)
    (errorMsg : option string) : M (res unit) :=
  match mapDisconnectReason reason with
  | Err e => mret (Err e)
  | Ok mapped => session_EndSession_in sid mapped errorMsg
  end.

Definition ws_FinalizeSession (sid reason : string) (errorMsg : option string) : Db (res unit) :=
  Eval cbv beta delta [ws_FinalizeSession_in] in ws_FinalizeSession_in sid reason errorMsg.

Definition ws_persistence : SessionPersistence database := {|
  ResolveOrCreateTraderByCN := ws_ResolveOrCreateTraderByCN;
  CreateSession := ws_CreateSession;
  UpdateTraderRelease := ws_UpdateTraderRelease;
  UpdateHeartbeat := ws_UpdateHeartbeat;
  FinalizeSession := ws_FinalizeSession;
  ListAvailableExchanges := Some ws_ListAvailableExchanges
|}.
End persistence.

(** The calls of a call that is alone. *)
Ltac fold_alone :=
  repeat match goal with
  | |- context [@session_EndSession_in ?e (st database) _ _ _ ?sid ?reason ?msg] =>
      change (@session_EndSession_in e (st database) _ _ _ sid reason msg)
        with (@session_EndSession e sid reason msg)
  | |- context [@trader_GetOrCreateByCertificateCN_in ?e (st database) _ _ _ ?cn] =>
      change (@trader_GetOrCreateByCertificateCN_in e (st database) _ _ _ cn)
        with (@trader_GetOrCreateByCertificateCN e cn)
  | |- context [@trader_UpdateRelease_in ?e (st database) _ _ _ ?id ?release] =>
      change (@trader_UpdateRelease_in e (st database) _ _ _ id release)
        with (@trader_UpdateRelease e id release)
  | |- context [@tryRecoverStaleActiveSession_in ?e ?stale (st database) _ _ _ ?input] =>
      change (@tryRecoverStaleActiveSession_in e stale (st database) _ _ _ input)
        with (@tryRecoverStaleActiveSession e stale input)
  end.
