(* ===== verification/PersistenceDemo.v ===== *)
(** * A concrete database for witnesses

    A server that executes every statement, compares text up to case, keeps whole
    seconds in its time columns and numbers its rows upwards; sqlx's search for
    parameter names is exact. *)

From S2P Require Import Prelude Protocol StateM Interfaces Tables Persistence.

Definition next_id (X : gset Z) (n : nat) : Z := (1 + set_fold Z.max 0%Z X)%Z.

Definition exact_bind (names columns : list string) : option go_error :=
  match filter (fun n => n ∉ columns) names with
  | [] => None
  | n :: _ => Some (ENew ("could not find name " +:+ n))
  end.

#[export] Instance demo_sql : SqlEnv := {
  stmt := fun _ => StmtDone;
  sql_clock := fun n => (5000 * Second + Z.of_nat n * Second)%Z;
  server_now := fun n => (5000 * Second + Z.of_nat n * Second)%Z;
  sql_time := fun t => (t / Second * Second)%Z;
  collate := ToLower;
  server_text := fun _ => "Duplicate entry";
  auto_id := next_id;
  sqlx_bind := exact_bind
}.

#[export] Instance demo_laws : SqlLaws.
Proof.
  split. intros X n Hin. cbn in Hin. unfold next_id in Hin.
  enough (forall x, x ∈ X -> (x <= set_fold Z.max 0%Z X)%Z) as Hmax.
  { apply Hmax in Hin. lia. }
  apply (set_fold_ind_L (fun r Y => forall x, x ∈ Y -> (x <= r)%Z)); [set_solver|].
  intros x Y r _ IH y. rewrite elem_of_union, elem_of_singleton.
  intros [->|Hy]; [lia|]. apply IH in Hy. lia.
Qed.

#[export] Instance demo_catalog : CatalogEnv := { exchange_rows := fun _ =>
  [{| er_ExchangeID := 1; er_Code := "binance"; er_Name := "Binance"; er_Enabled := true;
      er_WSEndpoint := Some "wss://stream"; er_RESTEndpoint := None;
      er_MarketTypes := Some "spot, margin,futures,spot" |}] }.

Definition empty_database : database := mk_database ∅ ∅ no_more_tables 0 0.

Definition demo_stale : Z := 180 * Second.

Definition demo_input (sid : string) (at_ : Z) : SessionCreateInput :=
  {| sci_TraderID := 1; sci_SessionID := sid; sci_WSConnectionID := "c1"; sci_IPAddress := "";
     sci_ConnectedAt := at_; sci_LastHeartbeat := at_ |}.

(** Trader 1 with an active session of time 1000s. *)
Definition demo_database : database :=
  (ws_CreateSession demo_stale (demo_input "s0" (1000 * Second))
     (ws_ResolveOrCreateTraderByCN " alpha" empty_database).2).2.

Example demo_catalog_entry :
  MarketTypes <$> (catalog_entry <$> exchange_rows 0) = [["spot"; "futures"]].
Proof. vm_compute. reflexivity. Qed.
