(* ===== verification/TableFacts.v ===== *)
(** * Invariants of the trader tables

    [tables_ok]: the unique keys and the foreign key of the schema.  [grows]: rows are
    never lost, keep their identity, and a session row that has ended never changes.
    Each statement keeps both, so each repository method does. *)

From S2P Require Import Prelude StateM Tables.

(** ** Rows *)

Lemma elem_of_rows {A} (t : gmap Z A) r : r ∈ (map_to_list t).*2 <-> exists k, t !! k = Some r.
Proof.
  rewrite list_elem_of_fmap. split.
  - intros ([k r'] & -> & Hk). exists k. by apply elem_of_map_to_list.
  - intros [k Hk]. exists (k, r). split; [done|]. by apply elem_of_map_to_list.
Qed.

Lemma find_row_Some {A} p (t : gmap Z A) r :
  find_row p t = Some r -> p r = true /\ exists k, t !! k = Some r.
Proof.
  unfold find_row. intros Hh. apply head_Some_elem_of in Hh.
  apply list_elem_of_filter in Hh as [Hp Hr]. by apply elem_of_rows in Hr.
Qed.

Lemma find_row_None {A} p (t : gmap Z A) k r :
  find_row p t = None -> t !! k = Some r -> p r = false.
Proof.
  unfold find_row. intros Hh Hr. destruct (p r) eqn:Hp; [|done]. exfalso.
  apply head_None in Hh. assert (r ∈ @nil A) as Hin; [|by apply elem_of_nil in Hin].
  rewrite <- Hh. apply list_elem_of_filter. split; [done|]. apply elem_of_rows. eauto.
Qed.

Lemma update_rows_lookup {A} `{EqDecision A} p f (t : gmap Z A) k :
  (update_rows p f t).2 !! k = (fun r => if p r then f r else r) <$> t !! k.
Proof. apply lookup_fmap. Qed.

Lemma update_rows_none {A} `{EqDecision A} p f (t : gmap Z A) k r :
  (update_rows p f t).1 = 0%Z -> t !! k = Some r -> p r = true -> f r = r.
Proof.
  cbn. intros Hz Hk Hp. destruct (decide (f r = r)) as [|Hne]; [done|exfalso].
  apply (Nat2Z.inj _ 0), map_size_empty_inv in Hz.
  assert (filter (fun kv => p kv.2 = true /\ f kv.2 <> kv.2) t !! k = Some r) as Hl.
  { by apply map_lookup_filter_Some. }
  by rewrite Hz, lookup_empty in Hl.
Qed.

Section table_facts.
Context {SE : SqlEnv}.

Abbreviation Db := (st database).

Lemma same_text_true a b : same_text a b = true <-> collate a = collate b.
Proof. apply bool_decide_eq_true. Qed.

Lemma same_text_false a b : same_text a b = false <-> collate a <> collate b.
Proof. apply bool_decide_eq_false. Qed.

Lemma same_text_refl a : same_text a a = true.
Proof. by apply same_text_true. Qed.

Lemma is_active_true s : is_active s = true <-> se_EndedAt s = None.
Proof. apply bool_decide_eq_true. Qed.

Record tables_ok (d : database) : Prop := {
  ok_trader_key : forall k t, traders d !! k = Some t -> tr_ID t = k;
  ok_trader_cn : forall k1 k2 t1 t2, traders d !! k1 = Some t1 -> traders d !! k2 = Some t2 ->
    collate (tr_CertificateCN t1) = collate (tr_CertificateCN t2) -> k1 = k2;
  ok_session_key : forall k s, trader_sessions d !! k = Some s -> se_ID s = k;
  ok_session_id : forall k1 k2 s1 s2,
    trader_sessions d !! k1 = Some s1 -> trader_sessions d !! k2 = Some s2 ->
    collate (se_SessionID s1) = collate (se_SessionID s2) -> k1 = k2;
  ok_single_active : forall k1 k2 s1 s2,
    trader_sessions d !! k1 = Some s1 -> trader_sessions d !! k2 = Some s2 ->
    is_active s1 = true -> is_active s2 = true -> se_TraderID s1 = se_TraderID s2 -> k1 = k2;
  ok_reference : forall k s, trader_sessions d !! k = Some s -> is_Some (traders d !! se_TraderID s)
}.

(** What an update may do to a session row. *)
Record row_step (r r' : TraderSession) : Prop := {
  rs_id : se_ID r' = se_ID r;
  rs_trader : se_TraderID r' = se_TraderID r;
  rs_session : se_SessionID r' = se_SessionID r;
  rs_connected : se_ConnectedAt r' = se_ConnectedAt r;
  rs_ended : is_active r = false -> r' = r
}.

Lemma row_step_refl r : row_step r r.
Proof. by split. Qed.

Lemma row_step_trans r1 r2 r3 : row_step r1 r2 -> row_step r2 r3 -> row_step r1 r3.
Proof.
  intros [? ? ? ? H1] [? ? ? ? H2]. split; try congruence.
  intros Ha. pose proof (H1 Ha) as ->. by apply H2.
Qed.

Definition grows (d d' : database) : Prop :=
  (forall k r, trader_sessions d !! k = Some r ->
     exists r', trader_sessions d' !! k = Some r' /\ row_step r r') /\
  (forall k t, traders d !! k = Some t ->
     exists t', traders d' !! k = Some t' /\ tr_CertificateCN t' = tr_CertificateCN t).

#[export] Instance grows_preorder : PreOrder grows.
Proof.
  split.
  - intros d. split; [|by eauto]. intros k r Hr. exists r. split; [done|apply row_step_refl].
  - intros d1 d2 d3 [Hs1 Ht1] [Hs2 Ht2]. split.
    + intros k r Hr. destruct (Hs1 k r Hr) as (r2 & Hr2 & H12).
      destruct (Hs2 k r2 Hr2) as (r3 & Hr3 & H23). exists r3. split; [done|].
      by eapply row_step_trans.
    + intros k t Ht. destruct (Ht1 k t Ht) as (t2 & Ht2' & E2).
      destruct (Ht2 k t2 Ht2') as (t3 & Ht3 & E3). exists t3. split; [done|congruence].
Qed.

(** The relation between the tables before and after the operations of the handler. *)
Definition tables_evolve (d d' : database) : Prop := (tables_ok d -> tables_ok d') /\ grows d d'.

#[export] Instance evolves_preorder : PreOrder tables_evolve.
Proof.
  split.
  - intros d. by split.
  - intros d1 d2 d3 [H1 G1] [H2 G2]. split; [auto|]. by etransitivity.
Qed.

(** ** Statements *)

(** [R] sees the tables only. *)
Class TableRel (R : database -> database -> Prop) : Prop := {
  tr_preorder :: PreOrder R;
  tr_same : forall d d', traders d' = traders d -> trader_sessions d' = trader_sessions d -> R d d'
}.

#[export] Instance evolves_table_rel : TableRel tables_evolve.
Proof.
  split; [apply _|]. intros d d' Ht Hs. split.
  - intros []. split; rewrite ?Ht, ?Hs; auto.
  - split; [rewrite Hs|rewrite Ht; eauto]. intros k r Hr. exists r. split; [done|apply row_step_refl].
Qed.

Definition statement_moves (R : database -> database -> Prop)
    (f : database -> res (Z * Z * database)) : Prop :=
  forall d n id d', f d = Ok (n, id, d') -> R d d'.

Section rel.
Context (R : database -> database -> Prop) `{!TableRel R}.

Lemma steps_exec f : statement_moves R f -> steps R (exec f).
Proof.
  intros Hf d. unfold exec. set (d1 := d <| stmts ::= S |>).
  assert (R d d1) as H1 by by apply tr_same.
  destruct (stmt (stmts d)) as [|e|e|e|e]; cbn; try done;
    destruct (f d1) as [[[n id] d2]|e'] eqn:E; cbn; try done;
    (etransitivity; [exact H1|exact (Hf _ _ _ _ E)]).
Qed.

Lemma steps_query {A} (f : database -> A) : steps R (query f).
Proof. intros d. by apply tr_same. Qed.

Lemma steps_repo_now : steps R repo_now.
Proof. intros d. by apply tr_same. Qed.

Lemma steps_get_row {A} what (f : database -> option A) : steps R (get_row what f).
Proof.
  unfold get_row. apply (steps_bind R); [apply steps_query|]. intros r. apply (steps_ret R).
Qed.
End rel.

(** An insertion that satisfies the unique keys. *)
Lemma evolves_insert_session d id (s : TraderSession) :
  id ∉ dom (trader_sessions d) -> se_ID s = id ->
  (forall k r, trader_sessions d !! k = Some r -> collate (se_SessionID r) <> collate (se_SessionID s)) ->
  (forall k r, trader_sessions d !! k = Some r -> se_TraderID r = se_TraderID s -> is_active r = false) ->
  is_Some (traders d !! se_TraderID s) ->
  tables_evolve d (d <| trader_sessions ::= <[id := s]> |>).
Proof.
  intros Hid Hs Hsid Hact Href. apply not_elem_of_dom in Hid. split; [|split; cbn; [|by eauto]].
  - intros [? ? Hk Hu Ha Hr]. split; cbn; try done.
    + intros k r. rewrite lookup_insert_Some. naive_solver.
    + intros k1 k2 r1 r2. rewrite !lookup_insert_Some.
      intros [[<- <-]|[_ H1]] [[<- <-]|[_ H2]]; try done; [| |by eauto].
      * intros E. by destruct (Hsid _ _ H2).
      * intros E. by destruct (Hsid _ _ H1).
    + intros k1 k2 r1 r2. rewrite !lookup_insert_Some.
      intros [[<- <-]|[_ H1]] [[<- <-]|[_ H2]] A1 A2 E; try done; [| |by eauto].
      * rewrite (Hact _ _ H2) in A2; [done|congruence].
      * rewrite (Hact _ _ H1) in A1; [done|congruence].
    + intros k r. rewrite lookup_insert_Some. intros [[<- <-]|[? ?]]; [done|eauto].
  - intros k r Hr. exists r. split; [|apply row_step_refl].
    rewrite lookup_insert_ne; [done|]. intros ->. congruence.
Qed.

Lemma insert_session_moves `{!SqlLaws} s : statement_moves tables_evolve (insert_session s).
Proof.
  intros d n id d'. unfold insert_session.
  destruct (find_row _ (trader_sessions d)) eqn:E1; [done|].
  destruct (find_row (fun r => _ && _) (trader_sessions d)) eqn:E2; [done|].
  destruct (traders d !! se_TraderID s) as [t|] eqn:E3; [|done]. intros [= <- <- <-].
  apply evolves_insert_session; cbn; [apply auto_id_fresh|done| | |by rewrite E3].
  - intros k r Hr. pose proof (find_row_None _ _ _ _ E1 Hr) as Hf. by apply same_text_false in Hf.
  - intros k r Hr Ht. pose proof (find_row_None _ _ _ _ E2 Hr) as Hf. cbn in Hf.
    by rewrite Ht, Z.eqb_refl in Hf.
Qed.

(** An update that keeps the keys and never reopens a row. *)
Lemma update_sessions_moves p f :
  (forall r, p r = true -> row_step r (f r) /\ is_active r = true) ->
  statement_moves tables_evolve (update_sessions p f).
Proof.
  intros Hpf d n id d' [= <- <- <-].
  set (g := fun r => if p r then f r else r).
  assert (forall r, row_step r (g r) /\ (is_active (g r) = true -> is_active r = true)) as Hg.
  { intros r. unfold g. destruct (p r) eqn:E; [|split; [apply row_step_refl|done]].
    by destruct (Hpf r E). }
  assert (forall k r', (g <$> trader_sessions d) !! k = Some r' ->
    exists r, trader_sessions d !! k = Some r /\ row_step r r' /\ (is_active r' = true -> is_active r = true)) as Hb.
  { intros k r'. rewrite lookup_fmap. intros (r & Hr & ->)%fmap_Some. exists r.
    by destruct (Hg r). }
  split; [|split; cbn; [|by eauto]].
  - intros [? ? Hk Hu Ha Hr]. split; cbn; fold g; try done.
    + intros k r' (r & Hr' & [] & _)%Hb. apply Hk in Hr'. congruence.
    + intros k1 k2 s1 s2 (r1 & H1 & [] & _)%Hb (r2 & H2 & [] & _)%Hb E.
      apply (Hu _ _ _ _ H1 H2). congruence.
    + intros k1 k2 s1 s2 (r1 & H1 & [] & A1)%Hb (r2 & H2 & [] & A2)%Hb B1 B2 E.
      apply (Ha _ _ _ _ H1 H2); auto. congruence.
    + intros k r' (r & H1 & [] & _)%Hb. apply Hr in H1. congruence.
  - intros k r Hr. exists (g r). fold g. rewrite lookup_fmap, Hr. split; [done|]. by destruct (Hg r).
Qed.

Lemma update_traders_moves p f :
  (forall t, tr_ID (f t) = tr_ID t /\ tr_CertificateCN (f t) = tr_CertificateCN t) ->
  statement_moves tables_evolve (update_traders p f).
Proof.
  intros Hf d n id d' [= <- <- <-].
  set (g := fun t => if p t then f t else t).
  assert (forall t, tr_ID (g t) = tr_ID t /\ tr_CertificateCN (g t) = tr_CertificateCN t) as Hg.
  { intros t. unfold g. by destruct (p t). }
  assert (forall k t', (g <$> traders d) !! k = Some t' -> exists t, traders d !! k = Some t /\
    tr_ID t' = tr_ID t /\ tr_CertificateCN t' = tr_CertificateCN t) as Hb.
  { intros k t'. rewrite lookup_fmap. intros (t & Ht & ->)%fmap_Some. exists t. by destruct (Hg t). }
  split; [|split; cbn].
  - intros [Hk Hu ? ? ? Hr]. split; cbn; fold g; try done.
    + intros k t' (t & Ht & E & _)%Hb. apply Hk in Ht. congruence.
    + intros k1 k2 s1 s2 (r1 & H1 & _ & E1)%Hb (r2 & H2 & _ & E2)%Hb E.
      apply (Hu _ _ _ _ H1 H2). congruence.
    + intros k s Hs. rewrite lookup_fmap. apply Hr in Hs as [t ->]. eauto.
  - intros k r Hr. exists r. split; [done|apply row_step_refl].
  - intros k t Ht. exists (g t). fold g. rewrite lookup_fmap, Ht. split; [done|]. by destruct (Hg t).
Qed.

Lemma insert_trader_moves `{!SqlLaws} t : statement_moves tables_evolve (insert_trader t).
Proof.
  intros d n id d'. unfold insert_trader.
  destruct (find_row _ _) eqn:E; [done|]. intros [= <- <- <-].
  set (id := auto_id _ _). assert (traders d !! id = None) as Hid.
  { apply not_elem_of_dom, auto_id_fresh. }
  assert (forall k u, traders d !! k = Some u -> collate (tr_CertificateCN u) <> collate (tr_CertificateCN t)) as Hcn.
  { intros k u Hu. apply same_text_false. exact (find_row_None _ _ _ _ E Hu). }
  split; [|split; cbn].
  - intros [Hk Hu ? ? ? Hr]. split; cbn; try done.
    + intros k u. rewrite lookup_insert_Some. naive_solver.
    + intros k1 k2 u1 u2. rewrite !lookup_insert_Some.
      intros [[<- <-]|[_ H1]] [[<- <-]|[_ H2]]; try done; [| |by eauto]; cbn; intros Ec.
      * by destruct (Hcn _ _ H2).
      * by destruct (Hcn _ _ H1).
    + intros k s Hs. apply Hr in Hs as [u Hu']. destruct (decide (id = se_TraderID s)) as [<-|Hne].
      * rewrite lookup_insert_eq. eauto.
      * rewrite lookup_insert_ne; eauto.
  - intros k r Hr. exists r. split; [done|apply row_step_refl].
  - intros k u Hu. exists u. split; [|done]. rewrite lookup_insert_ne; [done|]. intros ->. congruence.
Qed.

Lemma insert_or_touch_moves `{!SqlLaws} t : statement_moves tables_evolve (insert_or_touch_trader t).
Proof.
  intros d n id d'. unfold insert_or_touch_trader.
  destruct (find_row _ _); [by intros [= <- <- <-]|]. apply insert_trader_moves.
Qed.

Lemma active_session_active sid r : active_session sid r = true -> is_active r = true.
Proof. unfold active_session. by intros [_ ?]%andb_prop. Qed.

Lemma set_heartbeat_moves sid now :
  statement_moves tables_evolve (update_sessions (active_session sid) (set_heartbeat now)).
Proof.
  apply update_sessions_moves. intros r Hr%active_session_active. split; [|done].
  split; try done. by rewrite Hr.
Qed.

Lemma set_ended_moves sid now reason msg :
  statement_moves tables_evolve (update_sessions (active_session sid) (set_ended now reason msg)).
Proof.
  apply update_sessions_moves. intros r Hr%active_session_active. split; [|done].
  split; try done. by rewrite Hr.
Qed.

(** ** Repository methods *)

Local Hint Extern 0 (steps tables_evolve repo_now) => exact (steps_repo_now tables_evolve) : steps.
Local Hint Extern 0 (steps tables_evolve (query _)) => exact (steps_query tables_evolve _) : steps.
Local Hint Extern 0 (steps tables_evolve (get_row _ _)) => exact (steps_get_row tables_evolve _ _) : steps.
Local Hint Extern 0 (steps tables_evolve (exec _)) =>
  apply (steps_exec tables_evolve);
  first [apply insert_session_moves | apply insert_or_touch_moves | apply insert_trader_moves
        | apply set_heartbeat_moves | apply set_ended_moves
        | apply update_traders_moves; intros; split; reflexivity] : steps.

Section methods.
Context {SL : SqlLaws}.

Lemma session_Create_evolves s : steps tables_evolve (session_Create s).
Proof. unfold session_Create. steps_auto. Qed.

Lemma session_UpdateHeartbeat_evolves sid : steps tables_evolve (session_UpdateHeartbeat sid).
Proof. unfold session_UpdateHeartbeat, session_GetBySessionID. steps_auto. Qed.

Lemma session_EndSession_evolves sid reason msg : steps tables_evolve (session_EndSession sid reason msg).
Proof. unfold session_EndSession, session_GetBySessionID. steps_auto. Qed.

Lemma session_GetActive_evolves id : steps tables_evolve (session_GetActiveByTraderID id).
Proof. unfold session_GetActiveByTraderID. steps_auto. Qed.

Lemma trader_GetOrCreate_evolves cn : steps tables_evolve (trader_GetOrCreateByCertificateCN cn).
Proof. unfold trader_GetOrCreateByCertificateCN, trader_GetByID. steps_auto. Qed.

Lemma trader_UpdateRelease_evolves id r : steps tables_evolve (trader_UpdateRelease id r).
Proof. unfold trader_UpdateRelease. steps_auto. Qed.

Lemma trader_UpdateStatus_evolves id s : steps tables_evolve (trader_UpdateStatus id s).
Proof. unfold trader_UpdateStatus. steps_auto. Qed.

Lemma trader_Create_evolves t : steps tables_evolve (trader_Create t).
Proof. unfold trader_Create. steps_auto. Qed.
End methods.
End table_facts.

#[export] Hint Resolve session_Create_evolves session_UpdateHeartbeat_evolves
  session_EndSession_evolves session_GetActive_evolves trader_GetOrCreate_evolves
  trader_UpdateRelease_evolves trader_UpdateStatus_evolves trader_Create_evolves : steps.
