(* ===== verification/RepositoryFacts.v ===== *)
(** * Facts about the other repositories

    What a statement and an Update method can do to the tables, the run and error
    counts of the scheduler tasks, which tasks are due, the filters of the audit log,
    the batches of the re-encryption and the methods whose statements cannot succeed. *)

From S2P Require Import Prelude GoFloat StateM Models Tables TableFacts Repositories Transactions.

Section repository_facts.
Context `{!SqlEnv, !ReposEnv}.

(** ** Statements *)

(** A statement fails and leaves the tables alone, or takes effect; an error after it
    took effect is that of a lost answer. *)
Lemma exec_cases f d :
  let '(r, d') := exec f d in
  ((exists e, r = Err e) /\ tables_of d' = tables_of d) \/
  exists n id, f (d <| stmts ::= S |>) = Ok (n, id, d') /\
    match r with
    | Err e => stmt (stmts d) = StmtLost e
    | Ok result => RowsAffected result = Ok n \/ exists e, RowsAffected result = Err e
    end.
Proof.
  unfold exec. destruct (stmt (stmts d)) as [|e|e|e|e]; try (left; by eauto);
    (destruct (f _) as [[[n id] d']|e'] eqn:Hf; cbn; [right|left; by eauto]);
    exists n, id; split; eauto.
Qed.

Lemma affected_or_ok what missing r :
  affected_or what missing r = Ok tt ->
  exists result n, r = Ok result /\ RowsAffected result = Ok n /\ n <> 0%Z.
Proof.
  unfold affected_or. destruct r as [result|e]; [|done].
  destruct (RowsAffected result) as [n|e] eqn:Hn; [|done].
  destruct (Z.eqb_spec n 0); [done|]. eauto.
Qed.

Lemma update_rows_some {A} `{EqDecision A} p f (t : gmap Z A) :
  (update_rows p f t).1 <> 0%Z -> exists k r, t !! k = Some r /\ p r = true /\ f r <> r.
Proof.
  cbn. intros Hn. set (c := filter _ t) in Hn. destruct (decide (c = ∅)) as [He|He].
  - exfalso. apply Hn. by rewrite He, map_size_empty.
  - apply map_choose in He as (k & r & Hk). subst c.
    apply map_lookup_filter_Some in Hk as [Hk [Hp Hf]]. eauto.
Qed.

(** An Update method that succeeds has changed exactly the rows it names. *)
Lemma update_method {A} `{EqDecision A} get set p (f : A -> A) what missing d :
  let m := (r ← exec (update_table get set p f); mret (affected_or what missing r)) in
  (m d).1 = Ok tt ->
  tables_of (m d).2 =
    (traders d, trader_sessions d, set ((fun r => if p r then f r else r) <$> get (more d)) (more d)) /\
  exists k r, get (more d) !! k = Some r /\ p r = true /\ f r <> r.
Proof.
  cbn. unfold mbind, st_bind. pose proof (exec_cases (update_table get set p f) d) as Hc.
  destruct (exec _ d) as [r d']. cbn. intros (result & n & -> & Hn & Hn0)%affected_or_ok.
  destruct Hc as [[[e ?] _]|(n' & id & Hf & Hr)]; [done|].
  unfold update_table in Hf. injection Hf as Hn' <- <-.
  assert (n = n') as -> by (destruct Hr as [Hr|[? Hr]]; congruence). split; [done|].
  apply update_rows_some. cbn. by rewrite Hn'.
Qed.

(** ** Scheduler tasks *)

(** A recorded execution: the run is counted, an error is counted and marks the task
    as failed, any other end makes it idle; nothing else of the task changes. *)
Lemma record_execution_spec ran ms status msg modified t :
  let t' := record_execution ran ms status msg modified t in
  let failed := same_text status TaskRunStatusError in
  tk_RunCount t' = (tk_RunCount t + 1)%Z /\
  tk_ErrorCount t' = (tk_ErrorCount t + if failed then 1 else 0)%Z /\
  tk_Status t' = (if failed then TaskStatusFailed else TaskStatusIdle) /\
  tk_LastRunStatus t' = Some status /\ tk_LastError t' = msg /\ tk_LastRunDurationMS t' = Some ms /\
  (tk_ID t', tk_TaskName t', tk_TaskType t', tk_Enabled t', tk_NextRunAt t', tk_Config t') =
  (tk_ID t, tk_TaskName t, tk_TaskType t, tk_Enabled t, tk_NextRunAt t, tk_Config t).
Proof. cbn. split_and!; try done. all: lia. Qed.

Lemma task_RecordExecution_ok id ms status msg d :
  (task_RecordExecution id ms status msg d).1 = Ok tt ->
  exists ran modified,
    tables_of (task_RecordExecution id ms status msg d).2 =
      (traders d, trader_sessions d,
       set_tasks ((fun r => if task_has_id id r then record_execution ran ms status msg modified r else r)
                    <$> scheduler_tasks (more d)) (more d)) /\
    exists k r, scheduler_tasks (more d) !! k = Some r /\ tk_ID r = id.
Proof.
  set (ran := sql_clock (reads d)). set (modified := sql_clock (S (reads d))).
  intros Hok. exists ran, modified.
  destruct (update_method scheduler_tasks set_tasks (task_has_id id)
              (record_execution ran ms status msg modified)
              "failed to record scheduler task execution: " (task_not_found id)
              (d <| reads ::= S |> <| reads ::= S |>) Hok) as [Ht (k & r & Hk & Hp & _)].
  split; [exact Ht|]. exists k, r. split; [done|]. by apply Z.eqb_eq.
Qed.

(** No task has more errors than runs. *)
Definition counts_ok (d : database) : Prop :=
  map_Forall (fun _ t => 0 <= tk_ErrorCount t <= tk_RunCount t)%Z (scheduler_tasks (more d)).

(** What the statements of the repository may do to the counts. *)
Definition keeps_counts (f : database -> res (Z * Z * database)) : Prop :=
  forall d n id d', f d = Ok (n, id, d') -> counts_ok d -> counts_ok d'.

Lemma steps_exec_counts f : keeps_counts f -> steps (keeps counts_ok) (exec f).
Proof.
  intros Hf d Hd. pose proof (exec_cases f d) as Hc. destruct (exec f d) as [r d']. cbn.
  destruct Hc as [[_ [= _ _ Ht]]|(n & id & Hfd & _)].
  - unfold counts_ok. by rewrite Ht.
  - by eapply Hf.
Qed.

Lemma steps_query_counts {A} (f : database -> A) : steps (keeps counts_ok) (query f).
Proof. intros d Hd. exact Hd. Qed.

Lemma steps_now_counts : steps (keeps counts_ok) repo_now.
Proof. intros d Hd. exact Hd. Qed.

Lemma insert_task_counts t : keeps_counts (insert_task t).
Proof.
  intros d n id d'. unfold insert_task. destruct (find_row _ _); [done|].
  destruct (negb _); [done|]. intros [= <- <- <-] Hd.
  apply map_Forall_insert_2; [cbn; lia|exact Hd].
Qed.

Lemma update_task_counts id f :
  (forall t, (0 <= tk_ErrorCount t <= tk_RunCount t)%Z ->
             (0 <= tk_ErrorCount (f t) <= tk_RunCount (f t))%Z) ->
  keeps_counts (update_task id f).
Proof.
  intros Hf d n id' d' [= <- <- <-] Hd. unfold counts_ok. cbn.
  intros k t. rewrite lookup_fmap. intros (t0 & Ht0 & ->)%fmap_Some. specialize (Hd k t0 Ht0).
  cbn in Hd. destruct (task_has_id id t0); [by apply Hf|done].
Qed.

Lemma delete_task_counts id :
  keeps_counts (fun d => let '(n, t) := delete_rows (task_has_id id) (scheduler_tasks (more d)) in
                         Ok (n, 0%Z, d <| more ::= set_tasks t |>)).
Proof.
  intros d n id' d' [= <- <- <-] Hd. unfold counts_ok. cbn.
  intros k t [Hk _]%map_lookup_filter_Some. by apply (Hd k).
Qed.

(** Creating, configuring, running and deleting tasks keeps the counts. *)
Lemma task_operations_keep_counts (t : SchedulerTask) id ms status msg :
  Forall (steps (keeps counts_ok))
    [task_Update t; task_UpdateStatus id status; task_RecordExecution id ms status msg;
     task_UpdateNextRun id; task_Delete id] /\
  steps (keeps counts_ok) (task_Create t) /\
  steps (keeps counts_ok) task_GetDueTasks.
Proof.
  split_and!; [rewrite !Forall_cons, Forall_nil; split_and!; [| | | | |done]| |];
    unfold task_Update, task_UpdateStatus, task_RecordExecution, task_UpdateNextRun, task_Delete,
      task_Create, task_GetDueTasks, named_exec, get_rows; steps_auto;
    try apply steps_now_counts; try apply steps_query_counts; apply steps_exec_counts.
  - intros d n id' d'. destruct (_ && _); [done|]. by apply update_task_counts.
  - by apply update_task_counts.
  - apply update_task_counts. intros r Hr. cbn. destruct (same_text status TaskRunStatusError); lia.
  - by apply update_task_counts.
  - apply delete_task_counts.
  - apply insert_task_counts.
Qed.

Lemma elem_of_rows_where {A} p (t : gmap Z A) r :
  r ∈ rows_where p t <-> p r = true /\ exists k, t !! k = Some r.
Proof. unfold rows_where. by rewrite list_elem_of_filter, elem_of_rows. Qed.

Lemma get_rows_ok {A} what (f : database -> list A) d l :
  (get_rows what f d).1 = Ok l -> l = f (d <| stmts ::= S |>).
Proof.
  unfold get_rows, query, mbind, st_bind, mret, st_ret.
  destruct (stmt (stmts d)); cbn; by intros [= <-].
Qed.

Lemma earlier_run_weak_order : weak_order_on earlier_run (fun _ => True).
Proof.
  unfold earlier_run. split.
  - intros a b _ _. destruct (tk_NextRunAt a), (tk_NextRunAt b); try done.
    rewrite Z.ltb_lt, Z.ltb_ge. lia.
  - intros a b c _ _ _. unfold not_after.
    destruct (tk_NextRunAt a), (tk_NextRunAt b), (tk_NextRunAt c); try done.
    rewrite !Z.ltb_ge. lia.
Qed.

(** The due tasks are exactly the rows that are enabled, not disabled by their status
    and not planned for later; a task that never ran comes before those with a time,
    and these in the order of their times.  A task whose status says that it is
    running is among them. *)
Lemma GetDueTasks_spec d l :
  (task_GetDueTasks d).1 = Ok l ->
  (forall t, t ∈ l <->
     (exists k, scheduler_tasks (more d) !! k = Some t) /\
     tk_Enabled t = true /\ collate (tk_Status t) <> collate TaskStatusDisabled /\
     from_option (fun at_ => at_ <= sql_clock (reads d))%Z True (tk_NextRunAt t)) /\
  StronglySorted (not_after earlier_run) l.
Proof.
  intros Hl. apply get_rows_ok in Hl as ->. cbn. split.
  - intros t. rewrite elem_of_sort_stable, elem_of_rows_where. unfold task_due.
    rewrite !andb_true_iff, negb_true_iff, same_text_false.
    destruct (tk_NextRunAt t); cbn; rewrite ?Z.leb_le; naive_solver.
  - apply (sort_stable_sorted _ _ earlier_run_weak_order). by apply Forall_true.
Qed.

(** ** Audit log *)

(** [Count] counts what [List] lists, and a page is never longer than its limit. *)
Lemma audit_List_page f limit offset d l :
  (audit_List f limit offset d).1 = Ok l ->
  (Z.of_nat (length l) <= Z.max 0 limit)%Z /\
  Forall (fun a => audit_matches f a = true) l /\
  ((0 <= offset)%Z -> (audit_Count f d).1 = Ok 0%Z -> l = []).
Proof.
  unfold audit_List. destruct (limit_error limit offset) as [e|].
  { unfold mbind, st_bind, query. by destruct (stmt (stmts d)). }
  intros ->%get_rows_ok. cbn. split_and!.
  - rewrite length_take. lia.
  - apply Forall_forall. intros a Ha%elem_of_take. destruct Ha as (i & Ha & _).
    rewrite lookup_drop in Ha. apply list_elem_of_lookup_2 in Ha.
    by apply elem_of_sort_stable, elem_of_rows_where in Ha as [? _].
  - intros _. unfold audit_Count, query, mbind, st_bind, mret, st_ret.
    set (rows := rows_where _ _). intros Hc.
    assert (rows = []) as ->; [|by destruct (Z.to_nat limit), (Z.to_nat offset)].
    apply nil_length_inv. destruct (stmt (stmts d)); cbn in Hc; (done || injection Hc; lia).
Qed.

(** The text of the WHERE clause has one placeholder per argument. *)
Lemma buildWhereClause_placeholders f :
  length (filter (fun c => c = "?"%char) (String.list_ascii_of_string (buildWhereClause f).1)) =
  (buildWhereClause f).2.
Proof.
  destruct f as [[] [] [] [] [] [] []]; vm_compute; reflexivity.
Qed.

(** ** Re-encryption *)

(** A batch is stored as a whole or not at all. *)
Lemma CreateBatch_atomic records d :
  let '(r, d') := progress_CreateBatch records d in
  tables_of d' = tables_of d \/
  exists d1, insert_records records (d <| stmts ::= S |>) = Ok d1 /\ d' = d1 /\
    (r = Ok tt \/ exists e, stmt (stmts d) = StmtLost e).
Proof.
  destruct records as [|x records]; [by left|]. unfold progress_CreateBatch.
  pose proof (exec_cases (insert_batch (x :: records)) d) as Hc.
  unfold mbind, st_bind. destruct (exec _ d) as [r d']. cbn -[insert_batch insert_records] in *.
  destruct Hc as [[_ Ht]|(n & id & Hf & Hr)]; [by left|right]. exists d'.
  unfold insert_batch in Hf. destruct (insert_records _ _) as [d1|]; [|done].
  cbv beta iota in *.
  injection Hf as _ _ ->. split; [done|]. split; [done|].
  destruct r; [by left|right; by eauto].
Qed.

(** ** Statements that cannot succeed *)

Lemma exec_unknown_column d :
  exists e, exec unknown_column d = (Err e, d <| stmts ::= S |>).
Proof. unfold exec. destruct (stmt (stmts d)); cbn; eauto. Qed.

Definition never_succeeds {A} (m : st database (res A)) : Prop :=
  forall d, (exists e, (m d).1 = Err e) /\ tables_of (m d).2 = tables_of d.

(** A re-encryption job is never created and never marked as failed, and the fills of
    an order are neither stored nor found: whatever the database does, these methods
    return an error and change no table. *)
Lemma impossible_statements j id msg fill order :
  never_succeeds (job_Create j) /\ never_succeeds (job_Fail id msg) /\
  never_succeeds (order_AddFill fill) /\ never_succeeds (order_GetFills order).
Proof.
  unfold job_Create, job_Fail, order_AddFill, order_GetFills, named_exec.
  split_and!; intros d; unfold mbind, st_bind, mret, st_ret;
    try (destruct (sqlx_bind _ _); cbn; [by eauto|]);
    destruct (exec_unknown_column d) as [e ->]; cbn; eauto.
Qed.
End repository_facts.
