(* ===== verification/PersistenceFacts.v ===== *)
(** * The handler on its database

    The persistence of Persistence.v keeps the tables' invariants under any traffic
    and any fault of the database; registering never ends a session that is still
    alive; a lost connection ends the row of its session. *)

From S2P Require Import Prelude GoFloat Protocol Session Conn Telemetry Auth StateM Interfaces Handler HandlerDemo HandlerFrame HandlerFacts HandlerInv HandlerSession HandlerDB GoText Tables Persistence PersistenceDemo TableFacts.

Section persistence_facts.
Context {SE : SqlEnv} {SL : SqlLaws} {CE : CatalogEnv} (staleAfter : Z).

#[local] Instance sp : SessionPersistence database := ws_persistence staleAfter.

(** ** Any call, any fault *)

Local Hint Extern 0 (steps tables_evolve (query _)) => exact (steps_query tables_evolve _) : steps.
Local Hint Extern 0 (steps tables_evolve repo_now) => exact (steps_repo_now tables_evolve) : steps.

Lemma tryRecover_evolves i : steps tables_evolve (tryRecoverStaleActiveSession staleAfter i).
Proof. unfold tryRecoverStaleActiveSession. fold_alone. steps_auto. Qed.

Local Hint Resolve tryRecover_evolves : steps.

#[export] Instance ws_persistence_evolves : PersistenceKeeps tables_evolve.
Proof.
  split; cbn.
  - intros cn. unfold ws_ResolveOrCreateTraderByCN. fold_alone. steps_auto.
  - intros i. unfold ws_CreateSession. fold_alone. steps_auto.
  - intros id r. unfold ws_UpdateTraderRelease. fold_alone. steps_auto.
  - intros sid. unfold ws_UpdateHeartbeat. steps_auto.
  - intros sid r m. unfold ws_FinalizeSession. fold_alone. steps_auto.
  - intros f [= <-]. unfold ws_ListAvailableExchanges. steps_auto.
Qed.

(** ** Registration *)

(** When a session was last heard of, as [isSessionStale] reads it. *)
Definition last_seen (r : TraderSession) : Z :=
  if time_is_zero (se_LastHeartbeat r) then se_ConnectedAt r else se_LastHeartbeat r.

Lemma isSessionStale_last_seen r now :
  isSessionStale r now staleAfter = true ->
  (0 < staleAfter)%Z /\ last_seen r <> time_zero /\ (last_seen r + staleAfter <= now)%Z.
Proof.
  unfold isSessionStale. fold (last_seen r). destruct (staleAfter <=? 0)%Z eqn:E; [done|].
  unfold time_is_zero at 1. destruct (last_seen r =? time_zero)%Z eqn:Ez; [done|].
  unfold time_add. rewrite negb_true_iff. lia.
Qed.

(** The operations of a registration may end a row only if [P] holds of it. *)
Definition ends_only (P : TraderSession -> Prop) (d d' : database) : Prop :=
  forall k r, trader_sessions d !! k = Some r -> is_active r = true ->
    trader_sessions d' !! k = Some r \/ P r.

#[export] Instance ends_only_refl P : Reflexive (ends_only P).
Proof. intros d k r Hr _. by left. Qed.

#[export] Instance ends_only_trans P : Transitive (ends_only P).
Proof.
  intros d1 d2 d3 H1 H2 k r Hr Ha. destruct (H1 k r Hr Ha) as [Hr2|]; [|by right]. by apply H2.
Qed.

#[export] Instance ends_only_table_rel P : TableRel (ends_only P).
Proof.
  split; [split; apply _|]. intros d d' _ Hs k r Hr _. left. by rewrite Hs.
Qed.

Lemma insert_session_ends_only P s : statement_moves (ends_only P) (insert_session s).
Proof.
  intros d n id d'. unfold insert_session.
  destruct (find_row _ _); [done|]. destruct (find_row _ _); [done|].
  destruct (_ !! _); [|done]. intros [= <- <- <-] k r Hr _. left. cbn.
  rewrite lookup_insert_ne; [done|]. intros <-.
  apply elem_of_dom_2 in Hr. by apply auto_id_fresh in Hr.
Qed.

Lemma session_Create_ends_only P s : steps (ends_only P) (session_Create s).
Proof.
  unfold session_Create. destruct (sqlx_bind _ _); [apply (steps_ret (ends_only P))|].
  apply (steps_bind (ends_only P)); [|intros; apply (steps_ret (ends_only P))].
  apply (steps_exec (ends_only P)), insert_session_ends_only.
Qed.

(** [EndSession] ends the rows of its session only. *)
Definition of_session (sid : string) (r : TraderSession) : Prop := same_text (se_SessionID r) sid = true.

Lemma exec_set_ended_ends_only sid now reason msg :
  steps (ends_only (of_session sid)) (exec (update_sessions (active_session sid) (set_ended now reason msg))).
Proof.
  apply (steps_exec (ends_only _)). intros d n id d' [= <- <- <-] k r Hr _. cbn.
  rewrite lookup_fmap, Hr. cbn. unfold of_session, active_session.
  destruct (same_text _ _) eqn:E; [by right|by left].
Qed.

Lemma session_EndSession_ends_only sid reason msg :
  steps (ends_only (of_session sid)) (session_EndSession sid reason msg).
Proof.
  set (R := ends_only _). pose proof (steps_repo_now R).
  assert (forall A what (f : database -> option A), steps R (get_row what f)) as Hg
    by (intros; apply (steps_get_row R)).
  unfold session_EndSession, session_GetBySessionID.
  repeat first [steps_step | apply exec_set_ended_ends_only | apply Hg | done].
Qed.

(** The row [GetActiveByTraderID] answers with is in the table. *)
Lemma session_GetActive_result id d r d' :
  session_GetActiveByTraderID id d = (Ok (Some r), d') ->
  trader_sessions d' = trader_sessions d /\ is_active r = true /\ se_TraderID r = id /\
  exists k, trader_sessions d !! k = Some r.
Proof.
  unfold session_GetActiveByTraderID, get_row, query, mbind, st_bind; cbn.
  destruct (stmt (stmts d)) as [|e|e|e|e]; cbn; try (case_bool_decide; discriminate);
    intros [= Hh <-]; apply head_Some_elem_of in Hh; unfold newest_first in Hh;
    apply elem_of_sort_stable, list_elem_of_filter in Hh as [Hp Hr];
    apply andb_prop in Hp as [Hid Ha]; apply elem_of_rows in Hr; split_and!; try done; lia.
Qed.

(** What a registration ends: the trader's own session, silent for [staleAfter]. *)
Definition recoverable (i : SessionCreateInput) (r : TraderSession) : Prop :=
  se_TraderID r = sci_TraderID i /\ (0 < staleAfter)%Z /\
  (last_seen r + staleAfter <= sci_ConnectedAt i)%Z.

Lemma tryRecover_ends_only i d :
  tables_ok d -> sci_ConnectedAt i <> time_zero ->
  ends_only (recoverable i) d (tryRecoverStaleActiveSession staleAfter i d).2.
Proof.
  intros Hok Hz. unfold tryRecoverStaleActiveSession. fold_alone.
  destruct (staleAfter <=? 0)%Z eqn:Es; [by apply ends_only_refl|].
  unfold mbind, st_bind. destruct (session_GetActiveByTraderID _ d) as [ra d1] eqn:Eg.
  assert (ends_only (recoverable i) d d1) as H1.
  { change d1 with ((ra, d1).2). rewrite <- Eg. apply (steps_get_row (ends_only _)). }
  destruct ra as [[active|]|e]; cbn; [|done..].
  apply session_GetActive_result in Eg as (Hs & Ha & Hid & k & Hk).
  unfold time_is_zero. rewrite (proj2 (Z.eqb_neq _ _) Hz). cbn.
  destruct (isSessionStale active _ staleAfter) eqn:Est; cbn; [|done].
  apply isSessionStale_last_seen in Est as (Hpos & _ & Hst).
  fold_alone. destruct (session_EndSession _ _ _ d1) as [r d2] eqn:Ee. cbn.
  intros k' r' Hr' Ha'.
  pose proof (session_EndSession_ends_only (se_SessionID active) DisconnectTimeout
    (Some (stale_message staleAfter active)) d1 k' r') as He.
  rewrite Ee, Hs in He. destruct (He Hr' Ha') as [|Hsame]; [by left|right].
  apply same_text_true in Hsame.
  pose proof (ok_session_id d Hok _ _ _ _ Hr' Hk Hsame) as ->.
  rewrite Hk in Hr'. injection Hr' as <-. done.
Qed.

Lemma session_Create_Ok s d id d' :
  session_Create s d = (Ok id, d') ->
  trader_sessions d !! id = None /\
  exists row, trader_sessions d' !! id = Some row /\ is_active row = true /\
    se_SessionID row = se_SessionID s /\ se_TraderID row = se_TraderID s.
Proof.
  unfold session_Create. destruct (sqlx_bind _ _); [discriminate|].
  unfold mbind, st_bind, exec. set (d1 := d <| stmts ::= S |>).
  destruct (insert_session s d1) as [[[n id'] d2]|e] eqn:Ei;
    [|destruct (stmt (stmts d)); cbn; discriminate].
  assert (trader_sessions d1 !! id' = None /\ exists row, trader_sessions d2 !! id' = Some row /\
    is_active row = true /\ se_SessionID row = se_SessionID s /\ se_TraderID row = se_TraderID s) as Hid.
  { revert Ei. unfold insert_session. destruct (find_row _ _); [done|]. destruct (find_row _ _); [done|].
    destruct (_ !! _); [|done]. intros [= <- <- <-]. split.
    - apply not_elem_of_dom, auto_id_fresh.
    - cbn. eexists. rewrite lookup_insert_eq. split; [done|]. by split_and!. }
  destruct (stmt (stmts d)); cbn; try discriminate; intros [= <- <-]; exact Hid.
Qed.

Lemma ws_CreateSession_ends_only i d :
  tables_ok d -> sci_ConnectedAt i <> time_zero ->
  ends_only (recoverable i) d (ws_CreateSession staleAfter i d).2.
Proof.
  intros Hok Hz. unfold ws_CreateSession. fold_alone. unfold mbind, st_bind.
  pose proof (session_Create_ends_only (recoverable i) (session_of_input i) d) as H1.
  pose proof (session_Create_evolves (session_of_input i) d) as [Hok1 _].
  destruct (session_Create _ d) as [[id|err] d1]; cbn in *; [done|].
  destruct (isMySQLDuplicateEntryError err); cbn; [|done].
  pose proof (tryRecover_ends_only i d1 (Hok1 Hok) Hz) as H2.
  destruct (tryRecoverStaleActiveSession staleAfter i d1) as [[[]|e] d2]; cbn in *;
    try (by etransitivity).
  pose proof (session_Create_ends_only (recoverable i) (session_of_input i) d2) as H3.
  destruct (session_Create _ d2) as [r d3]; cbn in *. etransitivity; [done|]. by etransitivity.
Qed.

Lemma ws_CreateSession_Ok i d d' :
  ws_CreateSession staleAfter i d = (Ok tt, d') ->
  exists k row, trader_sessions d !! k = None /\ trader_sessions d' !! k = Some row /\
    is_active row = true /\ se_SessionID row = sci_SessionID i /\ se_TraderID row = sci_TraderID i.
Proof.
  unfold ws_CreateSession. fold_alone. unfold mbind, st_bind.
  destruct (session_Create _ d) as [[id|err] d1] eqn:E1.
  { intros [= <-]. apply session_Create_Ok in E1 as (? & row & ?). by exists id, row. }
  pose proof (session_Create_evolves (session_of_input i) d) as [_ G1].
  destruct (isMySQLDuplicateEntryError err); cbn; [|discriminate].
  pose proof (tryRecover_evolves i d1) as [_ G2].
  destruct (tryRecoverStaleActiveSession staleAfter i d1) as [[[]|e] d2]; cbn; try discriminate.
  destruct (session_Create _ d2) as [[id|e] d3] eqn:E2; cbn;
    [|destruct (isMySQLDuplicateEntryError e); discriminate].
  intros [= <-]. apply session_Create_Ok in E2 as (Hnone & row & ?). exists id, row.
  split; [|done]. rewrite E1 in G1. cbn in *.
  destruct (trader_sessions d !! id) as [r|] eqn:Er; [|done]. exfalso.
  destruct (proj1 G1 _ _ Er) as (r1 & Hr1 & _). destruct (proj1 G2 _ _ Hr1) as (r2 & Hr2 & _).
  cbn in *. congruence.
Qed.

(** ** The end of a connection *)

Lemma normalize_attempts cfg : (0 < MaxAttempts (normalizeDBRetryConfig cfg))%Z.
Proof.
  unfold normalizeDBRetryConfig. destruct cfg as [a i m]. cbn.
  destruct (a <=? 0)%Z eqn:Ea; cbn; destruct (i <=? 0)%Z; cbn; destruct (m <=? 0)%Z; cbn;
    case_match; cbn; lia.
Qed.

Section handler.
Context {S : Type} `{!RuntimeSink S} `{!WsJson} `{!ServeEnv} (h : handler_config).

Abbreviation W := (world database S).

(** From now on every statement is executed and answered. *)
Definition reliable (d : database) : Prop := forall n, (stmts d <= n)%nat -> stmt n = StmtDone.

(** The rows after a session has been ended. *)
Definition ended_rows (sid reason : string) (now : Z) (msg : option string)
    (t : gmap Z TraderSession) : gmap Z TraderSession :=
  (fun row => if active_session sid row then set_ended now reason msg row else row) <$> t.

Lemma session_EndSession_reliable sid reason msg d :
  reliable d ->
  let '(r, d') := session_EndSession sid reason msg d in
  reliable d' /\
  trader_sessions d' = ended_rows sid reason (sql_clock (reads d)) msg (trader_sessions d) /\
  (is_ok r = false -> trader_sessions d' = trader_sessions d).
Proof.
  intros Hrel. unfold session_EndSession, exec, repo_now, mbind, st_bind. cbn.
  rewrite Hrel by done. cbn. set (t' := _ <$> _).
  assert (forall n : nat, (Datatypes.S (stmts d) <= n)%nat -> stmt n = StmtDone) as Hn.
  { intros n Hle. apply Hrel. lia. }
  destruct (_ =? 0)%Z eqn:Ez.
  - assert (t' = trader_sessions d) as Ht'.
    { apply Z.eqb_eq in Ez. apply map_eq. intros k. unfold t'. rewrite lookup_fmap.
      destruct (trader_sessions d !! k) as [row|] eqn:Er; [cbn|done].
      destruct (active_session sid row) eqn:Ea; [|done]. f_equal.
      exact (update_rows_none _ _ _ _ _ Ez Er Ea). }
    unfold session_GetBySessionID, get_row, query, mbind, st_bind. cbn. rewrite Hn by done. cbn.
    split_and!; [|done|done]. intros n Hle. apply Hn. cbn in Hle. lia.
  - cbn. split_and!; [|done|done]. intros n Hle. apply Hn. cbn in Hle. lia.
Qed.

(** Every reason a read error is classified under has a column value, but one. *)
Lemma mapDisconnectReason_classified e :
  errors_as_close e <> Some wsCloseCodeSequenceGap ->
  is_ok (mapDisconnectReason (classifyWSDisconnectReason (Some e)).1) = true.
Proof.
  intros Hne. unfold classifyWSDisconnectReason.
  assert (forall r, is_ok (mapDisconnectReason (disconnectReason_string r)) = true) as Hr by by intros [].
  destruct (errors_as_close e) as [code|]; [|apply Hr].
  destruct (code =? wsCloseCodeSequenceGap)%Z eqn:E; [|apply Hr].
  apply Z.eqb_eq in E as ->. done.
Qed.

Lemma ended_rows_idem sid r1 n1 m1 r2 n2 m2 t :
  ended_rows sid r2 n2 m2 (ended_rows sid r1 n1 m1 t) = ended_rows sid r1 n1 m1 t.
Proof.
  unfold ended_rows. rewrite <- map_fmap_compose. apply map_fmap_ext. intros k row _. cbn.
  destruct (active_session sid row) eqn:E; [|by rewrite E].
  unfold active_session at 1. by rewrite andb_false_r.
Qed.

Definition finalize (sid reason : string) (msg : option string) : st W (res unit) :=
  db_call (FinalizeSession sid reason msg).

Lemma retry_finalize n delay sid reason mapped msg (w : W) :
  mapDisconnectReason reason = Ok mapped -> reliable (db w) -> (0 < n)%nat ->
  trader_sessions (db (retry_loop h n delay (finalize sid reason msg) w).2) =
  ended_rows sid mapped (sql_clock (reads (db w))) msg (trader_sessions (db w)).
Proof.
  intros Hm. revert delay w. induction n as [|n IH]; intros delay w Hrel Hn; [lia|].
  cbn [retry_loop]. unfold mbind, st_bind, finalize at 1, db_call.
  cbn [FinalizeSession sp ws_persistence]. unfold ws_FinalizeSession. rewrite Hm. fold_alone.
  pose proof (session_EndSession_reliable sid mapped msg (db w) Hrel) as He.
  destruct (session_EndSession sid mapped msg (db w)) as [[u|e] d'];
    destruct He as (Hrel' & Hrows & Hsame); [done|].
  destruct (errors_is e ErrActiveSessionExists); [done|]. destruct n as [|n]; [done|].
  unfold emit, modify. etransitivity; [by apply IH; [|lia]|].
  cbn [db]. cbn. rewrite Hrows. apply ended_rows_idem.
Qed.

Lemma retry_finalize_refused n delay sid reason msg (w : W) :
  is_ok (mapDisconnectReason reason) = false ->
  db (retry_loop h n delay (finalize sid reason msg) w).2 = db w.
Proof.
  intros Hm. revert delay w. induction n as [|n IH]; intros delay w; [done|].
  cbn [retry_loop]. unfold mbind, st_bind, finalize at 1, db_call.
  cbn [FinalizeSession sp ws_persistence]. unfold ws_FinalizeSession.
  destruct (mapDisconnectReason reason) as [|e]; [done|]. cbn.
  destruct (errors_is e ErrActiveSessionExists); [done|]. destruct n as [|n]; [done|].
  unfold emit, modify. by rewrite IH.
Qed.

(** What the end of a call reads. *)
Definition end_view (w : W) := (db w, persistedSession (loc w), sessionID (session (loc w))).

Lemma end_view_timeout nowMs reason :
  steps (same end_view)
    (if reason =s wsDisconnectReasonTimeout then
       ok ← gets (fun w : W => (markTimedOut nowMs (session (loc w))).1);
       modify_session (fun s => (markTimedOut nowMs s).2);;
       when ok (syncRuntimeTimeout (go_div nowMs 1000))
     else mret tt).
Proof.
  destruct (reason =s wsDisconnectReasonTimeout); [|apply (steps_ret (same end_view))].
  unfold syncRuntimeTimeout. steps_auto; intros w; try reflexivity.
  unfold same, end_view. cbn. by rewrite markTimedOut_sessionID.
Qed.

Lemma end_view_record r b : steps (same end_view) (recordDisconnect r b).
Proof. unfold recordDisconnect, syncRuntimeDisconnect. steps_auto; intros w; reflexivity. Qed.

Lemma end_view_bind {A B V} (view : W -> V) (m : st W A) (k : A -> st W B) w :
  steps (same view) m -> exists a w', view w' = view w /\ (m ≫= k) w = k a w'.
Proof. intros Hm. exists (m w).1, (m w).2. split; [apply Hm|]. unfold mbind, st_bind. by destruct (m w). Qed.

Lemma end_tail_db (w : W) :
  db ((modify_session markDisconnected;;
       (sid ← current_session_id; deleteSessionSnapshot sid);;
       (sid ← current_session_id; removeConnection sid)) w).2 = db w.
Proof.
  set (m := _ ≫= _). enough (steps (same db) m) as Hs by apply Hs.
  apply (steps_bind (same db)); [intros w5; reflexivity|intros _].
  apply (steps_bind (same db)).
  - intros w5. unfold current_session_id, deleteSessionSnapshot, mbind, st_bind, gets; cbn.
    by destruct (str_empty _).
  - intros _ w5. apply (removeConnection_db (sessionID (session (loc w5)))).
Qed.

Ltac view_bind a w' E tac :=
  lazymatch goal with
  | |- context [ (?m ≫= ?k) ?w ] => destruct (end_view_bind end_view m k w) as (a & w' & E & ->); [tac|]
  end.

Lemma serve_read_error_db c err (w : W) :
  let reason := (classifyWSDisconnectReason (Some err)).1 in
  exists w0, end_view w0 = end_view w /\
    db (serve_read_error h c err w).2 =
    (if persistence h && persistedSession (loc w)
     then db (withDBWriteRetry h "finalize_session" tt
                (finalize (sessionID (session (loc w))) reason (Some (error_text err))) w0).2
     else db w).
Proof.
  unfold serve_read_error. destruct (classifyWSDisconnectReason (Some err)) as [reason b]. cbn [fst].
  view_bind now w1 E1 ltac:(by intros ?). cbv zeta.
  view_bind u2 w2 E2 ltac:(apply end_view_record).
  view_bind u3 w3 E3 ltac:(apply end_view_timeout).
  rewrite E2, E1 in E3. exists w3. split; [done|].
  pose proof E3 as [= E4 E5 E6]. rewrite <- E4, <- E5, <- E6. clear.
  change ((gets (session ∘ loc) ≫= ?k) w3) with (k (session (loc w3)) w3).
  cbv beta.
  change ((gets (persistedSession ∘ loc) ≫= ?k) w3) with (k (persistedSession (loc w3)) w3).
  cbv beta. destruct (persistence h && persistedSession (loc w3)).
  - unfold finalize. unfold mbind at 1, st_bind at 1. unfold mbind at 1, st_bind at 1.
    destruct (withDBWriteRetry h _ _ _ w3) as [r w4]. apply end_tail_db.
  - apply end_tail_db.
Qed.

(** ** More traffic for a call that is waiting *)

Lemma serve_loop_snoc c traffic i (w w1 : W) :
  serve_loop h c traffic w = (None, w1) ->
  serve_loop h c (traffic ++ [i]) w = serve_loop h c [i] w1.
Proof.
  revert w. induction traffic as [|j traffic IH]; intros w; cbn [serve_loop app].
  { by intros [= <-]. }
  unfold mbind, st_bind. destruct (serve_turn h c j w) as [[] w2]; [apply IH|discriminate].
Qed.

Lemma Serve_read_error r conn connID sid rid ip traffic err (w w1 : W) :
  Serve h r conn connID sid rid ip traffic w = (inl None, w1) ->
  exists c, Serve h r conn connID sid rid ip (traffic ++ [InError err]) w =
    (inl (Some Return), (serve_defers conn sid (serve_read_error h c err w1).2).2).
Proof.
  unfold Serve. destruct (authorizeWSClientCertificate _ _) as [[]|]; [|discriminate].
  unfold mbind, st_bind, mret, st_ret. cbv zeta.
  destruct (serve_open _ _ _ _ _ _ _ w) as [c w0].
  destruct (serve_loop h c traffic w0) as [[k|] w2] eqn:El.
  { destruct (serve_defers conn sid w2). discriminate. }
  intros [= <-]. exists c. rewrite (serve_loop_snoc _ _ _ _ _ El).
  cbn [serve_loop serve_turn]. unfold mbind, st_bind, mret, st_ret.
  destruct (serve_read_error h c err w2) as [[] w3]. cbn [snd].
  by destruct (serve_defers conn sid w3) as [[] w4].
Qed.

(** ** Properties of the composition *)

Lemma waiting_session_id r conn connID sid rid ip traffic (w w1 : W) :
  Serve h r conn connID sid rid ip traffic w = (inl None, w1) ->
  sessionID (session (loc w1)) = sid.
Proof.
  intros Hs. pose proof (Serve_phases h r conn connID sid rid ip traffic w) as Hp. rewrite Hs in Hp.
  inversion Hp as [|c w0 w2 _ Ho Hl|]; subst.
  destruct (serve_open_spec h w _ _ _ _ _ _ _ _ Ho) as (_ & Hse & _).
  pose proof (serve_loop_runs h (newSessionRuntime sid) c traffic (session_live_new sid) w0 Hse) as Hr.
  rewrite Hl in Hr. by destruct Hr as [[Hid _ _] _].
Qed.

Lemma finalize_with_retry sid err (w : W) :
  persistence h = true -> (0 < MaxAttempts (dbRetry h))%Z -> reliable (db w) ->
  let reason := (classifyWSDisconnectReason (Some err)).1 in
  trader_sessions (db (withDBWriteRetry h "finalize_session" tt
                         (finalize sid reason (Some (error_text err))) w).2) =
  match mapDisconnectReason reason with
  | Ok mapped => ended_rows sid mapped (sql_clock (reads (db w))) (Some (error_text err))
                   (trader_sessions (db w))
  | Err _ => trader_sessions (db w)
  end.
Proof.
  intros Hp Hn Hrel reason. unfold withDBWriteRetry. rewrite Hp. cbn [negb].
  unfold mbind at 1, st_bind. set (n := Z.to_nat _). assert (0 < n)%nat as Hn' by lia.
  pose proof (retry_finalize n (InitialDelay (dbRetry h)) sid reason) as H1.
  pose proof (retry_finalize_refused n (InitialDelay (dbRetry h)) sid reason) as H2.
  destruct (mapDisconnectReason reason) as [mapped|e] eqn:Em.
  - specialize (H1 mapped (Some (error_text err)) w eq_refl Hrel Hn').
    by destruct (retry_loop h n _ _ w).
  - specialize (H2 (Some (error_text err)) w eq_refl).
    destruct (retry_loop h n _ _ w). cbn in *. by rewrite H2.
Qed.
End handler.

(** A registration that is alone never ends a session that is alive:
    whatever the database answers, a row that was active before [CreateSession] and is not unchanged after
    it belongs to the same trader and had not been heard of for the configured time.
    When the registration succeeds, the new row is the only active one of the
    trader. *)
Theorem registration_spares_live_sessions (i : SessionCreateInput) (d : database)
    (Hok : tables_ok d) (Hz : sci_ConnectedAt i <> time_zero) :
  let '(r, d') := ws_CreateSession staleAfter i d in
  (forall k row, trader_sessions d !! k = Some row -> is_active row = true ->
     trader_sessions d' !! k = Some row \/
     se_TraderID row = sci_TraderID i /\ (0 < staleAfter)%Z /\
     (last_seen row + staleAfter <= sci_ConnectedAt i)%Z) /\
  (r = Ok tt ->
     exists k row, trader_sessions d !! k = None /\ trader_sessions d' !! k = Some row /\
       se_SessionID row = sci_SessionID i /\
       forall k' row', trader_sessions d' !! k' = Some row' -> is_active row' = true ->
         se_TraderID row' = sci_TraderID i -> k' = k).
Proof.
  pose proof (ws_CreateSession_ends_only i d Hok Hz) as He.
  pose proof (pk_create (PersistenceKeeps := ws_persistence_evolves) i d) as [Hok' _].
  cbn in Hok'. pose proof (ws_CreateSession_Ok i d) as Hr.
  destruct (ws_CreateSession staleAfter i d) as [r d']. cbn in *. split; [exact He|].
  intros ->. destruct (Hr d' eq_refl) as (k & row & Hk & Hrow & Ha & Hs & Ht).
  exists k, row. split_and!; [done..|]. intros k' row' Hrow' Ha' Ht'.
  apply (ok_single_active d' (Hok' Hok) _ _ _ _ Hrow' Hrow); congruence.
Qed.

(** Over a whole [Serve] call, whatever its traffic and whatever the database
    does to each statement, the tables stay sound (unique keys, at most one active
    session per trader, sessions of known traders only), no row is lost, a row keeps
    its trader and its session id, and a session that has ended is never reopened or
    changed. *)
Theorem Serve_keeps_tables {S : Type} `{!RuntimeSink S} `{!WsJson} `{!ServeEnv} (h : handler_config)
    (r : http_request) (conn : Z) (connID sid rid ip : string) (traffic : list inbound)
    (w : world database S) (Hok : tables_ok (db w)) :
  let w' := (Serve h r conn connID sid rid ip traffic w).2 in
  tables_ok (db w') /\ grows (db w) (db w').
Proof.
  destruct (Serve_in_db h tables_evolve r conn connID sid rid ip traffic w) as [Hk Hg]. auto.
Qed.

(** C38. A connection that breaks does not leave its session behind: when the read
    of a persisted session fails and the database works again, the active row of the
    session ends with the reason and the text of the error, and no other row changes.
    The exception is a peer that closes with code 4009: its reason has no column
    value, the finalization is refused and the row stays as it was. *)
Theorem lost_connection_ends_row {S : Type} `{!RuntimeSink S} `{!WsJson} `{!ServeEnv}
    (opts : HandlerOptions) (r : http_request) (conn : Z) (connID sid rid ip : string)
    (traffic : list inbound) (err : go_error) (w w1 : world database S)
    (Hp : ho_Persistence opts = true)
    (Hw : Serve (NewHandlerWithOptions opts) r conn connID sid rid ip traffic w = (inl None, w1))
    (Hs : persistedSession (loc w1) = true) (Hdb : reliable (db w1)) :
  let '(k, w2) := Serve (NewHandlerWithOptions opts) r conn connID sid rid ip
                    (traffic ++ [InError err]) w in
  k = inl (Some Return) /\
  if bool_decide (errors_as_close err = Some wsCloseCodeSequenceGap)
  then trader_sessions (db w2) = trader_sessions (db w1)
  else exists reason, mapDisconnectReason (classifyWSDisconnectReason (Some err)).1 = Ok reason /\
      trader_sessions (db w2) =
      (fun row => if active_session sid row
                  then set_ended (sql_clock (reads (db w1))) reason (Some (error_text err)) row
                  else row) <$> trader_sessions (db w1).
Proof.
  set (h := NewHandlerWithOptions opts) in *.
  assert (0 < MaxAttempts (dbRetry h))%Z as Hn by apply normalize_attempts.
  destruct (Serve_read_error h r conn connID sid rid ip traffic err w w1 Hw) as [c ->].
  pose proof (waiting_session_id h _ _ _ _ _ _ _ _ _ Hw) as Hid.
  destruct (serve_read_error_db h c err w1) as (w3 & Hv & Hd). cbv zeta in Hd.
  split; [done|]. rewrite serve_defers_db, Hd. change (persistence h) with (ho_Persistence opts).
  rewrite Hp, Hs. cbn [andb]. injection Hv as Hv1 Hv2 Hv3. rewrite Hid.
  rewrite (finalize_with_retry h sid err w3 Hp Hn) by (by rewrite Hv1). rewrite Hv1.
  case_bool_decide as Hc.
  - unfold classifyWSDisconnectReason. by rewrite Hc.
  - pose proof (mapDisconnectReason_classified err Hc) as Hm.
    destruct (mapDisconnectReason _) as [reason|e]; [|done]. by exists reason.
Qed.
End persistence_facts.

(** ** Witnesses *)

Lemma tables_ok_empty `{!SqlEnv} : tables_ok empty_database.
Proof. split; cbn; intros *; rewrite ?lookup_empty; try done; by intros ? ?%lookup_empty_Some. Qed.

Lemma demo_database_ok : tables_ok demo_database.
Proof.
  pose proof (ws_persistence_evolves demo_stale) as HP.
  apply (pk_create (PersistenceKeeps := HP)), (pk_resolve (PersistenceKeeps := HP)), tables_ok_empty.
Qed.

(** A second session of the trader, 200 seconds later: the first one is stale. *)
Lemma registration_spares_live_sessions_witness :
  (ws_CreateSession demo_stale (demo_input "s1" (1200 * Second)) demo_database).1 = Ok tt /\
  exists k row, trader_sessions demo_database !! k = None /\
    trader_sessions (ws_CreateSession demo_stale (demo_input "s1" (1200 * Second)) demo_database).2
      !! k = Some row /\ se_SessionID row = "s1".
Proof.
  assert ((ws_CreateSession demo_stale (demo_input "s1" (1200 * Second)) demo_database).1 = Ok tt)
    as Hr by (vm_compute; reflexivity).
  split; [exact Hr|].
  pose proof (registration_spares_live_sessions demo_stale (demo_input "s1" (1200 * Second))
    demo_database demo_database_ok ltac:(vm_compute; discriminate)) as Hw.
  destruct (ws_CreateSession _ _ _) as [r d']. destruct Hw as [_ Hw].
  destruct (Hw Hr) as (k & row & ? & ? & ? & _). by exists k, row.
Defined.

Definition demo_db_world : world database Z :=
  {| hs := new_handler_state; loc := demo_locals ""; db := demo_database; sink := Some 0%Z;
     tick := 0; wtick := 0; out := [] |}.

#[local] Instance demo_ws : SessionPersistence database := ws_persistence demo_stale.

Definition demo_db_serve (traffic : list inbound) : (option ctl + string) * world database Z :=
  Serve demo_config demo_request 5 "c1" "s1" "q1" "10.0.0.1" traffic demo_db_world.

Lemma Serve_keeps_tables_witness :
  tables_ok (db demo_db_world) /\ tables_ok (db (demo_db_serve [InMessage true "register"]).2).
Proof.
  split; [exact demo_database_ok|].
  exact (proj1 (Serve_keeps_tables demo_stale demo_config demo_request 5 "c1" "s1" "q1" "10.0.0.1"
    [InMessage true "register"] demo_db_world demo_database_ok)).
Defined.

Lemma lost_connection_ends_row_witness :
  (demo_db_serve [InMessage true "register"]).1 = inl None /\
  exists reason, trader_sessions (db (demo_db_serve [InMessage true "register"; InError (ESentinel IoEOF)]).2) =
    (fun row => if active_session "s1" row
                then set_ended (sql_clock (reads (db (demo_db_serve [InMessage true "register"]).2))) reason
                       (Some "EOF") row
                else row)
    <$> trader_sessions (db (demo_db_serve [InMessage true "register"]).2).
Proof.
  assert ((demo_db_serve [InMessage true "register"]).1 = inl None) as H1 by (vm_compute; reflexivity).
  assert (persistedSession (loc (demo_db_serve [InMessage true "register"]).2) = true) as H2
    by (vm_compute; reflexivity).
  split; [exact H1|]. unfold demo_db_serve in *.
  destruct (Serve _ _ _ _ _ _ _ [InMessage true "register"] _) as [k w1] eqn:E. cbn in H1, H2. subst k.
  pose proof (lost_connection_ends_row demo_stale demo_options demo_request 5 "c1" "s1" "q1" "10.0.0.1"
    [InMessage true "register"] (ESentinel IoEOF) demo_db_world w1 eq_refl E H2 (fun _ _ => eq_refl)) as Hw.
  change (NewHandlerWithOptions demo_options) with demo_config in Hw. cbn [app] in Hw.
  destruct (Serve _ _ _ _ _ _ _ [InMessage true "register"; InError _] _) as [k2 w2].
  destruct Hw as [_ (reason & _ & Hrows)]. exists reason. exact Hrows.
Defined.
