(* ===== verification/Calls.v ===== *)
(** * Calls of the database side by side

    The handler calls its persistence from one goroutine per connection, and a call
    sends its statements one at a time: between two of them the other calls send
    theirs.  A call is a [prog], which stops before each of its statements; a [pool]
    holds the calls that have been made and the tables they share.  The order of the
    statements is a list of events. *)

From S2P Require Import Prelude Protocol StateM Interfaces GoText Tables Persistence.

(** ** Programs that stop before each statement *)

Inductive prog (A : Type) : Type :=
  | Return (a : A)
  | Statement {B : Type} (m : st database B) (next : B -> prog A).

Arguments Return {A} _.
Arguments Statement {A B} _ _.

#[export] Instance prog_ret : MRet prog := fun A a => Return a.

#[export] Instance prog_bind : MBind prog :=
  fun A B f =>
    fix go (p : prog A) : prog B :=
      match p with
      | Return a => f a
      | Statement m next => Statement m (fun b => go (next b))
      end.

#[export] Instance prog_fmap : FMap prog := fun A B f p => p ≫= fun a => Return (f a).

#[export] Instance prog_send : Sends prog := fun A m => Statement m Return.

(** The program without anyone else. *)
Fixpoint alone {A} (p : prog A) : st database A :=
  match p with
  | Return a => mret a
  | Statement m next => b ← m; alone (next b)
  end.

Section calls.
Context `{!SqlEnv, !CatalogEnv} (staleAfter : Z).

(** ** The calls of the handler *)

Inductive persistence_call :=
  | CallResolve (certificateCN : string)
  | CallCreate (input : SessionCreateInput)
  | CallRelease (traderID : Z) (release : string)
  | CallHeartbeat (sid : string)
  | CallFinalize (sid reason : string) (errorMsg : option string)
  | CallCatalog.

Inductive answer :=
  | AnsTrader (r : res TraderIdentity)
  | AnsDone (r : res unit)
  | AnsCatalog (r : res (list ExchangeCatalogEntry)).

Definition program (c : persistence_call) : prog answer :=
  match c with
  | CallResolve cn => AnsTrader <$> ws_ResolveOrCreateTraderByCN_in cn
  | CallCreate i => AnsDone <$> ws_CreateSession_in staleAfter i
  | CallRelease id release => AnsDone <$> ws_UpdateTraderRelease_in id release
  | CallHeartbeat sid => AnsDone <$> session_UpdateHeartbeat_in sid
  | CallFinalize sid reason msg => AnsDone <$> ws_FinalizeSession_in sid reason msg
  | CallCatalog => AnsCatalog <$> send ws_ListAvailableExchanges
  end.

(** ** The pool *)

Record thread := { th_call : persistence_call; th_rest : prog answer }.

(** One statement: whose, and the tables before and after. *)
Record move := { mv_thread : nat; mv_before : database; mv_after : database }.

Record pool := { po_db : database; po_threads : list thread; po_moves : list move }.

Definition idle (d : database) : pool := {| po_db := d; po_threads := []; po_moves := [] |}.

(** A goroutine makes a call, or a call sends its next statement. *)
Inductive event := Start (c : persistence_call) | Advance (n : nat).

Definition pool_step (p : pool) (e : event) : pool :=
  match e with
  | Start c =>
      {| po_db := po_db p; po_threads := po_threads p ++ [{| th_call := c; th_rest := program c |}];
         po_moves := po_moves p |}
  | Advance n =>
      match po_threads p !! n with
      | Some {| th_call := c; th_rest := Statement m next |} =>
          let '(b, d') := m (po_db p) in
          {| po_db := d'; po_threads := <[n := {| th_call := c; th_rest := next b |}]> (po_threads p);
             po_moves := po_moves p ++ [{| mv_thread := n; mv_before := po_db p; mv_after := d' |}] |}
      | _ => p
      end
  end.

Definition pool_run (events : list event) (p : pool) : pool := foldl pool_step p events.
End calls.
