(* ===== verification/CallsFacts.v ===== *)
(** * What calls side by side keep

    A proof of a call assumes of the others what each of them guarantees: [wp] runs a
    program with moves of the other calls between any two of its statements, and
    [pool_invariant] discharges the assumption, call by call, for a whole pool.  A
    call that is alone is the call of Persistence.v ([program_alone]). *)

From S2P Require Import Prelude Protocol StateM Interfaces GoText Tables Persistence PersistenceDemo TableFacts HandlerDB PersistenceFacts Calls.

(** ** Alone *)

Lemma alone_bind {A B} (p : prog A) (f : A -> prog B) d :
  alone (p ≫= f) d = (alone p ≫= fun a => alone (f a)) d.
Proof.
  revert d. induction p as [a|B' m next IH]; intros d; [done|].
  change (alone (Statement m next ≫= f) d) with ((m ≫= fun b => alone (next b ≫= f)) d).
  change (alone (Statement m next) ≫= ?k) with ((m ≫= fun b => alone (next b)) ≫= k).
  unfold mbind, st_bind. destruct (m d) as [b d']. apply IH.
Qed.

Lemma alone_send {A} (m : st database A) d : alone (send m) d = m d.
Proof. cbn. unfold mbind, st_bind. by destruct (m d). Qed.

Section alone_calls.
Context `{!SqlEnv, !CatalogEnv} (staleAfter : Z).

(** The call in one piece. *)
Definition direct (c : persistence_call) : st database answer :=
  match c with
  | CallResolve cn => r ← ws_ResolveOrCreateTraderByCN cn; mret (AnsTrader r)
  | CallCreate i => r ← ws_CreateSession staleAfter i; mret (AnsDone r)
  | CallRelease id release => r ← ws_UpdateTraderRelease id release; mret (AnsDone r)
  | CallHeartbeat sid => r ← ws_UpdateHeartbeat sid; mret (AnsDone r)
  | CallFinalize sid reason msg => r ← ws_FinalizeSession sid reason msg; mret (AnsDone r)
  | CallCatalog => r ← ws_ListAvailableExchanges; mret (AnsCatalog r)
  end.

Lemma alone_fmap {A B} (f : A -> B) (p : prog A) (m : st database A) d :
  (forall d, alone p d = m d) -> alone (f <$> p) d = (r ← m; mret (f r)) d.
Proof.
  intros Hp. change (f <$> p) with (p ≫= fun a => Return (f a)). rewrite alone_bind.
  unfold mbind, st_bind. by rewrite Hp.
Qed.

(** Two programs that begin alike are compared after their beginning. *)
Lemma alone_bind_eq {A B} (p : prog A) (m : st database A) (f : A -> prog B) (k : A -> st database B) d :
  (forall d, alone p d = m d) -> (forall a d, alone (f a) d = k a d) ->
  alone (p ≫= f) d = (m ≫= k) d.
Proof.
  intros Hp Hf. rewrite alone_bind. unfold mbind, st_bind. rewrite Hp.
  destruct (m d) as [a d']. apply Hf.
Qed.

Ltac alone_step :=
  lazymatch goal with
  | |- alone (send _) _ = _ => apply alone_send
  | |- alone (_ ≫= _) _ = (_ ≫= _) _ => apply alone_bind_eq; intros
  | |- alone (match ?x with _ => _ end) _ = _ => destruct x
  | |- alone (mret _) _ = _ => reflexivity
  | |- _ => solve [eauto]
  end.
Ltac alone_auto := repeat (cbv zeta; fold_alone; alone_step).

Lemma alone_EndSession sid reason msg d :
  alone (session_EndSession_in sid reason msg) d = session_EndSession sid reason msg d.
Proof. unfold session_EndSession_in, session_EndSession. alone_auto. Qed.

Lemma alone_UpdateHeartbeat sid d :
  alone (session_UpdateHeartbeat_in sid) d = session_UpdateHeartbeat sid d.
Proof. unfold session_UpdateHeartbeat_in, session_UpdateHeartbeat. alone_auto. Qed.

Lemma alone_GetOrCreate cn d :
  alone (trader_GetOrCreateByCertificateCN_in cn) d = trader_GetOrCreateByCertificateCN cn d.
Proof. unfold trader_GetOrCreateByCertificateCN_in, trader_GetOrCreateByCertificateCN. alone_auto. Qed.

Lemma alone_UpdateRelease id release d :
  alone (trader_UpdateRelease_in id release) d = trader_UpdateRelease id release d.
Proof. unfold trader_UpdateRelease_in, trader_UpdateRelease. alone_auto. Qed.

Hint Resolve alone_EndSession alone_UpdateHeartbeat alone_GetOrCreate alone_UpdateRelease : core.

Lemma alone_tryRecover i d :
  alone (tryRecoverStaleActiveSession_in staleAfter i) d = tryRecoverStaleActiveSession staleAfter i d.
Proof. unfold tryRecoverStaleActiveSession_in, tryRecoverStaleActiveSession. alone_auto. Qed.

Hint Resolve alone_tryRecover : core.

(** With no other call in between, a call is the call of Persistence.v. *)
Theorem program_alone (c : persistence_call) (d : database) :
  alone (program staleAfter c) d = direct c d.
Proof.
  destruct c; unfold program, direct; apply alone_fmap; intros d0.
  - unfold ws_ResolveOrCreateTraderByCN_in, ws_ResolveOrCreateTraderByCN. alone_auto.
  - unfold ws_CreateSession_in, ws_CreateSession. alone_auto.
  - unfold ws_UpdateTraderRelease_in, ws_UpdateTraderRelease. alone_auto.
  - apply alone_UpdateHeartbeat.
  - unfold ws_FinalizeSession_in, ws_FinalizeSession. alone_auto.
  - apply alone_send.
Qed.
End alone_calls.

(** ** Among others

    [wp n G p Q ms d]: the program [p] of call [n], with the moves [ms] made so far
    and the tables [d], makes only moves that satisfy [G] and ends in [Q], if the
    others move along [tables_evolve]. *)

Section among_others.
Context `{!SqlEnv}.

Definition others_moved (n : nat) (ms ms' : list move) (d d' : database) : Prop :=
  tables_evolve d d' /\ exists l, ms' = ms ++ l /\ Forall (fun mv => mv_thread mv <> n) l.

Lemma others_moved_refl n ms d : others_moved n ms ms d d.
Proof. split; [done|]. exists []. by rewrite app_nil_r. Qed.

Lemma others_moved_trans n ms1 ms2 ms3 d1 d2 d3 :
  others_moved n ms1 ms2 d1 d2 -> others_moved n ms2 ms3 d2 d3 -> others_moved n ms1 ms3 d1 d3.
Proof.
  intros [H1 (l1 & -> & F1)] [H2 (l2 & -> & F2)]. split; [by transitivity d2|].
  exists (l1 ++ l2). rewrite <- app_assoc. split; [done|]. by apply Forall_app.
Qed.

Context (n : nat) (G : list move -> database -> database -> Prop).

Fixpoint wp {A} (p : prog A) (Q : A -> list move -> database -> Prop) (ms : list move) (d : database)
    : Prop :=
  forall ms' d', others_moved n ms ms' d d' -> tables_ok d' ->
  match p with
  | Return a => Q a ms' d'
  | Statement m next =>
      let '(b, d2) := m d' in
      (tables_evolve d' d2 /\ G ms' d' d2) /\
      wp (next b) Q (ms' ++ [{| mv_thread := n; mv_before := d'; mv_after := d2 |}]) d2
  end.

Lemma wp_moved {A} (p : prog A) Q ms ms' d d' :
  others_moved n ms ms' d d' -> wp p Q ms d -> wp p Q ms' d'.
Proof.
  intros Hm Hp. destruct p; intros ms2 d2 H2 Hok; (apply Hp; [by eapply others_moved_trans|done]).
Qed.

Lemma wp_weaken {A} (p : prog A) (Q Q' : A -> list move -> database -> Prop) ms d :
  (forall a ms d, tables_ok d -> Q a ms d -> Q' a ms d) -> wp p Q ms d -> wp p Q' ms d.
Proof.
  intros HQ. revert ms d. induction p as [a|B m next IH]; intros ms d Hp ms' d' Hm Hok.
  { apply HQ; [done|]. by apply Hp. }
  specialize (Hp ms' d' Hm Hok). cbn in Hp. destruct (m d') as [b d2]. destruct Hp as [Hg Hp].
  split; [done|]. by apply IH.
Qed.

Lemma wp_bind {A B} (p : prog A) (f : A -> prog B) Q ms d :
  wp p (fun a => wp (f a) Q) ms d -> wp (p ≫= f) Q ms d.
Proof.
  revert ms d. induction p as [a|B' m next IH]; intros ms d Hp.
  - change (wp (f a) Q ms d). cbn in Hp. destruct (f a) eqn:E; intros ms' d' Hm Hok;
      exact (Hp ms' d' Hm Hok ms' d' (others_moved_refl n ms' d') Hok).
  - intros ms' d' Hm Hok. specialize (Hp ms' d' Hm Hok). cbn in Hp |- *.
    destruct (m d') as [b d2]. destruct Hp as [Hg Hp]. split; [done|]. by apply IH.
Qed.

Lemma wp_fmap {A B} (f : A -> B) (p : prog A) Q ms d :
  wp p (fun a => Q (f a)) ms d -> wp (f <$> p) Q ms d.
Proof.
  revert ms d. induction p as [a|B' m next IH]; intros ms d Hp; [exact Hp|].
  intros ms' d' Hm Hok. specialize (Hp ms' d' Hm Hok). cbn in Hp |- *.
  destruct (m d') as [b d2]. destruct Hp as [Hg Hp]. split; [done|]. by apply IH.
Qed.

(** One statement and the rest. *)
Lemma wp_send {A B} (m : st database B) (next : B -> prog A) Q ms d :
  (forall ms' d', others_moved n ms ms' d d' -> tables_ok d' ->
     let '(b, d2) := m d' in
     (tables_evolve d' d2 /\ G ms' d' d2) /\
     wp (next b) Q (ms' ++ [{| mv_thread := n; mv_before := d'; mv_after := d2 |}]) d2) ->
  wp (send m ≫= next) Q ms d.
Proof. done. Qed.

Lemma wp_return {A} (a : A) (Q : A -> list move -> database -> Prop) ms d :
  (forall ms' d', others_moved n ms ms' d d' -> tables_ok d' -> Q a ms' d') -> wp (mret a) Q ms d.
Proof. done. Qed.
End among_others.

(** ** One registration among others *)

Section registration.
Context {SE : SqlEnv} {SL : SqlLaws} (staleAfter : Z) (i : SessionCreateInput) (n : nat).

(** At an earlier statement of the call the row was a session of the trader that had
    been silent for [staleAfter]. *)
Definition looked_up (ms : list move) (k : Z) : Prop :=
  exists look row, look ∈ ms /\ mv_thread look = n /\
    trader_sessions (mv_before look) !! k = Some row /\ is_active row = true /\
    recoverable staleAfter i row.

(** A statement of the call ends only rows that have been looked up. *)
Definition spares (ms : list move) (d d' : database) : Prop :=
  forall k row, trader_sessions d !! k = Some row -> is_active row = true ->
    trader_sessions d' !! k = Some row \/ looked_up ms k.

(** A statement of the call has inserted the session: it was then the only active one
    of its trader, and its row is still there. *)
Definition created (ms : list move) (d : database) : Prop :=
  exists ins k row row', ins ∈ ms /\ mv_thread ins = n /\
    trader_sessions (mv_before ins) !! k = None /\ trader_sessions (mv_after ins) !! k = Some row /\
    is_active row = true /\ se_SessionID row = sci_SessionID i /\ se_TraderID row = sci_TraderID i /\
    (forall k' r', trader_sessions (mv_after ins) !! k' = Some r' -> is_active r' = true ->
       se_TraderID r' = sci_TraderID i -> k' = k) /\
    trader_sessions d !! k = Some row' /\ row_step row row'.

Definition later (ms ms' : list move) (d d' : database) : Prop :=
  tables_evolve d d' /\ forall mv, mv ∈ ms -> mv ∈ ms'.

Lemma later_trans ms1 ms2 ms3 d1 d2 d3 :
  later ms1 ms2 d1 d2 -> later ms2 ms3 d2 d3 -> later ms1 ms3 d1 d3.
Proof. intros [H1 E1] [H2 E2]. split; [by transitivity d2|auto]. Qed.

Lemma later_others ms ms' d d' : others_moved n ms ms' d d' -> later ms ms' d d'.
Proof. intros [H (l & -> & _)]. split; [done|]. intros mv. rewrite elem_of_app. by left. Qed.

Lemma created_later ms ms' d d' : later ms ms' d d' -> created ms d -> created ms' d'.
Proof.
  intros [[_ [Hg _]] Hms] (ins & k & row & row' & ? & ? & ? & ? & ? & ? & ? & ? & Hr & Hs).
  destruct (Hg k row' Hr) as (row2 & Hr2 & Hs2). exists ins, k, row, row2.
  split_and!; eauto using row_step_trans.
Qed.

Abbreviation wp := (wp n spares).

(** After its own statement, too, a call is later. *)
Lemma later_moved ms ms' d d' d2 :
  others_moved n ms ms' d d' -> tables_evolve d' d2 ->
  later ms (ms' ++ [{| mv_thread := n; mv_before := d'; mv_after := d2 |}]) d d2.
Proof.
  intros Hm%later_others He. apply (later_trans _ _ _ _ _ _ Hm). split; [done|].
  intros mv. rewrite elem_of_app. by left.
Qed.

(** A statement that ends no row. *)
Lemma wp_quiet {A B} (m : st database B) (next : B -> prog A) Q ms d :
  steps tables_evolve m -> steps (ends_only (fun _ => False)) m ->
  (forall b ms' d', later ms ms' d d' -> tables_ok d' -> wp (next b) Q ms' d') ->
  wp (send m ≫= next) Q ms d.
Proof.
  intros He Hm Hn. apply wp_send. intros ms' d' Ho Hok.
  specialize (He d'). specialize (Hm d'). destruct (m d') as [b d2]. cbn in He, Hm.
  split; [split; [done|]|].
  - intros k row Hr Ha. by destruct (Hm k row Hr Ha); [left|].
  - apply Hn; [by apply later_moved|]. by apply He.
Qed.

Lemma wp_Create {A} (next : res Z -> prog A) Q ms d :
  (forall r ms' d', later ms ms' d d' -> tables_ok d' -> (forall id, r = Ok id -> created ms' d') ->
     wp (next r) Q ms' d') ->
  wp (send (session_Create (session_of_input i)) ≫= next) Q ms d.
Proof.
  intros Hn. apply wp_send. intros ms' d' Ho Hok.
  pose proof (session_Create_evolves (session_of_input i) d') as He.
  pose proof (session_Create_ends_only (fun _ => False) (session_of_input i) d') as Hs.
  pose proof (session_Create_Ok (session_of_input i) d') as Hc.
  destruct (session_Create _ d') as [r d2]. cbn in He, Hs.
  assert (tables_ok d2) as Hok2 by by apply He.
  split; [split; [done|]|].
  - intros k row Hr Ha. by destruct (Hs k row Hr Ha); [left|].
  - apply Hn; [by apply later_moved|done|]. intros id ->.
    destruct (Hc id d2 eq_refl) as (Hnone & row & Hr & Ha & Hsid & Ht).
    exists {| mv_thread := n; mv_before := d'; mv_after := d2 |}, id, row, row.
    split_and!; try done; [apply elem_of_app; right; by apply list_elem_of_singleton|].
    intros k' r' Hr' Ha' Ht'. apply (ok_single_active d2 Hok2 _ _ _ _ Hr' Hr); [done..|].
    rewrite Ht'. by cbn in Ht.
Qed.

(** The session that [GetActiveByTraderID] found stale. *)
Definition stale_seen (active : TraderSession) (ms : list move) (d : database) : Prop :=
  exists look k, look ∈ ms /\ mv_thread look = n /\ tables_evolve (mv_before look) d /\
    trader_sessions (mv_before look) !! k = Some active /\ is_active active = true /\
    recoverable staleAfter i active.

Lemma stale_seen_later active ms ms' d d' :
  later ms ms' d d' -> stale_seen active ms d -> stale_seen active ms' d'.
Proof.
  intros [He Hms] (look & k & ? & ? & Hl & ?). exists look, k. split_and!; try naive_solver.
  by transitivity d.
Qed.

(** Ending a session ends no more than what was found stale. *)
Lemma stale_seen_spares active ms d d' :
  tables_ok d -> stale_seen active ms d -> ends_only (of_session (se_SessionID active)) d d' -> spares ms d d'.
Proof.
  intros Hok (look & k & Hl & Hn & [_ [Hg _]] & Hk & Ha & Hrec) He k' row Hr Har.
  destruct (He k' row Hr Har) as [|Hs]; [by left|right].
  destruct (Hg k active Hk) as (row2 & Hr2 & Hst). apply same_text_true in Hs.
  rewrite <- (rs_session _ _ Hst) in Hs.
  pose proof (ok_session_id d Hok _ _ _ _ Hr Hr2 Hs) as ->.
  by exists look, active.
Qed.

Lemma wp_EndSession active reason msg (Q : res unit -> list move -> database -> Prop) ms d :
  stale_seen active ms d ->
  (forall r ms' d', later ms ms' d d' -> tables_ok d' -> Q r ms' d') ->
  wp (session_EndSession_in (se_SessionID active) reason msg) Q ms d.
Proof.
  intros Hseen HQ. unfold session_EndSession_in.
  apply wp_quiet; [apply (steps_repo_now _)|apply (steps_repo_now _)|]. intros now ms1 d1 L1 _.
  apply wp_send. intros ms2 d2 Ho2 Hok2.
  pose proof (stale_seen_later _ _ _ _ _ (later_trans _ _ _ _ _ _ L1 (later_others _ _ _ _ Ho2)) Hseen) as H2.
  pose proof (exec_set_ended_ends_only (se_SessionID active) now reason msg d2) as He.
  pose proof (steps_exec tables_evolve _ (set_ended_moves (se_SessionID active) now reason msg) d2) as Hev.
  destruct (exec _ d2) as [r d3]. cbn in He, Hev.
  split; [split; [done|by apply (stale_seen_spares active)]|].
  pose proof (later_trans _ _ _ _ _ _ L1 (later_moved _ _ _ _ _ Ho2 Hev)) as L3.
  assert (forall ms' d', later (ms2 ++ [{| mv_thread := n; mv_before := d2; mv_after := d3 |}]) ms' d3 d' ->
    later ms ms' d d') as Hl by (intros ms' d'; by apply later_trans).
  clear L3.
  destruct r as [result|e]; [destruct (RowsAffected result) as [rows|e]; [destruct (rows =? 0)%Z|]|];
    try (apply wp_return; intros ms' d' Ho%later_others ?; by apply HQ; [apply Hl|]).
  apply wp_quiet; [apply (steps_get_row _)|apply (steps_get_row _)|]. intros s ms4 d4 L4 _.
  apply wp_return. intros ms' d' Ho%later_others ?. apply HQ; [|done]. apply Hl. by eapply later_trans.
Qed.

Lemma wp_tryRecover (Q : res bool -> list move -> database -> Prop) ms d :
  sci_ConnectedAt i <> time_zero ->
  (forall r ms' d', later ms ms' d d' -> tables_ok d' -> Q r ms' d') ->
  wp (tryRecoverStaleActiveSession_in staleAfter i) Q ms d.
Proof.
  intros Hz HQ. unfold tryRecoverStaleActiveSession_in.
  destruct (staleAfter <=? 0)%Z; [apply wp_return; intros ms' d' Ho%later_others; by apply HQ|].
  apply wp_send. intros ms1 d1 Ho1 Hok1.
  pose proof (session_GetActive_result (sci_TraderID i) d1) as Hf.
  pose proof (session_GetActive_evolves (sci_TraderID i) d1) as Hev.
  assert (ends_only (fun _ => False) d1 (session_GetActiveByTraderID (sci_TraderID i) d1).2) as Hends.
  { apply (steps_get_row (ends_only _)). }
  destruct (session_GetActiveByTraderID _ d1) as [r d2]. cbn in Hev, Hends.
  split; [split; [done|]; intros k row Hr Har; by destruct (Hends k row Hr Har); [left|]|].
  set (mv := {| mv_thread := n; mv_before := d1; mv_after := d2 |}).
  pose proof (later_moved _ _ _ _ _ Ho1 Hev) as L2. fold mv in L2.
  assert (forall r, wp (mret r) Q (ms1 ++ [mv]) d2) as Hret.
  { intros r'. apply wp_return. intros ms' d' Ho%later_others ?. apply HQ; [by eapply later_trans|done]. }
  destruct r as [[active|]|e]; [|apply Hret..].
  destruct (Hf active d2 eq_refl) as (_ & Ha & Hid & k & Hk).
  unfold time_is_zero. rewrite (proj2 (Z.eqb_neq _ _) Hz).
  change (mret ?a ≫= ?f) with (f a). cbv beta.
  destruct (isSessionStale active _ staleAfter) eqn:Est; [cbn [negb]|apply Hret].
  apply isSessionStale_last_seen in Est as (Hpos & _ & Hst).
  apply wp_bind, wp_EndSession.
  - exists mv, k. split_and!; try done. apply elem_of_app. right. by apply list_elem_of_singleton.
  - intros r ms3 d3 L3 Hok3. apply wp_return. intros ms' d' Ho%later_others ?.
    apply HQ; [|done]. apply (later_trans _ _ _ _ _ _ L2). by eapply later_trans.
Qed.

Lemma wp_CreateSession ms d :
  sci_ConnectedAt i <> time_zero ->
  wp (ws_CreateSession_in staleAfter i) (fun r ms d => r = Ok tt -> created ms d) ms d.
Proof.
  intros Hz. unfold ws_CreateSession_in. cbv zeta.
  assert (forall r ms d, (r = Ok tt -> created ms d) ->
    wp (mret r) (fun r ms d => r = Ok tt -> created ms d) ms d) as Hret.
  { intros r ms1 d1 Hc. apply wp_return. intros ms' d' Ho%later_others _ E.
    by eapply created_later, Hc. }
  apply wp_Create. intros r ms1 d1 _ _ Hc1. destruct r as [id|err]; [apply Hret; eauto|].
  destruct (negb _); [by apply Hret|].
  apply wp_bind, wp_tryRecover; [done|]. intros recovered ms2 d2 _ _.
  destruct recovered as [[]|e]; [|by apply Hret..].
  apply wp_Create. intros r ms3 d3 _ _ Hc3. apply Hret. destruct r as [id|e]; [eauto|].
  by destruct (isMySQLDuplicateEntryError e).
Qed.
End registration.

(** ** Any call *)

(** At most one statement, along [tables_evolve]. *)
Definition sound_act `{!SqlEnv} {B} (m : st database B) : Prop :=
  steps tables_evolve m /\ forall d, (stmts (m d).2 <= Datatypes.S (stmts d))%nat.

(** At most [k] such acts, whatever they are answered. *)
Fixpoint acts `{!SqlEnv} {A} (k : nat) (p : prog A) {struct p} : Prop :=
  match p with
  | Return _ => True
  | Statement m next =>
      match k with
      | O => False
      | Datatypes.S k => sound_act m /\ forall b, acts k (next b)
      end
  end.

Section any_call.
Context {SE : SqlEnv} {SL : SqlLaws} {CE : CatalogEnv} (staleAfter : Z).

Lemma acts_weaken {A} (p : prog A) k k' : (k <= k')%nat -> acts k p -> acts k' p.
Proof.
  revert k k'. induction p as [a|B m next IH]; intros k k' Hk; [done|].
  destruct k as [|k], k' as [|k']; cbn; [done..|lia|]. intros [Hm Hn]. split; [done|].
  intros b. apply (IH b k); [lia|apply Hn].
Qed.

Lemma acts_bind {A B} (p : prog A) (f : A -> prog B) k k' :
  acts k p -> (forall a, acts k' (f a)) -> acts (k + k') (p ≫= f).
Proof.
  intros Hp Hf. revert k Hp. induction p as [a|B' m next IH]; intros k Hp.
  - apply (acts_weaken (f a) k'); [lia|apply Hf].
  - destruct k as [|k]; [done|]. destruct Hp as [Hm Hn]. split; [done|]. intros b. by apply IH.
Qed.

Lemma acts_send_bind {A B} (m : st database B) (f : B -> prog A) k :
  sound_act m -> (forall b, acts k (f b)) -> acts (Datatypes.S k) (send m ≫= f).
Proof. by split. Qed.

Lemma acts_fmap {A B} (f : A -> B) (p : prog A) k : acts k p -> acts k (f <$> p).
Proof.
  revert k. induction p as [a|B' m next IH]; intros k Hp; [done|].
  destruct k as [|k]; [done|]. destruct Hp as [Hm Hn]. split; [done|]. intros b. by apply IH.
Qed.

Lemma sound_now : sound_act repo_now.
Proof. split; [apply (steps_repo_now _)|]. intros d. cbn. lia. Qed.

Lemma sound_query {A} (f : database -> A) : sound_act (query f).
Proof. split; [apply (steps_query _)|]. intros d. apply Nat.le_refl. Qed.

Lemma sound_query_bind {A B} (f : database -> A) (k : res A -> B) : sound_act (r ← query f; mret (k r)).
Proof. split; [intros d; apply (steps_query tables_evolve f d)|]. intros d. apply Nat.le_refl. Qed.

(** A statement that does not count the statements. *)
Lemma sound_exec f :
  statement_moves tables_evolve f -> (forall d n id d', f d = Ok (n, id, d') -> stmts d' = stmts d) ->
  sound_act (exec f).
Proof.
  intros Hf Hs. split; [by apply (steps_exec _)|]. intros d. unfold exec.
  set (d1 := d <| stmts ::= Datatypes.S |>). specialize (Hs d1).
  destruct (stmt (stmts d)); cbn; try lia;
    destruct (f d1) as [[[r id] d2]|e']; cbn; rewrite ?(Hs _ _ _ eq_refl); cbn; lia.
Qed.

Lemma sound_update p f :
  statement_moves tables_evolve (update_sessions p f) -> sound_act (exec (update_sessions p f)).
Proof. intros Hm. apply sound_exec; [done|]. by intros d n id d' [= _ _ <-]. Qed.

Lemma sound_Create s : sound_act (session_Create s).
Proof.
  split; [apply session_Create_evolves|]. intros d. unfold session_Create.
  destruct (sqlx_bind _ _); [cbn; lia|].
  assert (sound_act (exec (insert_session s))) as [_ Hs].
  { apply sound_exec; [apply insert_session_moves|]. intros d0 n id d'. unfold insert_session.
    destruct (find_row _ _); [done|]. destruct (find_row _ _); [done|].
    destruct (_ !! _); [|done]. by intros [= _ _ <-]. }
  specialize (Hs d). unfold mbind, st_bind. by destruct (exec _ d).
Qed.

Hint Resolve sound_now sound_Create : core.
Hint Extern 0 (sound_act (exec (update_sessions _ _))) =>
  (apply sound_update; first [apply set_heartbeat_moves|apply set_ended_moves]) : core.
Hint Extern 0 (sound_act (session_GetBySessionID _)) => apply sound_query_bind : core.
Hint Extern 0 (sound_act (session_GetActiveByTraderID _)) => apply sound_query_bind : core.
Hint Extern 0 (sound_act (trader_GetByID _)) => apply sound_query_bind : core.
Hint Extern 0 (sound_act ws_ListAvailableExchanges) => apply sound_query_bind : core.

Ltac acts_step :=
  lazymatch goal with
  | |- acts _ (send _ ≫= _) => apply acts_send_bind; [|intros ?]
  | |- acts _ (match ?x with _ => _ end) => destruct x
  | |- acts _ (mret _) => exact I
  | |- acts _ (Return _) => exact I
  | |- _ => solve [auto]
  end.
Ltac acts_auto := repeat (cbv zeta; acts_step).

Lemma acts_EndSession sid reason msg : acts 3 (session_EndSession_in sid reason msg).
Proof. unfold session_EndSession_in. acts_auto. Qed.

Lemma acts_tryRecover i : acts 5 (tryRecoverStaleActiveSession_in staleAfter i).
Proof.
  unfold tryRecoverStaleActiveSession_in. destruct (staleAfter <=? 0)%Z; [done|].
  apply acts_send_bind; [auto|]. intros [[active|]|e]; [|done..].
  apply (acts_bind _ _ 1 3); [destruct (time_is_zero _); [by split|done]|]. intros now.
  destruct (negb _); [done|]. apply (acts_bind _ _ 3 0); [apply acts_EndSession|done].
Qed.

Lemma insert_or_touch_stmts t d n id d' :
  insert_or_touch_trader t d = Ok (n, id, d') -> stmts d' = stmts d.
Proof.
  unfold insert_or_touch_trader. destruct (find_row _ _); [by intros [= _ _ <-]|].
  unfold insert_trader. destruct (find_row _ _); [done|]. by intros [= _ _ <-].
Qed.

(** A call returns after at most seven statements, whatever they are answered. *)
Lemma acts_program c : acts 7 (program staleAfter c).
Proof.
  destruct c as [cn|i|id release|sid|sid reason msg|]; cbn [program]; apply acts_fmap.
  - unfold ws_ResolveOrCreateTraderByCN_in. apply (acts_bind _ _ 7 0); [|done].
    unfold trader_GetOrCreateByCertificateCN_in. cbv zeta. destruct (str_empty _); [done|].
    apply acts_send_bind; [auto|]. intros now. apply acts_send_bind; [|intros r; acts_auto].
    apply sound_exec; [apply insert_or_touch_moves|apply insert_or_touch_stmts].
  - unfold ws_CreateSession_in. cbv zeta. apply acts_send_bind; [auto|].
    intros [id|err]; [done|]. destruct (negb _); [done|].
    apply (acts_bind _ _ 5 1); [apply acts_tryRecover|]. intros [[]|e]; [|done..].
    apply acts_send_bind; [auto|done].
  - unfold ws_UpdateTraderRelease_in, trader_UpdateRelease_in. cbv zeta.
    destruct (_ <=? 0)%Z; [done|]. apply acts_send_bind; [auto|]. intros now.
    apply acts_send_bind; [|done]. apply sound_exec; [|by intros d n id' d' [= _ _ <-]].
    apply update_traders_moves. by intros.
  - unfold session_UpdateHeartbeat_in. acts_auto.
  - unfold ws_FinalizeSession_in. destruct (mapDisconnectReason reason); [|done].
    apply (acts_weaken _ 3); [lia|apply acts_EndSession].
  - split; [auto|done].
Qed.
End any_call.

(** ** A whole pool *)

Section pool.
Context {SE : SqlEnv} {SL : SqlLaws} {CE : CatalogEnv} (staleAfter : Z).

Definition guarantee (n : nat) (c : persistence_call) (ms : list move) (d d' : database) : Prop :=
  match c with
  | CallCreate i => sci_ConnectedAt i <> time_zero -> spares staleAfter i n ms d d'
  | _ => True
  end.

Definition outcome (n : nat) (c : persistence_call) (a : answer) (ms : list move) (d : database) : Prop :=
  match c with
  | CallCreate i => sci_ConnectedAt i <> time_zero -> a = AnsDone (Ok tt) -> created i n ms d
  | _ => True
  end.

Lemma wp_acts {A} n G (p : prog A) Q k ms d :
  acts k p -> (forall ms d d', G ms d d') -> (forall a ms d, Q a ms d) -> wp n G p Q ms d.
Proof.
  intros Hp HG HQ. revert k Hp ms d. induction p as [a|B m next IH]; intros k Hp ms d ms' d' Ho Hok; [done|].
  destruct k as [|k]; [done|]. destruct Hp as [[Hm _] Hn]. specialize (Hm d').
  destruct (m d') as [b d2]. split; [done|]. by eapply IH.
Qed.

Lemma wp_stronger {A} n (G G' : list move -> database -> database -> Prop) (p : prog A) Q ms d :
  (forall ms d d', G ms d d' -> G' ms d d') -> wp n G p Q ms d -> wp n G' p Q ms d.
Proof.
  intros HG. revert ms d. induction p as [a|B m next IH]; intros ms d Hp ms' d' Ho Hok; [by apply Hp|].
  specialize (Hp ms' d' Ho Hok). cbn in Hp. destruct (m d') as [b d2].
  destruct Hp as [[He Hg] Hp]. split; [by auto|]. by apply IH.
Qed.

Lemma program_wp n c ms d :
  wp n (guarantee n c) (program staleAfter c) (outcome n c) ms d.
Proof.
  destruct c as [cn|i|id release|sid|sid reason msg|];
    try (eapply wp_acts; [apply acts_program|done|done]).
  destruct (decide (sci_ConnectedAt i = time_zero)) as [Hz|Hz].
  { by eapply wp_acts; [apply acts_program|cbn; intros..]. }
  cbn [program]. apply wp_fmap. apply (wp_stronger _ (spares staleAfter i n)); [by intros ??? H _|].
  eapply wp_weaken; [|by apply wp_CreateSession]. intros a ms' d' _ Hc _ [= ->]. by apply Hc.
Qed.

Definition own_moves (n : nat) (ms : list move) : list move := filter (fun mv => mv_thread mv = n) ms.

Arguments own_moves : simpl never.

Record pool_ok (d0 : database) (p : pool) : Prop := {
  po_tables : tables_ok (po_db p);
  po_grows : grows d0 (po_db p);
  po_calls : forall n th, po_threads p !! n = Some th ->
    wp n (guarantee n (th_call th)) (th_rest th) (outcome n (th_call th)) (po_moves p) (po_db p) /\
    exists k, (k + length (own_moves n (po_moves p)) <= 7)%nat /\ acts k (th_rest th);
  po_made : forall ms1 mv ms2, po_moves p = ms1 ++ mv :: ms2 ->
    exists th, po_threads p !! mv_thread mv = Some th /\
      guarantee (mv_thread mv) (th_call th) ms1 (mv_before mv) (mv_after mv)
}.

Lemma pool_ok_start d0 c p : pool_ok d0 p -> pool_ok d0 (pool_step staleAfter p (Start c)).
Proof.
  intros [Ht Hg Hc Hm]. split; [done..| |]; cbn.
  - intros n th [Hn|[Hl Hn]]%lookup_app_Some; [by apply Hc|].
    apply list_lookup_singleton_Some in Hn as [Hn <-]. split; [apply program_wp|].
    exists 7%nat. split; [|apply acts_program].
    enough (own_moves n (po_moves p) = []) as -> by done.
    destruct (own_moves n (po_moves p)) as [|mv l] eqn:E; [done|exfalso].
    assert (mv ∈ own_moves n (po_moves p)) as [<- Hin]%list_elem_of_filter by (rewrite E; apply list_elem_of_here).
    apply list_elem_of_split in Hin as (ms1 & ms2 & E2). destruct (Hm _ _ _ E2) as (th & Hth & _).
    apply lookup_lt_Some in Hth. lia.
  - intros ms1 mv ms2 E. destruct (Hm _ _ _ E) as (th & Hth & HG). exists th.
    split; [by apply lookup_app_l_Some|done].
Qed.

Lemma pool_ok_advance d0 n p : pool_ok d0 p -> pool_ok d0 (pool_step staleAfter p (Advance n)).
Proof.
  intros Hp. pose proof Hp as [Ht Hg Hc Hm]. cbn.
  destruct (po_threads p !! n) as [[c [a|B m next]]|] eqn:En; [done| |done].
  destruct (Hc n _ En) as [Hwp (k & Hk & Hacts)].
  destruct k as [|k]; [done|]. destruct Hacts as [_ Hacts].
  specialize (Hwp _ _ (others_moved_refl n (po_moves p) (po_db p)) Ht). cbn in Hwp, Hacts.
  destruct (m (po_db p)) as [b d2]. destruct Hwp as [[He HG] Hnext].
  set (mv := {| mv_thread := n; mv_before := po_db p; mv_after := d2 |}) in *.
  assert (own_moves n (po_moves p ++ [mv]) = own_moves n (po_moves p) ++ [mv]) as Hown.
  { unfold own_moves. rewrite filter_app. f_equal. by rewrite filter_cons_True. }
  split; cbn.
  - by apply He.
  - etransitivity; [exact Hg|]. by destruct He.
  - intros n' th. destruct (decide (n = n')) as [<-|Hne].
    + rewrite list_lookup_insert_eq by by eapply lookup_lt_Some. intros [= <-]. split; [done|].
      exists k. split; [|apply Hacts]. rewrite Hown, length_app. cbn. lia.
    + rewrite list_lookup_insert_ne by done. intros Hth. destruct (Hc n' th Hth) as [Hw (k' & Hk' & Ha)].
      split.
      * eapply wp_moved; [|exact Hw]. split; [done|]. exists [mv]. split; [done|]. by repeat constructor.
      * exists k'. split; [|done]. unfold own_moves in *. rewrite filter_app, length_app.
        rewrite filter_cons_False by done. cbn. lia.
  - assert (forall j th, po_threads p !! j = Some th -> exists th',
      <[n:={| th_call := c; th_rest := next b |}]> (po_threads p) !! j = Some th' /\
      th_call th' = th_call th) as Hkept.
    { intros j th Hj. destruct (decide (n = j)) as [<-|Hne].
      - rewrite list_lookup_insert_eq by by eapply lookup_lt_Some. rewrite En in Hj.
        injection Hj as <-. by eexists.
      - rewrite list_lookup_insert_ne by done. by exists th. }
    intros ms1 mv' ms2 E. destruct (decide (ms2 = [])) as [->|Hne2].
    + apply app_inj_tail in E as [<- <-]. destruct (Hkept n _ En) as (th' & Hth' & Ec).
      exists th'. split; [done|]. by rewrite Ec.
    + destruct (exists_last Hne2) as (ms3 & x & ->).
      rewrite app_comm_cons, app_assoc in E. apply app_inj_tail in E as [E _].
      destruct (Hm _ _ _ E) as (th & Hth & HG'). destruct (Hkept _ _ Hth) as (th' & Hth' & Ec).
      exists th'. split; [done|]. by rewrite Ec.
Qed.

Lemma pool_run_ok d0 events :
  tables_ok d0 -> pool_ok d0 (pool_run staleAfter events (idle d0)).
Proof.
  intros Hok. induction events as [|e events IH] using rev_ind.
  - split; cbn; [done..|]. by intros [] mv ms2.
  - unfold pool_run in *. rewrite foldl_app. cbn [foldl]. destruct e as [c|n].
    + by apply pool_ok_start.
    + by apply pool_ok_advance.
Qed.

(** C36. Registering a session never ends one that was alive when it looked, however
    the statements of any number of calls are interleaved and whatever the database
    answers.  The tables stay sound and lose nothing.  A statement of a registration
    ends a row only if the same call has found it, at an earlier statement, to be an
    active session of the same trader that had been silent for the configured time; a
    registration that succeeds inserted its row when no other session of the trader
    was active, and the row is still there; and a registration returns after at most
    seven statements. *)
Theorem calls_spare_live_sessions (events : list event) (d0 : database) (Hok : tables_ok d0) :
  let p := pool_run staleAfter events (idle d0) in
  tables_ok (po_db p) /\ grows d0 (po_db p) /\
  forall n i rest, po_threads p !! n = Some {| th_call := CallCreate i; th_rest := rest |} ->
    sci_ConnectedAt i <> time_zero ->
    (forall ms1 mv ms2, po_moves p = ms1 ++ mv :: ms2 -> mv_thread mv = n ->
       forall k row, trader_sessions (mv_before mv) !! k = Some row -> is_active row = true ->
         trader_sessions (mv_after mv) !! k = Some row \/
         exists look seen, look ∈ ms1 /\ mv_thread look = n /\
           trader_sessions (mv_before look) !! k = Some seen /\ is_active seen = true /\
           se_TraderID seen = sci_TraderID i /\ (0 < staleAfter)%Z /\
           (last_seen seen + staleAfter <= sci_ConnectedAt i)%Z) /\
    (rest = Return (AnsDone (Ok tt)) -> created i n (po_moves p) (po_db p)) /\
    (length (own_moves n (po_moves p)) <= 7)%nat /\
    (length (own_moves n (po_moves p)) = 7%nat -> exists a, rest = Return a).
Proof.
  intros p. destruct (pool_run_ok d0 events Hok) as [Ht Hg Hc Hm]. fold p in Ht, Hg, Hc, Hm.
  split_and!; [done..|]. intros n i rest Hn Hz. destruct (Hc n _ Hn) as [Hwp (k & Hk & Hacts)].
  split_and!; [|intros ->|lia|intros H7].
  - intros ms1 mv ms2 E <-. destruct (Hm _ _ _ E) as (th & Hth & HG).
    rewrite Hn in Hth. injection Hth as <-. exact (HG Hz).
  - exact (Hwp _ _ (others_moved_refl n _ _) Ht Hz eq_refl).
  - cbn in Hacts. destruct rest as [a|B m next]; [by exists a|].
    destruct k as [|k]; [done|lia].
Qed.
End pool.

(** ** Witnesses *)

(** The session s0 was last heard of at 1000s; at 5000s its trader registers s1.
    Between its lookup and the end of s0 comes a heartbeat of s0. *)
Definition revived : list event :=
  [Start (CallCreate (demo_input "s1" (5000 * Second))); Start (CallHeartbeat "s0");
   Advance 0; Advance 0; Advance 1; Advance 1; Advance 0; Advance 0; Advance 0].

Lemma calls_spare_live_sessions_witness :
  let p := pool_run demo_stale revived (idle demo_database) in
  tables_ok (po_db p) /\ created (demo_input "s1" (5000 * Second)) 0 (po_moves p) (po_db p).
Proof.
  destruct (calls_spare_live_sessions demo_stale revived demo_database demo_database_ok) as (Hok & _ & Hp).
  split; [exact Hok|].
  destruct (Hp 0%nat (demo_input "s1" (5000 * Second)) (Return (AnsDone (Ok tt)))
    ltac:(vm_compute; reflexivity) ltac:(vm_compute; discriminate)) as (_ & Hc & _).
  exact (Hc eq_refl).
Defined.

(** The heartbeat is acknowledged and the session is ended all the same: the update
    that ends it does not look at its last heartbeat again. *)
Example revived_session_is_ended :
  let p := pool_run demo_stale revived (idle demo_database) in
  (th_rest <$> po_threads p) = [Return (AnsDone (Ok tt)); Return (AnsDone (Ok tt))] /\
  exists row, trader_sessions (po_db p) !! 1%Z = Some row /\ se_SessionID row = "s0" /\
    se_LastHeartbeat row = (5001 * Second)%Z /\ se_EndedAt row = Some (5002 * Second)%Z /\
    se_DisconnectReason row = Some DisconnectTimeout.
Proof. split; [vm_compute; reflexivity|]. eexists. split; [vm_compute; reflexivity|]. by vm_compute. Qed.
