(* ===== verification/Hsm.v ===== *)
(** * The HSM client (internal/hsm/client.go, types.go)

    [doRequest] with its retry loop, and Encrypt, Decrypt and Health on top of it. *)

From S2P Require Import Prelude GoText GoFloat StateM.

(** ** Data (types.go) *)

Record EncryptRequest := { eq_Context : string; eq_Plaintext : string }.
Record EncryptResponse := { es_KeyID : string; es_Ciphertext : string; es_Error : string }.
Record DecryptRequest := { dq_Context : string; dq_KeyID : string; dq_Ciphertext : string }.
Record DecryptResponse := { ds_Plaintext : string; ds_Error : string }.
Record HealthResponse := {
  hl_Status : string;
  hl_HSMAvailable : bool;
  hl_KEKStatus : gmap string string
}.

Definition EncodeBase64 (data : list ascii) : string := EncodeToString data.
Definition DecodeBase64 (encoded : string) : res (list ascii) := DecodeString encoded.

Record RetryConfig := {
  rc_MaxAttempts : Z;
  rc_InitialWait : Z;
  rc_MaxWait : Z;
  rc_Multiplier : f64
}.

(** [Client] without its loggers; of the HTTP client the timeout. *)
Record hsm_client := { baseURL : string; httpTimeout : Z; retryCfg : RetryConfig }.

Record ClientConfig := {
  cc_BaseURL : string;
  cc_CertPath : string;
  cc_KeyPath : string;
  cc_CAPath : string;
  cc_RequestTimeout : Z;
  cc_RetryConfig : RetryConfig
}.

(** Loading a key pair, reading a certificate file, and whether its PEM certificates
    could be added to a pool. *)
Class TlsEnv := {
  load_key_pair : string -> string -> option go_error;
  read_cert_file : string -> res string;
  append_certs : string -> bool
}.

Definition fail_with (text : string) (e : option go_error) : res unit :=
  match e with Some e => Err (EWrap text e "") | None => Ok tt end.

(** The key pair and the CA certificates, as [NewClient] and [NewMySQLClient] load them. *)
Definition load_tls `{!TlsEnv} (certPath keyPath caPath : string) : res unit :=
  fail_with "failed to load client cert: " (load_key_pair certPath keyPath);;
  caCert ← (match read_cert_file caPath with
            | Err e => Err (EWrap "failed to read CA cert: " e "")
            | Ok b => Ok b
            end);
  if append_certs caCert then Ok tt else Err (ENew "failed to append CA cert").

Definition NewClient `{!TlsEnv} (cfg : ClientConfig) : res hsm_client :=
  load_tls (cc_CertPath cfg) (cc_KeyPath cfg) (cc_CAPath cfg);;
  Ok {| baseURL := cc_BaseURL cfg; httpTimeout := cc_RequestTimeout cfg;
        retryCfg := cc_RetryConfig cfg |}.

(** ** The world of a request *)

(** What [httpClient.Do] and the read of the body give. *)
Inductive http_outcome :=
  | HttpFailed (e : go_error)
  | HttpBroken (status : Z) (e : go_error)
  | HttpAnswered (status : Z) (body : string).

(** The answer to the [n]-th request, whether the context is done before the [n]-th
    pause is over, the error of [http.NewRequestWithContext], the random bytes of a
    request id, the clock, and the JSON form of requests and responses. *)
Class HsmEnv := {
  http_do : nat -> http_outcome;
  ctx_done : nat -> bool;
  http_new_request : string -> string -> option go_error;
  hsm_random : option (list ascii);
  hsm_clock : Z;
  marshal_encrypt : EncryptRequest -> res string;
  marshal_decrypt : DecryptRequest -> res string;
  unmarshal_encrypt : string -> res EncryptResponse;
  unmarshal_decrypt : string -> res DecryptResponse;
  unmarshal_health : string -> res HealthResponse
}.

Inductive hsm_event :=
  | HsmRequest (method url requestID body : string)
  | HsmWait (d : Z) (cancelled : bool).

(** [sent] and [waited] count the requests and the pauses; [trace] lists both, oldest
    first. *)
Record hsm_world := mk_hsm_world { sent : nat; waited : nat; trace : list hsm_event }.

#[export] Instance eta_hsm_world : Eta hsm_world := fun w =>
  mk_hsm_world (sent w) (waited w) (trace w).

(** ** Pure parts *)

(** The pause after attempt number [attempt], in nanoseconds. *)
Definition backoff (cfg : RetryConfig) (attempt : Z) : Z :=
  let wait := f_to_int64 (f_mul (f_of_Z (rc_InitialWait cfg))
                            (f_pow (rc_Multiplier cfg) (attempt - 1))) in
  if (wait >? rc_MaxWait cfg)%Z then rc_MaxWait cfg else wait.

Definition calculateBackoff (c : hsm_client) (attempt : Z) : Z := backoff (retryCfg c) attempt.

(** The header X-HSM-Processing-Us, "" when it is missing. *)
Definition extractServerLatencyUS (header : string) : Z :=
  if str_empty header then (-1)%Z
  else match ParseInt header with
       | Ok parsed => if (parsed <? 0)%Z then (-1)%Z else parsed
       | Err _ => (-1)%Z
       end.

(** The latencies [logOutRequest] reports: the total, and the parts of the server and
    the network when the server told its own. *)
Definition latency_fields (latency serverLatencyUS : Z) : f64 * option (f64 * f64) :=
  let totalLatencyMS := f_div (f_of_Z (duration_microseconds latency)) (f_of_Z 1000) in
  (totalLatencyMS,
   if (serverLatencyUS >=? 0)%Z then
     let serverLatencyMS := f_div (f_of_Z serverLatencyUS) (f_of_Z 1000) in
     let networkLatencyMS := f_sub totalLatencyMS serverLatencyMS in
     Some (serverLatencyMS, if f_lt networkLatencyMS f_zero then f_zero else networkLatencyMS)
   else None).

Section client.
Context `{!HsmEnv} (c : hsm_client).

Abbreviation M := (st hsm_world).

Definition generateRequestID : string :=
  match hsm_random with
  | Some buf => hex_encode buf
  | None => "hsm-" +:+ Itoa (time_unix_nano hsm_clock)
  end.

(** [ctxID] is the request id of the context, "" if it has none. *)
Definition ensureRequestID (ctxID : string) : string :=
  if str_empty ctxID then generateRequestID else ctxID.

Definition http_call (method url requestID body : string) : M http_outcome := fun w =>
  (http_do (sent w),
   w <| sent ::= S |> <| trace ::= fun t => t ++ [HsmRequest method url requestID body] |>).

(** The pause ends with the timer or with the context; the loop goes on either way. *)
Definition waitBeforeRetry (attempt : Z) : M unit := fun w =>
  (tt, w <| waited ::= S |>
         <| trace ::= fun t => t ++ [HsmWait (calculateBackoff c attempt) (ctx_done (waited w))] |>).

(** One turn of the loop of [doRequest]: a result, or an error that is retried. *)
Inductive attempt_result (A : Type) :=
  | Final (r : res A)
  | Retry (lastErr : go_error).
Arguments Final {A}.
Arguments Retry {A}.

Definition request_attempt {A} (requestID method path : string) (body : option (res string))
    (decode : string -> res A) : M (attempt_result A) :=
  match body with
  | Some (Err e) => mret (Final (Err (EWrap "failed to marshal request: " e "")))
  | _ =>
      let reqBody := match body with Some (Ok b) => b | _ => "" end in
      let url := baseURL c +:+ path in
      match http_new_request method url with
      | Some e => mret (Final (Err (EWrap "failed to create request: " e "")))
      | None =>
          o ← http_call method url requestID reqBody;
          mret (match o with
                | HttpFailed e => Retry (EWrap "HTTP request failed: " e "")
                | HttpBroken _ e => Retry (EWrap "failed to read response: " e "")
                | HttpAnswered status respBody =>
                    if ((status <? 200) || (status >=? 300))%Z then
                      let lastErr := ENew ("HTTP " +:+ Itoa status +:+ ": " +:+ respBody) in
                      if ((status >=? 400) && (status <? 500))%Z then Final (Err lastErr)
                      else Retry lastErr
                    else
                      match decode respBody with
                      | Err e => Final (Err (EWrap "failed to unmarshal response: " e ""))
                      | Ok a => Final (Ok a)
                      end
                end)
      end
  end.

(** The error after the loop; [fmt.Errorf] prints a nil [%w] this way. *)
Definition attempts_exhausted {A} (lastErr : option go_error) : res A :=
  let text := "request failed after " +:+ Itoa (rc_MaxAttempts (retryCfg c)) +:+ " attempts: " in
  match lastErr with
  | Some e => Err (EWrap text e "")
  | None => Err (ENew (text +:+ "%!w(<nil>)"))
  end.

(** [turns] turns are left, the present one is number [attempt]. *)
Fixpoint request_loop {A} (turns : nat) (attempt : Z) (lastErr : option go_error)
    (requestID method path : string) (body : option (res string)) (decode : string -> res A)
    : M (res A) :=
  match turns with
  | O => mret (attempts_exhausted lastErr)
  | S turns =>
      r ← request_attempt requestID method path body decode;
      match r with
      | Final r => mret r
      | Retry lastErr =>
          if (attempt <? rc_MaxAttempts (retryCfg c))%Z then
            waitBeforeRetry attempt;;
            request_loop turns (attempt + 1) (Some lastErr) requestID method path body decode
          else mret (attempts_exhausted (Some lastErr))
      end
  end.

Definition doRequest {A} (ctxID method path : string) (body : option (res string))
    (decode : string -> res A) : M (res A) :=
  request_loop (Z.to_nat (rc_MaxAttempts (retryCfg c))) 1 None (ensureRequestID ctxID)
    method path body decode.

Definition Encrypt (ctxID context : string) (plaintext : list ascii) : M (res (string * string)) :=
  let req := {| eq_Context := context; eq_Plaintext := EncodeBase64 plaintext |} in
  r ← doRequest ctxID "POST" "/encrypt" (Some (marshal_encrypt req)) unmarshal_encrypt;
  mret (match r with
        | Err e => Err (EWrap "encrypt request failed: " e "")
        | Ok resp =>
            if negb (str_empty (es_Error resp)) then Err (ENew ("HSM encrypt error: " +:+ es_Error resp))
            else Ok (es_KeyID resp, es_Ciphertext resp)
        end).

Definition Decrypt (ctxID context keyID ciphertext : string) : M (res (list ascii)) :=
  let req := {| dq_Context := context; dq_KeyID := keyID; dq_Ciphertext := ciphertext |} in
  r ← doRequest ctxID "POST" "/decrypt" (Some (marshal_decrypt req)) unmarshal_decrypt;
  mret (match r with
        | Err e => Err (EWrap "decrypt request failed: " e "")
        | Ok resp =>
            if negb (str_empty (ds_Error resp)) then Err (ENew ("HSM decrypt error: " +:+ ds_Error resp))
            else match DecodeBase64 (ds_Plaintext resp) with
                 | Err e => Err (EWrap "failed to decode plaintext: " e "")
                 | Ok plaintext => Ok plaintext
                 end
        end).

Definition Health (ctxID : string) : M (res HealthResponse) :=
  r ← doRequest ctxID "GET" "/health" None unmarshal_health;
  mret (match r with
        | Err e => Err (EWrap "health request failed: " e "")
        | Ok resp => Ok resp
        end).

(** ** Specification *)

(** An answer after which [doRequest] tries again. *)
Definition retryable (o : http_outcome) : bool :=
  match o with
  | HttpFailed _ | HttpBroken _ _ => true
  | HttpAnswered status _ =>
      ((status <? 200) || (status >=? 300))%Z && negb ((status >=? 400) && (status <? 500))%Z
  end.

(** The events of [k] requests from attempt [attempt] on, with the pauses between. *)
Fixpoint exchange (e : hsm_event) (k : nat) (attempt : Z) (pauses : nat) : list hsm_event :=
  match k with
  | O => []
  | S O => [e]
  | S k => e :: HsmWait (calculateBackoff c attempt) (ctx_done pauses)
             :: exchange e k (attempt + 1) (S pauses)
  end.

(** The result of a request whose [k] answers are those from number [n] on. *)
Definition answered {A} (decode : string -> res A) (n k : nat) (r : res A) : Prop :=
  (0 < k)%nat /\ (forall j, (j < k - 1)%nat -> retryable (http_do (n + j)) = true) /\
  match r with
  | Ok a => exists status body, http_do (n + (k - 1)) = HttpAnswered status body /\
              (200 <= status < 300)%Z /\ decode body = Ok a
  | Err _ => retryable (http_do (n + (k - 1))) = true -> Z.of_nat k = rc_MaxAttempts (retryCfg c)
  end.

Lemma request_attempt_sent {A} id method path body (decode : string -> res A) w :
  (forall e, body <> Some (Err e)) -> http_new_request method (baseURL c +:+ path) = None ->
  let '(r, w') := request_attempt id method path body decode w in
  sent w' = S (sent w) /\ waited w' = waited w /\
  trace w' = trace w ++ [HsmRequest method (baseURL c +:+ path) id
                           (match body with Some (Ok b) => b | _ => "" end)] /\
  match r with
  | Retry _ => retryable (http_do (sent w)) = true
  | Final (Err _) => retryable (http_do (sent w)) = false
  | Final (Ok a) => exists status b, http_do (sent w) = HttpAnswered status b /\
      (200 <= status < 300)%Z /\ decode b = Ok a
  end.
Proof.
  intros Hb Hn.
  unfold request_attempt, http_call, mbind, st_bind, mret, st_ret.
  destruct body as [[b|e]|]; [|by destruct (Hb e)|]; rewrite Hn; cbn;
    (split; [done|]); (split; [done|]); (split; [done|]);
    destruct (http_do (sent w)) as [e|s e|s b']; cbn; try done;
    destruct ((s <? 200) || (s >=? 300))%Z eqn:E1; cbn;
    try (destruct ((s >=? 400) && (s <? 500))%Z; done);
    destruct (decode b') eqn:Ed; try done;
    (eexists _, _; split; [done|]; split; [lia|done]).
Qed.

Lemma request_loop_spec {A} turns attempt last id method path body (decode : string -> res A) w :
  (forall e, body <> Some (Err e)) -> http_new_request method (baseURL c +:+ path) = None ->
  (0 < turns)%nat -> (attempt + Z.of_nat turns = rc_MaxAttempts (retryCfg c) + 1)%Z ->
  let '(r, w') := request_loop turns attempt last id method path body decode w in
  exists k, (1 <= k <= turns)%nat /\ sent w' = (sent w + k)%nat /\
    trace w' = trace w ++ exchange (HsmRequest method (baseURL c +:+ path) id
                 (match body with Some (Ok b) => b | _ => "" end)) k attempt (waited w) /\
    (forall j, (j < k - 1)%nat -> retryable (http_do (sent w + j)) = true) /\
    match r with
    | Ok a => exists status b, http_do (sent w + (k - 1)) = HttpAnswered status b /\
                (200 <= status < 300)%Z /\ decode b = Ok a
    | Err _ => retryable (http_do (sent w + (k - 1))) = true -> k = turns
    end.
Proof.
  intros Hb Hn. revert attempt last w. induction turns as [|turns IH]; intros attempt last w Hl Hm; [lia|].
  cbn [request_loop]. unfold mbind, st_bind at 1.
  pose proof (request_attempt_sent id method path body decode w Hb Hn) as Ha.
  destruct (request_attempt id method path body decode w) as [[r|e] w1]; destruct Ha as (Hs & Hw & Ht & Hr).
  - cbn. exists 1%nat. split; [lia|]. split; [lia|]. split; [done|]. split; [lia|].
    replace (sent w + (1 - 1))%nat with (sent w) by lia. destruct r as [a|e]; [done|].
    intros Hf. congruence.
  - destruct (Z.ltb_spec attempt (rc_MaxAttempts (retryCfg c))) as [Hlt|Hge].
    + unfold waitBeforeRetry. unfold mbind, st_bind.
      match goal with |- context [request_loop turns _ _ _ _ _ _ _ ?x] => set (w2 := x) end.
      specialize (IH (attempt + 1)%Z (Some e) w2 ltac:(lia) ltac:(lia)).
      destruct (request_loop turns _ _ _ _ _ _ _ w2) as [r w'].
      destruct IH as (k & Hk & Hs' & Ht' & Hretry & Hres).
      assert (sent w2 = S (sent w)) as E2 by exact Hs.
      exists (S k). split; [lia|]. split; [lia|]. split_and!.
      * rewrite Ht'. unfold w2. cbn [trace field_set exchange]. cbn. rewrite Ht, Hw.
        destruct k as [|k]; [lia|]. by rewrite <- !app_assoc.
      * intros [|j] Hj; [by rewrite Nat.add_0_r|].
        specialize (Hretry j ltac:(lia)). rewrite E2 in Hretry.
        by replace (sent w + S j)%nat with (S (sent w) + j)%nat by lia.
      * rewrite E2 in Hres.
        replace (sent w + (S k - 1))%nat with (S (sent w) + (k - 1))%nat by lia.
        destruct r as [a|e']; [done|]. intros Hf. f_equal. auto.
    + cbn. exists 1%nat. split; [lia|]. split; [lia|]. split; [done|]. split; [lia|].
      unfold attempts_exhausted. lia.
Qed.
End client.

(** ** Properties *)

(** C39. A request to the HSM ends, with a bounded number of attempts and of pauses.
    Some [k <= MaxAttempts] equal requests are sent, with the scheduled pause between
    any two; all but the last were answered by a transport error or a status that is
    neither 2xx nor 4xx.  A success is the decoded 2xx answer to the last request; an
    error after a retryable answer means that every attempt was used.  Without
    attempts ([MaxAttempts <= 0], which the configuration admits) nothing is sent and
    the call fails. *)
Theorem doRequest_terminates `{!HsmEnv} {A} (c : hsm_client) (ctxID method path : string)
    (body : option (res string)) (decode : string -> res A) (w : hsm_world)
    (Hbody : forall e, body <> Some (Err e))
    (Hurl : http_new_request method (baseURL c +:+ path) = None) :
  let '(r, w') := doRequest c ctxID method path body decode w in
  let event := HsmRequest method (baseURL c +:+ path) (ensureRequestID ctxID)
                 (match body with Some (Ok b) => b | _ => "" end) in
  if (rc_MaxAttempts (retryCfg c) <=? 0)%Z then w' = w /\ is_ok r = false
  else exists k, (Z.of_nat k <= rc_MaxAttempts (retryCfg c))%Z /\
    sent w' = (sent w + k)%nat /\ trace w' = trace w ++ exchange c event k 1 (waited w) /\
    answered c decode (sent w) k r.
Proof.
  unfold doRequest. destruct (Z.leb_spec (rc_MaxAttempts (retryCfg c)) 0) as [Hle|Hgt].
  - replace (Z.to_nat (rc_MaxAttempts (retryCfg c))) with O by lia. by cbn.
  - pose proof (request_loop_spec c (Z.to_nat (rc_MaxAttempts (retryCfg c))) 1 None (ensureRequestID ctxID)
      method path body decode w Hbody Hurl ltac:(lia) ltac:(lia)) as Hl.
    destruct (request_loop _ _ _ _ _ _ _ _ _ w) as [r w'].
    destruct Hl as (k & Hk & Hs & Ht & Hretry & Hres). exists k. split; [lia|].
    split; [done|]. split; [done|]. split; [lia|]. split; [done|].
    destruct r as [a|e]; [done|]. intros Hf. specialize (Hres Hf). lia.
Qed.

(** A plaintext survives the way through the HSM: [Decrypt] inverts the encoding
    [Encrypt] sends. *)
Lemma Decrypt_plaintext `{!HsmEnv} (c : hsm_client) ctxID context keyID ciphertext plaintext w w' :
  doRequest c ctxID "POST" "/decrypt"
    (Some (marshal_decrypt {| dq_Context := context; dq_KeyID := keyID; dq_Ciphertext := ciphertext |}))
    unmarshal_decrypt w = (Ok {| ds_Plaintext := EncodeBase64 plaintext; ds_Error := "" |}, w') ->
  Decrypt c ctxID context keyID ciphertext w = (Ok plaintext, w').
Proof.
  intros E. unfold Decrypt, mbind, st_bind. rewrite E. cbn -[DecodeBase64 EncodeBase64].
  unfold DecodeBase64, EncodeBase64. by rewrite DecodeString_EncodeToString.
Qed.

(** The pauses of the configuration 100ms, 5s, 2.0 double up to the maximum; from
    attempt 38 on the product leaves int64 and the pause is negative, so none. *)
Example backoff_examples :
  let cfg := {| rc_MaxAttempts := 40; rc_InitialWait := 100 * Millisecond; rc_MaxWait := 5 * Second;
                rc_Multiplier := f_of_Z 2 |} in
  map (fun n => backoff cfg (Z.of_nat n)) (seq 1 7) =
    map (fun ms => (ms * Millisecond)%Z) [100; 200; 400; 800; 1600; 3200; 5000]%Z /\
  backoff cfg 37 = (5 * Second)%Z /\ backoff cfg 38 = min_int64.
Proof. by vm_compute. Qed.

(** ** Witness *)

(** The first answer is a 503, the next one is a success. *)
Definition demo_hsm : HsmEnv := {|
  http_do := fun n => match n with O => HttpAnswered 503 "busy" | _ => HttpAnswered 200 "ok" end;
  ctx_done := fun _ => false;
  http_new_request := fun _ _ => None;
  hsm_random := None; hsm_clock := 7;
  marshal_encrypt := fun r => Ok (eq_Plaintext r);
  marshal_decrypt := fun r => Ok (dq_Ciphertext r);
  unmarshal_encrypt := fun b => Ok {| es_KeyID := "k1"; es_Ciphertext := b; es_Error := "" |};
  unmarshal_decrypt := fun b => Ok {| ds_Plaintext := b; ds_Error := "" |};
  unmarshal_health := fun _ => Err (ENew "no body")
|}.

Definition demo_client : hsm_client :=
  {| baseURL := "https://hsm"; httpTimeout := 5 * Second; retryCfg :=
       {| rc_MaxAttempts := 3; rc_InitialWait := 100 * Millisecond; rc_MaxWait := 5 * Second;
          rc_Multiplier := f_of_Z 2 |} |}.

Lemma doRequest_terminates_witness :
  let w := mk_hsm_world 0 0 [] in
  let '(r, w') := doRequest (H := demo_hsm) demo_client "q1" "POST" "/encrypt" (Some (Ok "x"))
                    (unmarshal_encrypt (HsmEnv := demo_hsm)) w in
  exists k, (Z.of_nat k <= 3)%Z /\ sent w' = k /\
    answered (H := demo_hsm) demo_client (unmarshal_encrypt (HsmEnv := demo_hsm)) 0 k r.
Proof.
  pose proof (doRequest_terminates (H := demo_hsm) demo_client "q1" "POST" "/encrypt" (Some (Ok "x"))
    (unmarshal_encrypt (HsmEnv := demo_hsm)) (mk_hsm_world 0 0 []) ltac:(discriminate) eq_refl) as Hw.
  cbv zeta. destruct (doRequest _ _ _ _ _ _ _) as [r w'].
  destruct Hw as (k & Hk & Hs & _ & Ha). exists k. split; [exact Hk|]. split; [exact Hs|exact Ha].
Defined.
