(* ===== verification/MySQL.v ===== *)
(** * The MySQL client (internal/db/mysql.go)

    The data source name, [WithRetry] (an operation on any state, tried again with the
    exponential backoff of the HSM client), and [NewMySQLClient]. *)

From S2P Require Import Prelude GoText GoFloat StateM Hsm.

Record MySQLConfig := {
  my_Host : string;
  my_Port : Z;
  my_User : string;
  my_Password : string;
  my_Database : string;
  my_TLSEnabled : bool;
  my_CertPath : string;
  my_KeyPath : string;
  my_CAPath : string;
  my_MaxOpenConns : Z;
  my_MaxIdleConns : Z;
  my_ConnMaxLifetime : Z;
  my_ConnMaxIdleTime : Z
}.

Definition dsn (cfg : MySQLConfig) : string :=
  my_User cfg +:+ ":" +:+ my_Password cfg +:+ "@tcp(" +:+ my_Host cfg +:+ ":" +:+ Itoa (my_Port cfg)
  +:+ ")/" +:+ my_Database cfg +:+
  (if my_TLSEnabled cfg then "?tls=custom&parseTime=true&loc=UTC" else "?parseTime=true&loc=UTC").

Definition DefaultRetryConfig : RetryConfig :=
  {| rc_MaxAttempts := 3; rc_InitialWait := 100 * Millisecond; rc_MaxWait := 5 * Second;
     rc_Multiplier := f_of_Z 2 |}.

(** [ctx_err n]: [ctx.Err()] after the [n]-th attempt; [wait_err n]: the error of the
    context when it ends the pause after that attempt. *)
Class CtxEnv := { ctx_err : Z -> option go_error; wait_err : Z -> option go_error }.

Section with_retry.
Context `{!CtxEnv} {X : Type} (operation : st X (option go_error)).

(** The state of the operation, and the pauses made so far. *)
Abbreviation M := (st (X * list Z)).

Definition run_operation : M (option go_error) := fun w =>
  let '(r, x) := operation w.1 in (r, (x, w.2)).

Definition pause (d : Z) : M unit := modify (fun w => (w.1, w.2 ++ [d])).

Definition retries_failed (lastErr : go_error) : go_error :=
  EWrap ("operation failed after " +:+ Itoa (rc_MaxAttempts DefaultRetryConfig) +:+ " attempts: ") lastErr "".

(** [turns] attempts are left, the present one is number [attempt]; the loop of the
    source never starts a turn with none left. *)
Fixpoint retry_turns (turns : nat) (attempt : Z) (lastErr : go_error) : M (res unit) :=
  match turns with
  | O => mret (Err (retries_failed lastErr))
  | S turns =>
      r ← run_operation;
      match r with
      | None => mret (Ok tt)
      | Some err =>
          match ctx_err attempt with
          | Some e => mret (Err (EWrap "context cancelled: " e ""))
          | None =>
              if (attempt =? rc_MaxAttempts DefaultRetryConfig)%Z then mret (Err (retries_failed err))
              else
                pause (backoff DefaultRetryConfig attempt);;
                match wait_err attempt with
                | Some e => mret (Err (EWrap "context cancelled during retry: " e ""))
                | None => retry_turns turns (attempt + 1) err
                end
          end
      end
  end.

Definition WithRetry : M (res unit) :=
  retry_turns (Z.to_nat (rc_MaxAttempts DefaultRetryConfig)) 1 (ENew "").

(** The states of the operation after [1, 2, ...] calls. *)
Fixpoint calls (n : nat) (x : X) : X := match n with O => x | S n => calls n (operation x).2 end.

Lemma default_backoff :
  backoff DefaultRetryConfig 1 = (100 * Millisecond)%Z /\
  backoff DefaultRetryConfig 2 = (200 * Millisecond)%Z.
Proof. by vm_compute. Qed.

Definition pauses (attempt : Z) (p : nat) : list Z :=
  map (fun j => backoff DefaultRetryConfig (attempt + Z.of_nat j)) (seq 0 p).

Lemma pauses_S attempt p :
  pauses attempt (S p) = backoff DefaultRetryConfig attempt :: pauses (attempt + 1) p.
Proof.
  unfold pauses. cbn [seq map]. rewrite Z.add_0_r. f_equal.
  rewrite <- seq_shift, map_map. apply map_ext. intros j. f_equal. lia.
Qed.

(** What [turns] turns from attempt [attempt] on do: [k] calls and [p] pauses. *)
Definition retried (turns : nat) (attempt : Z) (x x' : X) (l l' : list Z) (r : res unit) : Prop :=
  exists k p, (1 <= k <= turns)%nat /\ (p = k - 1 \/ p = k)%nat /\ (p < turns)%nat /\
    x' = calls k x /\ l' = l ++ pauses attempt p /\
    (forall j, (j < k - 1)%nat -> (operation (calls j x)).1 <> None) /\
    (r = Ok tt <-> (operation (calls (k - 1) x)).1 = None).

Lemma retried_stop turns attempt x l r :
  (0 < turns)%nat -> (r = Ok tt <-> (operation x).1 = None) ->
  retried turns attempt x (operation x).2 l l r.
Proof.
  intros Ht Hr. exists 1%nat, 0%nat. rewrite app_nil_r.
  do 5 (split; [first [lia | done]|]). split; [lia|done].
Qed.

Lemma retried_pause turns attempt x l r :
  (1 < turns)%nat -> (r = Ok tt <-> (operation x).1 = None) ->
  retried turns attempt x (operation x).2 l (l ++ [backoff DefaultRetryConfig attempt]) r.
Proof.
  intros Ht Hr. exists 1%nat, 1%nat. rewrite pauses_S.
  do 5 (split; [first [lia | done]|]). split; [lia|done].
Qed.

Lemma retried_again turns attempt x x' l l' r :
  (operation x).1 <> None ->
  retried turns (attempt + 1) (operation x).2 x' (l ++ [backoff DefaultRetryConfig attempt]) l' r ->
  retried (S turns) attempt x x' l l' r.
Proof.
  intros Hx (k & p & Hk & Hp & Hpt & Hx' & Hl & Hj & Hr).
  exists (S k), (S p). do 3 (split; [lia|]). split; [done|].
  split; [by rewrite Hl, pauses_S, <- app_assoc|].
  destruct k as [|k]; [lia|]. cbn [Nat.sub] in *. rewrite Nat.sub_0_r in *. split; [|done].
  intros [|j] Hlt; [done|]. apply Hj. lia.
Qed.

Lemma retry_turns_spec turns attempt last x l :
  (0 < turns)%nat -> (attempt + Z.of_nat turns = 4)%Z ->
  let '(r, (x', l')) := retry_turns turns attempt last (x, l) in retried turns attempt x x' l l' r.
Proof.
  revert attempt last x l. induction turns as [|turns IH]; intros attempt last x l Ht Ha; [lia|].
  cbn [retry_turns]. unfold mbind, st_bind at 1, run_operation. cbn [fst snd].
  pose proof (retried_stop (S turns) attempt x l) as Hstop.
  pose proof (retried_pause (S turns) attempt x l) as Hpause.
  pose proof (retried_again turns attempt x) as Hagain.
  destruct (operation x) as [[err|] x1]; cbn [fst snd] in *; [|by apply Hstop].
  destruct (ctx_err attempt) as [e|]; [by apply Hstop|].
  change (rc_MaxAttempts DefaultRetryConfig) with 3%Z.
  destruct (Z.eqb_spec attempt 3) as [->|Hne]; [by apply Hstop|].
  unfold pause, modify, mbind, st_bind. cbn [fst snd].
  destruct (wait_err attempt) as [e|]; [apply Hpause; [lia|done]|].
  specialize (IH (attempt + 1)%Z err x1 (l ++ [backoff DefaultRetryConfig attempt]) ltac:(lia) ltac:(lia)).
  destruct (retry_turns turns (attempt + 1) err _) as [r [x' l']].
  by apply Hagain.
Qed.

(** One, two or three calls, with pauses of 100ms and 200ms in between; the result is
    a success exactly when the last call succeeded, and all calls before it failed. *)
Lemma WithRetry_spec x l :
  let '(r, (x', l')) := WithRetry (x, l) in retried 3 1 x x' l l' r.
Proof. exact (retry_turns_spec 3 1 (ENew "") x l ltac:(lia) ltac:(lia)). Qed.
End with_retry.

(** ** NewMySQLClient *)

(** The pool settings of a [sql.DB]. *)
Record pool_settings := {
  ps_MaxOpenConns : Z;
  ps_MaxIdleConns : Z;
  ps_ConnMaxLifetime : Z;
  ps_ConnMaxIdleTime : Z
}.

(** A [sql.DB]: its data source name and settings, the pings so far, and whether it
    is closed. *)
Record sql_db := mk_sql_db {
  db_dsn : string;
  db_pool : pool_settings;
  db_pings : nat;
  db_closed : bool
}.

#[export] Instance eta_sql_db : Eta sql_db := fun d =>
  mk_sql_db (db_dsn d) (db_pool d) (db_pings d) (db_closed d).

(** The registration of the TLS settings, the driver's check of a data source name, and
    the answer to the [n]-th ping. *)
Class DriverEnv := {
  register_tls : string -> option go_error;
  sql_open : string -> option go_error;
  ping_answer : nat -> option go_error
}.

Section new_client.
Context `{!CtxEnv, !TlsEnv, !DriverEnv}.

(** The block under [if cfg.TLSEnabled]. *)
Definition setup_tls (cfg : MySQLConfig) : res unit :=
  load_tls (my_CertPath cfg) (my_KeyPath cfg) (my_CAPath cfg);;
  fail_with "failed to register TLS config: " (register_tls (my_Host cfg)).

Definition pool_of (cfg : MySQLConfig) : pool_settings :=
  {| ps_MaxOpenConns := my_MaxOpenConns cfg; ps_MaxIdleConns := my_MaxIdleConns cfg;
     ps_ConnMaxLifetime := my_ConnMaxLifetime cfg; ps_ConnMaxIdleTime := my_ConnMaxIdleTime cfg |}.

Definition Ping : st sql_db (option go_error) := fun d =>
  (ping_answer (db_pings d), d <| db_pings ::= S |>).

Definition Close (d : sql_db) : sql_db := d <| db_closed := true |>.

(** The result, the database that was opened, if any, and the pauses between pings. *)
Definition NewMySQLClient (cfg : MySQLConfig) : res unit * option sql_db * list Z :=
  match (if my_TLSEnabled cfg then setup_tls cfg else Ok tt) with
  | Err e => (Err e, None, [])
  | Ok _ =>
      match sql_open (dsn cfg) with
      | Some e => (Err (EWrap "failed to open connection: " e ""), None, [])
      | None =>
          match WithRetry Ping (mk_sql_db (dsn cfg) (pool_of cfg) 0 false, []) with
          | (Err e, (d, waits)) => (Err (EWrap "failed to ping database: " e ""), Some (Close d), waits)
          | (Ok _, (d, waits)) => (Ok tt, Some d, waits)
          end
      end
  end.

Lemma calls_Ping k d : calls Ping k d = d <| db_pings ::= Nat.add k |>.
Proof.
  revert d. induction k as [|k IH]; intros d; [by destruct d|].
  cbn [calls]. rewrite IH. destruct d. unfold Ping. cbn. unfold field_set. cbn. f_equal. lia.
Qed.

(** A client is handed out exactly when one of at most three pings is answered, the
    ones before it not; a database that was opened and not handed out is closed. *)
Lemma NewMySQLClient_spec cfg :
  let '(r, db, waits) := NewMySQLClient cfg in
  match db with
  | None => is_ok r = false /\ waits = []
  | Some d =>
      db_dsn d = dsn cfg /\ db_pool d = pool_of cfg /\ db_closed d = negb (is_ok r) /\
      (1 <= db_pings d <= 3)%nat /\ (length waits <= 2)%nat /\
      (is_ok r = true <-> ping_answer (db_pings d - 1) = None) /\
      (forall n, (n < db_pings d - 1)%nat -> ping_answer n <> None)
  end.
Proof.
  unfold NewMySQLClient. destruct (if my_TLSEnabled cfg then _ else _); [|done].
  destruct (sql_open (dsn cfg)); [done|].
  pose proof (WithRetry_spec Ping (mk_sql_db (dsn cfg) (pool_of cfg) 0 false) []) as Hw.
  destruct (WithRetry Ping _) as [r [d waits]].
  destruct Hw as (k & p & Hk & Hp & Hp3 & -> & -> & Hbefore & Hr).
  assert (length ([] ++ pauses 1 p) <= 2)%nat as Hlen.
  { cbn. unfold pauses. rewrite length_map, length_seq. lia. }
  assert (forall n, (n < k - 1)%nat -> ping_answer n <> None) as Hb.
  { intros n Hn. specialize (Hbefore n Hn). rewrite calls_Ping in Hbefore. cbn in Hbefore.
    by rewrite Nat.add_0_r in Hbefore. }
  rewrite !calls_Ping in *. cbn in Hr. rewrite Nat.add_0_r in Hr.
  destruct r as [[]|e]; cbn -[pauses]; rewrite !Nat.add_0_r; split_and!; try done; try lia; naive_solver.
Qed.
End new_client.
