(* ===== verification/Selection.v ===== *)
(** * Candidate selection (internal/scheduler/scheduler.go)

    The pure half of the scheduler: eligibility, scores, the order of candidates,
    the targets of a latency sweep and the percentile of scores. *)

From S2P Require Import Prelude GoFloat Telemetry Handler.

Definition sessionStateActive_name : string := "active".
Definition taskTypeTrade : string := "trade".
Definition taskTypeMonitor : string := "monitor".

Definition loadWeight : f64 := f_of_Z 1000.
Definition monitorCapacityPenaltyWeight : f64 := f_of_Z 200.
Definition missingLatencyProfilePenalty : f64 := f_of_Z 5000.
Definition missingExchangePenalty : f64 := f_of_Z 300.

Definition defaultResourceHardLimit : f64 := f_lit 98 100.
Definition defaultResourceSoftLimit : f64 := f_lit 75 100.
Definition defaultResourceSoftPenaltyMs : f64 := f_of_Z 600.

Record Candidate := {
  c_TraderID : string;
  c_SessionID : string;
  c_LastHeartbeatUnix : Z;
  Score : f64
}.

#[export] Instance eta_Candidate : Eta Candidate := fun c =>
  {| c_TraderID := c_TraderID c; c_SessionID := c_SessionID c;
     c_LastHeartbeatUnix := c_LastHeartbeatUnix c; Score := Score c |}.

Definition normalizeTaskType (v : string) : string :=
  if v =s taskTypeMonitor then taskTypeMonitor else taskTypeTrade.

Definition normalizeRole (v : string) : string :=
  if (v =s "monitor") || (v =s "trade") || (v =s "both") then v else "both".

Definition clampUnit (v : f64) : f64 :=
  if f_lt v f_zero then f_zero else if f_gt v f_one then f_one else v.

Definition monitorRolePenalty (role : string) : Z :=
  if role =s "monitor" then 0
  else if role =s "both" then 100
  else if role =s "trade" then 300
  else 100.

Definition normalizeExchangeList (exchanges : list string) : list string :=
  match exchanges with
  | [] => []
  | _ => collect_unique (fun ex => ToLower (TrimSpace ex)) ∅ exchanges
  end.

Definition normalizeResourceHardLimit (v : f64) : f64 :=
  if f_le v f_zero || f_ge v f_one then defaultResourceHardLimit else v.
Definition normalizeResourceSoftLimit (v : f64) : f64 :=
  if f_le v f_zero || f_ge v f_one then defaultResourceSoftLimit else v.
Definition normalizeResourceSoftPenalty (v : f64) : f64 :=
  if f_le v f_zero then defaultResourceSoftPenaltyMs else v.

Definition scoreTrade (latencyProfileMs loadIndex : f64) : f64 :=
  f_add latencyProfileMs (f_mul loadWeight (f_mul loadIndex loadIndex)).

Definition scoreMonitor (tradeLoadIndex loadIndex : f64) (rolePenalty : Z) : f64 :=
  let monitorCapacityPenalty := f_mul monitorCapacityPenaltyWeight (f_mul loadIndex loadIndex) in
  f_add (f_add (f_mul loadWeight (f_mul tradeLoadIndex tradeLoadIndex)) monitorCapacityPenalty)
    (f_of_Z rolePenalty).

Definition estimateLatencyProfileMs (snapshot : TraderSnapshot) : f64 :=
  if f_gt (ts_LatencyProfileMs snapshot) f_zero then ts_LatencyProfileMs snapshot
  else missingLatencyProfilePenalty.

(** The loop over the required exchanges: usable latencies and the missing count. *)
Fixpoint required_latencies (m : gmap string f64) (required : list string) : list f64 * Z :=
  match required with
  | [] => ([], 0%Z)
  | ex :: rest =>
      let '(latencies, missing) := required_latencies m rest in
      match m !! ex with
      | None => (latencies, (missing + 1)%Z)
      | Some latency =>
          if f_lt latency f_zero then (latencies, (missing + 1)%Z)
          else (latency :: latencies, missing)
      end
  end.

Definition all_missing_penalty (requiredExchanges : list string) : f64 :=
  f_add missingLatencyProfilePenalty
    (f_mul (f_of_Z (Z.of_nat (length requiredExchanges))) missingExchangePenalty).

Definition estimateLatencyProfileMsForTask (snapshot : TraderSnapshot)
    (requiredExchanges : list string) : f64 :=
  match requiredExchanges with
  | [] => estimateLatencyProfileMs snapshot
  | _ =>
      if bool_decide (ts_ExchangeLatencies snapshot = ∅) then all_missing_penalty requiredExchanges
      else
        let '(latencies, missingCount) :=
          required_latencies (ts_ExchangeLatencies snapshot) requiredExchanges in
        match latencies with
        | [] => all_missing_penalty requiredExchanges
        | _ =>
            let sorted := sort_floats latencies in
            let n := length sorted in
            let maxLatency := nth (n - 1) sorted f_zero in
            let p95 := nth (p95_index n) sorted f_zero in
            let spread := f_sub maxLatency (nth 0 sorted f_zero) in
            let profile := f_add p95 (f_mul (f_lit 10 100) spread) in
            if (missingCount >? 0)%Z
            then f_add profile (f_mul (f_of_Z missingCount) missingExchangePenalty)
            else profile
        end
  end.

(** [int64(healthyWindow.Seconds())] after the default. *)
Definition healthy_seconds (healthyWindow : Z) : Z :=
  duration_seconds_int (if (healthyWindow <=? 0)%Z then (15 * Second)%Z else healthyWindow).

(** The guards common to candidates and latency targets. *)
Definition session_fresh (nowUnix window : Z) (s : TraderSnapshot) : bool :=
  negb (str_empty (ts_TraderID s) || str_empty (ts_SessionID s))
  && (ts_State s =s sessionStateActive_name)
  && (0 <? ts_LastHeartbeatUnix s)%Z
  && (wrap64 (nowUnix - ts_LastHeartbeatUnix s) <=? window)%Z.

(** The loop body of [selectCandidatesInternal], guards in the order of the code;
    [None] is a [continue]. *)
Definition candidate_of (nowUnix window : Z) (taskType : string) (requiredExchanges : list string)
    (s : TraderSnapshot) : option Candidate :=
  if str_empty (ts_TraderID s) || str_empty (ts_SessionID s) then None
  else
    let status := ToLower (TrimSpace (ts_TraderStatus s)) in
    if (status =s "pending") || (status =s "suspended") || (status =s "decommissioned") then None
    else if negb (str_empty status) && negb (status =s "active") then None
    else if negb (ts_State s =s sessionStateActive_name) then None
    else if (ts_LastHeartbeatUnix s <=? 0)%Z then None
    else if (wrap64 (nowUnix - ts_LastHeartbeatUnix s) >? window)%Z then None
    else
      let role := normalizeRole (ts_Role s) in
      if (taskType =s taskTypeTrade) && (role =s "monitor") then None
      else
        let load := clampUnit (ts_LoadIndex s) in
        let tradeLoad := clampUnit (ts_TradeLoadIndex s) in
        let tradeLoad := if f_eq tradeLoad f_zero && f_gt load f_zero then load else tradeLoad in
        let score :=
          if taskType =s taskTypeMonitor
          then scoreMonitor tradeLoad load (monitorRolePenalty role)
          else scoreTrade (estimateLatencyProfileMsForTask s requiredExchanges) load in
        Some {| c_TraderID := ts_TraderID s; c_SessionID := ts_SessionID s;
                c_LastHeartbeatUnix := ts_LastHeartbeatUnix s; Score := score |}.

(** The comparison of both [sort.SliceStable] calls on candidates. *)
Definition candidate_less (a b : Candidate) : bool :=
  if negb (f_eq (Score a) (Score b)) then f_lt (Score a) (Score b)
  else if negb (c_LastHeartbeatUnix a =? c_LastHeartbeatUnix b)%Z
  then (c_LastHeartbeatUnix a >? c_LastHeartbeatUnix b)%Z
  else str_ltb (c_TraderID a) (c_TraderID b).

Definition selectCandidatesInternal (snapshots : list TraderSnapshot) (now healthyWindow : Z)
    (taskType : string) (requiredExchanges : list string) : list Candidate :=
  sort_stable candidate_less
    (omap (candidate_of (time_unix now) (healthy_seconds healthyWindow) taskType requiredExchanges)
       snapshots).

Definition SelectCandidatesForTask (snapshots : list TraderSnapshot) (now healthyWindow : Z)
    (taskType : string) (requiredExchanges : list string) : list Candidate :=
  selectCandidatesInternal snapshots now healthyWindow taskType
    (normalizeExchangeList requiredExchanges).

Definition SelectCandidatesByTaskType (snapshots : list TraderSnapshot) (now healthyWindow : Z)
    (taskType : string) : list Candidate :=
  selectCandidatesInternal snapshots now healthyWindow taskType [].

Definition SelectCandidates (snapshots : list TraderSnapshot) (now healthyWindow : Z)
    : list Candidate :=
  SelectCandidatesByTaskType snapshots now healthyWindow taskTypeTrade.

#[export] Instance eta_TraderSnapshot : Eta TraderSnapshot := fun s =>
  {| ts_TraderID := ts_TraderID s; ts_TraderDBID := ts_TraderDBID s;
     ts_TraderStatus := ts_TraderStatus s; ts_SessionID := ts_SessionID s; ts_State := ts_State s;
     ts_RegisteredAtUnix := ts_RegisteredAtUnix s; ts_LastHeartbeatUnix := ts_LastHeartbeatUnix s;
     ts_TimedOutAtUnix := ts_TimedOutAtUnix s; ts_Role := ts_Role s;
     ts_Capabilities := ts_Capabilities s; ts_EffectiveExchanges := ts_EffectiveExchanges s;
     ts_LoadIndex := ts_LoadIndex s; ts_TradeLoadIndex := ts_TradeLoadIndex s;
     ts_LatencyProfileMs := ts_LatencyProfileMs s; ts_ExchangeLatencies := ts_ExchangeLatencies s |}.

Definition latency_target (nowUnix window : Z) (s : TraderSnapshot) : option TraderSnapshot :=
  if str_empty (ts_TraderID s) || str_empty (ts_SessionID s) then None
  else if negb (ts_State s =s sessionStateActive_name) then None
  else if (ts_LastHeartbeatUnix s <=? 0)%Z then None
  else if (wrap64 (nowUnix - ts_LastHeartbeatUnix s) >? window)%Z then None
  else
    let s := s <| ts_EffectiveExchanges ::= normalizeExchangeList |> in
    match ts_EffectiveExchanges s with
    | [] => None
    | _ => Some s
    end.

Definition target_less (a b : TraderSnapshot) : bool :=
  if negb (ts_LastHeartbeatUnix a =? ts_LastHeartbeatUnix b)%Z
  then (ts_LastHeartbeatUnix a >? ts_LastHeartbeatUnix b)%Z
  else str_ltb (ts_TraderID a) (ts_TraderID b).

Definition SelectLatencyTestTargets (snapshots : list TraderSnapshot) (now healthyWindow : Z)
    : list TraderSnapshot :=
  sort_stable target_less
    (omap (latency_target (time_unix now) (healthy_seconds healthyWindow)) snapshots).

Definition percentile (sorted : list f64) (q : f64) : f64 :=
  match sorted with
  | [] => f_zero
  | _ =>
      let n := Z.of_nat (length sorted) in
      if f_le q f_zero then nth 0 sorted f_zero
      else if f_ge q f_one then nth (length sorted - 1) sorted f_zero
      else
        let idx := (f_to_int64 (f_ceil (f_mul q (f_of_Z n))) - 1)%Z in
        let idx := if (idx <? 0)%Z then 0%Z else idx in
        let idx := if (n <=? idx)%Z then (n - 1)%Z else idx in
        nth (Z.to_nat idx) sorted f_zero
  end.

(** ** Specification *)

(** A session the scheduler may give work to. *)
Definition eligible (nowUnix window : Z) (taskType : string) (s : TraderSnapshot) : bool :=
  session_fresh nowUnix window s
  && ((norm_token (ts_TraderStatus s) =s "") || (norm_token (ts_TraderStatus s) =s "active"))
  && negb ((taskType =s taskTypeTrade) && (ts_Role s =s "monitor")).

(** The load that counts for trading: the total load stands in for a zero. *)
Definition effective_trade_load (s : TraderSnapshot) : f64 :=
  let load := clampUnit (ts_LoadIndex s) in
  if f_eq (clampUnit (ts_TradeLoadIndex s)) f_zero && f_gt load f_zero then load
  else clampUnit (ts_TradeLoadIndex s).

Definition task_score (taskType : string) (required : list string) (s : TraderSnapshot) : f64 :=
  if taskType =s taskTypeMonitor
  then scoreMonitor (effective_trade_load s) (clampUnit (ts_LoadIndex s))
         (monitorRolePenalty (normalizeRole (ts_Role s)))
  else scoreTrade (estimateLatencyProfileMsForTask s required) (clampUnit (ts_LoadIndex s)).

Definition candidate_for (taskType : string) (required : list string) (s : TraderSnapshot) : Candidate :=
  {| c_TraderID := ts_TraderID s; c_SessionID := ts_SessionID s;
     c_LastHeartbeatUnix := ts_LastHeartbeatUnix s; Score := task_score taskType required s |}.

Lemma normalizeRole_monitor r : (normalizeRole r =s "monitor") = (r =s "monitor").
Proof.
  unfold normalizeRole.
  destruct (r =s "monitor") eqn:E1; cbn; [done|].
  destruct (r =s "trade") eqn:E2; cbn; [done|]. destruct (r =s "both") eqn:E3; cbn; done.
Qed.

Lemma candidate_of_spec nowUnix window taskType required s :
  candidate_of nowUnix window taskType required s =
  if eligible nowUnix window taskType s then Some (candidate_for taskType required s) else None.
Proof.
  unfold candidate_of, eligible, session_fresh.
  destruct (str_empty (ts_TraderID s) || str_empty (ts_SessionID s)); [done|].
  unfold norm_token. set (status := ToLower (TrimSpace (ts_TraderStatus s))).
  change (status =s "") with (str_empty status).
  assert (((status =s "pending") || (status =s "suspended") || (status =s "decommissioned"))
    && (str_empty status || (status =s "active")) = false) as Hst.
  { destruct (str_empty status) eqn:E1; [apply str_empty_true in E1; by rewrite E1|].
    destruct (status =s "active") eqn:E2; [apply str_eqb_eq in E2; by rewrite E2|].
    by rewrite andb_false_r. }
  rewrite normalizeRole_monitor, (Z.leb_antisym 0 (ts_LastHeartbeatUnix s)), Z.gtb_ltb,
    (Z.ltb_antisym (wrap64 _) window).
  destruct (_ || (status =s "decommissioned")), (str_empty status), (status =s "active"),
    (ts_State s =s sessionStateActive_name), (0 <? ts_LastHeartbeatUnix s)%Z,
    (wrap64 (nowUnix - ts_LastHeartbeatUnix s) <=? window)%Z,
    (taskType =s taskTypeTrade), (ts_Role s =s "monitor"); cbn in *; try done;
    unfold candidate_for, task_score, effective_trade_load; done.
Qed.

Lemma omap_candidate nowUnix window taskType required (l : list TraderSnapshot) :
  omap (candidate_of nowUnix window taskType required) l =
  candidate_for taskType required <$> filter (fun s => eligible nowUnix window taskType s = true) l.
Proof.
  induction l as [|s l IH]; [done|]. cbn [omap list_omap]. rewrite candidate_of_spec, filter_cons.
  destruct (eligible nowUnix window taskType s); [rewrite decide_True by done|
    rewrite decide_False by done]; cbn; [by f_equal|done].
Qed.

(** ** The order on candidates *)

Definition score_ok (c : Candidate) : Prop := not_nan (Score c).

(** The comparison is lexicographic: score, then the latest heartbeat, then the id. *)
Definition candidate_lex : Candidate -> Candidate -> bool :=
  lex_less (fun a b => f_lt (Score a) (Score b))
    (lex_less (fun a b => c_LastHeartbeatUnix b <? c_LastHeartbeatUnix a)%Z
       (fun a b => str_ltb (c_TraderID a) (c_TraderID b))).

Lemma candidate_less_lex a b : score_ok a -> score_ok b -> candidate_less a b = candidate_lex a b.
Proof.
  unfold score_ok, candidate_less, candidate_lex, lex_less. intros Ha Hb.
  destruct (f_eq (Score a) (Score b)) eqn:E; cbn.
  - assert (f_lt (Score a) (Score b) = false) as -> by (apply not_true_iff_false; intros H; float_order).
    assert (f_lt (Score b) (Score a) = false) as -> by (apply not_true_iff_false; intros H; float_order).
    rewrite Z.gtb_ltb.
    destruct (Z.eqb_spec (c_LastHeartbeatUnix a) (c_LastHeartbeatUnix b)) as [->|]; cbn.
    + by rewrite Z.ltb_irrefl.
    + destruct (Z.ltb_spec (c_LastHeartbeatUnix b) (c_LastHeartbeatUnix a)); [done|].
      by rewrite (proj2 (Z.ltb_lt _ _)) by lia.
  - destruct (f_lt (Score a) (Score b)) eqn:E1; [done|].
    destruct (f_lt (Score b) (Score a)) eqn:E2; [done|].
    rewrite (f_trichotomy _ _ Ha Hb E1 E2) in E. done.
Qed.

Lemma candidate_lex_order : weak_order_on candidate_lex score_ok.
Proof.
  apply lex_less_order; [by apply (weak_order_key Score f_lt score_ok not_nan f_lt_order)|].
  apply lex_less_order.
  - by apply (weak_order_key c_LastHeartbeatUnix _ score_ok (fun _ => True) Zgt_order).
  - by apply (weak_order_key c_TraderID _ score_ok (fun _ => True) str_ltb_order).
Qed.

Lemma candidate_less_order : weak_order_on candidate_less score_ok.
Proof.
  destruct candidate_lex_order as [Hasym Htrans]. split; unfold not_after in *.
  - intros a b Ha Hb. rewrite !candidate_less_lex by done. auto.
  - intros a b c Ha Hb Hc. rewrite !candidate_less_lex by done. eauto.
Qed.

(** Candidates the order does not separate agree on the trader. *)
Lemma candidate_unordered a b :
  score_ok a -> score_ok b -> not_after candidate_less a b -> not_after candidate_less b a ->
  c_TraderID a = c_TraderID b.
Proof.
  unfold not_after. intros Ha Hb. rewrite !candidate_less_lex by done.
  unfold candidate_lex, lex_less.
  destruct (f_lt (Score b) (Score a)); [done|]. destruct (f_lt (Score a) (Score b)); [done|].
  destruct (_ <? _)%Z; [done|]. destruct (_ <? _)%Z; [done|].
  intros H1 H2. by apply str_ltb_total.
Qed.

Section selection.
Context (snapshots : list TraderSnapshot) (now healthyWindow : Z) (taskType : string)
  (required : list string).

Let window := healthy_seconds healthyWindow.
Let required_norm := normalizeExchangeList required.

Lemma selected_elem c :
  c ∈ SelectCandidatesForTask snapshots now healthyWindow taskType required <->
  exists s, s ∈ snapshots /\ eligible (time_unix now) window taskType s = true /\
    c = candidate_for taskType required_norm s.
Proof.
  unfold SelectCandidatesForTask, selectCandidatesInternal.
  rewrite elem_of_sort_stable, omap_candidate, list_elem_of_fmap.
  setoid_rewrite list_elem_of_filter. naive_solver.
Qed.
End selection.

(** The score of an eligible session, when it is a number. *)
Definition scores_ok (snapshots : list TraderSnapshot) (taskType : string) (required : list string) : Prop :=
  Forall (fun s => not_nan (task_score taskType (normalizeExchangeList required) s)) snapshots.

Lemma scores_ok_selected snapshots nowUnix window taskType required :
  scores_ok snapshots taskType required ->
  Forall score_ok (candidate_for taskType (normalizeExchangeList required) <$>
    filter (fun s => eligible nowUnix window taskType s = true) snapshots).
Proof.
  intros Hs. apply Forall_fmap, Forall_forall. intros s [_ Hin]%list_elem_of_filter.
  unfold scores_ok in Hs. rewrite Forall_forall in Hs. by apply Hs.
Qed.

(** ** Properties *)

Lemma selection_exact (snapshots : list TraderSnapshot) (now healthyWindow : Z) (taskType : string)
    (required : list string) :
  SelectCandidatesForTask snapshots now healthyWindow taskType required ≡ₚ
  candidate_for taskType (normalizeExchangeList required) <$>
    filter (fun s => eligible (time_unix now) (healthy_seconds healthyWindow) taskType s = true) snapshots.
Proof.
  unfold SelectCandidatesForTask, selectCandidatesInternal.
  by rewrite sort_stable_Permutation, omap_candidate.
Qed.

(** Sorting puts no candidate before a better one. *)
Lemma sort_candidates_sorted l :
  Forall score_ok l -> StronglySorted (fun a b => candidate_lex b a = false) (sort_stable candidate_less l).
Proof.
  intros Hl.
  assert (Forall score_ok (sort_stable candidate_less l)) as Hl' by by rewrite sort_stable_Permutation.
  pose proof (sort_stable_sorted _ _ candidate_less_order l Hl) as Hs. revert Hl'.
  induction Hs as [|x k Hk IH Hx]; intros Hl'; constructor;
    inversion Hl' as [|? ? Hx1 Hk1]; subst; [auto|].
  rewrite Forall_forall in Hx, Hk1 |- *. intros y Hy. specialize (Hx y Hy).
  unfold not_after in Hx. rewrite candidate_less_lex in Hx; auto.
Qed.

Lemma selection_sorted (snapshots : list TraderSnapshot) (now healthyWindow : Z) (taskType : string)
    (required : list string) (Hscores : scores_ok snapshots taskType required) :
  StronglySorted (fun a b => candidate_lex b a = false)
    (SelectCandidatesForTask snapshots now healthyWindow taskType required).
Proof.
  unfold SelectCandidatesForTask, selectCandidatesInternal. rewrite omap_candidate.
  by apply sort_candidates_sorted, scores_ok_selected.
Qed.

(** C22. The scheduler considers exactly the eligible sessions, each once: registered
    under a trader and a session id, active, with a heartbeat inside the health
    window, of a trader whose status is empty or active, and not a pure monitor for
    a trade task; every other session is left out, whatever its score.  They come best
    first: no candidate has a lower score than one before it; at equal scores none has a
    later heartbeat, and at equal heartbeats none a smaller trader id. *)
Theorem selection_spec (snapshots : list TraderSnapshot) (now healthyWindow : Z) (taskType : string)
    (required : list string) (Hscores : scores_ok snapshots taskType required) :
  let candidates := SelectCandidatesForTask snapshots now healthyWindow taskType required in
  candidates ≡ₚ
    candidate_for taskType (normalizeExchangeList required) <$>
      filter (fun s => eligible (time_unix now) (healthy_seconds healthyWindow) taskType s = true) snapshots /\
  StronglySorted (fun a b => candidate_lex b a = false) candidates.
Proof. split; [apply selection_exact|by apply selection_sorted]. Qed.

(** C24: Go hands over the sessions in the random order of a map; as long as no
    trader has two sessions, this order has no influence on the candidates or their
    order, so neither has it on the trader that gets the task. *)
Theorem selection_deterministic (snapshots1 snapshots2 : list TraderSnapshot) (now healthyWindow : Z)
    (taskType : string) (required : list string)
    (Hperm : snapshots1 ≡ₚ snapshots2)
    (Hscores : scores_ok snapshots1 taskType required)
    (Htraders : NoDup (ts_TraderID <$> snapshots1)) :
  SelectCandidatesForTask snapshots1 now healthyWindow taskType required =
  SelectCandidatesForTask snapshots2 now healthyWindow taskType required.
Proof.
  unfold SelectCandidatesForTask, selectCandidatesInternal. rewrite !omap_candidate.
  apply (sort_stable_canonical candidate_less score_ok candidate_less_order).
  - by apply scores_ok_selected.
  - by rewrite Hperm.
  - intros a b Ha Hb Hab Hba.
    pose proof (scores_ok_selected snapshots1 (time_unix now) (healthy_seconds healthyWindow) _ _ Hscores) as Hl.
    rewrite Forall_forall in Hl.
    pose proof (candidate_unordered a b (Hl a Ha) (Hl b Hb) Hab Hba) as Heq.
    apply list_elem_of_fmap in Ha as (s & -> & [_ Hs]%list_elem_of_filter).
    apply list_elem_of_fmap in Hb as (t & -> & [_ Ht]%list_elem_of_filter). cbn in Heq.
    apply list_elem_of_lookup in Hs as [i Hi]. apply list_elem_of_lookup in Ht as [j Hj].
    assert (i = j) as ->.
    { apply (NoDup_lookup _ i j (ts_TraderID s) Htraders); rewrite list_lookup_fmap.
      - by rewrite Hi.
      - rewrite Hj, Heq. done. }
    by simplify_eq.
Qed.

(** Three sessions; the third is too old. *)
Definition demo_snapshot (tid : string) (hb : Z) (load : f64) : TraderSnapshot :=
  {| ts_TraderID := tid; ts_TraderDBID := 1; ts_TraderStatus := " Active"; ts_SessionID := "s-" +:+ tid;
     ts_State := "active"; ts_RegisteredAtUnix := 1; ts_LastHeartbeatUnix := hb; ts_TimedOutAtUnix := 0;
     ts_Role := "both"; ts_Capabilities := []; ts_EffectiveExchanges := ["okx"]; ts_LoadIndex := load;
     ts_TradeLoadIndex := f_zero; ts_LatencyProfileMs := f_of_Z 20;
     ts_ExchangeLatencies := {["okx" := f_of_Z 12]} |}.
Definition demo_snapshots : list TraderSnapshot :=
  [demo_snapshot "b" 995 (f_lit 1 2); demo_snapshot "a" 996 (f_lit 1 4); demo_snapshot "c" 100 f_zero].

Lemma demo_scores : scores_ok demo_snapshots "trade" ["okx"].
Proof. repeat constructor. Qed.

Lemma selection_spec_witness :
  StronglySorted (fun a b => candidate_lex b a = false)
    (SelectCandidatesForTask demo_snapshots (1000 * Second) 0 "trade" ["okx"]) /\
  (c_TraderID <$> SelectCandidatesForTask demo_snapshots (1000 * Second) 0 "trade" ["okx"]) = ["a"; "b"].
Proof.
  split; [|vm_compute; reflexivity].
  exact (proj2 (selection_spec demo_snapshots (1000 * Second) 0 "trade" ["okx"] demo_scores)).
Defined.

Lemma selection_deterministic_witness :
  SelectCandidatesForTask demo_snapshots (1000 * Second) 0 "trade" ["okx"] =
  SelectCandidatesForTask (rev demo_snapshots) (1000 * Second) 0 "trade" ["okx"].
Proof.
  refine (selection_deterministic demo_snapshots (rev demo_snapshots) (1000 * Second) 0 "trade" ["okx"]
    _ demo_scores _).
  - symmetry. apply reverse_rev_perm.
  - apply (bool_decide_unpack _). vm_compute. exact I.
Defined.
