(* ===== verification/FleetProperties.v ===== *)
(** * What holds whatever the order

    The theorems about connections side by side: registry, snapshots, numbering and
    isolation in every reachable fleet; a call of [Serve] alone as one of its runs;
    and the two orders in which the handler and its books part. *)

From S2P Require Import Prelude GoFloat Protocol Session Conn Telemetry Auth StateM Interfaces Handler HandlerDemo HandlerFrame HandlerFacts HandlerInv HandlerSession HandlerTraffic HandlerDB Selection Snapshots Fleet FleetTurn FleetFacts.

Section properties.
Context {DB S : Type} `{!SessionPersistence DB} `{!RuntimeSink S} `{!WsJson} `{!ServeEnv}.
Context (h : handler_config).

(** Number of connections that count as active: all but those about to report. *)
Lemma count_conns_empty : count_conns ∅ = 0%nat.
Proof. unfold count_conns. by rewrite map_filter_empty, map_size_empty. Qed.

(** C9. However the turns of any number of connections, their pings, closes and
    latency tests are ordered, the shared state of the handler stays sound and its
    registry exact: the two connection maps describe the same open entries, every
    registered session belongs to a connection that has not left and every connection
    in its loop is registered under its session, the counter of active connections is
    their number, snapshots sit under their own ids, the disconnect metrics add up,
    and every error sent carries a code of the protocol.  Without connections the
    registry is empty and the counter 0. *)
Theorem registry_is_exact (w : world DB S) (f : fleet DB S) (Hf : reachable h w f) :
  let s := hs (shared f) in
  handler_ok s (out (shared f)) /\
  (forall sid p, connections s !! sid = Some p ->
     exists cn, conns f !! p = Some cn /\ cn_sid cn = sid /\ counted cn = true) /\
  (forall p cn, conns f !! p = Some cn -> cn_phase cn = Serving ->
     connections s !! cn_sid cn = Some p /\ connectionsByConn s !! sc_conn (cn_ctx cn) = Some p) /\
  active s = wrap64 (Z.of_nat (count_conns (conns f))) /\
  (conns f = ∅ -> connections s = ∅ /\ connectionsByConn s = ∅ /\ active s = 0%Z).
Proof.
  apply reachable_fleet_ok in Hf as [Hok Hc Hr Ha Hent Hsn Hnum Hw]. cbv zeta. split_and!; try done.
  - intros p cn Hp Hs. destruct (Hc p cn Hp) as [_ _ Hids _ Hserv]. destruct (Hserv Hs) as [Hreg _ _ _ _].
    split; [done|]. destruct (ro_session _ (proj1 Hok) _ _ Hreg) as (e & He & _ & _ & Hk).
    rewrite He in Hids. cbn in Hids. unfold entry_ids in Hids. congruence.
  - intros He.
    assert (connections (hs (shared f)) = ∅) as Hce.
    { apply map_empty. intros sid. destruct (connections _ !! sid) as [p|] eqn:E; [|done].
      destruct (Hr sid p E) as (cn & Hcn & _). by rewrite He in Hcn. }
    split_and!; [done| |by rewrite Ha, He, count_conns_empty].
    apply map_empty. intros k. destruct (connectionsByConn _ !! k) as [p|] eqn:E; [|done].
    destruct (ro_conn _ (proj1 Hok) k p E) as (e & _ & _ & Hx). by rewrite Hce in Hx.
Qed.

(** C20. What the scheduler is shown are the sessions themselves, and their traders
    come from certificates.  However turns are ordered, the snapshot of a session in
    its loop is the current copy of the session, or none before it has registered;
    and every candidate the scheduler can select, whatever the task, has a session
    that was opened, under the trader its client certificate (or the database, for
    its name) gives it. *)
Theorem candidates_are_authenticated (w : world DB S) (f : fleet DB S) (Hf : reachable h w f) :
  (forall p cn, conns f !! p = Some cn -> cn_phase cn = Serving ->
     sessions (hs (shared f)) !! cn_sid cn = snapshot_for (session (cn_loc cn))) /\
  (forall now window task required,
     Forall (fun k => exists cn, certs f !! c_SessionID k = Some cn /\
                                 issued (DB := DB) h cn (c_TraderID k))
       (SelectCandidatesForTask (GetTraderSnapshots (hs (shared f))) now window task required)).
Proof.
  apply reachable_fleet_ok in Hf as [Hok Hc _ _ _ Hsn _ _]. split.
  - intros p cn Hp Hs. destruct (Hc p cn Hp) as [_ _ _ _ Hserv]. by destruct (Hserv Hs).
  - intros now window task required. rewrite selection_exact. apply Forall_fmap, Forall_forall.
    intros t [_ Ht]%list_elem_of_filter. cbn.
    unfold GetTraderSnapshots in Ht. apply list_elem_of_fmap in Ht as ([sid t'] & -> & Ht).
    apply elem_of_map_to_list in Ht. cbn. destruct Hok as (_ & Hsnap & _).
    destruct (Hsnap sid t' Ht) as [-> _]. by apply Hsn.
Qed.



(** *** A call of [Serve] as a run *)

Lemma with_loc_self (w : world DB S) : with_loc (loc w) w = w.
Proof. by destruct w. Qed.

Lemma loop_is_a_run traffic (f : fleet DB S) p c sid :
  conns f !! p = Some {| cn_ctx := c; cn_sid := sid; cn_loc := loc (shared f); cn_phase := Serving |} ->
  let '(k, w') := serve_loop h c traffic (shared f) in
  exists es, fleet_run h es f = Some (f <| shared := w' |>
    <| conns ::= <[p := {| cn_ctx := c; cn_sid := sid; cn_loc := loc w';
                           cn_phase := match k with None => Serving | Some _ => Leaving end |}]> |>).
Proof.
  revert f. induction traffic as [|i rest IH]; intros f Hp; cbn [serve_loop].
  { exists []. destruct f as [w0 m js cs]. cbn in *. unfold field_set. cbn. by rewrite insert_id. }
  unfold mbind, st_bind, mret, st_ret.
  assert (connection_turn h p i f = Some (let '(k, w') := serve_turn h c i (shared f) in
    set_conn p {| cn_ctx := c; cn_sid := sid; cn_loc := loc w';
      cn_phase := match k with Continue => Serving | Return => Leaving end |} (f <| shared := w' |>))) as Ht.
  { unfold connection_turn. rewrite Hp, with_loc_self. by destruct (serve_turn h c i (shared f)). }
  destruct (serve_turn h c i (shared f)) as [[] w1] eqn:Et.
  - set (f1 := set_conn _ _ _) in Ht. specialize (IH f1). cbn in IH. rewrite lookup_insert_eq in IH.
    specialize (IH eq_refl). destruct (serve_loop h c rest w1) as [k w']. destruct IH as [es Hes].
    exists (EvTurn p i :: es). cbn. rewrite Ht. cbn. rewrite Hes. unfold f1, set_conn. destruct f. unfold field_set. cbn. by rewrite insert_insert_eq.
  - exists [EvTurn p i]. cbn. rewrite Ht. done.
Qed.

(** A call of [Serve] on its own is one of these runs: from any reachable fleet,
    with a new session and connection, there is a sequence of steps after which the
    shared world is the one the call leaves.  A call that has returned leaves the
    other connections alone behind it, one that waits for traffic is one more
    connection in its loop. *)
Theorem Serve_is_a_run (w : world DB S) (f : fleet DB S) (r : http_request) (conn : Z)
    (connID sid rid ip : string) (traffic : list inbound) (Hf : reachable h w f) (Hsid : sid <> "")
    (Hnew : certs f !! sid = None) (Hconn : unused_conn conn (hs (shared f)) = true) :
  let '(res, w') := Serve h r conn connID sid rid ip traffic (shared f) in
  exists es f', fleet_run h es f = Some f' /\ shared f' = w' /\
    match res with
    | inl (Some _) => conns f' = conns f
    | inl None => exists cn, cn_phase cn = Serving /\ cn_sid cn = sid /\
        conns f' = <[length (entries (hs (shared f))) := cn]> (conns f)
    | inr _ => f' = f
    end.
Proof.
  apply reachable_fleet_ok in Hf. unfold Serve.
  destruct (authorizeWSClientCertificate (auth h) r) as [[]|reason] eqn:Ea; [|by exists [], f].
  unfold mbind, st_bind, mret, st_ret.
  destruct (serve_open h conn connID sid rid ip (extractClientCertificateCN r) (shared f)) as [c w1] eqn:Eo.
  assert (sc_conn c = conn /\ sc_connEntry c = length (entries (hs (shared f)))) as [Hcc Hce].
  { by destruct (serve_open_spec h _ _ _ _ _ _ _ _ _ Eo) as (_ & _ & _ & _ & -> & _). }
  set (p := length _) in *.
  assert (conns f !! p = None) as Hp.
  { destruct (conns f !! p) eqn:E; [|done]. pose proof (conns_entry h f _ _ Hf E). unfold p in *. lia. }
  set (f1 := f <| shared := w1 |> <| conns ::= <[p := {| cn_ctx := c; cn_sid := sid; cn_loc := loc w1;
    cn_phase := Serving |}]> |> <| certs ::= <[sid := extractClientCertificateCN r]> |>).
  assert (open_connection h r conn connID sid rid ip f = Some f1) as Hop.
  { unfold open_connection. rewrite Ea, Eo, Hce, (proj2 (str_empty_false sid) Hsid), Hconn.
    rewrite bool_decide_eq_false_2 by (rewrite Hnew; by intros []). done. }
  pose proof (loop_is_a_run traffic f1 p c sid (lookup_insert_eq _ _ _)) as Hl. cbn in Hl.
  destruct (serve_loop h c traffic w1) as [[k|] w2]; destruct Hl as [es Hes].
  - pose proof (leave_steps conn sid w2) as Hd. unfold mbind, st_bind in Hd.
    destruct (leave_registry sid w2) as [[a n] w3] eqn:Er. cbn in Hd.
    destruct (serve_defers conn sid w2) as [[] w4] eqn:Ed.
    eexists (EvOpen r conn connID sid rid ip :: es ++ [EvLeave p; EvSync p]), _.
    cbn [fleet_run fleet_next]. rewrite Hop. cbn [mbind option_bind]. rewrite fleet_run_app, Hes.
    cbn. unfold leave_connection. cbn. rewrite lookup_insert_eq, Er. cbn. unfold sync_connection. cbn.
    rewrite lookup_insert_eq, Hcc, Hd. cbn. split; [reflexivity|]. cbn. split; [done|].
    rewrite !insert_insert_eq. by apply delete_insert_id.
  - eexists (EvOpen r conn connID sid rid ip :: es), _. cbn. rewrite Hop. cbn. split; [exact Hes|].
    cbn. split; [done|]. eexists. split; [|split]; [| |by rewrite insert_insert_eq]; done.
Qed.

(** *** Draining *)

Definition draining (e : fleet_event S) : Prop :=
  match e with EvTurn _ (InError _) | EvLeave _ | EvSync _ => True | _ => False end.

Lemma sync_run f p c sid l a n :
  conns f !! p = Some {| cn_ctx := c; cn_sid := sid; cn_loc := l; cn_phase := Syncing a n |} ->
  exists f' : fleet DB S, fleet_run h [EvSync p] f = Some f' /\ conns f' = delete p (conns f).
Proof.
  intros Hp. cbn. unfold sync_connection. rewrite Hp.
  destruct (leave_report _ _ _ _) as [u w']. by eexists.
Qed.

Lemma leave_run f p c sid l :
  conns f !! p = Some {| cn_ctx := c; cn_sid := sid; cn_loc := l; cn_phase := Leaving |} ->
  exists f' : fleet DB S, fleet_run h [EvLeave p; EvSync p] f = Some f' /\ conns f' = delete p (conns f).
Proof.
  intros Hp. cbn [fleet_run fleet_next]. unfold leave_connection. rewrite Hp.
  destruct (leave_registry sid (shared f)) as [[a n] w1]. cbn [mbind option_bind].
  set (f1 := set_conn _ _ _). destruct (sync_run f1 p c sid l a n) as (f' & Hrun & Hc);
    [apply lookup_insert_eq|].
  exists f'. split; [exact Hrun|]. rewrite Hc. cbn. by rewrite delete_insert_eq.
Qed.

Lemma connection_drains (err : go_error) f p cn :
  conns f !! p = Some cn ->
  exists es, Forall draining es /\
    exists f' : fleet DB S, fleet_run h es f = Some f' /\ conns f' = delete p (conns f).
Proof.
  destruct cn as [c sid l ph]. intros Hp. destruct ph as [| |a n].
  - exists [EvTurn p (InError err); EvLeave p; EvSync p]. split; [by repeat constructor|].
    destruct (connection_turn h p (InError err) f) as [f1|] eqn:Et.
    2:{ unfold connection_turn in Et. rewrite Hp in Et. by destruct (serve_turn _ _ _ _). }
    assert (exists l1, conns f1 = <[p := {| cn_ctx := c; cn_sid := sid; cn_loc := l1; cn_phase := Leaving |}]>
      (conns f)) as [l1 Hf1].
    { unfold connection_turn in Et. rewrite Hp in Et. cbn [serve_turn] in Et. unfold mbind, st_bind, mret, st_ret in Et.
      destruct (serve_read_error h c err (with_loc l (shared f))) as [[] w1]. injection Et as <-. by eexists. }
    destruct (leave_run f1 p c sid l1) as (f' & Hrun & Hc); [rewrite Hf1; apply lookup_insert_eq|].
    exists f'. split; [cbn [fleet_run fleet_next]; rewrite Et; exact Hrun|].
    rewrite Hc, Hf1. by rewrite delete_insert_eq.
  - exists [EvLeave p; EvSync p]. split; [by repeat constructor|]. by eapply leave_run.
  - exists [EvSync p]. split; [by repeat constructor|]. by eapply sync_run.
Qed.

(** C10. The handler can always come to rest: from every reachable fleet, however
    many connections it has and wherever they stand, reads that fail (with any
    errors) and the deferred calls that follow lead to a fleet without connections,
    with an empty registry and the counter of active connections at 0. *)
Theorem fleet_drains (w : world DB S) (f : fleet DB S) (Hf : reachable h w f) (err : go_error) :
  exists es f', Forall draining es /\ fleet_run h es f = Some f' /\ conns f' = ∅ /\
    connections (hs (shared f')) = ∅ /\ connectionsByConn (hs (shared f')) = ∅ /\
    active (hs (shared f')) = 0%Z.
Proof.
  assert (exists es f', Forall draining es /\ fleet_run h es f = Some f' /\ conns f' = ∅) as
    (es & f' & Hes & Hrun & Hc).
  { clear Hf. remember (size (conns f)) as n eqn:Hn. revert f Hn. induction n as [|n IH]; intros f Hn.
    { exists [], f. split_and!; [constructor|done|]. by apply map_size_empty_inv. }
    destruct (map_choose (conns f)) as (p & cn & Hp); [intros E; by rewrite E, map_size_empty in Hn|].
    destruct (connection_drains err f p cn Hp) as (es & Hes & f1 & Hrun & Hc).
    destruct (IH f1) as (es' & f2 & Hes' & Hrun' & Hc').
    { rewrite Hc, map_size_delete_Some by eauto. lia. }
    exists (es ++ es'), f2. rewrite fleet_run_app, Hrun. split_and!; [by apply Forall_app|done..]. }
  exists es, f'. split_and!; try done.
  all: pose proof (fleet_run_reachable h w es f f' Hf Hrun) as Hf'; apply reachable_fleet_ok in Hf';
    destruct Hf' as [Hok _ Hr Ha _ _ _ _].
  all: assert (connections (hs (shared f')) = ∅) as Hce by
    (apply map_empty; intros sid; destruct (connections _ !! sid) as [p|] eqn:E; [|done];
     destruct (Hr sid p E) as (cn & Hcn & _); by rewrite Hc in Hcn).
  - done.
  - apply map_empty. intros k. destruct (connectionsByConn _ !! k) as [p|] eqn:E; [|done].
    destruct (ro_conn _ (proj1 Hok) k p E) as (e & _ & _ & Hx). by rewrite Hce in Hx.
  - by rewrite Ha, Hc, count_conns_empty.
Qed.
End properties.

(** ** Two connections, concretely *)

Definition demo_request2 : http_request :=
  {| TLS := Some [{| CommonName := "beta-cts-client"; OrganizationalUnit := []; DNSNames := [] |}] |}.

(** Two traders register; the second one is idle from then on. *)
Definition demo_opening : list (fleet_event Z) :=
  [EvOpen demo_request 5 "c1" "s1" "q1" "10.0.0.1";
   EvOpen demo_request2 6 "c2" "s2" "q2" "10.0.0.2";
   EvTurn 0 (InMessage true "register"); EvTurn 1 (InMessage true "register")].

Definition demo_fleet (es : list (fleet_event Z)) : fleet (list string) Z :=
  default (fleet_start demo_world) (fleet_run demo_config es (fleet_start demo_world)).

Lemma demo_reachable es :
  is_Some (fleet_run demo_config es (fleet_start demo_world)) ->
  reachable demo_config demo_world (demo_fleet es).
Proof.
  intros [f Hf]. unfold demo_fleet. rewrite Hf.
  exact (fleet_run_reachable _ _ es _ _ (reach_start _ _) Hf).
Qed.

(** A latency test for the first trader meets its heartbeat. *)
Definition demo_race : list (fleet_event Z) :=
  demo_opening ++ [EvDispatch "s1" "alpha" ["okx"]; EvStamp 0; EvTurn 0 (InMessage true "heartbeat"); EvDeliver 0].

(** Both connections fail, and report their counts in the other order. *)
Definition demo_lost_update : list (fleet_event Z) :=
  demo_opening ++ [EvTurn 0 (InError (ESentinel IoEOF)); EvTurn 1 (InError (ESentinel IoEOF)); EvLeave 0; EvLeave 1; EvSync 1; EvSync 0].


(** [syncRuntimeState] reads the counter and reports it in two steps: the older
    value can be the last one the state manager gets. *)
Example reported_count_can_be_stale :
  let f := demo_fleet demo_lost_update in
  conns f = ∅ /\ active (hs (shared f)) = 0%Z /\ sink (shared f) = Some 1%Z.
Proof. vm_compute. split_and!; reflexivity. Qed.

Ltac demo_run := apply demo_reachable; vm_compute; eexists; reflexivity.

Lemma registry_is_exact_witness :
  reachable demo_config demo_world (demo_fleet demo_race) /\
  active (hs (shared (demo_fleet demo_race))) = 2%Z.
Proof.
  assert (reachable demo_config demo_world (demo_fleet demo_race)) as Hf by demo_run.
  split; [exact Hf|].
  pose proof (registry_is_exact demo_config _ _ Hf) as (_ & _ & _ & Ha & _). rewrite Ha.
  vm_compute. reflexivity.
Defined.

Lemma candidates_are_authenticated_witness :
  length (GetTraderSnapshots (hs (shared (demo_fleet demo_race)))) = 2 /\
  forall now window task required,
    Forall (fun k => exists cn, certs (demo_fleet demo_race) !! c_SessionID k = Some cn /\
                                issued (DB := list string) demo_config cn (c_TraderID k))
      (SelectCandidatesForTask (GetTraderSnapshots (hs (shared (demo_fleet demo_race)))) now window task required).
Proof.
  split; [vm_compute; reflexivity|].
  refine (proj2 (candidates_are_authenticated demo_config demo_world (demo_fleet demo_race) _)). demo_run.
Defined.



Lemma Serve_is_a_run_witness :
  certs (demo_fleet demo_race) !! "s3" = None /\
  exists es f', fleet_run demo_config es (demo_fleet demo_race) = Some f' /\
    conns f' = conns (demo_fleet demo_race).
Proof.
  assert (reachable demo_config demo_world (demo_fleet demo_race)) as Hf by demo_run.
  assert (certs (demo_fleet demo_race) !! "s3" = None) as Hn by (vm_compute; reflexivity).
  assert (unused_conn 7 (hs (shared (demo_fleet demo_race))) = true) as Hc by (vm_compute; reflexivity).
  split; [exact Hn|].
  pose proof (Serve_is_a_run demo_config demo_world (demo_fleet demo_race) demo_request 7 "c3" "s3" "q3" "10.0.0.3"
    [InMessage true "register"; InError (ESentinel IoEOF)] Hf ltac:(discriminate) Hn Hc) as Hrun.
  set (r := (Serve demo_config demo_request 7 "c3" "s3" "q3" "10.0.0.3"
    [InMessage true "register"; InError (ESentinel IoEOF)] (shared (demo_fleet demo_race))).1) in *.
  assert (r = inl (Some Return)) as Hr by (vm_compute; reflexivity). subst r.
  destruct (Serve _ _ _ _ _ _ _ _ _) as [res w']. cbn in Hr. subst res.
  destruct Hrun as (es & f' & Hes & _ & Hcs). exists es, f'. split; assumption.
Defined.

Lemma fleet_drains_witness :
  size (conns (demo_fleet demo_race)) = 2 /\
  exists es f', Forall draining es /\ fleet_run demo_config es (demo_fleet demo_race) = Some f' /\
    conns f' = ∅ /\ connections (hs (shared f')) = ∅ /\ connectionsByConn (hs (shared f')) = ∅ /\
    active (hs (shared f')) = 0%Z.
Proof.
  split; [vm_compute; reflexivity|].
  refine (fleet_drains demo_config demo_world (demo_fleet demo_race) _ (ESentinel IoEOF)). demo_run.
Defined.
