(* ===== verification/FleetTables.v ===== *)
(** * The database under many connections

    What each call of the database keeps, every run of the handler keeps, however the
    turns of its connections are ordered.  For the tables of the program: their
    invariant, and that rows are never lost nor reopened. *)

From S2P Require Import Prelude GoFloat Protocol Session Conn Telemetry Auth StateM Interfaces Handler HandlerDemo HandlerFrame HandlerFacts HandlerInv HandlerDB HandlerRows Models Tables Repositories Persistence PersistenceDemo TableFacts RepositoryFacts PersistenceFacts Fleet FleetTurn FleetFacts FleetProperties.

Section fleet_db.
Context {DB S : Type} `{!SessionPersistence DB} `{!RuntimeSink S} `{!WsJson} `{!ServeEnv}.
Context (h : handler_config) (R : DB -> DB -> Prop) `{!PreOrder R} `{!PersistenceKeeps R}.

Abbreviation W := (world DB S).

Local Hint Extern 1 (steps (in_db R) _) => (apply same_db; done) : steps.

Lemma in_db_run {A} (m : st W A) (w w' : W) a :
  steps (in_db R) m -> m w = (a, w') -> R (db w) (db w').
Proof. intros Hm Hw. specialize (Hm w). by rewrite Hw in Hm. Qed.

Lemma ping_tick_in_db p : steps (in_db (S := S) R) (ping_tick p).
Proof.
  unfold ping_tick, writePingMessage. pose proof (frame_write_control _ (in_db_base (S := S) R)).
  steps_auto.
Qed.

Lemma latencyTestMessage_in_db sid tid ex : steps (in_db (S := S) R) (latencyTestMessage sid tid ex).
Proof. unfold latencyTestMessage. steps_auto. Qed.

Lemma stampEnvelope_in_db conn msg : steps (in_db (S := S) R) (stampEnvelope conn msg).
Proof. unfold stampEnvelope. steps_auto. Qed.

Lemma writeMessage_in_db conn msg : steps (in_db (S := S) R) (writeMessage conn msg).
Proof. unfold writeMessage, withWriteLock, writeWithDeadline, entry_conn. steps_auto. Qed.

Lemma leave_registry_in_db sid : steps (in_db (S := S) R) (leave_registry sid).
Proof.
  unfold leave_registry. pose proof (fun w : W => removeConnection_db sid w) as Hr.
  apply (steps_bind _); [by apply same_db|intros _]. steps_auto.
Qed.

(** Every step of the handler moves the database along [R]. *)
Lemma fleet_next_in_db e (f f' : fleet DB S) :
  fleet_next h e f = Some f' -> R (db (shared f)) (db (shared f')).
Proof.
  destruct e as [r conn connID sid rid ip|p i|p|p|p|p code reason|sid tid ex|j|j|g]; cbn [fleet_next].
  - unfold open_connection. destruct (authorizeWSClientCertificate (auth h) r); [|done].
    destruct (_ || _); [done|]. destruct (serve_open _ _ _ _ _ _ _ _) as [c w] eqn:Eo. intros [= <-].
    destruct (serve_open_spec h _ _ _ _ _ _ _ _ _ Eo) as (_ & _ & _ & Ho & _). cbn in *. by rewrite <- Ho.
  - unfold connection_turn. destruct (conns f !! p) as [[c sid l []]|]; [|done..].
    destruct (serve_turn h c i (with_loc l (shared f))) as [k w] eqn:Et. intros [= <-].
    exact (in_db_run _ _ _ _ (end_serve_turn h c _ (in_db_full h R c) (in_db_end R) i) Et).
  - unfold leave_connection. destruct (conns f !! p) as [[c sid l [| |]]|]; try done.
    destruct (leave_registry sid (shared f)) as [[a n] w] eqn:El. intros [= <-].
    exact (in_db_run _ _ _ _ (leave_registry_in_db sid) El).
  - unfold sync_connection. destruct (conns f !! p) as [[c sid l [| |]]|]; try done.
    intros [= <-]. by cbn.
  - intros [= <-]. exact (ping_tick_in_db p (shared f)).
  - intros [= <-]. exact (frame_closeConnection _ (in_db_base R) p code reason (shared f)).
  - intros [= <-]. unfold dispatch_latency_test.
    destruct (latencyTestMessage sid tid ex (shared f)) as [r w] eqn:El.
    exact (in_db_run _ _ _ _ (latencyTestMessage_in_db sid tid ex) El).
  - unfold stamp_job. destruct (jobs f !! j) as [[conn msg|]|]; [|done..].
    destruct (stampEnvelope conn msg (shared f)) as [m w] eqn:El. intros [= <-].
    exact (in_db_run _ _ _ _ (stampEnvelope_in_db conn msg) El).
  - unfold deliver_job. destruct (jobs f !! j) as [[|conn msg]|]; [done| |done].
    intros [= <-]. exact (writeMessage_in_db conn msg (shared f)).
  - by intros [= <-].
Qed.

Lemma reachable_in_db (w : W) f : reachable h w f -> R (db w) (db (shared f)).
Proof.
  induction 1 as [|e f f' _ IH He]; [by cbn|]. etransitivity; [exact IH|by eapply fleet_next_in_db].
Qed.
End fleet_db.

(** ** Rows for the persisted sessions *)

Section fleet_rows.
Context {DB S : Type} `{!SessionPersistence DB} `{!RuntimeSink S} `{!WsJson} `{!ServeEnv}.
Context (h : handler_config) (R : DB -> DB -> Prop) `{!PreOrder R} `{!PersistenceKeeps R}.
Context (row_for : string -> DB -> Prop) `{!BacksSessions R row_for}.

Definition rows_backed (f : fleet DB S) : Prop :=
  forall p cn, conns f !! p = Some cn -> backed_locals row_for (cn_loc cn) (db (shared f)).

Lemma backed_grows l d d' : R d d' -> backed_locals row_for l d -> backed_locals row_for l d'.
Proof. intros Hd Hb Hp. eapply bs_keep; [exact Hd|by apply Hb]. Qed.

(** A connection after a step is new, in a turn, or one from before. *)
Lemma conns_next e f f' q cn :
  fleet_next h e f = Some f' -> conns f' !! q = Some cn ->
  (exists cn0, conns f !! q = Some cn0 /\ cn_loc cn = cn_loc cn0) \/
  persistedSession (cn_loc cn) = false \/
  exists c i cn0, conns f !! q = Some cn0 /\ cn_loc cn = loc (shared f') /\
    shared f' = (serve_turn h c i (with_loc (cn_loc cn0) (shared f))).2.
Proof.
  destruct e as [r conn connID sid rid ip|p i|p|p|p|p code reason|sid tid ex|j|j|g]; cbn [fleet_next].
  - unfold open_connection. destruct (authorizeWSClientCertificate (auth h) r); [|done].
    destruct (_ || _); [done|]. destruct (serve_open _ _ _ _ _ _ _ _) as [c w] eqn:Eo. intros [= <-]. cbn.
    rewrite lookup_insert_Some. intros [[_ <-]|[_ ?]]; [|by left; eexists].
    destruct (serve_open_spec h _ _ _ _ _ _ _ _ _ Eo) as (_ & _ & Hp & _). right. left. exact Hp.
  - unfold connection_turn. destruct (conns f !! p) as [[c sid l [| |]]|] eqn:Ep; try done.
    destruct (serve_turn h c i (with_loc l (shared f))) as [k w] eqn:Et. intros [= <-]. cbn.
    rewrite lookup_insert_Some. intros [[<- <-]|[_ ?]]; [|by left; eexists].
    right. right. exists c, i. eexists. split; [exact Ep|]. cbn. by rewrite Et.
  - unfold leave_connection. destruct (conns f !! p) as [[c sid l [| |]]|] eqn:Ep; try done.
    destruct (leave_registry sid (shared f)) as [[a n] w]. intros [= <-]. cbn.
    rewrite lookup_insert_Some. intros [[<- <-]|[_ ?]]; left; by eexists.
  - unfold sync_connection. destruct (conns f !! p) as [[c sid l [| |]]|]; try done.
    destruct (leave_report _ _ _ _) as [u w]. intros [= <-]. cbn.
    intros [_ ?]%lookup_delete_Some. left. by eexists.
  - intros [= <-] ?. left. by eexists.
  - intros [= <-] ?. left. by eexists.
  - intros [= <-]. unfold dispatch_latency_test. destruct (latencyTestMessage _ _ _ _). left. by eexists.
  - unfold stamp_job. destruct (jobs f !! j) as [[conn msg|]|]; [|done..].
    destruct (stampEnvelope conn msg (shared f)) as [m w]. intros [= <-] ?. left. by eexists.
  - unfold deliver_job. destruct (jobs f !! j) as [[|conn msg]|]; [done| |done].
    intros [= <-] ?. left. by eexists.
  - intros [= <-] ?. left. by eexists.
Qed.

Lemma rows_backed_next e f f' : rows_backed f -> fleet_next h e f = Some f' -> rows_backed f'.
Proof.
  intros Hf He q cn Hq. pose proof (fleet_next_in_db h R e f f' He) as Hd.
  destruct (conns_next e f f' q cn He Hq) as [(cn0 & Hq0 & ->)|[Hp|(c & i & cn0 & Hq0 & -> & Hs)]].
  - eapply backed_grows; [exact Hd|by apply (Hf q)].
  - intros Hp'. congruence.
  - rewrite Hs. destruct (serve_turn_backed h R row_for c i (with_loc (cn_loc cn0) (shared f))) as [_ Hb].
    apply Hb, (Hf q cn0 Hq0).
Qed.

Lemma reachable_rows_backed w f : reachable h w f -> rows_backed f.
Proof. apply reachable_invariant; [by intros p cn|apply rows_backed_next]. Qed.
End fleet_rows.

(** ** The tables of the program *)

(** A row of the session, whatever its state. *)
Definition session_row `{!SqlEnv} (sid : string) (d : database) : Prop :=
  exists k row, trader_sessions d !! k = Some row /\ se_SessionID row = sid.

Section tables.
Context {SE : SqlEnv} {SL : SqlLaws} {CE : CatalogEnv} (staleAfter : Z).

#[local] Instance fleet_persistence : SessionPersistence database := ws_persistence staleAfter.
#[local] Instance fleet_evolves : PersistenceKeeps tables_evolve := ws_persistence_evolves staleAfter.

#[export] Instance ws_persistence_backs : BacksSessions tables_evolve session_row.
Proof.
  split.
  - intros i d d' Hc. destruct (ws_CreateSession_Ok staleAfter i d d' Hc) as (k & row & _ & Hk & _ & Hs & _).
    by exists k, row.
  - intros sid d d' [_ [Hg _]] (k & row & Hk & Hs). destruct (Hg k row Hk) as (row' & Hk' & Hstep).
    exists k, row'. split; [done|]. by rewrite (rs_session _ _ Hstep).
Qed.

(** C37. However the turns of any number of connections are ordered, and whatever the
    database does to each statement, the tables stay sound (unique keys, at most one
    active session per trader, sessions of known traders only), no row is lost, a row
    keeps its trader and its session id, and a session that has ended is never reopened
    or changed.  A connection in its loop whose session counts as persisted has the row
    of its session, and two connections never hold active rows of the same trader. *)
Theorem fleet_keeps_tables {S : Type} `{!RuntimeSink S} `{!WsJson} `{!ServeEnv} (h : handler_config)
    (w : world database S) (f : fleet database S) (Hf : reachable h w f) (Hok : tables_ok (db w)) :
  let d := db (shared f) in
  tables_ok d /\ grows (db w) d /\
  (forall p cn, conns f !! p = Some cn -> cn_phase cn = Serving ->
     persistedSession (cn_loc cn) = true -> session_row (cn_sid cn) d) /\
  (forall p q cn cn' k k' row row', conns f !! p = Some cn -> conns f !! q = Some cn' ->
     trader_sessions d !! k = Some row -> trader_sessions d !! k' = Some row' ->
     se_SessionID row = cn_sid cn -> se_SessionID row' = cn_sid cn' ->
     is_active row = true -> is_active row' = true -> se_TraderID row = se_TraderID row' -> p = q).
Proof.
  pose proof (reachable_in_db h tables_evolve w f Hf) as [Hk Hg].
  pose proof (reachable_rows_backed h tables_evolve session_row w f Hf) as Hb.
  apply reachable_fleet_ok in Hf. cbv zeta. split_and!; [auto|done| |].
  - intros p cn Hp Hs Hps. destruct (fo_conns _ _ Hf p cn Hp) as [_ _ _ _ Hserv].
    destruct (Hserv Hs) as [_ _ Hid _ _]. rewrite <- Hid. by apply (Hb p cn).
  - intros p q cn cn' k k' row row' Hp Hq Hr Hr' Hi Hi' Ha Ha' Ht.
    assert (k = k') as <- by exact (ok_single_active _ (Hk Hok) _ _ _ _ Hr Hr' Ha Ha' Ht).
    eapply conns_distinct; [done..|]. left. congruence.
Qed.
End tables.

(** ** Two traders on one database *)

#[local] Instance fleet_demo_ws : SessionPersistence database := ws_persistence demo_stale.

Definition demo_db_fleet (es : list (fleet_event Z)) : fleet database Z :=
  default (fleet_start demo_db_world) (fleet_run demo_config es (fleet_start demo_db_world)).

Lemma fleet_keeps_tables_witness :
  let f := demo_db_fleet demo_opening in
  tables_ok (db (shared f)) /\ session_row "s1" (db (shared f)) /\ session_row "s2" (db (shared f)).
Proof.
  assert (reachable demo_config demo_db_world (demo_db_fleet demo_opening)) as Hf.
  { apply (fleet_run_reachable demo_config demo_db_world demo_opening (fleet_start demo_db_world));
      [apply reach_start|vm_compute; reflexivity]. }
  destruct (fleet_keeps_tables demo_stale demo_config demo_db_world (demo_db_fleet demo_opening) Hf
    demo_database_ok) as (Hok & _ & Hrows & _).
  cbv zeta. split; [exact Hok|]. split.
  - destruct (conns (demo_db_fleet demo_opening) !! 0) as [cn|] eqn:Hp; [|vm_compute in Hp; discriminate].
    assert (cn_phase cn = Serving /\ persistedSession (cn_loc cn) = true /\ cn_sid cn = "s1") as (H1 & H2 & <-)
      by (vm_compute in Hp; injection Hp as <-; repeat split).
    exact (Hrows 0 cn Hp H1 H2).
  - destruct (conns (demo_db_fleet demo_opening) !! 1) as [cn|] eqn:Hp; [|vm_compute in Hp; discriminate].
    assert (cn_phase cn = Serving /\ persistedSession (cn_loc cn) = true /\ cn_sid cn = "s2") as (H1 & H2 & <-)
      by (vm_compute in Hp; injection Hp as <-; repeat split).
    exact (Hrows 1 cn Hp H1 H2).
Defined.
