(* ===== verification/Engine.v ===== *)
(** * The scheduler engine (internal/scheduler/scheduler.go)

    The stateful half of the scheduler: construction, assignment cycles with retry,
    deduplication and the dead letter queue, resource constraints, and latency
    sweeps.  Everything behind a Go interface is the class [SchedulerEnv] over an
    external state [X]. *)

From S2P Require Import Prelude GoFloat Telemetry Handler StateM Selection.

Definition assignResultSuccess : string := "success".
Definition assignResultNoCandidates : string := "no_candidates".
Definition assignResultDedup : string := "dedup".
Definition assignResultFailedRetryExhausted : string := "failed_retry_exhausted".
Definition assignResultFailedNonRetryable : string := "failed_non_retryable".

Definition defaultAssignmentMaxRetries : Z := 2.
Definition defaultAssignmentRetryInitialBackoff : Z := 100 * Millisecond.
Definition defaultAssignmentRetryMaxBackoff : Z := 2 * Second.
Definition defaultAssignmentRetryMultiplier : f64 := f_of_Z 2.
Definition defaultDeadLetterMaxSize : Z := 256.

Record ExchangeRef := { er_ExchangeID : Z; ExchangeName : string }.

Record DeadLetterEntry := {
  dl_TaskID : string;
  dl_TraderID : string;
  dl_SessionID : string;
  dl_TaskType : string;
  dl_Epoch : Z;
  dl_Attempts : Z;
  dl_Retryable : bool;
  dl_Error : string;
  dl_LastAttemptUnix : Z;
  dl_FirstFailureUnix : Z
}.

Record EngineStats := { Cycles : Z; LastCandidateSize : Z }.

(** The scalar fields of [Config]. *)
Record Config := {
  cf_Interval : Z;
  cf_LatencyCheckInterval : Z;
  cf_HealthyWindow : Z;
  cf_TaskType : string;
  cf_ResourceHardLimit : f64;
  cf_ResourceSoftLimit : f64;
  cf_ResourceSoftPenaltyMs : f64;
  cf_AssignmentDedupWindow : Z;
  cf_AssignmentEpoch : Z;
  cf_AssignmentMaxRetries : Z;
  cf_AssignmentRetryInitial : Z;
  cf_AssignmentRetryMax : Z;
  cf_AssignmentRetryMultiplier : f64;
  cf_DeadLetterMaxSize : Z
}.

(** The fields of [Engine] that never change. *)
Record engine_config := {
  interval : Z;
  latencyCheck : Z;
  healthyWindow : Z;
  taskType : string;
  resourceHard : f64;
  resourceSoft : f64;
  resourceW : f64;
  dedupWindow : Z;
  dedupEpoch : Z;
  retryMax : Z;
  retryInitial : Z;
  retryMaxDelay : Z;
  retryMult : f64;
  dlqMax : Z
}.

Definition NewEngine (cfg : Config) : engine_config :=
  let interval := if (cf_Interval cfg <=? 0)%Z then Second else cf_Interval cfg in
  let healthyWindow := if (cf_HealthyWindow cfg <=? 0)%Z then (15 * Second)%Z else cf_HealthyWindow cfg in
  let resourceHard := normalizeResourceHardLimit (cf_ResourceHardLimit cfg) in
  let resourceSoft := normalizeResourceSoftLimit (cf_ResourceSoftLimit cfg) in
  let resourceSoft :=
    if f_ge resourceSoft resourceHard then f_mul resourceHard (f_lit 8 10) else resourceSoft in
  let dedupWindow :=
    if (cf_AssignmentDedupWindow cfg <=? 0)%Z then wrap64 (2 * interval) else cf_AssignmentDedupWindow cfg in
  let dedupEpoch := if (cf_AssignmentEpoch cfg <=? 0)%Z then interval else cf_AssignmentEpoch cfg in
  let retryMax := if (cf_AssignmentMaxRetries cfg <? 0)%Z then 0%Z else cf_AssignmentMaxRetries cfg in
  let retryMax := if (retryMax =? 0)%Z then defaultAssignmentMaxRetries else retryMax in
  let retryInitial :=
    if (cf_AssignmentRetryInitial cfg <=? 0)%Z then defaultAssignmentRetryInitialBackoff
    else cf_AssignmentRetryInitial cfg in
  let retryMaxDelay :=
    if (cf_AssignmentRetryMax cfg <=? 0)%Z then defaultAssignmentRetryMaxBackoff
    else cf_AssignmentRetryMax cfg in
  let retryMaxDelay := if (retryMaxDelay <? retryInitial)%Z then retryInitial else retryMaxDelay in
  let retryMult :=
    if f_le (cf_AssignmentRetryMultiplier cfg) f_one then defaultAssignmentRetryMultiplier
    else cf_AssignmentRetryMultiplier cfg in
  let dlqMax := if (cf_DeadLetterMaxSize cfg <=? 0)%Z then defaultDeadLetterMaxSize
                else cf_DeadLetterMaxSize cfg in
  {| interval := interval; latencyCheck := cf_LatencyCheckInterval cfg; healthyWindow := healthyWindow;
     taskType := normalizeTaskType (cf_TaskType cfg); resourceHard := resourceHard;
     resourceSoft := resourceSoft; resourceW := normalizeResourceSoftPenalty (cf_ResourceSoftPenaltyMs cfg);
     dedupWindow := dedupWindow; dedupEpoch := dedupEpoch; retryMax := retryMax;
     retryInitial := retryInitial; retryMaxDelay := retryMaxDelay; retryMult := retryMult;
     dlqMax := dlqMax |}.

(** The mutable fields of [Engine]. *)
Record engine_state := {
  cycles : Z;
  lastCandidate : Z;
  dedupAssigned : gmap string Z;
  dlq : list DeadLetterEntry
}.

#[export] Instance eta_engine_state : Eta engine_state := fun e =>
  {| cycles := cycles e; lastCandidate := lastCandidate e; dedupAssigned := dedupAssigned e;
     dlq := dlq e |}.

Definition new_engine_state : engine_state :=
  {| cycles := 0; lastCandidate := 0; dedupAssigned := ∅; dlq := [] |}.

Definition Stats (e : engine_state) : EngineStats :=
  {| Cycles := cycles e; LastCandidateSize := lastCandidate e |}.

Definition DeadLetters (e : engine_state) : list DeadLetterEntry := dlq e.

(** ** Deduplication *)

Definition assignmentEpoch (c : engine_config) (now : Z) : Z :=
  let window := if (dedupEpoch c <=? 0)%Z then Second else dedupEpoch c in
  go_div (time_unix_nano now) window.

Definition assignmentIdempotencyKey (taskID traderID : string) (epoch : Z) : string :=
  taskID +:+ "|" +:+ traderID +:+ "|" +:+ Itoa epoch.

Definition evictOldAssignments (c : engine_config) (nowUnix : Z) (e : engine_state) : engine_state :=
  if bool_decide (dedupAssigned e = ∅) then e
  else
    let cutoff := wrap64 (nowUnix - duration_seconds_int (dedupWindow c)) in
    e <| dedupAssigned ::= filter (fun kv => (kv.2 <=? cutoff)%Z = false) |>.

Definition seenAssignment (c : engine_config) (taskID traderID : string) (epoch nowUnix : Z)
    (e : engine_state) : bool * engine_state :=
  let key := assignmentIdempotencyKey taskID traderID epoch in
  let e := evictOldAssignments c nowUnix e in
  (bool_decide (is_Some (dedupAssigned e !! key)), e).

Definition markAssignment (c : engine_config) (taskID traderID : string) (epoch nowUnix : Z)
    (e : engine_state) : engine_state :=
  let key := assignmentIdempotencyKey taskID traderID epoch in
  (evictOldAssignments c nowUnix e) <| dedupAssigned ::= <[key := nowUnix]> |>.

(** ** Dead letters *)

Definition pushDeadLetter (c : engine_config) (entry : DeadLetterEntry) (e : engine_state)
    : engine_state :=
  if (dlqMax c <=? 0)%Z then e
  else if (Z.of_nat (length (dlq e)) >=? dlqMax c)%Z
  then e <| dlq ::= fun q => drop 1 q ++ [entry] |>
  else e <| dlq ::= fun q => q ++ [entry] |>.

(** ** Retry policy *)

(** The loop [for i := 1; i < attempt; i++]: [inr] is the early return. *)
Fixpoint backoff_loop (c : engine_config) (n : nat) (delay : f64) : f64 + Z :=
  match n with
  | O => inl delay
  | S n =>
      let delay := f_mul delay (retryMult c) in
      if f_ge delay (f_of_Z (retryMaxDelay c)) then inr (retryMaxDelay c)
      else backoff_loop c n delay
  end.

Definition retryBackoff (c : engine_config) (attempt : Z) : Z :=
  let attempt := if (attempt <=? 0)%Z then 1%Z else attempt in
  match backoff_loop c (Z.to_nat (attempt - 1)) (f_of_Z (retryInitial c)) with
  | inr d => d
  | inl delay =>
      let out := f_to_int64 delay in
      if (out >? retryMaxDelay c)%Z then retryMaxDelay c
      else if (out <? 0)%Z then retryInitial c
      else out
  end.

(** ** The world of the engine *)

(** The five methods of [schedulerQualityMetricsSink]. *)
Record quality_sink (X : Type) := {
  RecordSchedulerAssignAttempt : string -> X -> X;
  SetSchedulerAssignLatencyMs : f64 -> X -> X;
  SetSchedulerScoreDistribution : f64 -> f64 -> X -> X;
  SetSchedulerLastAssignStatus : string -> X -> X;
  RecordSchedulerResourceRejection : string -> X -> X
}.
Arguments RecordSchedulerAssignAttempt {X}.
Arguments SetSchedulerAssignLatencyMs {X}.
Arguments SetSchedulerScoreDistribution {X}.
Arguments SetSchedulerLastAssignStatus {X}.
Arguments RecordSchedulerResourceRejection {X}.

(** The interfaces of [Config] and the runtime; an optional one is [None] when the
    field is nil.  [env_now] and [env_sleep] are [time.Now] and [sleepFn]. *)
Class SchedulerEnv (X : Type) := {
  env_now : X -> Z * X;
  env_sleep : Z -> X -> X;
  snapshot_provider : option (X -> list TraderSnapshot * X);
  Assign : Candidate -> X -> option go_error * X;
  CurrentTaskID : option (string -> X -> res (string * bool) * X);
  GetTradeRequiredExchanges : X -> res (list ExchangeRef) * X;
  GetMonitorRequiredExchanges : X -> res (list ExchangeRef) * X;
  has_requirements : bool;
  GetTraderExchangeUtilization : option (Z -> Z -> X -> res (f64 * bool) * X);
  retry_classifier : option (go_error -> bool);
  latency_dispatcher : option (string -> string -> list string -> X -> option go_error * X);
  SetRuntimeScheduler : option (Z -> Z -> Z -> X -> X);
  quality : option (quality_sink X)
}.

Record eworld (X : Type) := mk_eworld { eng : engine_state; ext : X }.
Arguments mk_eworld {X}.
Arguments eng {X}.
Arguments ext {X}.

#[export] Instance eta_eworld X : Eta (eworld X) := fun w => mk_eworld (eng w) (ext w).

Section engine.
Context {X : Type} `{!SchedulerEnv X} (c : engine_config).

Abbreviation M := (st (eworld X)).

Definition call {A} (f : X -> A * X) : M A := fun w =>
  let '(a, x) := f (ext w) in (a, w <| ext := x |>).
Definition modify_ext (f : X -> X) : M unit := modify (fun w => w <| ext ::= f |>).
Definition modify_eng (f : engine_state -> engine_state) : M unit := modify (fun w => w <| eng ::= f |>).
Definition now_ : M Z := call env_now.

Definition isRetryable (err : go_error) : bool :=
  match retry_classifier with
  | Some f => f err
  | None =>
      if errors_is err ContextDeadlineExceeded || errors_is err ContextCanceled then true
      else match errors_as_temporary err with Some true => true | _ => false end
  end.

(** [attempts] is the number of attempts left. *)
Fixpoint assign_loop (attempts : nat) (attempt : Z) (candidate : Candidate) (taskID : string)
    (epoch nowUnix firstFailureUnix : Z) : M (string * option go_error) :=
  match attempts with
  | O => mret (assignResultFailedRetryExhausted, None)
  | S more =>
      e ← call (Assign candidate);
      match e with
      | None => mret (assignResultSuccess, None)
      | Some err =>
          let retryable := isRetryable err in
          let firstFailureUnix := if (firstFailureUnix =? 0)%Z then nowUnix else firstFailureUnix in
          if negb retryable || bool_decide (more = O) then
            modify_eng (pushDeadLetter c
              {| dl_TaskID := taskID; dl_TraderID := c_TraderID candidate;
                 dl_SessionID := c_SessionID candidate; dl_TaskType := taskType c; dl_Epoch := epoch;
                 dl_Attempts := attempt; dl_Retryable := retryable; dl_Error := error_text err;
                 dl_LastAttemptUnix := nowUnix; dl_FirstFailureUnix := firstFailureUnix |});;
            mret (if negb retryable then assignResultFailedNonRetryable
                  else assignResultFailedRetryExhausted, Some err)
          else
            modify_ext (env_sleep (retryBackoff c attempt));;
            assign_loop more (attempt + 1) candidate taskID epoch nowUnix firstFailureUnix
      end
  end.

Definition assignWithRetry (candidate : Candidate) (taskID : string) (epoch nowUnix : Z)
    : M (string * option go_error) :=
  let maxAttempts := wrap64 (retryMax c + 1) in
  assign_loop (Z.to_nat maxAttempts) 1 candidate taskID epoch nowUnix 0.

Definition publishAssignOutcome (result : string) (latency : Z) : M unit :=
  match quality with
  | None => mret tt
  | Some sink =>
      modify_ext (RecordSchedulerAssignAttempt sink result);;
      modify_ext (SetSchedulerLastAssignStatus sink result);;
      modify_ext (SetSchedulerAssignLatencyMs sink
        (if (latency >? 0)%Z then f_div (f_of_Z (duration_microseconds latency)) (f_of_Z 1000)
         else f_zero))
  end.

Definition publishScoreDistribution (candidates : list Candidate) : M unit :=
  match candidates, quality with
  | [], _ | _, None => mret tt
  | _, Some sink =>
      let scores := sort_floats (Score <$> candidates) in
      modify_ext (SetSchedulerScoreDistribution sink (percentile scores (f_lit 50 100))
                    (percentile scores (f_lit 95 100)))
  end.

Definition recordResourceRejection (reason : string) : M unit :=
  match quality with
  | None => mret tt
  | Some sink => modify_ext (RecordSchedulerResourceRejection sink reason)
  end.

Definition syncMetrics (cycleCount candidateCount lastRunUnix : Z) : M unit :=
  match SetRuntimeScheduler with
  | None => mret tt
  | Some f => modify_ext (f cycleCount candidateCount lastRunUnix)
  end.

Definition resolveTaskID : M string :=
  let fallback := "scheduler." +:+ taskType c in
  match CurrentTaskID with
  | None => mret fallback
  | Some f =>
      r ← call (f (taskType c));
      mret (match r with
            | Ok (taskID, true) =>
                if negb (str_empty (TrimSpace taskID)) then TrimSpace taskID else fallback
            | _ => fallback
            end)
  end.

Definition resolveRequiredExchangeRefs : M (list ExchangeRef) :=
  if negb has_requirements then mret []
  else
    r ← (if taskType c =s taskTypeMonitor then call GetMonitorRequiredExchanges
         else call GetTradeRequiredExchanges);
    mret (match r with Ok refs => refs | Err _ => [] end).

Definition namesFromExchangeRefs (refs : list ExchangeRef) : list string :=
  normalizeExchangeList (ExchangeName <$> refs).

(** The loop over the required exchanges for one candidate: [None] when it is
    rejected, else the penalty. *)
Fixpoint exchange_loop (util : Z -> Z -> X -> res (f64 * bool) * X) (dbid : Z)
    (required : list ExchangeRef) (softPenalty : f64) : M (option f64) :=
  match required with
  | [] => mret (Some softPenalty)
  | ref :: rest =>
      if (er_ExchangeID ref <=? 0)%Z then exchange_loop util dbid rest softPenalty
      else
        r ← call (util dbid (er_ExchangeID ref));
        match r with
        | Err _ => recordResourceRejection "resource_lookup_error";; mret None
        | Ok (_, false) => recordResourceRejection "missing_resource";; mret None
        | Ok (u, true) =>
            let u := clampUnit u in
            if f_ge u (resourceHard c) then recordResourceRejection "hard_limit";; mret None
            else if f_gt u (resourceSoft c) then
              let norm := f_div (f_sub u (resourceSoft c)) (f_sub f_one (resourceSoft c)) in
              exchange_loop util dbid rest
                (f_add softPenalty (f_mul (f_mul (resourceW c) norm) norm))
            else exchange_loop util dbid rest softPenalty
        end
  end.

(** The loop over the candidates; [bySession] is the map built from the snapshots. *)
Fixpoint candidate_loop (util : Z -> Z -> X -> res (f64 * bool) * X)
    (bySession : gmap string TraderSnapshot) (required : list ExchangeRef)
    (candidates : list Candidate) : M (list Candidate) :=
  match candidates with
  | [] => mret []
  | candidate :: rest =>
      match bySession !! c_SessionID candidate with
      | None => candidate_loop util bySession required rest
      | Some snap =>
          if (ts_TraderDBID snap <=? 0)%Z then
            recordResourceRejection "missing_trader_db_id";;
            candidate_loop util bySession required rest
          else
            p ← exchange_loop util (ts_TraderDBID snap) required f_zero;
            match p with
            | None => candidate_loop util bySession required rest
            | Some softPenalty =>
                let candidate :=
                  if f_gt softPenalty f_zero
                  then candidate <| Score ::= fun s => f_add s softPenalty |> else candidate in
                others ← candidate_loop util bySession required rest;
                mret (candidate :: others)
            end
      end
  end.

Definition by_session (snapshots : list TraderSnapshot) : gmap string TraderSnapshot :=
  foldl (fun m s => <[ts_SessionID s := s]> m) ∅ snapshots.

Definition applyResourceConstraints (candidates : list Candidate) (snapshots : list TraderSnapshot)
    (required : list ExchangeRef) : M (list Candidate) :=
  match candidates, GetTraderExchangeUtilization, required with
  | [], _, _ | _, None, _ | _, _, [] => mret candidates
  | _, Some util, _ =>
      result ← candidate_loop util (by_session snapshots) required candidates;
      mret (sort_stable candidate_less result)
  end.

(** [runCycle] up to the list of candidates, with its counters and metrics. *)
Definition select_for_cycle (provider : X -> list TraderSnapshot * X) (now : Z) : M (list Candidate) :=
  snapshots ← call provider;
  requiredExchangeRefs ← resolveRequiredExchangeRefs;
  let requiredExchanges := namesFromExchangeRefs requiredExchangeRefs in
  let candidates :=
    SelectCandidatesForTask snapshots now (healthyWindow c) (taskType c) requiredExchanges in
  candidates ← applyResourceConstraints candidates snapshots requiredExchangeRefs;
  publishScoreDistribution candidates;;
  modify_eng (fun e => e <| lastCandidate := Z.of_nat (length candidates) |>
                         <| cycles ::= fun n => wrap64 (n + 1) |>);;
  cycle ← gets (cycles ∘ eng);
  syncMetrics cycle (Z.of_nat (length candidates)) (time_unix now);;
  mret candidates.

Definition publish_since (assignStart : Z) (result : string) : M unit :=
  t ← now_;
  publishAssignOutcome result (time_sub t assignStart).

Definition runCycle (now : Z) : M unit :=
  match snapshot_provider with
  | None => mret tt
  | Some provider =>
      candidates ← select_for_cycle provider now;
      assignStart ← now_;
      match candidates with
      | [] => publishAssignOutcome assignResultNoCandidates 0
      | selected :: _ =>
          taskID ← resolveTaskID;
          let epoch := assignmentEpoch c now in
          let nowUnix := time_unix now in
          seen ← (fun w =>
            let '(b, e) := seenAssignment c taskID (c_TraderID selected) epoch nowUnix (eng w) in
            (b, w <| eng := e |>));
          if (seen : bool) then publish_since assignStart assignResultDedup
          else
            r ← assignWithRetry selected taskID epoch nowUnix;
            match r.2 with
            | Some _ => publish_since assignStart r.1
            | None =>
                modify_eng (markAssignment c taskID (c_TraderID selected) epoch nowUnix);;
                publish_since assignStart assignResultSuccess
            end
      end
  end.

(** The loop over the targets; the result counts the failures. *)
Fixpoint sweep_loop (dispatch : string -> string -> list string -> X -> option go_error * X)
    (targets : list TraderSnapshot) (failures : Z) : M Z :=
  match targets with
  | [] => mret failures
  | target :: rest =>
      e ← call (dispatch (ts_SessionID target) (ts_TraderID target) (ts_EffectiveExchanges target));
      sweep_loop dispatch rest (match e with Some _ => (failures + 1)%Z | None => failures end)
  end.

Definition runLatencySweep (now : Z) : M unit :=
  match snapshot_provider, latency_dispatcher with
  | Some provider, Some dispatch =>
      snapshots ← call provider;
      let targets := SelectLatencyTestTargets snapshots now (healthyWindow c) in
      _ ← sweep_loop dispatch targets 0;
      mret tt
  | _, _ => mret tt
  end.

(** What wakes the goroutine of [Start]. *)
Inductive engine_event := AssignTick (now : Z) | LatencyTick (now : Z) | StopSignal.

Fixpoint engine_loop (events : list engine_event) : M unit :=
  match events with
  | [] | StopSignal :: _ => mret tt
  | AssignTick now :: rest => runCycle now;; engine_loop rest
  | LatencyTick now :: rest => runLatencySweep now;; engine_loop rest
  end.

(** The goroutine [Start] launches: a first cycle and, with a latency ticker, a
    first sweep, then the select loop. *)
Definition Start (events : list engine_event) : M unit :=
  match snapshot_provider with
  | None => mret tt
  | Some _ =>
      now ← now_;
      runCycle now;;
      when (bool_decide (is_Some latency_dispatcher) && (latencyCheck c >? 0)%Z)
        (now ← now_; runLatencySweep now);;
      engine_loop events
  end.
End engine.
