(* ===== verification/EngineFacts.v ===== *)
(** * Facts about the scheduler engine

    Dead letters, the assignment deduplication and the backoff; then the engine in an
    environment that notes what it asks for ([logged_env]): the attempts of one
    assignment, the judgement of the resource constraints over each candidate, and one
    cycle as a whole.  The theorems hold for every environment, stateful or not. *)

From S2P Require Import Prelude GoFloat Telemetry Handler StateM Selection Engine.

(** ** Construction *)

(** What [NewEngine] guarantees of every configuration. *)
Record engine_config_ok (c : engine_config) : Prop := {
  ec_interval : (0 < interval c)%Z;
  ec_window : (0 < healthyWindow c)%Z;
  ec_epoch : (0 < dedupEpoch c)%Z;
  ec_retry : (0 < retryMax c)%Z;
  ec_initial : (0 < retryInitial c <= retryMaxDelay c)%Z;
  ec_dlq : (0 < dlqMax c)%Z;
  ec_type : taskType c = taskTypeTrade \/ taskType c = taskTypeMonitor
}.

Lemma NewEngine_ok cfg : engine_config_ok (NewEngine cfg).
Proof.
  destruct cfg as [a b d e f g i j k l m n o p].
  split; unfold NewEngine, normalizeTaskType, defaultAssignmentMaxRetries,
    defaultAssignmentRetryInitialBackoff, defaultAssignmentRetryMaxBackoff, defaultDeadLetterMaxSize,
    Second, Millisecond; cbn; repeat (case_match; cbn in *); auto; lia.
Qed.

(** ** Dead letters *)

Lemma pushDeadLetter_ok c es q e0 :
  (0 < dlqMax c)%Z -> (Z.of_nat (length q) <= dlqMax c)%Z -> dlq e0 = q ->
  dlq (foldl (fun e entry => pushDeadLetter c entry e) e0 es) =
  drop (length (q ++ es) - Z.to_nat (dlqMax c)) (q ++ es).
Proof.
  intros Hmax. revert q e0. induction es as [|e es IH]; intros q e0 Hq He0; cbn.
  - rewrite app_nil_r, He0. rewrite (proj2 (Nat.sub_0_le _ _)) by lia. done.
  - unfold pushDeadLetter at 2. rewrite (proj2 (Z.leb_gt (dlqMax c) 0)) by lia. rewrite He0.
    destruct (Z.geb_spec (Z.of_nat (length q)) (dlqMax c)) as [Hge|Hlt].
    + rewrite (IH (drop 1 q ++ [e])); [| |cbn; by rewrite He0].
      * rewrite <- app_assoc. cbn [app].
        destruct q as [|x q]; [cbn in Hge; lia|]. cbn [drop app]. rewrite drop_0.
        cbn [length]. replace (S (length (q ++ e :: es)) - Z.to_nat (dlqMax c))%nat
          with (S (length (q ++ e :: es) - Z.to_nat (dlqMax c)))%nat; [done|].
        rewrite length_app. cbn in Hge |- *. lia.
      * rewrite length_app, length_drop. cbn. lia.
    + rewrite (IH (q ++ [e])); [by rewrite <- app_assoc| |cbn; by rewrite He0].
      rewrite length_app. cbn. lia.
Qed.

(** ** Assignment deduplication *)

(** One cycle's use of the table for the key [key]: whether it was seen. *)
Definition dedup_cycle (c : engine_config) (taskID traderID : string) (epoch nowUnix : Z) (e : engine_state)
    : bool * engine_state :=
  let '(seen, e) := seenAssignment c taskID traderID epoch nowUnix e in
  if seen then (true, e) else (false, markAssignment c taskID traderID epoch nowUnix e).

(** The assignments of a run of cycles that go through. *)
Fixpoint assigned_run (c : engine_config) (l : list (Z * (string * string * Z))) (e : engine_state)
    : list (Z * string) :=
  match l with
  | [] => []
  | (t, (task, trader, epoch)) :: rest =>
      let '(seen, e') := dedup_cycle c task trader epoch t e in
      if seen then assigned_run c rest e'
      else (t, assignmentIdempotencyKey task trader epoch) :: assigned_run c rest e'
  end.

Definition dedup_seconds (c : engine_config) : Z := duration_seconds_int (dedupWindow c).

(** Times for which the cutoff does not wrap. *)
Definition times_ok (c : engine_config) (t : Z) : Prop := in_int64 (t - dedup_seconds c).

Lemma evict_lookup c t e k x :
  times_ok c t ->
  dedupAssigned (evictOldAssignments c t e) !! k = Some x <->
  dedupAssigned e !! k = Some x /\ (t - x < dedup_seconds c)%Z.
Proof.
  intros Ht. unfold evictOldAssignments, times_ok, dedup_seconds in *. rewrite wrap64_id by done.
  case_bool_decide as He.
  - rewrite He, lookup_empty. naive_solver.
  - cbn. rewrite map_lookup_filter_Some. cbn. rewrite Z.leb_gt.
    split; intros [? ?]; (split; [done|lia]).
Qed.

Lemma evict_twice c t e :
  times_ok c t -> dedupAssigned (evictOldAssignments c t (evictOldAssignments c t e)) =
                  dedupAssigned (evictOldAssignments c t e).
Proof.
  intros Ht. apply map_eq. intros k. apply option_eq. intros x.
  rewrite !evict_lookup by done. naive_solver.
Qed.

Lemma markAssignment_table c task trader epoch t e :
  dedupAssigned (markAssignment c task trader epoch t e) =
  <[assignmentIdempotencyKey task trader epoch := t]> (dedupAssigned (evictOldAssignments c t e)).
Proof. done. Qed.

Lemma assigned_after c l e k t0 :
  dedupAssigned e !! k = Some t0 -> Forall (fun b => times_ok c b.1) l ->
  StronglySorted Z.le (t0 :: l.*1) ->
  Forall (fun b => b.2 = k -> (dedup_seconds c <= b.1 - t0)%Z) (assigned_run c l e).
Proof.
  revert e. induction l as [|[t [[task trader] epoch]] l IH]; intros e He Hok Hsort; cbn [assigned_run]; [constructor|].
  inversion Hok as [|? ? Hokt Hok']; subst. cbn in Hokt.
  apply StronglySorted_cons in Hsort as [Hall Hsort]. pose proof Hsort as Hsort2.
  apply StronglySorted_cons in Hsort2 as [Hall2 Hsort2].
  inversion Hall as [|? ? Ht Hall']; subst.
  assert (StronglySorted Z.le (t0 :: l.*1)) as Hs0 by by constructor.
  destruct (decide (t - t0 < dedup_seconds c)%Z) as [Hin|Hout].
  - assert (dedupAssigned (evictOldAssignments c t e) !! k = Some t0) as Hk by by apply evict_lookup.
    unfold dedup_cycle, seenAssignment. case_bool_decide as Hseen; [by apply IH|].
    assert (assignmentIdempotencyKey task trader epoch <> k) as Hne.
    { intros Heq. apply Hseen. rewrite Heq, Hk. eauto. }
    constructor; [done|]. apply IH; [|done..].
    rewrite markAssignment_table, lookup_insert_ne by done. by rewrite evict_twice.
  - assert (forall e', Forall (fun b => b.2 = k -> (dedup_seconds c <= b.1 - t0)%Z) (assigned_run c l e'))
      as Hrest.
    { clear -Hout Hall2. cbn in Hall2. induction l as [|[u [[ta tr] ep]] l IH]; intros e'; cbn [assigned_run]; [constructor|].
      inversion Hall2 as [|? ? Hu Hall3]; subst. cbn in Hu.
      destruct (dedup_cycle c ta tr ep u e') as [[] e'']; [by apply IH|].
      constructor; [cbn [fst]; intros _; lia|by apply IH]. }
    destruct (dedup_cycle c task trader epoch t e) as [[] e']; [apply Hrest|].
    constructor; [cbn [fst]; intros _; lia|apply Hrest].
Qed.

(** ** Cycles *)

(** What the engine asks for that counts: assignments and utilisations, with their
    answers, and the pauses between them. *)
Inductive engine_call :=
  | Assigned (k : Candidate) (answer : option go_error)
  | Utilised (dbid exchange : Z) (answer : res (f64 * bool))
  | Slept (d : Z).

(** An environment that also notes these calls. *)
Section logged.
Context {X : Type} `{!SchedulerEnv X}.

Abbreviation Y := (X * list engine_call)%type.

Definition lift {A} (f : X -> A * X) (y : Y) : A * Y := let '(a, x) := f y.1 in (a, (x, y.2)).
Definition lift_unit (f : X -> X) (y : Y) : Y := (f y.1, y.2).

Definition noted {A} (call_of : A -> engine_call) (f : X -> A * X) (y : Y) : A * Y :=
  let '(a, x) := f y.1 in (a, (x, y.2 ++ [call_of a])).

Definition lift_quality (q : quality_sink X) : quality_sink Y :=
  {| RecordSchedulerAssignAttempt := fun r => lift_unit (RecordSchedulerAssignAttempt q r);
     SetSchedulerAssignLatencyMs := fun l => lift_unit (SetSchedulerAssignLatencyMs q l);
     SetSchedulerScoreDistribution := fun a b => lift_unit (SetSchedulerScoreDistribution q a b);
     SetSchedulerLastAssignStatus := fun r => lift_unit (SetSchedulerLastAssignStatus q r);
     RecordSchedulerResourceRejection := fun r => lift_unit (RecordSchedulerResourceRejection q r) |}.

Definition logged_env : SchedulerEnv Y := {|
  env_now := lift env_now;
  env_sleep := fun d y => (env_sleep d y.1, y.2 ++ [Slept d]);
  snapshot_provider := lift <$> snapshot_provider;
  Assign := fun k => noted (Assigned k) (Assign k);
  CurrentTaskID := (fun f ty => lift (f ty)) <$> CurrentTaskID;
  GetTradeRequiredExchanges := lift GetTradeRequiredExchanges;
  GetMonitorRequiredExchanges := lift GetMonitorRequiredExchanges;
  has_requirements := has_requirements;
  GetTraderExchangeUtilization := (fun f d e => noted (Utilised d e) (f d e)) <$> GetTraderExchangeUtilization;
  retry_classifier := retry_classifier;
  latency_dispatcher := (fun f s t l => lift (f s t l)) <$> latency_dispatcher;
  SetRuntimeScheduler := (fun f a b n => lift_unit (f a b n)) <$> SetRuntimeScheduler;
  quality := lift_quality <$> quality
|}.
End logged.

Section cycle.
Context {X : Type} (Env : SchedulerEnv X) (c : engine_config).

Abbreviation W := (eworld (X * list engine_call)).
Existing Instance logged_env.

Definition trace (w : W) : list engine_call := (ext w).2.

(** The trace, the assignments remembered and the dead letters; every operation but
    those of the trace leaves them alone. *)
Definition sched_view (w : W) := (trace w, dedupAssigned (eng w), dlq (eng w)).

Lemma view_call {A} (f : X -> A * X) : steps (same sched_view) (call (lift f)).
Proof. intros w. unfold same, sched_view, trace, call, lift. cbn. by destruct (f (ext w).1). Qed.

Lemma view_modify_ext f : steps (same sched_view) (modify_ext (lift_unit f)).
Proof. by intros w. Qed.

Local Hint Resolve view_call view_modify_ext : steps.

Lemma view_publish r l : steps (same sched_view) (publishAssignOutcome r l).
Proof. unfold publishAssignOutcome. cbn. destruct (@quality X Env); cbn; steps_auto. Qed.

Lemma view_publish_since t r : steps (same sched_view) (publish_since t r).
Proof. unfold publish_since, now_. pose proof view_publish. cbn. steps_auto. Qed.

Lemma view_reject r : steps (same sched_view) (recordResourceRejection r).
Proof. unfold recordResourceRejection. cbn. destruct (@quality X Env); cbn; steps_auto. Qed.

Lemma view_resolveTaskID : steps (same sched_view) (resolveTaskID c).
Proof. unfold resolveTaskID. cbn. destruct (@CurrentTaskID X Env); cbn; steps_auto. Qed.

Lemma view_scores k : steps (same sched_view) (publishScoreDistribution k).
Proof. unfold publishScoreDistribution. cbn. destruct k, (@quality X Env); cbn; steps_auto. Qed.

Lemma view_metrics a b n : steps (same sched_view) (syncMetrics a b n).
Proof. unfold syncMetrics. cbn. destruct (@SetRuntimeScheduler X Env); cbn; steps_auto. Qed.

Lemma view_trace (w w' : W) : same sched_view w w' -> trace w' = trace w.
Proof. unfold same, sched_view. congruence. Qed.

Abbreviation retryable := (@isRetryable X Env).

Lemma logged_isRetryable err : isRetryable (X := X * list engine_call) err = retryable err.
Proof. done. Qed.

(** ** One assignment *)

(** The calls of an assignment of [k] whose attempts, numbered from [a], failed with
    the errors [earlier] and were answered by [final] at last. *)
Fixpoint attempt_calls (a : Z) (k : Candidate) (earlier : list go_error) (final : option go_error)
    : list engine_call :=
  match earlier with
  | [] => [Assigned k final]
  | err :: rest => Assigned k (Some err) :: Slept (retryBackoff c a) :: attempt_calls (a + 1) k rest final
  end.

Definition dead_letter (k : Candidate) (task : string) (epoch t attempts : Z) (err : go_error) : DeadLetterEntry :=
  {| dl_TaskID := task; dl_TraderID := c_TraderID k; dl_SessionID := c_SessionID k;
     dl_TaskType := taskType c; dl_Epoch := epoch; dl_Attempts := attempts;
     dl_Retryable := retryable err; dl_Error := error_text err;
     dl_LastAttemptUnix := t; dl_FirstFailureUnix := t |}.

Lemma assign_loop_spec n attempt k task epoch t ff (w : W) :
  (0 < n)%nat -> ff = 0%Z \/ ff = t ->
  exists earlier final, (length earlier < n)%nat /\ Forall (fun err => retryable err = true) earlier /\
    let '(r, w') := assign_loop c n attempt k task epoch t ff w in
    trace w' = trace w ++ attempt_calls attempt k earlier final /\ r.2 = final /\
    match final with
    | None => r.1 = assignResultSuccess /\ eng w' = eng w
    | Some err =>
        r.1 = (if retryable err then assignResultFailedRetryExhausted else assignResultFailedNonRetryable) /\
        (retryable err = true -> S (length earlier) = n) /\
        eng w' = pushDeadLetter c
          (dead_letter k task epoch t (attempt + Z.of_nat (length earlier)) err) (eng w)
    end.
Proof.
  revert attempt ff w. induction n as [|n IH]; intros attempt ff w Hn Hff; [lia|].
  cbn [assign_loop]. unfold mbind, st_bind, call.
  destruct w as [e [x lg]]. unfold Assign, logged_env, noted; cbn [ext fst snd].
  destruct (@Assign X Env k x) as [[err|] x1] eqn:Ea;
    cbn -[assign_loop isRetryable pushDeadLetter bool_decide attempt_calls].
  2: { exists [], None. cbn. split_and!; [lia|done..]. }
  rewrite !logged_isRetryable.
  assert ((if (ff =? 0)%Z then t else ff) = t) as Hfirst
    by (destruct Hff as [->| ->]; [done|by case_match]).
  rewrite Hfirst.
  destruct (retryable err) eqn:Er;
    cbn -[assign_loop isRetryable pushDeadLetter bool_decide attempt_calls].
  - case_bool_decide as Hlast; [subst n|].
    + exists [], (Some err). cbn -[isRetryable pushDeadLetter]. rewrite Er. split; [lia|].
      split_and!; try done. rewrite Z.add_0_r. unfold dead_letter. by rewrite Er.
    + destruct (IH (attempt + 1)%Z t
        (mk_eworld e (env_sleep (retryBackoff c attempt) x1, (lg ++ [Assigned k (Some err)]) ++
           [Slept (retryBackoff c attempt)])) ltac:(lia) ltac:(by right))
        as (earlier & final & Hl & Hre & Hrest).
      exists (err :: earlier), final. split; [cbn; lia|]. split; [by constructor|].
      unfold modify_ext, modify. cbn -[assign_loop isRetryable pushDeadLetter bool_decide] in Hrest |- *.
      match type of Hrest with match ?a with (_, _) => _ end =>
        match goal with |- match ?b with (_, _) => _ end => change b with a end; destruct a as [r w'] end.
      destruct Hrest as (Hlog & Hr & Hres). split.
      { rewrite Hlog. unfold trace. cbn. by rewrite <- !app_assoc. }
      split; [done|]. destruct final as [err'|]; [|done]. destruct Hres as (H1 & H2 & H3).
      split_and!; [done|intros; by rewrite H2|]. rewrite H3. f_equal. f_equal. lia.
  - exists [], (Some err). cbn -[isRetryable pushDeadLetter]. rewrite Er. split; [lia|].
    split_and!; try done. rewrite Z.add_0_r. unfold dead_letter. by rewrite Er.
Qed.

(** ** Resource constraints *)

Definition has_room (a : res (f64 * bool)) : bool :=
  match a with Ok (v, true) => negb (f_ge (clampUnit v) (resourceHard c)) | _ => false end.

(** The penalty of a utilisation above the soft limit, added to those before. *)
Definition add_penalty (acc : f64) (a : res (f64 * bool)) : f64 :=
  match a with
  | Ok (v, true) =>
      let u := clampUnit v in
      if f_gt u (resourceSoft c) then
        let norm := f_div (f_sub u (resourceSoft c)) (f_sub f_one (resourceSoft c)) in
        f_add acc (f_mul (f_mul (resourceW c) norm) norm)
      else acc
  | _ => acc
  end.

Definition penalised (k : Candidate) (answers : list (res (f64 * bool))) : Candidate :=
  let p := foldl add_penalty f_zero answers in
  if f_lt f_zero p
  then {| c_TraderID := c_TraderID k; c_SessionID := c_SessionID k;
          c_LastHeartbeatUnix := c_LastHeartbeatUnix k; Score := f_add (Score k) p |}
  else k.

(** The exchanges that are looked at: references without an id are skipped. *)
Definition exchange_ids (required : list ExchangeRef) : list Z :=
  filter (fun id => (0 < id)%Z) (er_ExchangeID <$> required).

(** The judgement over one candidate: the snapshot of its session, the utilisations
    asked for, and what becomes of it. *)
Inductive judged (required : list ExchangeRef) (k : Candidate)
    : option TraderSnapshot -> list engine_call -> option Candidate -> Prop :=
  | judged_unknown : judged required k None [] None
  | judged_without_id s : (ts_TraderDBID s <= 0)%Z -> judged required k (Some s) [] None
  | judged_refused s before a :
      (0 < ts_TraderDBID s)%Z -> (length before < length (exchange_ids required))%nat ->
      Forall (fun b => has_room b = true) before -> has_room a = false ->
      judged required k (Some s)
        (zip_with (Utilised (ts_TraderDBID s)) (exchange_ids required) (before ++ [a])) None
  | judged_kept s answers :
      (0 < ts_TraderDBID s)%Z -> length answers = length (exchange_ids required) ->
      Forall (fun b => has_room b = true) answers ->
      judged required k (Some s)
        (zip_with (Utilised (ts_TraderDBID s)) (exchange_ids required) answers) (Some (penalised k answers)).

Abbreviation noted_util u := (fun d e => noted (Utilised d e) (u d e)).

Lemma exchange_loop_judged (u : Z -> Z -> X -> res (f64 * bool) * X) dbid required p (w : W) :
  let '(r, w') := exchange_loop c (noted_util u) dbid required p w in
  exists answers, sched_view w' =
      (trace w ++ zip_with (Utilised dbid) (exchange_ids required) answers, dedupAssigned (eng w), dlq (eng w)) /\
    match r with
    | Some q => length answers = length (exchange_ids required) /\
                Forall (fun b => has_room b = true) answers /\ q = foldl add_penalty p answers
    | None => exists before a, answers = before ++ [a] /\
                (length before < length (exchange_ids required))%nat /\
                Forall (fun b => has_room b = true) before /\ has_room a = false
    end.
Proof.
  revert p w. induction required as [|ref rest IH]; intros p w.
  { exists []. cbn. by rewrite app_nil_r. }
  cbn [exchange_loop]. unfold exchange_ids. cbn [fmap list_fmap]. rewrite filter_cons.
  fold (exchange_ids rest). destruct (Z.leb_spec (er_ExchangeID ref) 0).
  { rewrite decide_False by lia. apply IH. }
  rewrite decide_True by lia. unfold mbind, st_bind, call, noted at 1. destruct w as [e [x lg]]. cbn [ext fst snd].
  destruct (u dbid (er_ExchangeID ref) x) as [a x1].
  set (w1 := mk_eworld e (x1, lg ++ [Utilised dbid (er_ExchangeID ref) a])).
  change ((mk_eworld e (x, lg)) <| ext := (x1, lg ++ [Utilised dbid (er_ExchangeID ref) a]) |>) with w1.
  assert (forall q, has_room a = true -> q = add_penalty p a ->
    let '(r, w') := exchange_loop c (noted_util u) dbid rest q w1 in
    exists answers, sched_view w' =
      (lg ++ zip_with (Utilised dbid) (er_ExchangeID ref :: exchange_ids rest) answers,
       dedupAssigned e, dlq e) /\
    match r with
    | Some q => length answers = length (er_ExchangeID ref :: exchange_ids rest) /\
                Forall (fun b => has_room b = true) answers /\ q = foldl add_penalty p answers
    | None => exists before b, answers = before ++ [b] /\
                (length before < length (er_ExchangeID ref :: exchange_ids rest))%nat /\
                Forall (fun b => has_room b = true) before /\ has_room b = false
    end) as Hgo.
  { intros q Hroom ->. specialize (IH (add_penalty p a) w1).
    destruct (exchange_loop c _ dbid rest _ w1) as [r w']. destruct IH as (answers & Hv & Hr).
    exists (a :: answers). split.
    { rewrite Hv. unfold w1, trace. cbn. by rewrite <- app_assoc. }
    destruct r as [q|].
    - destruct Hr as (Hl & Hf & ->). split_and!; [cbn; by rewrite Hl|by constructor|done].
    - destruct Hr as (before & b & -> & Hl & Hf & Hb). exists (a :: before), b.
      split_and!; [done|cbn; lia|by constructor|done]. }
  assert (forall reason, has_room a = false ->
    let '(r, w') := (recordResourceRejection reason;; mret None) w1 in
    exists answers, sched_view w' =
      (lg ++ zip_with (Utilised dbid) (er_ExchangeID ref :: exchange_ids rest) answers,
       dedupAssigned e, dlq e) /\
    match r : option f64 with
    | Some q => length answers = length (er_ExchangeID ref :: exchange_ids rest) /\
                Forall (fun b => has_room b = true) answers /\ q = foldl add_penalty p answers
    | None => exists before b, answers = before ++ [b] /\
                (length before < length (er_ExchangeID ref :: exchange_ids rest))%nat /\
                Forall (fun b => has_room b = true) before /\ has_room b = false
    end) as Hstop.
  { intros reason Hroom. unfold mbind, st_bind. pose proof (view_reject reason w1) as Hv. unfold same in Hv.
    destruct (recordResourceRejection reason w1) as [[] w2]. cbn [snd] in Hv. unfold mret, st_ret.
    exists [a]. split; [rewrite Hv; cbn [zip_with]; by rewrite zip_with_nil_r|]. exists [], a. split_and!; [done|cbn; lia|constructor|done]. }
  unfold mbind, st_bind in Hstop.
  destruct a as [[v []]|err]; [|by apply Hstop..].
  unfold has_room, add_penalty in Hgo, Hstop. cbv zeta in Hgo |- *.
  destruct (f_ge (clampUnit v) (resourceHard c)); [by apply Hstop|].
  destruct (f_gt (clampUnit v) (resourceSoft c)); by apply Hgo.
Qed.

Lemma penalised_spec k answers :
  penalised k answers =
  (if f_gt (foldl add_penalty f_zero answers) f_zero
   then k <| Score ::= fun s => f_add s (foldl add_penalty f_zero answers) |> else k).
Proof. done. Qed.

Lemma candidate_loop_judged (u : Z -> Z -> X -> res (f64 * bool) * X) m required ks (w : W) :
  let '(l, w') := candidate_loop c (noted_util u) m required ks w in
  exists js : list (list engine_call * option Candidate),
    Forall2 (fun k j => judged required k (m !! c_SessionID k) j.1 j.2) ks js /\
    sched_view w' = (trace w ++ concat js.*1, dedupAssigned (eng w), dlq (eng w)) /\ l = omap snd js.
Proof.
  revert w. induction ks as [|k ks IH]; intros w.
  { exists []. cbn. by rewrite app_nil_r. }
  cbn [candidate_loop].
  (* a candidate dropped with the calls [cs] in the state [w1] *)
  assert (forall (w1 : W) cs, judged required k (m !! c_SessionID k) cs None ->
    sched_view w1 = (trace w ++ cs, dedupAssigned (eng w), dlq (eng w)) ->
    let '(l, w') := candidate_loop c (noted_util u) m required ks w1 in
    exists js : list (list engine_call * option Candidate),
      Forall2 (fun k j => judged required k (m !! c_SessionID k) j.1 j.2) (k :: ks) js /\
      sched_view w' = (trace w ++ concat js.*1, dedupAssigned (eng w), dlq (eng w)) /\ l = omap snd js) as Hdrop.
  { intros w1 cs Hj Hv. specialize (IH w1). destruct (candidate_loop _ _ _ _ ks w1) as [l w'].
    destruct IH as (js & Hjs & Hv' & ->). exists ((cs, None) :: js). split; [by constructor|]. split; [|done].
    rewrite Hv'. unfold sched_view in Hv. injection Hv as -> -> ->. cbn. by rewrite <- app_assoc. }
  destruct (m !! c_SessionID k) as [s|] eqn:Es.
  2: { apply (Hdrop w []); [constructor|]. by rewrite app_nil_r. }
  destruct (Z.leb_spec (ts_TraderDBID s) 0).
  { unfold mbind, st_bind. pose proof (view_reject "missing_trader_db_id" w) as Hv. unfold same in Hv.
    destruct (recordResourceRejection _ w) as [[] w1]. cbn [snd] in Hv.
    apply (Hdrop w1 []); [by constructor|]. rewrite Hv, app_nil_r. done. }
  unfold mbind, st_bind.
  pose proof (exchange_loop_judged u (ts_TraderDBID s) required f_zero w) as Hex.
  destruct (exchange_loop _ _ _ _ _ w) as [[p|] w1]; destruct Hex as (answers & Hv & Hr).
  - destruct Hr as (Hl & Hf & ->). specialize (IH w1).
    destruct (candidate_loop _ _ _ _ ks w1) as [l w']. destruct IH as (js & Hjs & Hv' & ->).
    unfold mret, st_ret. exists ((zip_with (Utilised (ts_TraderDBID s)) (exchange_ids required) answers,
      Some (penalised k answers)) :: js). split; [|split].
    + constructor; [|done]. cbn. rewrite Es. by constructor.
    + rewrite Hv'. unfold sched_view in Hv. injection Hv as -> -> ->. cbn. by rewrite <- app_assoc.
    + cbn [omap list_omap snd]. by rewrite penalised_spec.
  - destruct Hr as (before & a & -> & Hl & Hf & Ha). eapply (Hdrop w1); [by constructor|exact Hv].
Qed.

(** The snapshot the engine finds for a session: the last one with its id. *)
Definition snapshot_of (snapshots : list TraderSnapshot) (sid : string) : option TraderSnapshot :=
  last (filter (fun s => ts_SessionID s = sid) snapshots).

Lemma by_session_lookup snapshots sid : by_session snapshots !! sid = snapshot_of snapshots sid.
Proof.
  unfold by_session, snapshot_of. induction snapshots as [|s l IH] using rev_ind; [done|].
  rewrite foldl_app, filter_app, filter_cons, filter_nil. cbn [foldl]. case_decide as Hs.
  - subst sid. by rewrite lookup_insert_eq, last_snoc.
  - by rewrite lookup_insert_ne, app_nil_r.
Qed.

(** What the constraints make of the candidates [ks], with the utilisations asked
    for; without a provider or without requirements nothing happens. *)
Definition constrained (ks : list Candidate) (snapshots : list TraderSnapshot) (required : list ExchangeRef)
    (calls : list engine_call) (kept : list Candidate) : Prop :=
  match @GetTraderExchangeUtilization X Env, required with
  | Some _, _ :: _ =>
      exists js : list (list engine_call * option Candidate),
        Forall2 (fun k j => judged required k (snapshot_of snapshots (c_SessionID k)) j.1 j.2) ks js /\
        calls = concat js.*1 /\ kept ≡ₚ omap snd js
  | _, _ => calls = [] /\ kept = ks
  end.

(** Sorted, best first, when there is a best. *)
Definition ranked (l : list Candidate) : Prop :=
  Forall score_ok l -> StronglySorted (fun a b => candidate_lex b a = false) l.

Lemma constraints_judged (u : Z -> Z -> X -> res (f64 * bool) * X) ks snapshots required (w : W) :
  @GetTraderExchangeUtilization X Env = Some u -> required <> [] ->
  let '(kept, w') := applyResourceConstraints c ks snapshots required w in
  exists js : list (list engine_call * option Candidate),
    Forall2 (fun k j => judged required k (snapshot_of snapshots (c_SessionID k)) j.1 j.2) ks js /\
    sched_view w' = (trace w ++ concat js.*1, dedupAssigned (eng w), dlq (eng w)) /\
    kept ≡ₚ omap snd js /\ ranked kept.
Proof.
  intros Hu Hreq. unfold applyResourceConstraints. cbn [GetTraderExchangeUtilization logged_env].
  rewrite Hu. cbn [fmap option_fmap option_map]. destruct required as [|ref required]; [done|].
  destruct ks as [|k ks].
  { exists []. cbn. rewrite app_nil_r. split_and!; try done. constructor. }
  unfold mbind, st_bind. pose proof (candidate_loop_judged u (by_session snapshots) (ref :: required) (k :: ks) w) as Hl.
  destruct (candidate_loop _ _ _ _ _ w) as [l w']. destruct Hl as (js & Hjs & Hv & ->). unfold mret, st_ret.
  exists js. split_and!; [|done|by rewrite sort_stable_Permutation|].
  - eapply Forall2_impl; [exact Hjs|]. intros k' j. cbv beta. by rewrite by_session_lookup.
  - intros Hok. apply sort_candidates_sorted. by rewrite sort_stable_Permutation in Hok.
Qed.

Lemma applyResourceConstraints_judged ks snapshots required (w : W) :
  ranked ks ->
  let '(kept, w') := applyResourceConstraints c ks snapshots required w in
  exists calls, constrained ks snapshots required calls kept /\ ranked kept /\
    sched_view w' = (trace w ++ calls, dedupAssigned (eng w), dlq (eng w)).
Proof.
  intros Hranked. unfold constrained.
  destruct (@GetTraderExchangeUtilization X Env) as [u|] eqn:Hu; [destruct required as [|ref required]|].
  2: { pose proof (constraints_judged u ks snapshots (ref :: required) w Hu ltac:(done)) as Hc.
       destruct (applyResourceConstraints _ _ _ _ _) as [kept w']. destruct Hc as (js & Hjs & Hv & Hp & Hr).
       exists (concat js.*1). split_and!; try done. by exists js. }
  all: unfold applyResourceConstraints; cbn [GetTraderExchangeUtilization logged_env]; rewrite Hu;
    cbn [fmap option_fmap option_map]; destruct ks; exists []; by rewrite app_nil_r.
Qed.

Lemma constrained_eligible now window type required' ks snapshots required calls kept best :
  ks = SelectCandidatesForTask snapshots now window type required' ->
  constrained ks snapshots required calls kept -> best ∈ kept ->
  exists s, s ∈ snapshots /\ eligible (time_unix now) (healthy_seconds window) type s = true /\
    c_TraderID best = ts_TraderID s /\ c_SessionID best = ts_SessionID s.
Proof.
  intros -> Hc Hb.
  assert (exists k, k ∈ SelectCandidatesForTask snapshots now window type required' /\
    c_TraderID best = c_TraderID k /\ c_SessionID best = c_SessionID k) as (k & Hk & -> & ->).
  { unfold constrained in Hc.
    destruct (@GetTraderExchangeUtilization X Env), required; try (destruct Hc as [_ ->]; by exists best).
    destruct Hc as (js & Hjs & _ & Hp). rewrite Hp in Hb.
    apply list_elem_of_omap in Hb as ([cs v] & Hin & Hv). cbn in Hv.
    apply list_elem_of_lookup in Hin as [i Hi].
    destruct (Forall2_lookup_r _ _ _ _ _ Hjs Hi) as (k & Hk & Hj). exists k.
    split; [by eapply list_elem_of_lookup_2|]. cbn in Hj. subst v.
    inversion Hj; subst. unfold penalised. by destruct (f_lt _ _). }
  apply selected_elem in Hk as (s & Hin & Hel & ->). by exists s.
Qed.

Lemma candidate_lex_irrefl k : score_ok k -> candidate_lex k k = false.
Proof.
  intros Hk. destruct (candidate_lex k k) eqn:E; [|done].
  destruct candidate_lex_order as [Hasym _]. pose proof (Hasym k k Hk Hk E) as Hn.
  unfold not_after in *. congruence.
Qed.

Lemma ranked_selected snapshots now window type required :
  ranked (SelectCandidatesForTask snapshots now window type required).
Proof.
  unfold ranked, SelectCandidatesForTask, selectCandidatesInternal. intros Hok.
  apply sort_candidates_sorted. by rewrite sort_stable_Permutation in Hok.
Qed.
(** ** A cycle as a whole *)

(** The exchanges a task requires, as the provider answers in the state [x]; none if
    it fails or there is none. *)
Definition required_exchanges (x : X) : list ExchangeRef :=
  if @has_requirements X Env then
    match (if taskType c =s taskTypeMonitor then @GetMonitorRequiredExchanges X Env x
           else @GetTradeRequiredExchanges X Env x).1 with
    | Ok refs => refs
    | Err _ => []
    end
  else [].

(** The candidates before the constraints. *)
Definition offered (now : Z) (snapshots : list TraderSnapshot) (required : list ExchangeRef) : list Candidate :=
  SelectCandidatesForTask snapshots now (healthyWindow c) (taskType c) (namesFromExchangeRefs required).

Lemma resolve_required (w : W) :
  let '(refs, w') := resolveRequiredExchangeRefs c w in
  refs = required_exchanges (ext w).1 /\ sched_view w' = sched_view w.
Proof.
  unfold resolveRequiredExchangeRefs, required_exchanges, sched_view, trace.
  cbn [has_requirements logged_env].
  destruct (@has_requirements X Env); cbn [negb]; [|done].
  destruct w as [e [x lg]]. unfold mbind, st_bind, call, lift.
  destruct (taskType c =s taskTypeMonitor); cbn -[required_exchanges].
  - unfold lift. cbn [fst snd]. by destruct (@GetMonitorRequiredExchanges X Env x) as [[refs|err] x1].
  - unfold lift. cbn [fst snd]. by destruct (@GetTradeRequiredExchanges X Env x) as [[refs|err] x1].
Qed.

Lemma select_judged (p : X -> list TraderSnapshot * X) now (w : W) :
  let snapshots := (p (ext w).1).1 in
  let required := required_exchanges (p (ext w).1).2 in
  let '(kept, w') := select_for_cycle c (lift p) now w in
  exists calls, constrained (offered now snapshots required) snapshots required calls kept /\ ranked kept /\
    sched_view w' = (trace w ++ calls, dedupAssigned (eng w), dlq (eng w)).
Proof.
  destruct w as [e [x lg]]. cbv zeta. cbn [ext fst].
  unfold select_for_cycle, mbind, st_bind, call, lift. cbn [ext fst snd].
  destruct (p x) as [snapshots x1]. cbn [fst snd].
  set (w1 := mk_eworld e (x1, lg)). change ((mk_eworld e (x, lg)) <| ext := (x1, lg) |>) with w1.
  pose proof (resolve_required w1) as Hr.
  destruct (resolveRequiredExchangeRefs c w1) as [refs w2]. destruct Hr as [-> Hv2].
  change (required_exchanges (ext w1).1) with (required_exchanges x1).
  pose proof (applyResourceConstraints_judged (offered now snapshots (required_exchanges x1)) snapshots
    (required_exchanges x1) w2 (ranked_selected _ _ _ _ _)) as Ha.
  unfold offered in Ha at 1.
  destruct (applyResourceConstraints _ _ _ _ w2) as [kept w3]. destruct Ha as (calls & Hc & Hk & Hv3).
  pose proof (view_scores kept w3) as Hv4. unfold same in Hv4.
  destruct (publishScoreDistribution kept w3) as [[] w4]. cbn [snd] in Hv4.
  unfold modify_eng, modify, gets. cbn [snd].
  match goal with |- context [syncMetrics ?a ?b ?n ?w] =>
    pose proof (view_metrics a b n w) as Hv5; destruct (syncMetrics a b n w) as [[] w6] end.
  unfold mret, st_ret. exists calls. split; [done|]. split; [done|].
  unfold same in Hv5. cbn [snd] in Hv5. rewrite Hv5.
  transitivity (sched_view w4); [done|]. rewrite Hv4, Hv3.
  unfold sched_view in Hv2. injection Hv2 as -> -> ->. done.
Qed.

(** An assignment is remembered when its key was marked after the cutoff. *)
Definition remembered (key : string) (now : Z) (e : engine_state) : Prop :=
  exists t0, dedupAssigned e !! key = Some t0 /\ (wrap64 (time_unix now - dedup_seconds c) < t0)%Z.

Lemma seen_remembered task trader epoch now e :
  (seenAssignment c task trader epoch (time_unix now) e).1 = true <->
  remembered (assignmentIdempotencyKey task trader epoch) now e.
Proof.
  unfold seenAssignment, remembered. cbn [fst]. rewrite bool_decide_eq_true. unfold evictOldAssignments.
  generalize (assignmentIdempotencyKey task trader epoch). intros key.
  case_bool_decide as He.
  - rewrite He, lookup_empty. split; [by intros [? ?]|by intros (? & ? & _)].
  - cbn. unfold is_Some. setoid_rewrite map_lookup_filter_Some. cbn. setoid_rewrite Z.leb_gt. done.
Qed.

(** ** Properties *)

(** C26: the retry policy of one assignment, told by what [Assign] answered.  The
    candidate is asked at most [retryMax + 1] times, each time but the last answered by
    a retryable error and followed by the scheduled pause; the result is that of the
    last answer.  A success leaves the engine as it was; a failure is final only if its
    error is not retryable or all attempts were made, and leaves one dead letter with
    the number of attempts and that error. *)
Theorem assign_retry_policy (k : Candidate) (task : string) (epoch t : Z) (w : W)
    (Hmax : (0 <= retryMax c < max_int64)%Z) :
  exists (earlier : list go_error) (final : option go_error),
    (Z.of_nat (length earlier) <= retryMax c)%Z /\ Forall (fun err => retryable err = true) earlier /\
    let '(r, w') := assignWithRetry c k task epoch t w in
    trace w' = trace w ++ attempt_calls 1 k earlier final /\ r.2 = final /\
    match final with
    | None => r.1 = assignResultSuccess /\ eng w' = eng w
    | Some err =>
        r.1 = (if retryable err then assignResultFailedRetryExhausted else assignResultFailedNonRetryable) /\
        (retryable err = true -> Z.of_nat (length earlier) = retryMax c) /\
        eng w' = pushDeadLetter c (dead_letter k task epoch t (1 + Z.of_nat (length earlier)) err) (eng w)
    end.
Proof.
  unfold assignWithRetry. rewrite wrap64_id by ints.
  destruct (assign_loop_spec (Z.to_nat (retryMax c + 1)) 1 k task epoch t 0 w ltac:(lia) ltac:(by left))
    as (earlier & final & Hn & Hre & Hspec).
  exists earlier, final. split; [lia|]. split; [done|].
  destruct (assign_loop _ _ _ _ _ _ _ _ _) as [r w']. destruct Hspec as (Hlog & Hr & Hres).
  split; [done|]. split; [done|]. destruct final as [err|]; [|done].
  destruct Hres as (H1 & H2 & H3). split_and!; [done| |done]. intros He%H2. lia.
Qed.

(** What a cycle asks once it has its best candidate: nothing if this assignment is
    remembered, else the candidate, as often as the retry policy says; a success is
    remembered. *)
Definition assigns (task : string) (now : Z) (best : Candidate) (asked : list engine_call)
    (before after : engine_state) : Prop :=
  let key := assignmentIdempotencyKey task (c_TraderID best) (assignmentEpoch c now) in
  remembered key now before /\ asked = [] \/
  ~ remembered key now before /\
  exists (earlier : list go_error) (final : option go_error),
    asked = attempt_calls 1 best earlier final /\
    (Z.of_nat (length earlier) <= retryMax c)%Z /\ Forall (fun err => retryable err = true) earlier /\
    match final with
    | None => dedupAssigned after !! key = Some (time_unix now)
    | Some err => retryable err = true -> Z.of_nat (length earlier) = retryMax c
    end.

(** The second half of a cycle. *)
Lemma assign_best now start best task (w3 w' : W) (e0 : engine_state) :
  (0 <= retryMax c < max_int64)%Z -> dedupAssigned (eng w3) = dedupAssigned e0 ->
  (seen ← (fun w : W =>
     let '(b, e) := seenAssignment c task (c_TraderID best) (assignmentEpoch c now) (time_unix now) (eng w) in
     (b, w <| eng := e |>));
   if (seen : bool) then publish_since start assignResultDedup
   else
     r ← assignWithRetry c best task (assignmentEpoch c now) (time_unix now);
     match r.2 with
     | Some _ => publish_since start r.1
     | None =>
         modify_eng (markAssignment c task (c_TraderID best) (assignmentEpoch c now) (time_unix now));;
         publish_since start assignResultSuccess
     end) w3 = (tt, w') ->
  exists asked, trace w' = trace w3 ++ asked /\ assigns task now best asked e0 (eng w').
Proof.
  intros Hmax He Hrun. unfold mbind at 1, st_bind at 1 in Hrun.
  pose proof (seen_remembered task (c_TraderID best) (assignmentEpoch c now) now (eng w3)) as Hs.
  unfold remembered in Hs. rewrite He in Hs. fold (remembered (assignmentIdempotencyKey task (c_TraderID best)
    (assignmentEpoch c now)) now e0) in Hs. unfold assigns. cbv zeta.
  destruct (seenAssignment c task _ _ _ (eng w3)) as [[] e1]; cbn [fst] in Hs; cbv beta iota in Hrun.
  { exists []. rewrite app_nil_r. split; [|left; split; [by apply Hs|done]].
    match type of Hrun with publish_since ?a ?b ?w = _ =>
      pose proof (view_trace _ _ (view_publish_since a b w)) as Hv end.
    by rewrite Hrun in Hv. }
  unfold mbind at 1, st_bind at 1 in Hrun.
  unfold assignWithRetry in Hrun. rewrite wrap64_id in Hrun by ints.
  match type of Hrun with context [assign_loop _ ?n ?a ?k ?i ?o ?t ?f ?w] =>
    pose proof (assign_loop_spec n a k i o t f w ltac:(lia) ltac:(by left)) as Hspec;
    destruct (assign_loop c n a k i o t f w) as [r w5] end.
  destruct Hspec as (earlier & final & Hn & Hre & Hlog & Hr & Hres).
  assert (~ remembered (assignmentIdempotencyKey task (c_TraderID best) (assignmentEpoch c now)) now e0) as Hnew
    by (by rewrite <- Hs).
  exists (attempt_calls 1 best earlier final). rewrite Hr in Hrun. destruct final as [err|].
  - pose proof (view_trace _ _ (view_publish_since start r.1 w5)) as Hv. rewrite Hrun in Hv.
    split; [cbn [snd] in Hv; rewrite Hv; exact Hlog|].
    right. split; [done|]. exists earlier, (Some err). destruct Hres as (_ & H2 & _). split_and!; [done|lia|done|].
    intros Hx%H2. lia.
  - unfold modify_eng, modify, mbind, st_bind in Hrun.
    match type of Hrun with publish_since ?a ?b ?w = _ => pose proof (view_publish_since a b w) as Hv end.
    rewrite Hrun in Hv. unfold same, sched_view in Hv. injection Hv as Ht Hd _.
    split; [rewrite Ht; exact Hlog|].
    right. split; [done|]. exists earlier, None. split_and!; [done|lia|done|]. rewrite Hd. cbn. apply lookup_insert_eq.
Qed.

(** C25: what one scheduling cycle does.  It takes the snapshots and the required
    exchanges, offers the eligible sessions of the former (C22) to the resource
    constraints, and is left with the candidates these keep, with the penalties of
    their utilisations added to their scores (C30).  If none is left, nothing is
    assigned.  Otherwise the best of them is chosen: unless a score is a NaN, no other
    has a lower score with its penalties, or an equal one and a later heartbeat, or both
    equal and a smaller trader id.  It is a session that was eligible in the snapshots,
    and it and no other is assigned the task: at least once and at most [retryMax + 1]
    times, as C26 says, unless the table of assignments has a mark for this task,
    trader and epoch that is younger than the deduplication window; a success is
    marked with the time of the cycle. *)
Theorem cycle_assigns_best_eligible (p : X -> list TraderSnapshot * X) (now : Z) (w : W)
    (Hprov : @snapshot_provider X Env = Some p) (Hmax : (0 <= retryMax c < max_int64)%Z) :
  let snapshots := (p (ext w).1).1 in
  let required := required_exchanges (p (ext w).1).2 in
  let w' := (runCycle c now w).2 in
  exists calls kept asked,
    constrained (offered now snapshots required) snapshots required calls kept /\
    trace w' = trace w ++ calls ++ asked /\
    (kept = [] /\ asked = [] \/
     exists best task, best ∈ kept /\
       (Forall score_ok kept -> Forall (fun k => candidate_lex k best = false) kept) /\
       (exists s, s ∈ snapshots /\
          eligible (time_unix now) (healthy_seconds (healthyWindow c)) (taskType c) s = true /\
          c_TraderID best = ts_TraderID s /\ c_SessionID best = ts_SessionID s) /\
       assigns task now best asked (eng w) (eng w')).
Proof.
  cbv zeta. destruct (runCycle c now w) as [[] w'] eqn:Hrun. cbn [snd]. unfold runCycle in Hrun.
  replace (snapshot_provider (X := X * list engine_call)) with (lift <$> @snapshot_provider X Env) in Hrun by done.
  rewrite Hprov in Hrun. cbn [fmap option_fmap option_map] in Hrun.
  pose proof (select_judged p now w) as Hsel. cbv zeta in Hsel.
  unfold mbind at 1, st_bind at 1 in Hrun.
  destruct (select_for_cycle c (lift p) now w) as [kept w1]. destruct Hsel as (calls & Hc & Hk & Hv1).
  unfold mbind at 1, st_bind at 1 in Hrun. unfold now_ in Hrun.
  replace (env_now (X := X * list engine_call)) with (lift (@env_now X Env)) in Hrun by done.
  pose proof (view_call env_now w1) as Hv2. destruct (call (lift env_now) w1) as [start w2].
  unfold same in Hv2. cbn [snd] in Hv2. rewrite Hv1 in Hv2.
  destruct kept as [|best kept].
  { exists calls, [], []. split; [done|]. rewrite app_nil_r. split; [|by left].
    pose proof (view_trace _ _ (view_publish assignResultNoCandidates 0 w2)) as Hv. rewrite Hrun in Hv.
    cbn [snd] in Hv. rewrite Hv. unfold sched_view in Hv2. congruence. }
  unfold mbind at 1, st_bind at 1 in Hrun.
  pose proof (view_resolveTaskID w2) as Hv3. destruct (resolveTaskID c w2) as [task w3].
  unfold same in Hv3. cbn [snd] in Hv3. rewrite Hv2 in Hv3. unfold sched_view in Hv3. injection Hv3 as Ht Hd _.
  destruct (assign_best now start best task w3 w' (eng w) Hmax Hd Hrun) as (asked & Ha & Has).
  exists calls, (best :: kept), asked. split; [done|]. split; [by rewrite app_assoc, <- Ht|].
  right. exists best, task. split; [left|]. split; [|split; [|exact Has]].
  - intros Hok. specialize (Hk Hok). apply StronglySorted_cons in Hk as [Hb _]. constructor; [|done].
    inversion Hok as [|? ? Hb1 _]; subst. by apply candidate_lex_irrefl.
  - eapply constrained_eligible; [reflexivity|exact Hc|left].
Qed.

(** C30: with a resource provider and required exchanges, each candidate is judged by
    its own utilisations.  A candidate whose session has no snapshot, or whose trader
    has no database id, is dropped unasked.  For any other the provider is asked for
    the required exchanges in order (references without an id, [ExchangeID <= 0], are
    skipped), up to the first answer that is an error, says the resource is missing, or
    is not below the hard limit, and that drops it; it is kept exactly when no answer is
    of this kind, and then its score grows by the penalties of the utilisations above
    the soft limit.  Nothing else is asked, and the kept candidates are ranked again, the
    best first, unless a score is a NaN.  Whatever the provider answers and changes. *)
Theorem resource_constraints_exact (u : Z -> Z -> X -> res (f64 * bool) * X) (ks : list Candidate)
    (snapshots : list TraderSnapshot) (required : list ExchangeRef) (w : W)
    (Hprov : @GetTraderExchangeUtilization X Env = Some u) (Hreq : required <> []) :
  let '(kept, w') := applyResourceConstraints c ks snapshots required w in
  exists js : list (list engine_call * option Candidate),
    Forall2 (fun k j => judged required k (snapshot_of snapshots (c_SessionID k)) j.1 j.2) ks js /\
    trace w' = trace w ++ concat js.*1 /\ kept ≡ₚ omap snd js /\
    (Forall score_ok kept -> StronglySorted (fun a b => candidate_lex b a = false) kept).
Proof.
  pose proof (constraints_judged u ks snapshots required w Hprov Hreq) as Ha.
  destruct (applyResourceConstraints c ks snapshots required w) as [kept w'].
  destruct Ha as (js & Hjs & Hv & Hp & Hr). exists js. split_and!; try done.
  unfold sched_view in Hv. congruence.
Qed.
End cycle.

(** C27: the dead letter queue is the list of the newest [dlqMax] failures in the
    order they happened: it never grows beyond its bound and only its oldest
    entries are dropped. *)
Theorem dead_letters_are_newest (cfg : Config) (es : list DeadLetterEntry) :
  let c := NewEngine cfg in
  DeadLetters (foldl (fun e entry => pushDeadLetter c entry e) new_engine_state es) =
  drop (length es - Z.to_nat (dlqMax c)) es.
Proof.
  cbv zeta. destruct (NewEngine_ok cfg) as [_ _ _ _ _ Hq _].
  exact (pushDeadLetter_ok (NewEngine cfg) es [] new_engine_state Hq (Z.lt_le_incl _ _ Hq) eq_refl).
Qed.

(** C28: on a clock that does not go back, two cycles assign the same task to the same
    trader for the same epoch only if at least the deduplication window (in whole
    seconds) lies between them. *)
Theorem assignment_deduplicated (c : engine_config) (l : list (Z * (string * string * Z)))
    (e : engine_state) (Hclock : StronglySorted Z.le l.*1) (Hrange : Forall (fun b => times_ok c b.1) l) :
  StronglySorted (fun a b => a.2 = b.2 -> (dedup_seconds c <= b.1 - a.1)%Z) (assigned_run c l e).
Proof.
  revert e. induction l as [|[t [[task trader] epoch]] l IH]; intros e; cbn [assigned_run]; [constructor|].
  inversion Hrange as [|? ? Ht Hrange']; subst. cbn in Ht.
  cbn in Hclock. pose proof Hclock as Hc. apply StronglySorted_cons in Hc as [_ Hc].
  destruct (dedup_cycle c task trader epoch t e) as [seen e'] eqn:Ed.
  destruct seen; [by apply IH|]. constructor; [by apply IH|].
  eapply Forall_impl; [apply (assigned_after c l e' (assignmentIdempotencyKey task trader epoch) t)|].
  - unfold dedup_cycle in Ed. destruct (seenAssignment _ _ _ _ _ _) as [[] e1]; [done|].
    injection Ed as <-. by rewrite markAssignment_table, lookup_insert_eq.
  - done.
  - done.
  - cbn. intros b Hb Heq. by apply Hb.
Qed.

Lemma backoff_loop_inr c n d x : backoff_loop c n d = inr x -> x = retryMaxDelay c.
Proof.
  revert d. induction n as [|n IH]; intros d; cbn; [done|].
  destruct (f_ge _ _); [by intros [= <-]|apply IH].
Qed.

(** Whatever the configuration and the attempt, the pause before a retry is
    neither negative nor longer than the maximal delay, although the doubling is
    done in floating point. *)
Theorem retry_backoff_bounded (cfg : Config) (attempt : Z) :
  let c := NewEngine cfg in (0 <= retryBackoff c attempt <= retryMaxDelay c)%Z.
Proof.
  cbv zeta. destruct (NewEngine_ok cfg) as [_ _ _ _ Hd _ _]. unfold retryBackoff.
  destruct (backoff_loop _ _ _) as [d|x] eqn:E.
  - rewrite Z.gtb_ltb.
    destruct (Z.ltb_spec (retryMaxDelay (NewEngine cfg)) (f_to_int64 d)); [lia|].
    destruct (Z.ltb_spec (f_to_int64 d) 0); lia.
  - apply backoff_loop_inr in E. lia.
Qed.

(** ** A concrete environment *)

(** The state is the log of the calls; an assignment fails with a temporary error until
    the engine has paused, and only the first utilisation of a run is answered. *)
Definition demo_utilization (trader exchange : Z) (x : list string) : res (f64 * bool) * list string :=
  (if bool_decide (x = []) then Ok (f_lit 9 10, true) else Err (ENew "no resources"), x ++ ["utilization"]).

Definition demo_scheduler : SchedulerEnv (list string) := {|
  env_now := fun x => (0%Z, x);
  env_sleep := fun _ x => x ++ ["sleep"];
  snapshot_provider := Some (fun x => (demo_snapshots, x));
  Assign := fun k x => (if bool_decide ("sleep" ∈ x) then None else Some (ETemporary true "busy"),
                        x ++ ["assign " +:+ c_TraderID k]);
  CurrentTaskID := None;
  GetTradeRequiredExchanges := fun x => (Ok [{| er_ExchangeID := 4; ExchangeName := "okx" |}], x);
  GetMonitorRequiredExchanges := fun x => (Ok [], x);
  has_requirements := true;
  GetTraderExchangeUtilization := Some demo_utilization;
  retry_classifier := None;
  latency_dispatcher := None;
  SetRuntimeScheduler := None;
  quality := None
|}.

Definition demo_engine_config : engine_config := NewEngine
  {| cf_Interval := 0; cf_LatencyCheckInterval := 0; cf_HealthyWindow := 0; cf_TaskType := "";
     cf_ResourceHardLimit := f_zero; cf_ResourceSoftLimit := f_zero; cf_ResourceSoftPenaltyMs := f_zero;
     cf_AssignmentDedupWindow := 0; cf_AssignmentEpoch := 0; cf_AssignmentMaxRetries := 0;
     cf_AssignmentRetryInitial := 0; cf_AssignmentRetryMax := 0; cf_AssignmentRetryMultiplier := f_zero;
     cf_DeadLetterMaxSize := 0 |}.

Definition demo_eworld : eworld (list string * list engine_call) :=
  {| eng := new_engine_state; ext := ([], []) |}.

Definition demo_run : eworld (list string * list engine_call) :=
  (@runCycle _ (@logged_env _ demo_scheduler) demo_engine_config (1000 * Second) demo_eworld).2.

Lemma cycle_assigns_best_eligible_witness :
  exists calls kept asked, trace demo_run = calls ++ asked /\
    (kept = [] /\ asked = [] \/ exists best task, best ∈ kept /\
       assigns demo_scheduler demo_engine_config task (1000 * Second) best asked new_engine_state (eng demo_run)).
Proof.
  destruct (cycle_assigns_best_eligible demo_scheduler demo_engine_config (fun x => (demo_snapshots, x))
    (1000 * Second) demo_eworld eq_refl ltac:(vm_compute; split; [discriminate|reflexivity]))
    as (calls & kept & asked & _ & Ht & Hk).
  exists calls, kept, asked. split.
  { transitivity (trace demo_eworld ++ calls ++ asked); [unfold demo_run; exact Ht|reflexivity]. }
  destruct Hk as [Hk|(best & task & Hb & _ & _ & Ha)]; [by left|]. right. exists best, task. split; [exact Hb|]. unfold demo_run. exact Ha.
Defined.

(** In this cycle both traders are looked at, one is dropped for want of an answer, and
    the other is asked twice, with a pause of 100 ms between. *)
Lemma demo_cycle :
  trace demo_run =
    let k := {| c_TraderID := "a"; c_SessionID := "s-a"; c_LastHeartbeatUnix := 996;
                Score := Score (penalised demo_engine_config
                  (candidate_for "trade" ["okx"] (demo_snapshot "a" 996 (f_lit 1 4))) [Ok (f_lit 9 10, true)]) |} in
    [Utilised 1 4 (Ok (f_lit 9 10, true)); Utilised 1 4 (Err (ENew "no resources"));
     Assigned k (Some (ETemporary true "busy")); Slept (100 * Millisecond); Assigned k None].
Proof. vm_compute. reflexivity. Qed.

Definition demo_candidate : Candidate :=
  {| c_TraderID := "a"; c_SessionID := "s-a"; c_LastHeartbeatUnix := 996; Score := f_zero |}.

Lemma assign_retry_policy_witness :
  exists earlier final, (Z.of_nat (length earlier) <= 2)%Z /\
    let '(r, w') := @assignWithRetry _ (@logged_env _ demo_scheduler) demo_engine_config demo_candidate
      "task" 7 1000 demo_eworld in
    trace w' = attempt_calls demo_engine_config 1 demo_candidate earlier final /\ r.2 = final.
Proof.
  destruct (assign_retry_policy demo_scheduler demo_engine_config demo_candidate "task" 7 1000 demo_eworld
    ltac:(vm_compute; split; [discriminate|reflexivity])) as (earlier & final & Hl & _ & H).
  exists earlier, final. split; [exact Hl|].
  destruct (assignWithRetry _ _ _ _ _ demo_eworld) as [r w']. destruct H as (Ht & Hr & _). by split.
Defined.

(** Three cycles for the same key: the middle one is suppressed. *)
Lemma assignment_deduplicated_witness :
  let l := [(100, ("task", "a", 9)); (101, ("task", "a", 9)); (102, ("task", "a", 9))]%Z in
  StronglySorted (fun a b => a.2 = b.2 -> (dedup_seconds demo_engine_config <= b.1 - a.1)%Z)
    (assigned_run demo_engine_config l new_engine_state) /\
  (assigned_run demo_engine_config l new_engine_state).*1 = [100; 102]%Z.
Proof.
  cbv zeta. split; [|vm_compute; reflexivity]. apply assignment_deduplicated.
  - cbn. repeat constructor; lia.
  - repeat constructor; vm_compute; discriminate.
Defined.

Lemma resource_constraints_exact_witness :
  let '(kept, w') := @applyResourceConstraints _ (@logged_env _ demo_scheduler) demo_engine_config [demo_candidate]
    demo_snapshots [{| er_ExchangeID := 4; ExchangeName := "okx" |}] demo_eworld in
  exists js : list (list engine_call * option Candidate),
    Forall2 (fun k j => judged demo_engine_config [{| er_ExchangeID := 4; ExchangeName := "okx" |}] k
      (snapshot_of demo_snapshots (c_SessionID k)) j.1 j.2) [demo_candidate] js /\
    trace w' = concat js.*1 /\ kept ≡ₚ omap snd js.
Proof.
  pose proof (resource_constraints_exact demo_scheduler demo_engine_config demo_utilization [demo_candidate]
    demo_snapshots [{| er_ExchangeID := 4; ExchangeName := "okx" |}] demo_eworld eq_refl ltac:(discriminate)) as H.
  destruct (applyResourceConstraints _ _ _ _ demo_eworld) as [kept w'].
  destruct H as (js & Hj & Ht & Hk & _). exists js. split_and!; [exact Hj| |exact Hk].
  transitivity (trace demo_eworld ++ concat js.*1); [exact Ht|reflexivity].
Defined.
