(* ===== verification/StateFile.v ===== *)
(** * The daemon state and its file format (internal/state/types.go)

    The state record, [NewDaemonState], and what [encoding/json] makes of it: the
    encoder and the decoder are written field by field from the struct tags, over
    JSON trees.  Turning a tree into text, and the decimal forms of floating point
    numbers and times, are the class [JsonText], with the laws of those standard
    library functions as [JsonTextLaws], stated for plain trees: ASCII text, number
    literals of the JSON grammar, nested far less deep than the decoder allows.  [encode_error] is what the encoder reports
    for a value JSON cannot represent. *)

From Stdlib Require Import DecimalString DecimalFacts DecimalPos DecimalN DecimalZ.
From S2P Require Import Prelude GoFloat.

(** ** JSON trees *)

(** A number keeps its literal; an object keeps the order of its members. *)
Inductive json :=
  | JNull
  | JBool (b : bool)
  | JString (s : string)
  | JNumber (literal : string)
  | JArray (l : list json)
  | JObject (members : list (string * json)).

Class JsonText := {
  json_indent : json -> string;
  json_parse : string -> option json;
  format_float : f64 -> string;
  parse_float : string -> option f64;
  format_time : Z -> string;
  parse_time : string -> option Z;
  encode_error : go_error
}.

(** Text in the ASCII range, which the encoder does not alter. *)
Fixpoint ascii_string (s : string) : bool :=
  match s with
  | EmptyString => true
  | String c s' => (nat_of_ascii c <? 128)%nat && ascii_string s'
  end.

(** A finite number in its canonical representation. *)
Definition f_is_finite (x : f64) : bool :=
  match x with S754_nan | S754_infinity _ => false | _ => true end.
Definition f_canonical (x : f64) : bool := f_is_finite x && valid_binary 53 1024 x.

(** The number literals of JSON, as [encoding/json] checks them: an optional sign, an
    integer part without leading zeros, an optional fraction, an optional exponent. *)
Definition is_digit (c : ascii) : bool :=
  ((48 <=? nat_of_ascii c) && (nat_of_ascii c <=? 57))%nat.

Fixpoint skip_digits (s : string) : string :=
  match s with String c s' => if is_digit c then skip_digits s' else s | EmptyString => s end.

Definition number_exponent (s : string) : bool :=
  match s with
  | EmptyString => true
  | String ("e" | "E")%char (String ("+" | "-")%char (String c s')) => is_digit c && str_empty (skip_digits s')
  | String ("e" | "E")%char (String c s') => is_digit c && str_empty (skip_digits s')
  | _ => false
  end.

Definition number_fraction (s : string) : bool :=
  match s with
  | String "."%char (String c s') => is_digit c && number_exponent (skip_digits s')
  | _ => number_exponent s
  end.

Definition json_number (s : string) : bool :=
  match (match s with String "-"%char s' => s' | _ => s end) with
  | String "0"%char s' => number_fraction s'
  | String c s' => is_digit c && number_fraction (skip_digits s')
  | EmptyString => false
  end.

(** Trees nested at most [d] deep whose text is ASCII and whose numbers are literals. *)
Fixpoint plain_json (d : nat) (j : json) {struct j} : bool :=
  match j, d with
  | (JNull | JBool _), _ => true
  | JString s, _ => ascii_string s
  | JNumber s, _ => json_number s
  | JArray l, S d => forallb (plain_json d) l
  | JObject m, S d => forallb (fun kv => ascii_string kv.1 && plain_json d kv.2) m
  | _, O => false
  end.

(** The years [time.Time.MarshalJSON] accepts, 0 to 9999, in nanoseconds. *)
Definition time_marshals (t : Z) : bool :=
  ((-62167219200 * Second <=? t) && (t <? 253402300800 * Second))%Z.

(** [json.Unmarshal] reads back what [json.MarshalIndent] wrote (of plain trees well
    within the nesting the decoder allows, 10000), [strconv.ParseFloat] what [strconv.FormatFloat] wrote with the shortest representation, and
    [time.Time.UnmarshalJSON] the RFC 3339 text of [MarshalJSON]. *)
Class JsonTextLaws `{JsonText} := {
  json_text_law : forall j, plain_json 100 j = true -> json_parse (json_indent j) = Some j;
  float_text_law : forall x, f_canonical x = true -> parse_float (format_float x) = Some x;
  float_text_number : forall x, f_is_finite x = true -> json_number (format_float x) = true;
  time_text_law : forall t, time_marshals t = true -> parse_time (format_time t) = Some t;
  time_text_ascii : forall t, ascii_string (format_time t) = true
}.

(** ** Values *)

(** [strconv.FormatInt] and [strconv.ParseInt] in base 10, the latter on a JSON
    number literal. *)
Definition format_int (z : Z) : string := NilZero.string_of_int (Z.to_int z).
Definition parse_int (s : string) : option Z :=
  i ← NilZero.int_of_string s;
  let z := Z.of_int i in
  if ((min_int64 <=? z) && (z <=? max_int64))%Z then Some z else None.

(** How a Go value of type [A] is encoded ([None]: [UnsupportedValueError]), and how
    a JSON value is decoded into a variable that holds an [A]. *)
Record codec (A : Type) := { enc : A -> option json; dec : json -> A -> option A }.
Arguments enc {A}.
Arguments dec {A}.

Definition int64_codec : codec Z := {|
  enc := fun z => Some (JNumber (format_int z));
  dec := fun j z => match j with JNull => Some z | JNumber l => parse_int l | _ => None end
|}.

Definition string_codec : codec string := {|
  enc := fun s => Some (JString s);
  dec := fun j s => match j with JNull => Some s | JString t => Some t | _ => None end
|}.

(** [map[string]int64]: [None] is the nil map.  Keys are written in sorted order;
    decoding adds to the map that is there. *)
Fixpoint dec_members (kvs : list (string * json)) (m : gmap string Z) : option (gmap string Z) :=
  match kvs with
  | [] => Some m
  | (k, j) :: kvs => v ← dec int64_codec j 0%Z; dec_members kvs (<[k := v]> m)
  end.

Definition sorted_members (m : gmap string Z) : list (string * Z) :=
  sort_stable (fun a b => str_ltb a.1 b.1) (map_to_list m).

Definition counters_codec : codec (option (gmap string Z)) := {|
  enc := fun m =>
    match m with
    | None => Some JNull
    | Some m => Some (JObject ((fun kv => (kv.1, JNumber (format_int kv.2))) <$> sorted_members m))
    end;
  dec := fun j m =>
    match j with
    | JNull => Some None
    | JObject kvs => Some <$> dec_members kvs (default ∅ m)
    | _ => None
    end
|}.

(** A struct field with its tag. *)
Record field (R : Type) := {
  f_name : string;
  f_enc : R -> option json;
  f_dec : json -> R -> option R
}.
Arguments f_name {R}.
Arguments f_enc {R}.
Arguments f_dec {R}.

Definition tag {R A} (name : string) (proj : R -> A) `{!FieldSet proj} (c : codec A) : field R := {|
  f_name := name;
  f_enc := fun r => enc c (proj r);
  f_dec := fun j r => v ← dec c j (proj r); Some (r <| proj := v |>)
|}.

Fixpoint enc_fields {R} (fs : list (field R)) (r : R) : option (list (string * json)) :=
  match fs with
  | [] => Some []
  | f :: fs => j ← f_enc f r; kvs ← enc_fields fs r; Some ((f_name f, j) :: kvs)
  end.

(** A member is decoded into the field of that name, letter case ignored; members
    that name no field are skipped. *)
Fixpoint find_field {R} (fs : list (field R)) (key : string) : option (field R) :=
  match fs with
  | [] => None
  | f :: fs => if f_name f =s ToLower key then Some f else find_field fs key
  end.

Fixpoint dec_fields {R} (fs : list (field R)) (kvs : list (string * json)) (r : R) : option R :=
  match kvs with
  | [] => Some r
  | (k, j) :: kvs =>
      match find_field fs k with
      | None => dec_fields fs kvs r
      | Some f => r ← f_dec f j r; dec_fields fs kvs r
      end
  end.

Definition struct_codec {R} (fs : list (field R)) : codec R := {|
  enc := fun r => JObject <$> enc_fields fs r;
  dec := fun j r =>
    match j with
    | JNull => Some r
    | JObject kvs => dec_fields fs kvs r
    | _ => None
    end
|}.

(** ** The state *)

Record ServerState := { StartedAt : Z; Status : string }.

#[export] Instance eta_ServerState : Eta ServerState := fun s =>
  {| StartedAt := StartedAt s; Status := Status s |}.

Record RuntimeState := {
  ActiveWSConnections : Z;
  LastWSConnectUnix : Z;
  LastWSPingUnix : Z;
  LastWSPongUnix : Z;
  LastWSPingRTTMs : Z;
  LastWSHeartbeatUnix : Z;
  LastWSTimeoutUnix : Z;
  WSTimeoutCount : Z;
  WSDisconnectTotal : Z;
  WSDisconnectClose4009 : Z;
  WSDisconnectByReason : option (gmap string Z);
  SchedulerCycleCount : Z;
  SchedulerLastCandidateCount : Z;
  SchedulerLastRunUnix : Z;
  SchedulerLastAssignStatus : string;
  SchedulerAssignLatencyMs : f64;
  SchedulerScoreP50 : f64;
  SchedulerScoreP95 : f64;
  SchedulerAssignAttempts : option (gmap string Z);
  SchedulerResourceRejections : option (gmap string Z)
}.

#[export] Instance eta_RuntimeState : Eta RuntimeState := fun r =>
  {| ActiveWSConnections := ActiveWSConnections r; LastWSConnectUnix := LastWSConnectUnix r;
     LastWSPingUnix := LastWSPingUnix r; LastWSPongUnix := LastWSPongUnix r;
     LastWSPingRTTMs := LastWSPingRTTMs r; LastWSHeartbeatUnix := LastWSHeartbeatUnix r;
     LastWSTimeoutUnix := LastWSTimeoutUnix r; WSTimeoutCount := WSTimeoutCount r;
     WSDisconnectTotal := WSDisconnectTotal r; WSDisconnectClose4009 := WSDisconnectClose4009 r;
     WSDisconnectByReason := WSDisconnectByReason r; SchedulerCycleCount := SchedulerCycleCount r;
     SchedulerLastCandidateCount := SchedulerLastCandidateCount r;
     SchedulerLastRunUnix := SchedulerLastRunUnix r;
     SchedulerLastAssignStatus := SchedulerLastAssignStatus r;
     SchedulerAssignLatencyMs := SchedulerAssignLatencyMs r;
     SchedulerScoreP50 := SchedulerScoreP50 r; SchedulerScoreP95 := SchedulerScoreP95 r;
     SchedulerAssignAttempts := SchedulerAssignAttempts r;
     SchedulerResourceRejections := SchedulerResourceRejections r |}.

Record DaemonState := {
  Version : string;
  UpdatedAt : Z;
  Server : ServerState;
  Runtime : RuntimeState
}.

#[export] Instance eta_DaemonState : Eta DaemonState := fun s =>
  {| Version := Version s; UpdatedAt := UpdatedAt s; Server := Server s; Runtime := Runtime s |}.

(** The zero values of Go. *)
Definition zero_RuntimeState : RuntimeState :=
  {| ActiveWSConnections := 0; LastWSConnectUnix := 0; LastWSPingUnix := 0; LastWSPongUnix := 0;
     LastWSPingRTTMs := 0; LastWSHeartbeatUnix := 0; LastWSTimeoutUnix := 0; WSTimeoutCount := 0;
     WSDisconnectTotal := 0; WSDisconnectClose4009 := 0; WSDisconnectByReason := None;
     SchedulerCycleCount := 0; SchedulerLastCandidateCount := 0; SchedulerLastRunUnix := 0;
     SchedulerLastAssignStatus := ""; SchedulerAssignLatencyMs := f_zero; SchedulerScoreP50 := f_zero;
     SchedulerScoreP95 := f_zero; SchedulerAssignAttempts := None;
     SchedulerResourceRejections := None |}.

Definition zero_DaemonState : DaemonState :=
  {| Version := ""; UpdatedAt := time_zero;
     Server := {| StartedAt := time_zero; Status := "" |}; Runtime := zero_RuntimeState |}.

Definition NewDaemonState (now : Z) : DaemonState :=
  {| Version := "1.0"; UpdatedAt := now;
     Server := {| StartedAt := now; Status := "starting" |};
     Runtime := zero_RuntimeState <| WSDisconnectByReason := Some ∅ |>
                  <| SchedulerAssignAttempts := Some ∅ |>
                  <| SchedulerResourceRejections := Some ∅ |> |}.

Section format.
Context `{!JsonText}.

Definition float_codec : codec f64 := {|
  enc := fun x => if f_is_finite x then Some (JNumber (format_float x)) else None;
  dec := fun j x => match j with JNull => Some x | JNumber l => parse_float l | _ => None end
|}.

Definition time_codec : codec Z := {|
  enc := fun t => if time_marshals t then Some (JString (format_time t)) else None;
  dec := fun j t => match j with JNull => Some t | JString s => parse_time s | _ => None end
|}.

Definition server_fields : list (field ServerState) :=
  [tag "started_at" StartedAt time_codec; tag "status" Status string_codec].

Definition runtime_fields : list (field RuntimeState) :=
  [tag "active_ws_connections" ActiveWSConnections int64_codec;
   tag "last_ws_connect_unix" LastWSConnectUnix int64_codec;
   tag "last_ws_ping_unix" LastWSPingUnix int64_codec;
   tag "last_ws_pong_unix" LastWSPongUnix int64_codec;
   tag "last_ws_ping_rtt_ms" LastWSPingRTTMs int64_codec;
   tag "last_ws_heartbeat_unix" LastWSHeartbeatUnix int64_codec;
   tag "last_ws_timeout_unix" LastWSTimeoutUnix int64_codec;
   tag "ws_timeout_count" WSTimeoutCount int64_codec;
   tag "ws_disconnect_total" WSDisconnectTotal int64_codec;
   tag "ws_disconnect_close_4009" WSDisconnectClose4009 int64_codec;
   tag "ws_disconnect_by_reason" WSDisconnectByReason counters_codec;
   tag "scheduler_cycle_count" SchedulerCycleCount int64_codec;
   tag "scheduler_last_candidate_count" SchedulerLastCandidateCount int64_codec;
   tag "scheduler_last_run_unix" SchedulerLastRunUnix int64_codec;
   tag "scheduler_last_assign_status" SchedulerLastAssignStatus string_codec;
   tag "scheduler_assign_latency_ms" SchedulerAssignLatencyMs float_codec;
   tag "scheduler_score_p50" SchedulerScoreP50 float_codec;
   tag "scheduler_score_p95" SchedulerScoreP95 float_codec;
   tag "scheduler_assign_attempts" SchedulerAssignAttempts counters_codec;
   tag "scheduler_resource_rejections" SchedulerResourceRejections counters_codec].

Definition state_fields : list (field DaemonState) :=
  [tag "version" Version string_codec;
   tag "updated_at" UpdatedAt time_codec;
   tag "server" Server (struct_codec server_fields);
   tag "runtime" Runtime (struct_codec runtime_fields)].

(** [json.MarshalIndent(state, "", "  ")] and [json.Unmarshal] into a zero
    [DaemonState]; [None] is an error. *)
Definition marshal_state (s : DaemonState) : option string :=
  json_indent <$> enc (struct_codec state_fields) s.

Definition unmarshal_state (data : string) : option DaemonState :=
  j ← json_parse data; dec (struct_codec state_fields) j zero_DaemonState.
End format.
Arguments marshal_state : simpl never.
Arguments unmarshal_state : simpl never.

(** ** Round trip *)

Lemma parse_format_int z : in_int64 z -> parse_int (format_int z) = Some z.
Proof.
  intros [? ?]. unfold parse_int, format_int. rewrite NilZero.isi.
  - cbn. rewrite DecimalZ.of_to.
    rewrite (proj2 (Z.leb_le min_int64 z)), (proj2 (Z.leb_le z max_int64)) by done. done.
  - destruct z; cbn; try done. intros [= Hp]. by apply DecimalPos.Unsigned.to_uint_nonnil in Hp.
  - destruct z; cbn; try done. intros [= Hp]. by apply DecimalPos.Unsigned.to_uint_nonnil in Hp.
Qed.

Lemma ascii_uint d : ascii_string (NilEmpty.string_of_uint d) = true.
Proof. by induction d. Qed.

Lemma skip_digits_uint d : skip_digits (NilEmpty.string_of_uint d) = "".
Proof. by induction d. Qed.

Lemma to_uint_no_leading_zero p d : Pos.to_uint p <> Decimal.D0 d.
Proof.
  intros E. pose proof (DecimalN.Unsigned.to_of (Pos.to_uint p)) as H.
  unfold N.of_uint in H. rewrite DecimalPos.Unsigned.of_to in H. cbn [N.to_uint] in H.
  rewrite E in H. unfold Decimal.unorm in H. cbn [Decimal.nzhead] in H.
  pose proof (DecimalPos.Unsigned.to_uint_nonzero p) as Hz.
  destruct (Decimal.nzhead d) eqn:En; try discriminate H.
  - by rewrite E, H in Hz.
  - by apply DecimalFacts.nzhead_nonzero in En.
Qed.

(** The decimal digits of a positive number are a number literal. *)
Lemma json_number_pos p : json_number (NilEmpty.string_of_uint (Pos.to_uint p)) = true.
Proof.
  pose proof (DecimalPos.Unsigned.to_uint_nonnil p) as Hn.
  pose proof (to_uint_no_leading_zero p) as Hz.
  destruct (Pos.to_uint p) as [|d|d|d|d|d|d|d|d|d|d]; [done|by destruct (Hz d)|..];
    cbn [NilEmpty.string_of_uint]; unfold json_number; cbn; by rewrite skip_digits_uint.
Qed.

Lemma json_number_format_int z : json_number (format_int z) = true.
Proof.
  unfold format_int, NilZero.string_of_int, NilZero.string_of_uint.
  destruct z as [|p|p]; cbn [Z.to_int]; [done|..];
    pose proof (json_number_pos p) as Hp;
    pose proof (DecimalPos.Unsigned.to_uint_nonnil p) as Hn;
    destruct (Pos.to_uint p) as [|d|d|d|d|d|d|d|d|d|d]; try done.
Qed.

(** What is encoded from [a] is plain, [d] deep at most, and is decoded as [a] again,
    into a variable that holds [zero]. *)
Definition round_trips (d : nat) {A} (c : codec A) (zero a : A) : Prop :=
  forall j, enc c a = Some j -> plain_json d j = true /\ dec c j zero = Some a.

Lemma int64_round_trips d b z : in_int64 z -> round_trips d int64_codec b z.
Proof. intros Hz j [= <-]. split; [by destruct d; apply json_number_format_int|by apply parse_format_int]. Qed.

Lemma string_round_trips d b s : ascii_string s = true -> round_trips d string_codec b s.
Proof. intros Hs j [= <-]. by destruct d. Qed.

(** The counters of a map: ASCII keys and [int64] values. *)
Definition counters_text (m : option (gmap string Z)) : Prop :=
  map_Forall (fun k v => ascii_string k = true /\ in_int64 v) (default ∅ m).

Lemma sorted_members_Permutation m : sorted_members m ≡ₚ map_to_list m.
Proof. apply sort_stable_Permutation. Qed.

Lemma dec_members_enc l m :
  NoDup l.*1 -> Forall (fun kv => m !! kv.1 = None /\ in_int64 kv.2) l ->
  dec_members ((fun kv : string * Z => (kv.1, JNumber (format_int kv.2))) <$> l) m =
  Some (list_to_map l ∪ m).
Proof.
  revert m. induction l as [|[k v] l IH]; intros m Hnd Hl; cbn.
  { by rewrite map_empty_union. }
  inversion Hnd as [|? ? Hk Hnd']; subst. inversion Hl as [|? ? [Hm Hv] Hl']; subst; cbn in *.
  rewrite parse_format_int by done. cbn. rewrite IH; [|done|].
  - f_equal. rewrite <- insert_union_r; [by rewrite insert_union_l|].
    by apply not_elem_of_list_to_map_1.
  - rewrite Forall_forall in *. intros [k' v'] Hkv. destruct (Hl' _ Hkv). split; [|done]. cbn in *.
    rewrite lookup_insert_ne; [done|]. intros ->. apply Hk. by apply (list_elem_of_fmap_2 fst _ (k', v')).
Qed.

Lemma counters_round_trips d m : counters_text m -> round_trips (S d) counters_codec None m.
Proof.
  intros Hm j. destruct m as [m|]; cbn; intros [= <-]; [|done].
  assert (Hall : Forall (fun kv : string * Z => ascii_string kv.1 = true /\ in_int64 kv.2) (sorted_members m)).
  { rewrite sorted_members_Permutation. apply map_Forall_to_list in Hm.
    eapply Forall_impl; [exact Hm|]. by intros []. }
  split.
  - cbn [plain_json]. clear -Hall. induction Hall as [|[k v] l [Hk _] _ IH]; [done|].
    cbn [forallb fmap list_fmap fst snd] in *. rewrite Hk. cbn [andb].
    apply andb_true_intro. split; [destruct d; apply json_number_format_int|exact IH].
  - cbn. rewrite dec_members_enc; cbn.
    + f_equal. f_equal. rewrite map_union_empty.
      rewrite (list_to_map_proper _ (map_to_list m)), list_to_map_to_list; [done| |].
      * rewrite sorted_members_Permutation. apply NoDup_fst_map_to_list.
      * apply sorted_members_Permutation.
    + rewrite sorted_members_Permutation. apply NoDup_fst_map_to_list.
    + eapply Forall_impl; [exact Hall|]. intros [k v] [_ Hv]. by rewrite lookup_empty.
Qed.

Section struct.
Context {R : Type}.

Lemma enc_fields_cons (f : field R) fs r kvs :
  enc_fields (f :: fs) r = Some kvs ->
  exists j kvs', f_enc f r = Some j /\ enc_fields fs r = Some kvs' /\ kvs = (f_name f, j) :: kvs'.
Proof. cbn. intros (j & ? & (k & ? & [= <-])%bind_Some)%bind_Some. eauto. Qed.

Lemma find_field_here (f : field R) fs key :
  (f_name f =s ToLower key) = true -> find_field (f :: fs) key = Some f.
Proof. cbn. by intros ->. Qed.

Lemma find_field_next (f : field R) fs key x :
  (f_name f =s ToLower key) = false -> find_field fs key = x -> find_field (f :: fs) key = x.
Proof. cbn. by intros ->. Qed.

(** One member decoded: the rest of the object is decoded into the record updated. *)
Lemma dec_fields_cons (fs : list (field R)) f name j kvs r r' x :
  find_field fs name = Some f -> f_dec f j r = Some r' ->
  dec_fields fs kvs r' = x -> dec_fields fs ((name, j) :: kvs) r = x.
Proof. intros Hf Hd <-. cbn. rewrite Hf. cbn. by rewrite Hd. Qed.

(** The field of a round-tripping component that is still zero. *)
Lemma tag_round_trips d {A} name (proj : R -> A) `{!FieldSet proj} (c : codec A) zero r0 r j :
  round_trips d c zero (proj r) -> f_enc (tag name proj c) r = Some j -> proj r0 = zero ->
  f_dec (tag name proj c) j r0 = Some (r0 <| proj := proj r |>).
Proof. intros Hc Hj Hz. cbn. by rewrite Hz, (proj2 (Hc j Hj)). Qed.
End struct.

(** [struct_round_trip] reads the members one by one, with the round trips of the
    fields' codecs from the context. *)
Ltac struct_encoded H :=
  repeat (apply enc_fields_cons in H as (? & ? & ? & H & ->)); injection H as <-.

Ltac struct_decoded :=
  repeat (eapply dec_fields_cons;
          [repeat first [eapply find_field_here; reflexivity | eapply find_field_next; [reflexivity|]]
          |match goal with
           | Hr : round_trips _ ?c _ (?p ?r), He : f_enc (tag _ ?p ?c) ?r = Some ?j
             |- f_dec (tag _ ?p ?c) ?j _ = _ => eapply tag_round_trips; [exact Hr|exact He|reflexivity]
           end
          |]).

Ltac struct_ascii :=
  cbn [plain_json forallb fst snd f_name tag];
  repeat match goal with
  | Hr : round_trips _ ?c _ _, He : f_enc (tag _ _ ?c) _ = Some ?j |- context [plain_json _ ?j] =>
      rewrite (proj1 (Hr _ He))
  end; reflexivity.

Section state_round_trip.
Context `{!JsonText} `{!JsonTextLaws}.

Lemma float_round_trips d b x : f_canonical x = true -> round_trips d float_codec b x.
Proof.
  intros Hx j. cbn. destruct (f_is_finite x) eqn:Hf; [|done]. intros [= <-].
  split; [destruct d; by apply float_text_number|by apply float_text_law].
Qed.

Lemma time_round_trips d b t : round_trips d time_codec b t.
Proof.
  intros j. cbn. destruct (time_marshals t) eqn:Ht; [|done]. intros [= <-].
  split; [destruct d; apply time_text_ascii|by apply time_text_law].
Qed.

(** States the file format represents faithfully: 64-bit counters, ASCII text,
    canonical floating point numbers. *)
Record runtime_text (r : RuntimeState) : Prop := {
  rt_ints : Forall in_int64
    [ActiveWSConnections r; LastWSConnectUnix r; LastWSPingUnix r; LastWSPongUnix r; LastWSPingRTTMs r;
     LastWSHeartbeatUnix r; LastWSTimeoutUnix r; WSTimeoutCount r; WSDisconnectTotal r;
     WSDisconnectClose4009 r; SchedulerCycleCount r; SchedulerLastCandidateCount r;
     SchedulerLastRunUnix r];
  rt_floats : Forall (fun x => f_canonical x = true)
    [SchedulerAssignLatencyMs r; SchedulerScoreP50 r; SchedulerScoreP95 r];
  rt_maps : Forall counters_text
    [WSDisconnectByReason r; SchedulerAssignAttempts r; SchedulerResourceRejections r];
  rt_status : ascii_string (SchedulerLastAssignStatus r) = true
}.

Lemma runtime_round_trips d r :
  runtime_text r -> round_trips (S (S d)) (struct_codec runtime_fields) zero_RuntimeState r.
Proof.
  intros [Hi Hf Hm Hs] j. cbn [enc dec struct_codec]. intros (kvs & Hk & ->)%fmap_Some.
  repeat match goal with H : Forall _ (_ :: _) |- _ => apply Forall_cons in H as [? H] end.
  repeat match goal with
  | H : in_int64 ?x |- _ => apply (int64_round_trips (S d) 0%Z) in H
  | H : f_canonical _ = true |- _ => apply (float_round_trips (S d) f_zero) in H
  | H : counters_text _ |- _ => apply (counters_round_trips d) in H
  | H : ascii_string _ = true |- _ => apply (string_round_trips (S d) "") in H
  end.
  unfold runtime_fields in Hk at 1. struct_encoded Hk. split; [struct_ascii|].
  cbn [f_name tag]. unfold runtime_fields. struct_decoded. by destruct r.
Qed.

Record state_text (s : DaemonState) : Prop := {
  st_version : ascii_string (Version s) = true;
  st_status : ascii_string (Status (Server s)) = true;
  st_runtime : runtime_text (Runtime s)
}.

Lemma server_round_trips d s :
  ascii_string (Status s) = true ->
  round_trips (S d) (struct_codec server_fields) {| StartedAt := time_zero; Status := "" |} s.
Proof.
  intros Hs j. cbn [enc dec struct_codec]. intros (kvs & Hk & ->)%fmap_Some.
  pose proof (time_round_trips d time_zero (StartedAt s)). apply (string_round_trips d "") in Hs.
  unfold server_fields in Hk at 1. struct_encoded Hk. split; [struct_ascii|].
  cbn [f_name tag]. unfold server_fields. struct_decoded. by destruct s.
Qed.

Lemma state_round_trips d s :
  state_text s -> round_trips (S (S (S d))) (struct_codec state_fields) zero_DaemonState s.
Proof.
  intros [Hv Hs Hr] j. cbn [enc dec struct_codec]. intros (kvs & Hk & ->)%fmap_Some.
  pose proof (time_round_trips (S (S d)) time_zero (UpdatedAt s)). apply (string_round_trips (S (S d)) "") in Hv.
  apply (server_round_trips (S d)) in Hs. apply (runtime_round_trips d) in Hr.
  unfold state_fields in Hk at 1. struct_encoded Hk. split; [struct_ascii|].
  cbn [f_name tag]. unfold state_fields. struct_decoded. by destruct s.
Qed.

Lemma unmarshal_marshal s data :
  state_text s -> marshal_state s = Some data -> unmarshal_state data = Some s.
Proof.
  intros Hs (j & Hj & ->)%fmap_Some. destruct (state_round_trips 97 s Hs j Hj) as [Ha Hd].
  unfold unmarshal_state. by rewrite json_text_law.
Qed.
End state_round_trip.
