(* ===== verification/FileSys.v ===== *)
(** * Files and paths

    What the sources use of the [os] and [path/filepath] packages: a disk maps clean
    path names to contents, every system call may fail as the environment decides,
    and the disk states a call passes through are recorded, because a crash may
    stop the program in any of them.  [filepath.Clean], [Join] and [Dir] are the Unix
    ones.  [filepath.Glob] reports malformed patterns, is silent about directory reads
    that fail ([io_unread]), and leaves the meaning of pattern characters in the
    directory part to [glob_dirs].  The file also holds the time stamp format of the
    backup names. *)

From S2P Require Import Prelude.

(** ** Paths *)

Definition slash : ascii := "/"%char.

(** [strings.Split(s, "/")]. *)
Fixpoint split_slash (s : string) : list string :=
  match s with
  | EmptyString => [EmptyString]
  | String c s' =>
      if Ascii.eqb c slash then EmptyString :: split_slash s'
      else match split_slash s' with
           | p :: ps => String c p :: ps
           | [] => []
           end
  end.

(** One path element; [acc] holds the elements kept so far, last first. *)
Definition clean_step (rooted : bool) (acc : list string) (p : string) : list string :=
  if str_empty p || (p =s ".") then acc
  else if p =s ".." then
    match acc with
    | q :: acc' => if q =s ".." then p :: acc else acc'
    | [] => if rooted then [] else [p]
    end
  else p :: acc.

Definition clean_elements (rooted : bool) (ps : list string) : list string :=
  rev (foldl (clean_step rooted) [] ps).

Definition render_path (rooted : bool) (ps : list string) : string :=
  if rooted then "/" +:+ String.concat "/" ps
  else match ps with [] => "." | _ => String.concat "/" ps end.

Definition Clean (s : string) : string :=
  if str_empty s then "."
  else
    let rooted := HasPrefix s "/" in
    render_path rooted (clean_elements rooted (split_slash s)).

(** [filepath.Join(dir, name)]: empty elements are ignored. *)
Definition Join (dir name : string) : string :=
  if str_empty dir then (if str_empty name then "" else Clean name)
  else if str_empty name then Clean dir
  else Clean (dir +:+ "/" +:+ name).

(** The last element of a path, and [filepath.Dir]: the rest, cleaned. *)
Definition last_element (s : string) : string := List.last (split_slash s) "".
Definition Dir (s : string) : string :=
  Clean (String.substring 0 (String.length s - String.length (last_element s)) s).

Example clean_examples :
  (Clean "a/./b//../c", Clean "/../x", Clean "../..", Clean "./", Dir "state/daemon.json", Dir "daemon.json",
   Dir "/x", Join "state" "backups", Join "." "backups", Join "/" "x")
  = ("a/c", "/x", "../..", ".", "state", ".", "/", "state/backups", "backups", "/x").
Proof. reflexivity. Qed.

(** ** The file system *)

Abbreviation disk := (gmap string string).

(** A failing call: [fail_after = None] before it did anything, [Some k] after [k]
    bytes were written. *)
Record io_failure := { fail_after : option nat; fail_err : go_error }.

(** [io_fault n] decides the [n]-th system call, [now_at n] is the [n]-th reading of
    the clock.  [io_unread n path]: the directory reads of a [Glob] that is the [n]-th
    call miss the file [path], because one of them fails.  [glob_dirs] is what the
    elements of a directory pattern match, as [filepath.Match] reads them; [None] is
    [filepath.ErrBadPattern]. *)
Class OsEnv := {
  io_fault : nat -> option io_failure;
  io_unread : nat -> string -> bool;
  glob_dirs : string -> option (string -> bool);
  now_at : nat -> Z
}.

Record os_state := {
  files : disk;
  history : list disk;
  io_calls : nat;
  clock_calls : nat
}.

#[export] Instance eta_os_state : Eta os_state := fun o =>
  {| files := files o; history := history o; io_calls := io_calls o; clock_calls := clock_calls o |}.

(** The disk states while a file is written: truncated, then longer and longer. *)
Definition prefixes (data : string) : list string :=
  (fun n => String.substring 0 n data) <$> seq 0 (S (String.length data)).

Definition put_file (path data : string) (o : os_state) : os_state :=
  o <| history ::= fun h => h ++ ((fun p => <[path := p]> (files o)) <$> prefixes data) |>
    <| files ::= <[path := data]> |>.

Definition put_disk (d : disk) (o : os_state) : os_state :=
  o <| history ::= fun h => h ++ [d] |> <| files := d |>.

Section os.
Context `{!OsEnv}.

Definition next_fault (o : os_state) : option io_failure * os_state :=
  (io_fault (io_calls o), o <| io_calls ::= S |>).

Definition time_now (o : os_state) : Z * os_state :=
  (now_at (clock_calls o), o <| clock_calls ::= S |>).

Definition os_MkdirAll (dir : string) (o : os_state) : option go_error * os_state :=
  let '(f, o) := next_fault o in (fail_err <$> f, o).

Definition os_WriteFile (path data : string) (o : os_state) : option go_error * os_state :=
  let '(f, o) := next_fault o in
  match f with
  | None => (None, put_file path data o)
  | Some f =>
      (Some (fail_err f),
       match fail_after f with
       | None => o
       | Some k => put_file path (String.substring 0 k data) o
       end)
  end.

Definition os_Rename (old new : string) (o : os_state) : option go_error * os_state :=
  let '(f, o) := next_fault o in
  match f, files o !! old with
  | Some f, _ => (Some (fail_err f), o)
  | None, None => (Some (ESentinel OsErrNotExist), o)
  | None, Some data => (None, put_disk (<[new := data]> (delete old (files o))) o)
  end.

Definition os_ReadFile (path : string) (o : os_state) : res string * os_state :=
  let '(f, o) := next_fault o in
  match f, files o !! path with
  | Some f, _ => (Err (fail_err f), o)
  | None, None => (Err (ESentinel OsErrNotExist), o)
  | None, Some data => (Ok data, o)
  end.

Definition os_Remove (path : string) (o : os_state) : option go_error * os_state :=
  let '(f, o) := next_fault o in
  match f, files o !! path with
  | Some f, _ => (Some (fail_err f), o)
  | None, None => (Some (ESentinel OsErrNotExist), o)
  | None, Some _ => (None, put_disk (delete path (files o)) o)
  end.
End os.
Arguments os_MkdirAll : simpl never.
Arguments os_WriteFile : simpl never.
Arguments os_Rename : simpl never.
Arguments os_ReadFile : simpl never.
Arguments os_Remove : simpl never.

(** ** Listing files *)

(** [hasMeta]: the pattern characters of [filepath.Match] on Unix. *)
Fixpoint has_magic (s : string) : bool :=
  match s with
  | EmptyString => false
  | String c s' => (byte_code c =? 42)%Z || (byte_code c =? 63)%Z || (byte_code c =? 91)%Z
                   || (byte_code c =? 92)%Z || has_magic s'
  end.

Example has_magic_examples :
  (has_magic "a*b", has_magic "?", has_magic "x[y]", has_magic (String "\"%char "z"), has_magic "state/backups")
  = (true, true, true, true, false).
Proof. reflexivity. Qed.

Section glob.
Context `{!OsEnv}.

(** The files [filepath.Join(dir, prefix+"*")] matches; [prefix] has no pattern
    characters, but the directory may have some. *)
Definition in_glob (dir prefix path : string) : bool :=
  HasPrefix (last_element path) prefix &&
  (if has_magic (Clean dir)
   then match glob_dirs (Clean dir) with Some f => f (Dir path) | None => false end
   else Join dir (last_element path) =s path).

Definition glob_files (dir prefix : string) (d : disk) : list string :=
  filter (fun path => in_glob dir prefix path = true) (elements (dom d)).

(** [filepath.Glob(filepath.Join(dir, prefix+"*"))]: an error is a bad pattern; what a
    failing directory read does not deliver is silently missing. *)
Definition Glob (dir prefix : string) (o : os_state) : res (list string) * os_state :=
  (if has_magic (Clean dir) && bool_decide (glob_dirs (Clean dir) = None)
   then Err (ENew "syntax error in pattern")
   else Ok (filter (fun path => io_unread (io_calls o) path = false) (glob_files dir prefix (files o))),
   o <| io_calls ::= S |>).
End glob.
Arguments Glob : simpl never.

(** ** Calendar *)

(** The year and the day of that year (from 0) of a day counted from 1970-01-01:
    whole 400-, 100-, 4- and 1-year cycles since January 1 of year 1. *)
Definition year_day (days : Z) : Z * Z :=
  (let z := days + 719162 in
   let n400 := z / 146097 in
   let d := z mod 146097 in
   let n100 := (d / 36524) `min` 3 in
   let d := d - 36524 * n100 in
   let n4 := d / 1461 in
   let d := d mod 1461 in
   let n1 := (d / 365) `min` 3 in
   (400 * n400 + 100 * n100 + 4 * n4 + n1 + 1, d - 365 * n1))%Z.

Definition is_leap (y : Z) : bool :=
  ((y mod 4 =? 0) && (negb (y mod 100 =? 0) || (y mod 400 =? 0)))%Z.

Definition month_lengths (leap : bool) : list Z :=
  [31; if leap then 29 else 28; 31; 30; 31; 30; 31; 31; 30; 31; 30; 31]%Z.

(** The month and the day of the month of the [yday]-th day of a year. *)
Fixpoint month_day (lengths : list Z) (m yday : Z) : Z * Z :=
  match lengths with
  | [] => (m, yday + 1)%Z
  | l :: lengths => if (yday <? l)%Z then (m, yday + 1)%Z else month_day lengths (m + 1)%Z (yday - l)%Z
  end.

Definition civil_of_days (days : Z) : Z * Z * Z :=
  let '(y, yday) := year_day days in
  let '(m, d) := month_day (month_lengths (is_leap y)) 1 yday in
  (y, m, d).

Definition digit (z : Z) : ascii := ascii_of_nat (48 + Z.to_nat (z mod 10)).

(** [n] decimal digits. *)
Fixpoint pad (n : nat) (z : Z) : string :=
  match n with
  | O => ""
  | S n => pad n (z / 10) +:+ String (digit z) ""
  end.

(** [t.Format("20060102_150405")], for the years 0 to 9999. *)
Definition stamp_of (t : Z) : string :=
  let s := time_unix t in
  let '(y, m, d) := civil_of_days (s / 86400) in
  let r := (s mod 86400)%Z in
  pad 4 y +:+ pad 2 m +:+ pad 2 d +:+ "_" +:+
  pad 2 (r / 3600) +:+ pad 2 (r / 60 mod 60) +:+ pad 2 (r mod 60).

Example stamp_example : stamp_of (1700000000 * Second)%Z = "20231114_221320".
Proof. reflexivity. Qed.
Example stamp_leap : stamp_of (951782400 * Second)%Z = "20000229_000000".
Proof. reflexivity. Qed.

(** ** Facts about time stamps *)

Lemma str_compare_app p q x y :
  String.length p = String.length q ->
  str_compare (p +:+ x) (q +:+ y) =
  match str_compare p q with Eq => str_compare x y | c => c end.
Proof.
  revert q. induction p as [|a p IH]; intros [|b q]; try done.
  intros [= H]. specialize (IH q H). rewrite !str_app_cons. cbn. destruct (byte_code a ?= byte_code b)%Z; done.
Qed.

Lemma length_pad n z : String.length (pad n z) = n.
Proof. revert z. induction n; intros z; cbn [pad]; [done|]. rewrite length_str_app, IHn. cbn. lia. Qed.

Lemma digit_compare a b :
  (byte_code (digit a) ?= byte_code (digit b))%Z = (a mod 10 ?= b mod 10)%Z.
Proof.
  assert (H : forall z, byte_code (digit z) = (48 + z mod 10)%Z).
  { intros z. unfold digit, byte_code. pose proof (Z.mod_pos_bound z 10 ltac:(lia)).
    rewrite nat_ascii_embedding; lia. }
  rewrite !H. apply Z.add_compare_mono_l.
Qed.

(** Numbers of the same width compare as their values. *)
Lemma pad_compare n a b :
  (0 <= a < 10 ^ Z.of_nat n)%Z -> (0 <= b < 10 ^ Z.of_nat n)%Z ->
  str_compare (pad n a) (pad n b) = (a ?= b)%Z.
Proof.
  revert a b. induction n as [|n IH]; intros a b Ha Hb.
  { cbn in Ha, Hb. cbn. symmetry. apply Z.compare_eq_iff. lia. }
  rewrite Nat2Z.inj_succ, Z.pow_succ_r in Ha, Hb by lia.
  cbn [pad]. rewrite str_compare_app by by rewrite !length_pad.
  rewrite IH by (Z.to_euclidean_division_equations; lia).
  cbn [str_compare]. rewrite digit_compare.
  destruct (Z.compare_spec (a / 10) (b / 10)) as [H|H|H];
    [destruct (Z.compare_spec (a mod 10) (b mod 10)) as [H'|H'|H']| |];
    symmetry; (apply Z.compare_eq_iff || apply Z.compare_lt_iff || apply Z.compare_gt_iff);
    Z.to_euclidean_division_equations; lia.
Qed.

(** The number [k] digits on the right of [a]. *)
Lemma pad_app n k a b :
  (0 <= b < 10 ^ Z.of_nat k)%Z -> pad n a +:+ pad k b = pad (n + k) (a * 10 ^ Z.of_nat k + b).
Proof.
  revert b. induction k as [|k IH]; intros b Hb.
  { cbn in *. rewrite Nat.add_0_r, str_app_nil. f_equal. lia. }
  rewrite Nat2Z.inj_succ, Z.pow_succ_r in Hb |- * by lia.
  rewrite Nat.add_succ_r. cbn [pad]. rewrite str_app_assoc, IH by (Z.to_euclidean_division_equations; lia).
  f_equal; [f_equal; Z.to_euclidean_division_equations; lia|].
  f_equal. unfold digit. do 3 f_equal. Z.to_euclidean_division_equations; lia.
Qed.

(** The date as one number, and the time of day. *)
Definition date_code (days : Z) : Z :=
  let '(y, m, d) := civil_of_days days in (y * 10000 + m * 100 + d)%Z.

Definition month_day_code (leap : bool) (yday : Z) : Z :=
  let '(m, d) := month_day (month_lengths leap) 1 yday in (m * 100 + d)%Z.

Lemma month_day_range leap yday :
  (0 <= yday <= 365)%Z ->
  let '(m, d) := month_day (month_lengths leap) 1 yday in (1 <= m <= 13 /\ 1 <= d <= 31)%Z.
Proof. intros H. destruct leap; cbn; repeat case_match; simplify_eq; lia. Qed.

Lemma month_day_mono leap a b :
  (0 <= a)%Z -> (a < b)%Z -> (b <= 365)%Z -> (month_day_code leap a < month_day_code leap b)%Z.
Proof.
  intros. unfold month_day_code. destruct leap; cbn;
    repeat match goal with |- context [(?x <? ?y)%Z] => destruct (Z.ltb_spec x y); try lia end.
Qed.

Lemma year_day_range days : (0 <= (year_day days).2 <= 365)%Z.
Proof. cbn. Z.to_euclidean_division_equations; lia. Qed.

(** Days in order have years in order, and days of one year in order. *)
Lemma year_day_mono a b :
  (a < b)%Z ->
  ((year_day a).1 < (year_day b).1 \/
   (year_day a).1 = (year_day b).1 /\ (year_day a).2 < (year_day b).2)%Z.
Proof.
  intros H. unfold year_day. cbn [fst snd].
  set (x := (a + 719162)%Z). set (y := (b + 719162)%Z). assert (Hxy : (x < y)%Z) by lia.
  clearbody x y. clear a b H.
  assert (Hq : (x / 146097 < y / 146097 \/ x / 146097 = y / 146097 /\ x mod 146097 < y mod 146097)%Z)
    by (Z.to_euclidean_division_equations; lia).
  assert (Hx := Z.mod_pos_bound x 146097 ltac:(lia)).
  assert (Hy := Z.mod_pos_bound y 146097 ltac:(lia)).
  set (q := (x / 146097)%Z) in *. set (q' := (y / 146097)%Z) in *.
  set (d := (x mod 146097)%Z) in *. set (d' := (y mod 146097)%Z) in *.
  clearbody q q' d d'. clear Hxy x y.
  Z.to_euclidean_division_equations; lia.
Qed.

Lemma date_code_mono a b : (a < b)%Z -> (date_code a < date_code b)%Z.
Proof.
  intros H. destruct (year_day_mono a b H) as [Hy|[Hy Hd]];
    pose proof (year_day_range a) as Ha; pose proof (year_day_range b) as Hb;
    unfold date_code, civil_of_days;
    destruct (year_day a) as [ya da], (year_day b) as [yb db]; cbn [fst snd] in *.
  - pose proof (month_day_range (is_leap ya) da Ha). pose proof (month_day_range (is_leap yb) db Hb).
    destruct (month_day (month_lengths (is_leap ya)) 1 da), (month_day (month_lengths (is_leap yb)) 1 db). lia.
  - subst yb. pose proof (month_day_mono (is_leap ya) da db ltac:(lia) Hd ltac:(lia)) as Hm.
    unfold month_day_code in Hm.
    destruct (month_day (month_lengths (is_leap ya)) 1 da), (month_day (month_lengths (is_leap ya)) 1 db). lia.
Qed.

(** Times the format shows with a four-digit year: from 1970 to the end of 9999. *)
Definition stampable (t : Z) : Prop := (0 <= t < 253402300800 * Second)%Z.

Lemma year_range days : (0 <= days < 2932897)%Z -> (0 <= (year_day days).1 <= 9999)%Z.
Proof. intros H. cbn. Z.to_euclidean_division_equations; lia. Qed.

Lemma date_code_pad days :
  (0 <= days < 2932897)%Z ->
  (let '(y, m, d) := civil_of_days days in pad 4 y +:+ pad 2 m +:+ pad 2 d) = pad 8 (date_code days) /\
  (0 <= date_code days < 100000000)%Z.
Proof.
  intros H. pose proof (year_range days H) as Hy. pose proof (year_day_range days) as Hd.
  unfold date_code, civil_of_days. destruct (year_day days) as [y yd]; cbn [fst snd] in *.
  pose proof (month_day_range (is_leap y) yd Hd) as Hm.
  destruct (month_day (month_lengths (is_leap y)) 1 yd) as [m d].
  rewrite !pad_app by (cbn; lia). split; [|lia].
  change (pad (4 + (2 + 2))) with (pad 8). f_equal. cbn. lia.
Qed.

Definition seconds_code (r : Z) : Z := (r / 3600 * 10000 + r / 60 mod 60 * 100 + r mod 60)%Z.

Lemma stamp_pad t :
  stampable t ->
  let s := time_unix t in
  stamp_of t = pad 8 (date_code (s / 86400)) +:+ "_" +:+ pad 6 (seconds_code (s mod 86400)) /\
  (0 <= date_code (s / 86400) < 100000000)%Z /\
  (0 <= seconds_code (s mod 86400) < 1000000)%Z.
Proof.
  intros Ht s. unfold stampable, Second in Ht.
  assert (Hs : (0 <= s < 253402300800)%Z) by (subst s; unfold time_unix, Second; Z.to_euclidean_division_equations; lia).
  assert (Hd : (0 <= s / 86400 < 2932897)%Z) by (Z.to_euclidean_division_equations; lia).
  assert (Hr : (0 <= s mod 86400 < 86400)%Z) by (apply Z.mod_pos_bound; lia).
  destruct (date_code_pad (s / 86400) Hd) as [Hp Hb].
  unfold stamp_of. fold s. destruct (civil_of_days (s / 86400)) as [[y m] d].
  unfold seconds_code. set (r := (s mod 86400)%Z) in *. clearbody r s. clear Hs Hd Ht. split_and!.
  - rewrite <- Hp, <- !str_app_assoc. do 4 f_equal.
    rewrite !pad_app by (cbn; Z.to_euclidean_division_equations; lia).
    change (pad (2 + (2 + 2))) with (pad 6). f_equal. cbn. lia.
  - apply Hb.
  - apply Hb.
  - Z.to_euclidean_division_equations; lia.
  - Z.to_euclidean_division_equations; lia.
Qed.

(** The stamps of later seconds sort after the stamps of earlier ones. *)
Lemma stamp_of_mono t u :
  stampable t -> stampable u -> (time_unix t < time_unix u)%Z -> str_ltb (stamp_of t) (stamp_of u) = true.
Proof.
  intros Ht Hu Hlt.
  destruct (stamp_pad t Ht) as (-> & Hd & Hr), (stamp_pad u Hu) as (-> & Hd' & Hr').
  set (s := time_unix t) in *. set (s' := time_unix u) in *. clearbody s s'.
  unfold str_ltb. rewrite str_compare_app by by rewrite !length_pad. rewrite pad_compare by (cbn; lia).
  assert (Hc : (date_code (s / 86400) < date_code (s' / 86400) \/
               s / 86400 = s' / 86400 /\ s mod 86400 < s' mod 86400)%Z).
  { destruct (Z.lt_trichotomy (s / 86400) (s' / 86400)) as [H|[H|H]].
    - left. by apply date_code_mono.
    - right. Z.to_euclidean_division_equations; lia.
    - Z.to_euclidean_division_equations; lia. }
  destruct Hc as [Hc|[-> Hc]]; [by rewrite (proj2 (Z.compare_lt_iff _ _) Hc)|].
  rewrite Z.compare_refl. rewrite str_compare_app by done. cbn [str_compare]. rewrite Z.compare_refl.
  rewrite pad_compare by (cbn; lia).
  rewrite (proj2 (Z.compare_lt_iff _ _)); [done|].
  unfold seconds_code. Z.to_euclidean_division_equations; lia.
Qed.

(** ** Facts about paths *)

Fixpoint no_slash (s : string) : bool :=
  match s with EmptyString => true | String c s' => negb (Ascii.eqb c slash) && no_slash s' end.

(** A file name: one path element that stands for itself. *)
Definition plain_name (s : string) : bool :=
  no_slash s && negb (str_empty s) && negb (s =s ".") && negb (s =s "..").

Lemma plain_name_true s :
  plain_name s = true -> no_slash s = true /\ str_empty s = false /\ (s =s ".") = false /\ (s =s "..") = false.
Proof. unfold plain_name. rewrite !andb_true_iff, !negb_true_iff. naive_solver. Qed.

Lemma split_slash_plain n : no_slash n = true -> split_slash n = [n].
Proof.
  induction n as [|c n IH]; cbn; [done|]. intros [Hc Hn]%andb_prop. apply negb_true_iff in Hc.
  by rewrite Hc, IH.
Qed.

Lemma split_slash_cons s : exists p ps, split_slash s = p :: ps.
Proof.
  induction s as [|c s (p & ps & IH)]; cbn; [eauto|]. rewrite IH.
  destruct (Ascii.eqb c slash); eauto.
Qed.

Lemma split_slash_app p n :
  no_slash n = true -> split_slash (p +:+ "/" +:+ n) = split_slash p ++ [n].
Proof.
  intros Hn. induction p as [|c p IH].
  - change ("" +:+ "/" +:+ n) with (String slash n). cbn. by rewrite split_slash_plain.
  - rewrite str_app_cons. cbn [split_slash]. rewrite IH.
    destruct (Ascii.eqb c slash); [done|]. by destruct (split_slash_cons p) as (? & ? & ->).
Qed.

Lemma last_element_app p n : no_slash n = true -> last_element (p +:+ "/" +:+ n) = n.
Proof.
  intros Hn. unfold last_element. rewrite split_slash_app by done.
  induction (split_slash p) as [|x l IH]; [done|]. cbn. rewrite IH. by destruct l.
Qed.

Lemma last_element_plain n : no_slash n = true -> last_element n = n.
Proof. intros Hn. unfold last_element. by rewrite split_slash_plain. Qed.

Lemma concat_snoc l n :
  l <> [] -> String.concat "/" (l ++ [n]) = String.concat "/" l +:+ "/" +:+ n.
Proof.
  induction l as [|x [|y l] IH]; intros Hl; [done|done|].
  change (String.concat "/" ((x :: y :: l) ++ [n])) with (x +:+ "/" +:+ String.concat "/" ((y :: l) ++ [n])).
  rewrite IH by done. change (String.concat "/" (x :: y :: l)) with (x +:+ "/" +:+ String.concat "/" (y :: l)).
  by rewrite !str_app_assoc.
Qed.

Lemma last_element_render rooted l n :
  no_slash n = true -> last_element (render_path rooted (l ++ [n])) = n.
Proof.
  intros Hn. destruct l as [|x l].
  - destruct rooted; [exact (last_element_app "" n Hn)|by apply last_element_plain].
  - unfold render_path. rewrite concat_snoc by done. rewrite str_app_assoc.
    destruct rooted; by apply last_element_app.
Qed.

Lemma clean_elements_app rooted ps n :
  plain_name n = true -> clean_elements rooted (ps ++ [n]) = clean_elements rooted ps ++ [n].
Proof.
  intros (_ & He & H1 & H2)%plain_name_true. unfold clean_elements. rewrite foldl_app. cbn.
  unfold clean_step at 1. by rewrite He, H1, H2.
Qed.

Lemma render_path_snoc rooted l : exists pre, forall n, render_path rooted (l ++ [n]) = pre +:+ n.
Proof.
  destruct l as [|x l].
  - exists (if rooted then "/" else ""). by destruct rooted.
  - exists ((if rooted then "/" else "") +:+ String.concat "/" (x :: l) +:+ "/"). intros n.
    unfold render_path. rewrite concat_snoc by done. destruct rooted; by rewrite !str_app_assoc.
Qed.

Lemma HasPrefix_slash c p x : HasPrefix (String c p +:+ x) "/" = HasPrefix (String c p) "/".
Proof. rewrite str_app_cons. unfold HasPrefix. cbn. by case_match; [destruct (p +:+ x), p|]. Qed.

Lemma no_slash_HasPrefix n : no_slash n = true -> HasPrefix n "/" = false.
Proof.
  destruct n as [|c n]; [done|]. cbn. intros [Hc _]%andb_prop. apply negb_true_iff, Ascii.eqb_neq in Hc.
  unfold HasPrefix. cbn. case_match; [|done]. by subst.
Qed.

(** [filepath.Join] puts the name at the end of the directory's elements: every name
    after the same prefix. *)
Lemma Join_elements dir n :
  plain_name n = true ->
  Join dir n = render_path (HasPrefix dir "/") (clean_elements (HasPrefix dir "/") (split_slash dir) ++ [n]).
Proof.
  intros Hn. pose proof (plain_name_true n Hn) as (Hs & He & H1 & H2). unfold Join.
  destruct dir as [|c dir]; rewrite He; cbn [str_empty str_eqb String.eqb].
  - unfold Clean. rewrite He, split_slash_plain, no_slash_HasPrefix by done.
    change [n] with ([] ++ [n]) at 1. by rewrite (clean_elements_app _ [] n Hn).
  - change (str_empty (String c dir)) with false. unfold Clean.
    rewrite split_slash_app, clean_elements_app, HasPrefix_slash by done. by rewrite str_app_cons.
Qed.

Lemma Join_prefix dir : exists pre, forall n, plain_name n = true -> Join dir n = pre +:+ n.
Proof.
  destruct (render_path_snoc (HasPrefix dir "/") (clean_elements (HasPrefix dir "/") (split_slash dir)))
    as [pre Hpre].
  exists pre. intros n Hn. by rewrite Join_elements.
Qed.

Lemma last_element_Join dir n : plain_name n = true -> last_element (Join dir n) = n.
Proof.
  intros Hn. rewrite Join_elements by done. apply last_element_render. by apply plain_name_true in Hn as [].
Qed.

(** A file put into a directory under a matching name is found there. *)
Lemma in_glob_Join `{!OsEnv} dir prefix n :
  has_magic (Clean dir) = false -> plain_name n = true ->
  in_glob dir prefix (Join dir n) = HasPrefix n prefix.
Proof.
  intros Hm Hn. unfold in_glob. rewrite Hm, last_element_Join by done.
  by rewrite str_eqb_refl, andb_true_r.
Qed.

Lemma elem_of_glob_files `{!OsEnv} dir prefix d path :
  path ∈ glob_files dir prefix d <-> is_Some (d !! path) /\ in_glob dir prefix path = true.
Proof. unfold glob_files. rewrite list_elem_of_filter, elem_of_elements, elem_of_dom. naive_solver. Qed.

Lemma NoDup_glob_files `{!OsEnv} dir prefix d : NoDup (glob_files dir prefix d).
Proof. apply NoDup_filter, NoDup_elements. Qed.

(** ** Names with a time stamp *)

Lemma no_slash_app a b : no_slash (a +:+ b) = no_slash a && no_slash b.
Proof.
  induction a as [|c a IH]; [done|]. rewrite str_app_cons. cbn. by rewrite IH, andb_assoc.
Qed.

Lemma no_slash_pad n z : no_slash (pad n z) = true.
Proof.
  revert z. induction n as [|n IH]; intros z; [done|]. cbn [pad]. rewrite no_slash_app, IH. cbn.
  rewrite andb_true_r. apply negb_true_iff, Ascii.eqb_neq. intros H.
  apply (f_equal nat_of_ascii) in H. unfold digit in H. pose proof (Z.mod_pos_bound z 10 ltac:(lia)).
  rewrite nat_ascii_embedding in H by lia. change (nat_of_ascii slash) with 47%nat in H. lia.
Qed.

Lemma no_slash_stamp t : no_slash (stamp_of t) = true.
Proof.
  unfold stamp_of. destruct (civil_of_days _) as [[y m] d].
  rewrite !no_slash_app, !no_slash_pad. done.
Qed.

Lemma str_ltb_app p x y : str_ltb (p +:+ x) (p +:+ y) = str_ltb x y.
Proof.
  unfold str_ltb. rewrite str_compare_app by done. by rewrite (proj2 (str_compare_eq p p)).
Qed.
