(* ===== verification/Logger.v ===== *)
(** * The log streams (internal/logger/logger.go)

    Initialisation of the five files and six loggers, the choice of the handler and of
    what it drops, the loggers handed out before and after it, and [Close].  The
    rotating files are lumberjack's; the disk is that of FileSys.v. *)

From S2P Require Import Prelude GoText FileSys StateM LogText.

(** ** Loggers *)

(** [slog]'s levels. *)
Definition LevelDebug : Z := -4.
Definition LevelInfo : Z := 0.
Definition LevelWarn : Z := 4.
Definition LevelError : Z := 8.

(** The value of an attribute, as far as the replacement functions look. *)
Inductive attr_value :=
  | TimeValue (t : Z)
  | OtherValue (text : string).

Record Attr := { Key : string; Value : attr_value }.

(** [slog.Attr{}], which handlers leave out. *)
Definition no_attr : Attr := {| Key := ""; Value := OtherValue "" |}.

Definition TimeKey : string := "time".
Definition LevelKey : string := "level".
Definition MessageKey : string := "msg".

(** [t.UTC().Format("2006-01-02T15:04:05.000000Z")]. *)
Definition log_time (t : Z) : string :=
  let secs := (t / Second)%Z in
  let '(y, m, d) := civil_from_days (secs / 86400) in
  let s := (secs mod 86400)%Z in
  pad4 y +:+ "-" +:+ pad2 m +:+ "-" +:+ pad2 d +:+ "T" +:+
  pad2 (s / 3600) +:+ ":" +:+ pad2 (s / 60 mod 60) +:+ ":" +:+ pad2 (s mod 60) +:+
  "." +:+ pad 6 (t mod Second / 1000) +:+ "Z".

Example log_time_example : log_time 1775469600123456789 = "2026-04-06T10:00:00.123456Z".
Proof. vm_compute. reflexivity. Qed.

Definition replaceTimeAttr (attr : Attr) : Attr :=
  if negb (Key attr =s TimeKey) then attr
  else match Value attr with
       | TimeValue t => {| Key := Key attr; Value := OtherValue (log_time t) |}
       | _ => attr
       end.

Definition replaceAccessAttr (attr : Attr) : Attr :=
  let attr := replaceTimeAttr attr in
  if (Key attr =s MessageKey) || (Key attr =s "module") || (Key attr =s LevelKey) then no_attr else attr.

Definition replaceAuditAttr (attr : Attr) : Attr :=
  let attr := replaceTimeAttr attr in
  if Key attr =s LevelKey then no_attr else attr.

(** A logger: the file, whether it also writes to standard output, [slog.TextHandler]
    behind [textValueOnlyWriter] or [slog.JSONHandler], the least level, [ReplaceAttr],
    and what [With] has added. *)
Record logger := {
  lg_file : option string;
  lg_stdout : bool;
  lg_text : bool;
  lg_level : Z;
  lg_replace : Attr -> Attr;
  lg_with : list (string * string)
}.

Definition With_module (module : string) (l : logger) : logger :=
  {| lg_file := lg_file l; lg_stdout := lg_stdout l; lg_text := lg_text l; lg_level := lg_level l;
     lg_replace := lg_replace l; lg_with := lg_with l ++ [("module", module)] |}.

Definition EqualFold (a b : string) : bool := ToLower a =s ToLower b.

(** [newHandler] picks the handler, [slog.New] makes the logger. *)
Definition newHandler (format : string) (file : option string) (toStdout : bool) (level : Z)
    (replace : Attr -> Attr) : logger :=
  {| lg_file := file; lg_stdout := toStdout; lg_text := EqualFold format "text"; lg_level := level;
     lg_replace := replace; lg_with := [] |}.

(** ** The state of the package *)

(** A [lumberjack.Logger]. *)
Record rotating_file := {
  rf_Filename : string;
  rf_MaxSize : Z;
  rf_MaxBackups : Z;
  rf_MaxAge : Z;
  rf_Compress : bool
}.

(** lumberjack, and the random names of [os.CreateTemp], which picks one that no file
    has. *)
Class LogEnv := {
  lj_Rotate : rotating_file -> os_state -> option go_error * os_state;
  lj_Close : rotating_file -> option go_error;
  temp_name : string -> disk -> string;
  temp_name_new : forall dir d, d !! temp_name dir d = None
}.

Record log_state := {
  Log : option logger;
  AccessLog : option logger;
  OutReqLog : option logger;
  WSAccLog : option logger;
  WSOutLog : option logger;
  AuditLog : option logger;
  slog_Default : option logger;
  logLevel : Z;
  logDir : string;
  logFiles : gmap string rotating_file;
  log_os : os_state
}.

#[export] Instance eta_log_state : Eta log_state := fun s =>
  {| Log := Log s; AccessLog := AccessLog s; OutReqLog := OutReqLog s; WSAccLog := WSAccLog s;
     WSOutLog := WSOutLog s; AuditLog := AuditLog s; slog_Default := slog_Default s;
     logLevel := logLevel s; logDir := logDir s; logFiles := logFiles s; log_os := log_os s |}.

(** [init]. *)
Definition new_log_state (o : os_state) : log_state :=
  {| Log := None; AccessLog := None; OutReqLog := None; WSAccLog := None; WSOutLog := None;
     AuditLog := None; slog_Default := None; logLevel := LevelInfo; logDir := ""; logFiles := ∅;
     log_os := o |}.

Record Options := {
  lo_Level : string;
  lo_Format : string;
  lo_Dir : string;
  lo_MaxFileSizeMB : Z;
  lo_MaxBackups : Z;
  lo_MaxAgeDays : Z;
  lo_Compress : bool;
  lo_ErrorPath : string;
  lo_AccessPath : string;
  lo_OutRequestPath : string;
  lo_WSInPath : string;
  lo_WSOutPath : string;
  lo_AuditPath : string;
  lo_AccessToStdout : bool;
  lo_OutRequestToStdout : bool;
  lo_WSInToStdout : bool;
  lo_WSOutToStdout : bool;
  lo_AuditToStdout : bool
}.

#[export] Instance eta_log_options : Eta Options := fun o =>
  {| lo_Level := lo_Level o; lo_Format := lo_Format o; lo_Dir := lo_Dir o;
     lo_MaxFileSizeMB := lo_MaxFileSizeMB o; lo_MaxBackups := lo_MaxBackups o;
     lo_MaxAgeDays := lo_MaxAgeDays o; lo_Compress := lo_Compress o; lo_ErrorPath := lo_ErrorPath o;
     lo_AccessPath := lo_AccessPath o; lo_OutRequestPath := lo_OutRequestPath o;
     lo_WSInPath := lo_WSInPath o; lo_WSOutPath := lo_WSOutPath o; lo_AuditPath := lo_AuditPath o;
     lo_AccessToStdout := lo_AccessToStdout o; lo_OutRequestToStdout := lo_OutRequestToStdout o;
     lo_WSInToStdout := lo_WSInToStdout o; lo_WSOutToStdout := lo_WSOutToStdout o;
     lo_AuditToStdout := lo_AuditToStdout o |}.

Section logger.
Context `{!OsEnv} `{!LogEnv}.

(** ** System calls of this package *)

Definition os_CreateTemp (dir : string) : st os_state (res string) := fun o =>
  let '(f, o) := next_fault o in
  match f with
  | Some f => (Err (fail_err f), o)
  | None => let name := temp_name dir (files o) in (Ok name, put_file name "" o)
  end.

(** A file that has just been opened is written at its start. *)
Definition file_WriteString (name data : string) : st os_state (option go_error) := os_WriteFile name data.

Definition file_Close (name : string) : st os_state (option go_error) := fun o =>
  let '(f, o) := next_fault o in (fail_err <$> f, o).

(** The size of a regular file. *)
Definition os_Stat (path : string) : st os_state (option nat) := fun o =>
  let '(f, o) := next_fault o in
  (match f with Some _ => None | None => String.length <$> files o !! path end, o).

(** ** Before initialisation *)

Definition validateLogDir (dir : string) : st os_state (option go_error) :=
  if str_empty dir then mret (Some (ENew "log directory is empty"))
  else
    e ← os_MkdirAll dir;
    match e with
    | Some err => mret (Some (EWrap ("create log dir " +:+ dir +:+ ": ") err ""))
    | None =>
        file ← os_CreateTemp dir;
        match file with
        | Err err => mret (Some (EWrap ("create write test in " +:+ dir +:+ ": ") err ""))
        | Ok name =>
            e ← file_WriteString name "test";
            match e with
            | Some err =>
                _ ← file_Close name; _ ← os_Remove name;
                mret (Some (EWrap ("write test in " +:+ dir +:+ ": ") err ""))
            | None =>
                e ← file_Close name;
                match e with
                | Some err =>
                    _ ← os_Remove name;
                    mret (Some (EWrap ("close write test in " +:+ dir +:+ ": ") err ""))
                | None =>
                    let rotated := name +:+ ".rotate" in
                    e ← os_Rename name rotated;
                    match e with
                    | Some err =>
                        _ ← os_Remove name;
                        mret (Some (EWrap ("rename write test in " +:+ dir +:+ ": ") err ""))
                    | None =>
                        e ← os_Remove rotated;
                        match e with
                        | Some err => mret (Some (EWrap ("cleanup write test in " +:+ dir +:+ ": ") err ""))
                        | None => mret None
                        end
                    end
                end
            end
        end
    end.

Definition defaultLogPath (value dir fallback : string) : string :=
  if negb (str_empty value) then value else Join (Clean dir) fallback.

Definition shouldRotateOnStartup (path : string) : st os_state bool :=
  info ← os_Stat path;
  mret (match info with Some size => (0 <? size)%nat | None => false end).

Definition newRotatingLogFile (path : string) (maxSize maxBackups maxAge : Z) (compress : bool)
    : st os_state (res rotating_file) :=
  let l := {| rf_Filename := path; rf_MaxSize := maxSize; rf_MaxBackups := maxBackups;
              rf_MaxAge := maxAge; rf_Compress := compress |} in
  rotate ← shouldRotateOnStartup path;
  if rotate : bool then
    e ← lj_Rotate l;
    mret (match e with
          | Some err => Err (EWrap ("rotate log on startup " +:+ path +:+ ": ") err "")
          | None => Ok l
          end)
  else mret (Ok l).

(** ** Initialisation *)

Definition on_os {A} (m : st os_state A) : st log_state A := fun s =>
  let '(a, o) := m (log_os s) in (a, s <| log_os := o |>).

(** The replacement that [buildLogger] picks for a name. *)
Definition replace_for (name : string) : Attr -> Attr :=
  if name =s "audit" then replaceAuditAttr
  else if (name =s "access") || (name =s "ws_access") then replaceAccessAttr
  else replaceTimeAttr.

Definition buildLogger (name path : string) (toStdout : bool) (opts : Options)
    : st log_state (res logger) :=
  file ← on_os (newRotatingLogFile path (lo_MaxFileSizeMB opts) (lo_MaxBackups opts)
                  (lo_MaxAgeDays opts) (lo_Compress opts));
  match file with
  | Err err => mret (Err err)
  | Ok file =>
      modify (fun s => s <| logFiles ::= <[name := file]> |>);;
      level ← gets logLevel;
      mret (Ok (newHandler (lo_Format opts) (Some path) toStdout level (replace_for name)))
  end.

Definition parse_level (s : string) : Z :=
  let s := ToLower s in
  if s =s "debug" then LevelDebug
  else if s =s "info" then LevelInfo
  else if s =s "warn" then LevelWarn
  else if s =s "error" then LevelError
  else LevelInfo.

(** The options with their defaults, as they are when the first logger is built. *)
Definition default_options (opts : Options) : Options :=
  let positive d n := if (n <=? 0)%Z then d else n in
  let wsPath := if str_empty (lo_WSOutPath opts) then lo_WSInPath opts else lo_WSOutPath opts in
  let wsPath := defaultLogPath wsPath (lo_Dir opts) "ws.log" in
  opts <| lo_MaxFileSizeMB ::= positive 100%Z |>
       <| lo_MaxBackups ::= positive 10%Z |>
       <| lo_MaxAgeDays ::= positive 30%Z |>
       <| lo_Format ::= fun f => if str_empty f then "json" else f |>
       <| lo_ErrorPath ::= fun p => defaultLogPath p (lo_Dir opts) "error.log" |>
       <| lo_AccessPath ::= fun p => defaultLogPath p (lo_Dir opts) "access.log" |>
       <| lo_OutRequestPath ::= fun p => defaultLogPath p (lo_Dir opts) "out_request.log" |>
       <| lo_WSInPath := wsPath |>
       <| lo_WSOutPath := wsPath |>
       <| lo_AuditPath ::= fun p => defaultLogPath p (lo_Dir opts) "audit.log" |>.

(** [v, err = buildLogger(...); if err != nil { return err }]: a failing call assigns
    nil to its logger. *)
Definition build_into (set : option logger -> log_state -> log_state) (m : st log_state (res logger))
    (k : st log_state (option go_error)) : st log_state (option go_error) :=
  r ← m;
  match r with
  | Ok l => modify (set (Some l));; k
  | Err err => modify (set None);; mret (Some err)
  end.

Definition InitWithOptions (opts : Options) : st log_state (option go_error) :=
  e ← on_os (validateLogDir (lo_Dir opts));
  match e with
  | Some err => mret (Some err)
  | None =>
      modify (fun s => s <| logDir := lo_Dir opts |> <| logLevel := parse_level (lo_Level opts) |>);;
      let wsToStdout := lo_WSInToStdout opts || lo_WSOutToStdout opts in
      let opts := default_options opts in
      build_into (fun l s => s <| Log := l |>) (buildLogger "error" (lo_ErrorPath opts) true opts)
      (build_into (fun l s => s <| AccessLog := l |>)
         (buildLogger "access" (lo_AccessPath opts) (lo_AccessToStdout opts) opts)
      (build_into (fun l s => s <| OutReqLog := l |>)
         (buildLogger "out_request" (lo_OutRequestPath opts) (lo_OutRequestToStdout opts) opts)
      (wsLogger ← buildLogger "ws" (lo_WSOutPath opts) wsToStdout opts;
       match wsLogger with
       | Err err => mret (Some err)
       | Ok wsLogger =>
           modify (fun s => s <| WSAccLog := Some wsLogger |> <| WSOutLog := Some wsLogger |>);;
           build_into (fun l s => s <| AuditLog := l |>)
             (buildLogger "audit" (lo_AuditPath opts) (lo_AuditToStdout opts) opts)
             (modify (fun s => s <| slog_Default := Log s |>);; mret None)
       end)))
  end.

(** [Init]: the rest has its zero value. *)
Definition Init (levelStr dir : string) (maxFileSizeMB maxBackups maxAgeDays : Z) (compress : bool)
    : st log_state (option go_error) :=
  InitWithOptions
    {| lo_Level := levelStr; lo_Format := ""; lo_Dir := dir; lo_MaxFileSizeMB := maxFileSizeMB;
       lo_MaxBackups := maxBackups; lo_MaxAgeDays := maxAgeDays; lo_Compress := compress;
       lo_ErrorPath := ""; lo_AccessPath := ""; lo_OutRequestPath := ""; lo_WSInPath := "";
       lo_WSOutPath := ""; lo_AuditPath := ""; lo_AccessToStdout := false; lo_OutRequestToStdout := false;
       lo_WSInToStdout := false; lo_WSOutToStdout := false; lo_AuditToStdout := false |}.

(** ** The loggers handed out *)

Definition stdout_logger (replace : Attr -> Attr) : logger :=
  {| lg_file := None; lg_stdout := true; lg_text := false; lg_level := LevelInfo; lg_replace := replace;
     lg_with := [] |}.

Definition Get (module : string) (s : log_state) : logger :=
  match Log s with
  | None => stdout_logger replaceTimeAttr
  | Some l => With_module module l
  end.

Definition GetAccess (s : log_state) : logger := default (stdout_logger replaceAccessAttr) (AccessLog s).

Definition GetOutRequest (module : string) (s : log_state) : logger :=
  match OutReqLog s with None => Get module s | Some l => With_module module l end.

Definition GetWSAccess (s : log_state) : logger := default (stdout_logger replaceAccessAttr) (WSAccLog s).
Definition GetWSOut (s : log_state) : logger := default (stdout_logger replaceTimeAttr) (WSOutLog s).

Definition GetAudit (module : string) (s : log_state) : logger :=
  match AuditLog s with None => Get module s | Some l => With_module module l end.

(** [Enabled]: what a logger lets through. *)
Definition enabled (l : logger) (level : Z) : bool := (lg_level l <=? level)%Z.

(** The package-level functions: whether [Log] exists and lets the record through. *)
Definition Debug (s : log_state) : bool := match Log s with Some l => enabled l LevelDebug | None => false end.
Definition Info (s : log_state) : bool := match Log s with Some l => enabled l LevelInfo | None => false end.
Definition Warn (s : log_state) : bool := match Log s with Some l => enabled l LevelWarn | None => false end.
Definition Error (s : log_state) : bool := match Log s with Some l => enabled l LevelError | None => false end.


(** [Close] visits the files in the order in which Go visits the map, given as
    [order]. *)
Definition close_step (acc : option go_error * gmap string rotating_file) (f : string * rotating_file)
    : option go_error * gmap string rotating_file :=
  (match lj_Close f.2 with Some err => Some err | None => acc.1 end, delete f.1 acc.2).

Definition Close (order : list (string * rotating_file)) : st log_state (option go_error) := fun s =>
  let '(lastErr, fs) := foldl close_step (None, logFiles s) order in
  (lastErr, s <| logFiles := fs |>).
End logger.

(** ** Facts *)

Section facts.
Context `{!OsEnv} `{!LogEnv}.



















(** ** The write test *)

Definition probe (dir : string) (o : os_state) : string := temp_name dir (files o).
Definition rotated_probe (dir : string) (o : os_state) : string := probe dir o +:+ ".rotate".

(** Only the two names of the test have changed. *)
Definition same_but_probe (dir : string) (o o' : os_state) : Prop :=
  forall path, path <> probe dir o -> path <> rotated_probe dir o -> files o' !! path = files o !! path.

Lemma os_Remove_other path other o : other <> path -> files (os_Remove path o).2 !! other = files o !! other.
Proof.
  intros Hne. unfold os_Remove, next_fault. destruct (io_fault _); [done|]. cbn.
  destruct (files o !! path); [|done]. cbn. by rewrite lookup_delete_ne.
Qed.

Lemma os_WriteFile_other path data other o :
  other <> path -> files (os_WriteFile path data o).2 !! other = files o !! other.
Proof.
  intros Hne. unfold os_WriteFile, next_fault. destruct (io_fault _) as [[[k|] e]|]; cbn; try done.
  all: by rewrite lookup_insert_ne.
Qed.

Lemma os_WriteFile_None path data o :
  (os_WriteFile path data o).1 = None ->
  files (os_WriteFile path data o).2 = <[path := data]> (files o) /\ io_fault (io_calls o) = None.
Proof. unfold os_WriteFile, next_fault. by destruct (io_fault _) as [[[k|] e]|]. Qed.

(** A call of the test has failed. *)
Ltac probe_failed k E :=
  split_and!;
  [intros path Hp Hr; cbn;
   repeat first [rewrite lookup_delete_ne by done|rewrite lookup_insert_ne by done]; done
  |discriminate
  |split; [discriminate|]; intros [_ Hk]; specialize (Hk k ltac:(lia));
   rewrite ?Nat.add_succ_r, ?Nat.add_0_r in Hk; congruence].

(** The test of the log directory leaves the disk as it was: it touches its own new file
    only, and when it succeeds that file and the renamed one are gone.  It fails when
    the name of the directory is empty or one of its calls fails, and only then. *)
Theorem validateLogDir_spec (dir : string) (o : os_state) :
  let '(r, o') := validateLogDir dir o in
  same_but_probe dir o o' /\
  (r = None -> files o' = delete (rotated_probe dir o) (files o)) /\
  (r = None <-> dir <> "" /\ forall k, (k < 6)%nat -> io_fault (io_calls o + k) = None).
Proof.
  unfold validateLogDir. destruct (str_empty dir) eqn:Ed.
  { apply str_empty_true in Ed as ->. split_and!; [by intros ?|done|]. split; [done|]. by intros [? _]. }
  apply str_empty_false in Ed. destruct o as [fs hist n clk].
  unfold same_but_probe, rotated_probe, probe. cbn [files io_calls].
  unfold file_WriteString, file_Close, os_CreateTemp, os_MkdirAll, os_WriteFile, os_Rename, os_Remove, put_file,
    put_disk, next_fault, mbind, st_bind, mret, st_ret.
  set (name := temp_name dir fs). cbn.
  destruct (io_fault n) as [f|] eqn:E0; cbn; [probe_failed 0 E0|].
  destruct (io_fault (S n)) as [f|] eqn:E1; cbn; [probe_failed 1 E1|]. fold name.
  destruct (io_fault (S (S n))) as [[[b|] e]|] eqn:E2; cbn.
  1,2: destruct (io_fault (S (S (S n)))); cbn; destruct (io_fault (S (S (S (S n))))); cbn;
    rewrite ?lookup_insert_eq; cbn; probe_failed 2 E2.
  destruct (io_fault (S (S (S n)))) as [f|] eqn:E3; cbn.
  { destruct (io_fault (S (S (S (S n))))); cbn; rewrite ?lookup_insert_eq; cbn; probe_failed 3 E3. }
  destruct (io_fault (S (S (S (S n))))) as [f|] eqn:E4; cbn.
  { destruct (io_fault (S (S (S (S (S n)))))); cbn; rewrite ?lookup_insert_eq; cbn; probe_failed 4 E4. }
  rewrite lookup_insert_eq. cbn.
  destruct (io_fault (S (S (S (S (S n)))))) as [f|] eqn:E5; cbn; [probe_failed 5 E5|].
  rewrite lookup_insert_eq. cbn. split_and!.
  - intros path Hp Hr. by rewrite lookup_delete_ne, lookup_insert_ne, lookup_delete_ne, !lookup_insert_ne.
  - intros _. rewrite delete_insert_eq, insert_insert_eq, delete_insert_eq.
    by rewrite (delete_id fs name) by apply temp_name_new.
  - split; [|done]. intros _. split; [done|]. intros k Hk.
    do 6 (destruct k as [|k]; [by rewrite ?Nat.add_succ_r, ?Nat.add_0_r|]). lia.
Qed.

(** ** [Close] *)

Lemma close_files order fs :
  (foldl close_step (None, fs) order).2 = foldl (fun fs f => delete f fs) fs order.*1.
Proof.
  generalize (@None go_error). revert fs. induction order as [|f order IH]; intros fs e; [done|]. apply IH.
Qed.

Lemma deleted_lookup (names : list string) (fs : gmap string rotating_file) k :
  foldl (fun fs f => delete f fs) fs names !! k =
  if bool_decide (k ∈ names) then None else fs !! k.
Proof.
  revert fs. induction names as [|n names IH]; intros fs; cbn [foldl].
  { by rewrite bool_decide_eq_false_2 by apply not_elem_of_nil. }
  rewrite IH. destruct (decide (k = n)) as [->|Hne].
  - rewrite lookup_delete_eq, (bool_decide_eq_true_2 (n ∈ n :: names)) by set_solver. by case_match.
  - rewrite lookup_delete_ne by done.
    by rewrite (bool_decide_ext (k ∈ n :: names) (k ∈ names)) by set_solver.
Qed.

(** Whatever order the map is visited in, [Close] closes every file and forgets all of
    them, and reports an error exactly when one of the files could not be closed. *)
Theorem Close_spec (order : list (string * rotating_file)) (s : log_state)
    (Horder : order ≡ₚ map_to_list (logFiles s)) :
  let '(r, s') := Close order s in
  logFiles s' = ∅ /\ (r = None <-> forall name f, logFiles s !! name = Some f -> lj_Close f = None).
Proof.
  unfold Close. pose proof (close_files order (logFiles s)) as Hf.
  destruct (foldl close_step (None, logFiles s) order) as [r fs] eqn:E. cbn in *. split.
  - rewrite Hf. apply map_empty. intros k. rewrite deleted_lookup. case_bool_decide as Hk; [done|].
    destruct (logFiles s !! k) as [f|] eqn:Ek; [|done]. destruct Hk. apply list_elem_of_fmap.
    exists (k, f). split; [done|]. rewrite Horder. by apply elem_of_map_to_list.
  - assert (r = None <-> Forall (fun f => lj_Close f.2 = None) order) as ->.
    { clear Hf Horder. revert E. generalize (logFiles s). intros fs0.
      assert (forall e, foldl close_step (e, fs0) order = (r, fs) ->
        (r = None <-> e = None /\ Forall (fun f => lj_Close f.2 = None) order)) as Hg.
      { revert fs0. induction order as [|f order IH]; intros fs0 e; cbn.
        - intros [= -> ->]. split; [by intros ->|by intros [-> _]].
        - intros Hr. rewrite (IH _ _ Hr), Forall_cons. destruct (lj_Close f.2); naive_solver. }
      intros Hr. rewrite (Hg _ Hr). naive_solver. }
    rewrite Forall_forall. split.
    + intros Hall name f Hn. apply (Hall (name, f)). rewrite Horder. by apply elem_of_map_to_list.
    + intros Hall [name f] Hin. rewrite Horder in Hin. apply elem_of_map_to_list in Hin. by apply (Hall name).
Qed.
End facts.

(** ** A concrete environment *)

(** A disk that works and files that rotate without a trace. *)
#[local] Instance demo_os : OsEnv := { io_fault := fun _ => None; io_unread := fun _ _ => false; glob_dirs := fun _ => None; now_at := fun _ => 0%Z }.

#[local] Program Instance demo_log_env : LogEnv := {
  lj_Rotate := fun _ o => (None, o);
  lj_Close := fun f => if rf_Filename f =s "logs/ws.log" then Some (ENew "device busy") else None;
  temp_name := fun dir d =>
    let name := Join dir ".write-test-1" in
    if bool_decide (d !! name = None) then name else fresh (dom d)
}.
Next Obligation.
  intros dir d. cbn. case_bool_decide as H; [done|]. apply not_elem_of_dom, is_fresh.
Qed.

Definition demo_log_options : Options :=
  {| lo_Level := "WARN"; lo_Format := "Text"; lo_Dir := "./logs/"; lo_MaxFileSizeMB := 0;
     lo_MaxBackups := 3; lo_MaxAgeDays := -1; lo_Compress := true; lo_ErrorPath := "";
     lo_AccessPath := "/var/access.log"; lo_OutRequestPath := ""; lo_WSInPath := ""; lo_WSOutPath := "";
     lo_AuditPath := ""; lo_AccessToStdout := false; lo_OutRequestToStdout := false;
     lo_WSInToStdout := true; lo_WSOutToStdout := false; lo_AuditToStdout := false |}.

Definition demo_log_start : log_state :=
  new_log_state {| files := {[ "logs/ws.log" := "old" ]}; history := []; io_calls := 0; clock_calls := 0 |}.

Definition demo_log_state : log_state := (InitWithOptions demo_log_options demo_log_start).2.


(** A file that does not close is forgotten too. *)
Lemma Close_spec_witness :
  (Close (map_to_list (logFiles demo_log_state)) demo_log_state).1 <> None /\
  logFiles (Close (map_to_list (logFiles demo_log_state)) demo_log_state).2 = ∅.
Proof.
  pose proof (Close_spec (map_to_list (logFiles demo_log_state)) demo_log_state (Permutation_refl _)) as H.
  split; [vm_compute; discriminate|].
  destruct (Close (map_to_list (logFiles demo_log_state)) demo_log_state) as [r s']. exact (proj1 H).
Defined.

(** Access records in text keep their keys: without a message the writer leaves a line
    as it is. *)
Example access_line_keeps_keys :
  stripTextPrefixKeys "time=2026-04-06T10:00:00.000000Z method=GET path=/live" =
  "time=2026-04-06T10:00:00.000000Z method=GET path=/live".
Proof. vm_compute. reflexivity. Qed.
