(* ===== verification/Middleware.v ===== *)
(** * The middleware of the router (internal/api/middleware, internal/requestid)

    Request ids, recovery from panics, and the access, error and audit records, in the
    order in which router.go chains them.  The request and its answer are a
    [gin.Context]: [GinContext] lists what the middleware uses of it, [GinLaws] what gin
    and [net/http] document, header names up to their canonical form included.  [c.Next] runs the rest of the chain, which may panic. *)

From S2P Require Import Prelude Logger GoText GoFloat StateM FileSys.

(** ** Request contexts (internal/requestid) *)

(** [any], as far as it is looked into. *)
Inductive any_value :=
  | VString (s : string)
  | VTime (t : Z)
  | VOther.

(** The keys of a [context.Context]; [requestIDKey] has a type of its own, so no other
    package has it. *)
Inductive context_key :=
  | requestIDKey
  | OtherKey (name : string).

#[export] Instance context_key_eq_dec : EqDecision context_key.
Proof. solve_decision. Defined.

(** A context as the values put into it, the latest first; [None] is nil. *)
Abbreviation go_context := (list (context_key * any_value)).

Fixpoint context_Value (ctx : go_context) (key : context_key) : option any_value :=
  match ctx with
  | [] => None
  | (k, v) :: ctx' => if decide (k = key) then Some v else context_Value ctx' key
  end.

Definition WithContext (ctx : option go_context) (requestID : string) : option go_context :=
  match ctx with
  | None => ctx
  | Some values => if str_empty requestID then ctx else Some ((requestIDKey, VString requestID) :: values)
  end.

(** [value.(string)] of a possibly missing value: the empty string if it is none. *)
Definition as_string (v : option any_value) : string :=
  match v with Some (VString s) => s | _ => "" end.

Definition FromContext (ctx : option go_context) : string :=
  match ctx with
  | None => ""
  | Some values => as_string (context_Value values requestIDKey)
  end.

(** ** gin *)

Record gin_error := { ge_Err : string; ge_Type : Z; ge_Meta : string }.

Class GinContext (C : Type) := {
  c_Method : C -> string;
  c_URLPath : C -> string;
  c_RawQuery : C -> string;
  c_ClientIP : C -> string;
  c_UserAgent : C -> string;
  c_GetHeader : string -> C -> string;
  c_Context : C -> option go_context;
  c_WithContext : option go_context -> C -> C;
  c_Get : string -> C -> option any_value;
  c_Set : string -> any_value -> C -> C;
  w_Header : string -> C -> string;
  w_SetHeader : string -> string -> C -> C;
  w_Status : C -> Z;
  w_Size : C -> Z;
  w_Written : C -> bool;
  c_Errors : C -> list gin_error;
  c_AbortWithStatusJSON : Z -> list (string * string) -> C -> C
}.

(** [http.CanonicalHeaderKey], under which [http.Header] keeps a field: letters in lower
    case but the first and those after a hyphen, unless a byte is not one of a field
    name's. *)
Definition header_byte (c : ascii) : bool :=
  let n := byte_code c in
  ((48 <=? n) && (n <=? 57) || (65 <=? n) && (n <=? 90) || (97 <=? n) && (n <=? 122)
   || bool_decide (n ∈ [33; 35; 36; 37; 38; 39; 42; 43; 45; 46; 94; 95; 96; 124; 126]))%Z.

Fixpoint canonical_bytes (upper : bool) (s : string) : string :=
  match s with
  | EmptyString => EmptyString
  | String c s' =>
      let n := byte_code c in
      let c' := (if upper && ((97 <=? n) && (n <=? 122)) then ascii_of_nat (Z.to_nat (n - 32))
                 else if negb upper && ((65 <=? n) && (n <=? 90)) then ascii_of_nat (Z.to_nat (n + 32))
                 else c)%Z in
      String c' (canonical_bytes (n =? 45)%Z s')
  end.

Fixpoint header_bytes (s : string) : bool :=
  match s with EmptyString => true | String c s' => header_byte c && header_bytes s' end.

Definition CanonicalHeaderKey (s : string) : string :=
  if header_bytes s then canonical_bytes true s else s.

Example canonical_examples :
  (CanonicalHeaderKey "X-Request-ID", CanonicalHeaderKey "x-request-id", CanonicalHeaderKey "user agent")
  = ("X-Request-Id", "X-Request-Id", "user agent").
Proof. reflexivity. Qed.

(** What one operation does to what the others read. *)
Class GinLaws (C : Type) `{!GinContext C} : Prop := {
  get_set : forall k k' v c, c_Get k (c_Set k' v c) = if k =s k' then Some v else c_Get k c;
  get_header : forall k h v c, c_Get k (w_SetHeader h v c) = c_Get k c;
  get_context : forall k x c, c_Get k (c_WithContext x c) = c_Get k c;
  header_set : forall k h v c, 
    w_Header k (w_SetHeader h v c) = if CanonicalHeaderKey k =s CanonicalHeaderKey h then v else w_Header k c;
  header_spelled : forall k h c, CanonicalHeaderKey k = CanonicalHeaderKey h -> w_Header k c = w_Header h c;
  header_get : forall k h v c, w_Header h (c_Set k v c) = w_Header h c;
  header_context : forall h x c, w_Header h (c_WithContext x c) = w_Header h c;
  context_with : forall x c, c_Context (c_WithContext x c) = x;
  context_set : forall k v c, c_Context (c_Set k v c) = c_Context c;
  context_header : forall h v c, c_Context (w_SetHeader h v c) = c_Context c;
  method_set : forall k v c, c_Method (c_Set k v c) = c_Method c;
  method_header : forall h v c, c_Method (w_SetHeader h v c) = c_Method c;
  method_context : forall x c, c_Method (c_WithContext x c) = c_Method c;
  status_abort : forall code body c, (0 < code)%Z -> w_Written c = false ->
     w_Status (c_AbortWithStatusJSON code body c) = code
}.

(** ** Records and panics *)

Inductive field :=
  | FString (s : string)
  | FInt (n : Z)
  | FFloat (x : f64)
  | FMap (m : list (string * f64)).

Record log_entry := {
  le_logger : logger;
  le_level : Z;
  le_msg : string;
  le_fields : list (string * field)
}.

(** The clock, [crypto/rand] and [debug.Stack]. *)
Class MwEnv := {
  mw_clock : nat -> Z;
  mw_rand : nat -> option (list ascii);
  mw_rand_length : forall n buf, mw_rand n = Some buf -> length buf = 16%nat;
  debug_Stack : string
}.

Record mw_state (C : Type) := mk_mw { gc : C; logged : list log_entry; mticks : nat; mrands : nat }.
Arguments mk_mw {C}.
Arguments gc {C}.
Arguments logged {C}.
Arguments mticks {C}.
Arguments mrands {C}.

#[export] Instance eta_mw_state C : Eta (mw_state C) := fun s =>
  mk_mw (gc s) (logged s) (mticks s) (mrands s).

(** A handler returns or panics with a value. *)
Abbreviation gin_handler C := (st (mw_state C) (option string)).

Section middleware.
Context {C : Type} `{!GinContext C} `{!MwEnv}.

Abbreviation M := (st (mw_state C)).

Definition mw_now : M Z := fun s => (mw_clock (mticks s), s <| mticks ::= S |>).

(** What a logger does with a record. *)
Definition log_at (l : logger) (level : Z) (msg : string) (fields : list (string * field)) : M unit :=
  modify (fun s =>
    if enabled l level
    then s <| logged ::= fun r => r ++ [{| le_logger := l; le_level := level; le_msg := msg; le_fields := fields |}] |>
    else s).

(** A deferred or final step that a panic of [next] skips. *)
Definition unless_panic (next : gin_handler C) (k : gin_handler C) : gin_handler C :=
  r ← next;
  match r with Some p => mret (Some p) | None => k end.

(** ** request_id.go *)

Definition requestIDHeader : string := "X-Request-ID".

Definition generateRequestID : M string := fun s =>
  (match mw_rand (mrands s) with Some buf => hex_encode buf | None => "" end, s <| mrands ::= S |>).

Definition RequestID (next : gin_handler C) : gin_handler C :=
  requestID ← gets (c_GetHeader requestIDHeader ∘ gc);
  requestID ← (if str_empty requestID then generateRequestID else mret requestID);
  modify (fun s => s <| gc ::= c_Set "request_id" (VString requestID) |>);;
  start ← mw_now;
  modify (fun s => s <| gc ::= c_Set "request_start" (VTime start) |>);;
  ctx ← gets (fun s => WithContext (c_Context (gc s)) requestID);
  (match ctx with
   | Some _ => modify (fun s => s <| gc ::= c_WithContext ctx |>)
   | None => mret tt
   end);;
  modify (fun s => s <| gc ::= w_SetHeader requestIDHeader requestID |>);;
  next.

Definition GetRequestID (c : C) : string := as_string (c_Get "request_id" c).

Definition GetRequestStart (c : C) : option Z :=
  match c_Get "request_start" c with
  | Some (VTime startedAt) => if time_is_zero startedAt then None else Some startedAt
  | _ => None
  end.

(** The headers of the outbound request by canonical key, if there is one. *)
Definition PropagateRequestID (c : C) (req : option (gmap string string)) : option (gmap string string) :=
  match req with
  | None => None
  | Some header =>
      let requestID := GetRequestID c in
      if str_empty requestID then req
      else Some (<[CanonicalHeaderKey requestIDHeader := requestID]> header)
  end.

(** ** recovery.go *)

Definition Recovery (log : logger) (next : gin_handler C) : gin_handler C :=
  r ← next;
  match r with
  | None => mret None
  | Some recovered =>
      c ← gets gc;
      log_at log LevelError "panic recovered"
        [("error", FString recovered); ("method", FString (c_Method c)); ("path", FString (c_URLPath c));
         ("request_id", FString (GetRequestID c)); ("stack", FString debug_Stack)];;
      modify (fun s => s <| gc ::= c_AbortWithStatusJSON 500 [("error", "internal server error")] |>);;
      mret None
  end.

(** ** access_log.go *)

Definition request_path (c : C) : string :=
  if negb (str_empty (c_RawQuery c)) then c_URLPath c +:+ "?" +:+ c_RawQuery c else c_URLPath c.

(** [float64(d.Microseconds()) / 1000.0]. *)
Definition milliseconds (d : Z) : f64 := f_div (f_of_Z (duration_microseconds d)) (f_of_Z 1000).

Definition AccessLog (log : logger) (next : gin_handler C) : gin_handler C :=
  start ← mw_now;
  c ← gets gc;
  let path := request_path c in
  let requestID := GetRequestID c in
  unless_panic next
    (now ← mw_now;
     let latencyMS := milliseconds (time_sub now start) in
     c' ← gets gc;
     log_at log LevelInfo "HTTP access"
       [("method", FString (c_Method c)); ("path", FString path); ("status", FInt (w_Status c'));
        ("latency_ms", FFloat latencyMS); ("ip", FString (c_ClientIP c));
        ("user_agent", FString (c_UserAgent c)); ("bytes", FInt (w_Size c'));
        ("request_id", FString requestID)];;
     mret None).

(** ** error_log.go *)

Definition error_fields (c : C) (e : gin_error) : list (string * field) :=
  [("error", FString (ge_Err e)); ("type", FInt (ge_Type e)); ("meta", FString (ge_Meta e));
   ("method", FString (c_Method c)); ("path", FString (c_URLPath c)); ("status", FInt (w_Status c));
   ("request_id", FString (GetRequestID c))].

Fixpoint log_errors (log : logger) (c : C) (errs : list gin_error) : M unit :=
  match errs with
  | [] => mret tt
  | e :: errs => log_at log LevelError "HTTP handler error" (error_fields c e);; log_errors log c errs
  end.

Definition ErrorLog (log : logger) (next : gin_handler C) : gin_handler C :=
  unless_panic next (c ← gets gc; log_errors log c (c_Errors c);; mret None).

(** ** audit_log.go *)

Definition isMutatingMethod (method : string) : bool :=
  let m := ToUpper method in (m =s "POST") || (m =s "PUT") || (m =s "PATCH") || (m =s "DELETE").

Definition at_least_zero (x : f64) : f64 := if f_lt x f_zero then f_zero else x.

(** The latency fields at debug level. *)
Definition latency_breakdown (start : Z) (latencyMS : f64) : M (list (string * field)) :=
  s ← gets (fun s => GetRequestStart (gc s));
  match s with
  | None => mret []
  | Some requestStart =>
      now ← mw_now;
      let requestTotalMS := milliseconds (time_sub now requestStart) in
      let beforeMiddlewareMS := at_least_zero (milliseconds (time_sub start requestStart)) in
      let outsideScopeMS := at_least_zero (f_sub (f_sub requestTotalMS beforeMiddlewareMS) latencyMS) in
      mret [("latency_breakdown_ms", FMap
        [("total_latency_ms", requestTotalMS); ("request_handler_ms", latencyMS);
         ("middleware_overhead_ms", f_add beforeMiddlewareMS outsideScopeMS)])]
  end.

Definition AuditLog (log : logger) (next : gin_handler C) : gin_handler C :=
  c ← gets gc;
  if negb (isMutatingMethod (c_Method c)) then next
  else
    start ← mw_now;
    unless_panic next
      (now ← mw_now;
       let latencyMS := milliseconds (time_sub now start) in
       c' ← gets gc;
       let status := w_Status c' in
       let fields :=
         [("method", FString (c_Method c)); ("path", FString (request_path c)); ("status", FInt status);
          ("latency_ms", FFloat latencyMS); ("ip", FString (c_ClientIP c));
          ("user_agent", FString (c_UserAgent c)); ("request_id", FString (GetRequestID c))] in
       more ← (if enabled log LevelDebug then latency_breakdown start latencyMS else mret []);
       log_at log (if (status <? 400)%Z then LevelInfo else LevelWarn) "audit" (fields ++ more);;
       mret None).

(** ** router.go *)

(** The chain that [NewRouter] installs, with the loggers of the package state [ls]. *)
Definition router_chain (ls : log_state) (final : gin_handler C) : gin_handler C :=
  RequestID
    (Recovery (Get "rest" ls)
       (AccessLog (GetAccess ls)
          (ErrorLog (Get "rest" ls)
             (AuditLog (GetAudit "rest" ls) final)))).
End middleware.
Arguments log_at : simpl never.

(** ** Facts *)

Lemma hex_encode_length l : String.length (hex_encode l) = (2 * length l)%nat.
Proof. induction l as [|b l IH]; [done|]. cbn [hex_encode String.length length]. rewrite IH. lia. Qed.

(** What is put into a context comes out, and an empty id leaves it as it was. *)
Lemma FromContext_WithContext values id :
  FromContext (WithContext (Some values) id) = if str_empty id then FromContext (Some values) else id.
Proof. cbn. destruct (str_empty id); [done|]. cbn. by rewrite decide_True. Qed.

Lemma WithContext_None ctx id : WithContext ctx id = None -> ctx = None.
Proof. unfold WithContext. destruct ctx; [|done]. by destruct (str_empty id). Qed.

Section facts.
Context {C : Type} `{!GinContext C} `{!GinLaws C} `{!MwEnv}.

Implicit Types s : mw_state C.

(** The id of a request. *)
Definition request_id_of s : string :=
  let header := c_GetHeader requestIDHeader (gc s) in
  if str_empty header then
    match mw_rand (mrands s) with Some buf => hex_encode buf | None => "" end
  else header.

(** What [RequestID] hands to the rest of the chain. *)
Definition prepared s : mw_state C := (RequestID (mret None) s).2.

Lemma RequestID_prepared next s : RequestID next s = next (prepared s).
Proof.
  unfold prepared, RequestID, generateRequestID, mw_now, modify, gets, mbind, st_bind, mret, st_ret.
  destruct (str_empty _); cbn; by destruct (WithContext _ _).
Qed.

Lemma prepared_spec s :
  let id := request_id_of s in
  let c := gc (prepared s) in
  GetRequestID c = id /\ w_Header requestIDHeader c = id /\
  c_Context c = WithContext (c_Context (gc s)) id /\ c_Method c = c_Method (gc s) /\
  logged (prepared s) = logged s.
Proof.
  cbv zeta. unfold prepared, GetRequestID, RequestID, generateRequestID, request_id_of, mw_now, modify, gets, mbind,
    st_bind, mret, st_ret, compose.
  destruct (str_empty _) eqn:E; cbn; rewrite !context_set.
  all: match goal with |- context [WithContext ?c ?i] => destruct (WithContext c i) as [x|] eqn:Ex end; cbn.
  all: rewrite ?header_set, ?get_header, ?get_context, ?get_set, ?context_header, ?context_with, ?context_set,
    ?method_header, ?method_context, ?method_set.
  all: cbn; split_and!; try done; by apply WithContext_None in Ex.
Qed.

(** ** The records of a request *)

(** What a logger keeps of a record. *)
Definition kept (l : logger) (level : Z) (msg : string) (fields : list (string * field)) : list log_entry :=
  if enabled l level
  then [{| le_logger := l; le_level := level; le_msg := msg; le_fields := fields |}] else [].

Lemma log_at_spec l level msg fields s :
  log_at l level msg fields s = (tt, s <| logged ::= fun r => r ++ kept l level msg fields |>).
Proof.
  unfold log_at, kept, modify. destruct (enabled l level); [done|]. destruct s. cbn. unfold field_set. cbn.
  by rewrite app_nil_r.
Qed.

Definition error_entries (l : logger) (c : C) : list log_entry :=
  concat ((fun e => kept l LevelError "HTTP handler error" (error_fields c e)) <$> c_Errors c).

Lemma log_errors_spec l c errs s :
  log_errors l c errs s =
  (tt, s <| logged ::= fun r =>
         r ++ concat ((fun e => kept l LevelError "HTTP handler error" (error_fields c e)) <$> errs) |>).
Proof.
  revert s. induction errs as [|e errs IH]; intros s; cbn.
  { unfold mret, st_ret. destruct s. unfold field_set. cbn. by rewrite app_nil_r. }
  unfold mbind, st_bind. rewrite log_at_spec, IH. destruct s. unfold field_set. cbn. by rewrite app_assoc.
Qed.

(** The audit record of a request that [c] describes before and [c'] after its
    handlers. *)
Definition audit_fields (c c' : C) (ms : f64) (more : list (string * field)) : list (string * field) :=
  [("method", FString (c_Method c)); ("path", FString (request_path c)); ("status", FInt (w_Status c'));
   ("latency_ms", FFloat ms); ("ip", FString (c_ClientIP c)); ("user_agent", FString (c_UserAgent c));
   ("request_id", FString (GetRequestID c))] ++ more.

Definition audit_level (c' : C) : Z := if (w_Status c' <? 400)%Z then LevelInfo else LevelWarn.

Definition access_fields (c c' : C) (ms : f64) : list (string * field) :=
  [("method", FString (c_Method c)); ("path", FString (request_path c)); ("status", FInt (w_Status c'));
   ("latency_ms", FFloat ms); ("ip", FString (c_ClientIP c)); ("user_agent", FString (c_UserAgent c));
   ("bytes", FInt (w_Size c')); ("request_id", FString (GetRequestID c))].

Definition panic_fields (c : C) (recovered : string) : list (string * field) :=
  [("error", FString recovered); ("method", FString (c_Method c)); ("path", FString (c_URLPath c));
   ("request_id", FString (GetRequestID c)); ("stack", FString debug_Stack)].

Lemma latency_breakdown_spec start ms s :
  exists more n, latency_breakdown start ms s = (more, s <| mticks := n |>).
Proof.
  unfold latency_breakdown, mw_now, gets, mbind, st_bind, mret, st_ret.
  destruct (GetRequestStart (gc s)); [do 2 eexists; reflexivity|].
  exists [], (mticks s). by destruct s.
Qed.

Lemma AuditLog_spec l next s :
  let mutating := isMutatingMethod (c_Method (gc s)) in
  let '(r, s2) := next (s <| mticks ::= Nat.add (if mutating then 1 else 0) |>) in
  let '(r', s') := AuditLog l next s in
  r' = r /\ gc s' = gc s2 /\
  exists ms more, logged s' = logged s2 ++
    (if mutating && bool_decide (r = None)
     then kept l (audit_level (gc s2)) "audit" (audit_fields (gc s) (gc s2) ms more) else []).
Proof.
  cbv zeta. unfold AuditLog, gets, mbind at 1, st_bind at 1.
  destruct (isMutatingMethod (c_Method (gc s))); cbn [negb andb].
  - unfold mbind at 1, st_bind at 1, mw_now at 1, unless_panic, mbind at 1, st_bind at 1.
    change (s <| mticks ::= Nat.add 1 |>) with (s <| mticks ::= S |>).
    destruct (next (s <| mticks ::= S |>)) as [[p|] s2].
    { cbn. split_and!; [done..|]. exists f_zero, []. by rewrite app_nil_r. }
    unfold mw_now, mbind, st_bind, log_at, modify. cbn.
    destruct (if enabled l LevelDebug then _ else _) as [more s3] eqn:Em.
    assert (gc s3 = gc s2 /\ logged s3 = logged s2) as [Hg Hl].
    { destruct (enabled l LevelDebug); [|by injection Em as _ <-].
      match type of Em with latency_breakdown ?a ?b ?c = _ =>
        destruct (latency_breakdown_spec a b c) as (m & n & Hb) end.
      rewrite Hb in Em. by injection Em as _ <-. }
    fold (audit_level (gc s2)). unfold kept. destruct (enabled l (audit_level (gc s2))); cbn.
    + split_and!; [done..|]. do 2 eexists. by rewrite Hl.
    + split_and!; [done..|]. exists f_zero, []. by rewrite app_nil_r.
  - replace (s <| mticks ::= Nat.add 0 |>) with s by (by destruct s).
    destruct (next s) as [r s2]. split_and!; [done..|]. exists f_zero, []. by rewrite app_nil_r.
Qed.

Lemma ErrorLog_spec l next s :
  let '(r, s2) := next s in
  let '(r', s') := ErrorLog l next s in
  r' = r /\ gc s' = gc s2 /\
  logged s' = logged s2 ++ (if bool_decide (r = None) then error_entries l (gc s2) else []).
Proof.
  unfold ErrorLog, unless_panic, mbind, st_bind. destruct (next s) as [[p|] s2]; cbn.
  - by rewrite app_nil_r.
  - unfold gets. by rewrite log_errors_spec.
Qed.

Lemma AccessLog_spec l next s :
  let '(r, s2) := next (s <| mticks ::= S |>) in
  let '(r', s') := AccessLog l next s in
  r' = r /\ gc s' = gc s2 /\
  exists ms, logged s' = logged s2 ++
    (if bool_decide (r = None)
     then kept l LevelInfo "HTTP access" (access_fields (gc s) (gc s2) ms) else []).
Proof.
  unfold AccessLog, mw_now, unless_panic, gets, mbind, st_bind. cbn.
  destruct (next (s <| mticks ::= S |>)) as [[p|] s2]; cbn.
  - split_and!; [done..|]. exists f_zero. by rewrite app_nil_r.
  - rewrite log_at_spec. cbn. split_and!; [done..|]. by eexists.
Qed.

Lemma Recovery_spec l next s :
  let '(r, s2) := next s in
  let '(r', s') := Recovery l next s in
  r' = None /\
  match r with
  | None => s' = s2
  | Some p =>
      gc s' = c_AbortWithStatusJSON 500 [("error", "internal server error")] (gc s2) /\
      logged s' = logged s2 ++ kept l LevelError "panic recovered" (panic_fields (gc s2) p)
  end.
Proof.
  unfold Recovery, gets, mbind, st_bind. destruct (next s) as [[p|] s2]; cbn; [|done].
  by rewrite log_at_spec.
Qed.

(** The state in which the handler of the route starts. *)
Definition handler_start s : mw_state C :=
  (prepared s) <| mticks ::= Nat.add (if isMutatingMethod (c_Method (gc s)) then 2 else 1) |>.

Lemma isMutatingMethod_spec method :
  isMutatingMethod method = bool_decide (ToUpper method ∈ ["POST"; "PUT"; "PATCH"; "DELETE"]).
Proof.
  unfold isMutatingMethod. cbv zeta. generalize (ToUpper method). intros m. symmetry.
  case_bool_decide as Hm; symmetry.
  - rewrite !orb_true_iff, !str_eqb_eq. set_solver.
  - rewrite !orb_false_iff, !str_eqb_neq. set_solver.
Qed.

(** C23. Every request is accounted for.  The chain of the router never lets a panic
    out: it becomes one record with the value and the id of the request, and the status
    500 if nothing had been written.  A handler that returns leaves the answer as it
    is, and after its own records exactly those of the request: one audit record if the
    method is POST, PUT, PATCH or DELETE in any case, at level info for a status below
    400 and warning from there on; one record
    per error of the handler; one access record; each at a level its logger keeps, and
    with the final status and the id of the request. *)
Theorem router_chain_accounts (ls : log_state) (final : gin_handler C) (s : mw_state C) :
  let '(r, s2) := final (handler_start s) in
  let '(r', s') := router_chain ls final s in
  let c1 := gc (handler_start s) in
  GetRequestID c1 = request_id_of s /\ r' = None /\
  match r with
  | Some p =>
      logged s' = logged s2 ++ kept (Get "rest" ls) LevelError "panic recovered" (panic_fields (gc s2) p) /\
      (w_Written (gc s2) = false -> w_Status (gc s') = 500%Z)
  | None =>
      gc s' = gc s2 /\
      exists ms_audit more ms_access, logged s' = logged s2 ++
        (if bool_decide (ToUpper (c_Method (gc s)) ∈ ["POST"; "PUT"; "PATCH"; "DELETE"])
         then kept (GetAudit "rest" ls) (if (w_Status (gc s2) <? 400)%Z then 0%Z else 4%Z) "audit"
                (audit_fields c1 (gc s2) ms_audit more)
         else []) ++
        error_entries (Get "rest" ls) (gc s2) ++
        kept (GetAccess ls) LevelInfo "HTTP access" (access_fields c1 (gc s2) ms_access)
  end.
Proof.
  unfold router_chain. rewrite RequestID_prepared.
  destruct (prepared_spec s) as (Hid & _ & _ & Hm & _).
  set (audit := AuditLog (GetAudit "rest" ls) final).
  set (errs := ErrorLog (Get "rest" ls) audit). set (acc := AccessLog (GetAccess ls) errs).
  pose proof (Recovery_spec (Get "rest" ls) acc (prepared s)) as H1.
  pose proof (AccessLog_spec (GetAccess ls) errs (prepared s)) as H2. fold acc in H2.
  set (s1 := (prepared s) <| mticks ::= S |>) in H2.
  pose proof (ErrorLog_spec (Get "rest" ls) audit s1) as H3. fold errs in H3.
  pose proof (AuditLog_spec (GetAudit "rest" ls) final s1) as H4. fold audit in H4.
  change (gc s1) with (gc (prepared s)) in H4. rewrite Hm in H4.
  assert (s1 <| mticks ::= Nat.add (if isMutatingMethod (c_Method (gc s)) then 1 else 0) |> = handler_start s) as Hs.
  { unfold handler_start, s1. destruct (prepared s). unfold field_set. cbn.
    by destruct (isMutatingMethod (c_Method (gc s))). }
  cbv zeta in H4. rewrite Hs in H4.
  destruct (final (handler_start s)) as [r s2]. destruct (audit s1) as [r3 s3].
  destruct H4 as (-> & Hg4 & ms & more & Hl4).
  destruct (errs s1) as [r4 s4]. destruct H3 as (-> & Hg3 & Hl3).
  destruct (acc (prepared s)) as [r5 s5]. destruct H2 as (-> & Hg2 & ms' & Hl2).
  destruct (Recovery (Get "rest" ls) acc (prepared s)) as [r6 s6]. destruct H1 as [-> H1].
  change (gc (handler_start s)) with (gc (prepared s)). split; [exact Hid|]. split; [done|].
  destruct r as [p|].
  - rewrite bool_decide_eq_false_2 in Hl2, Hl3, Hl4 by done. rewrite andb_false_r in Hl4.
    rewrite app_nil_r in Hl2, Hl3, Hl4.
    destruct H1 as [Hg1 Hl1]. rewrite Hl1, Hg1, Hg2, Hg3, Hg4, Hl2, Hl3, Hl4. split; [done|].
    intros Hw. by apply status_abort.
  - rewrite bool_decide_eq_true_2 in Hl2, Hl3, Hl4 by done. rewrite andb_true_r in Hl4. subst s6. split; [congruence|].
    exists ms, more, ms'. rewrite Hl2, Hl3, Hl4, Hg3, Hg4, isMutatingMethod_spec. by rewrite <- !app_assoc.
Qed.

(** C6. The id of a request travels with it.  It is the one in the header X-Request-ID, or
    else 16 fresh random bytes as 32 hexadecimal digits, or nothing if there is neither;
    the handlers find it in gin's context, the peer in the answer under that header name
    however it is spelled, and, unless it is empty, code that has only the request's
    context in that, and a request made on its behalf carries it on. *)
Theorem request_id_travels (next : gin_handler C) (s : mw_state C) (values : go_context)
    (Hctx : c_Context (gc s) = Some values) :
  let id := request_id_of s in
  let c := gc (prepared s) in
  RequestID next s = next (prepared s) /\
  GetRequestID c = id /\ w_Header "X-Request-ID" c = id /\ w_Header "x-request-id" c = id /\
  (id <> "" -> FromContext (c_Context c) = id /\
     forall header, PropagateRequestID c (Some header) = Some (<["X-Request-Id" := id]> header)) /\
  (c_GetHeader "X-Request-ID" (gc s) <> "" -> id = c_GetHeader "X-Request-ID" (gc s)) /\
  (c_GetHeader "X-Request-ID" (gc s) = "" ->
     mw_rand (mrands s) = None /\ id = "" \/
     exists buf, mw_rand (mrands s) = Some buf /\ id = hex_encode buf /\ String.length id = 32).
Proof.
  cbv zeta. destruct (prepared_spec s) as (Hid & Hh & Hc & _).
  split; [apply RequestID_prepared|]. split; [done|]. split; [exact Hh|].
  split; [rewrite <- Hh; by apply header_spelled|]. split_and!.
  - intros Hne. rewrite Hc, Hctx, FromContext_WithContext, (proj2 (str_empty_false _) Hne). split; [done|].
    intros header. unfold PropagateRequestID. by rewrite Hid, (proj2 (str_empty_false _) Hne).
  - intros Hne. unfold request_id_of, requestIDHeader. by rewrite (proj2 (str_empty_false _) Hne).
  - intros He. unfold request_id_of, requestIDHeader. rewrite He. cbn.
    destruct (mw_rand (mrands s)) as [buf|] eqn:Er; [right|by left]. exists buf. split_and!; [done..|].
    by rewrite hex_encode_length, (mw_rand_length _ _ Er).
Qed.
End facts.

(** ** A concrete request *)

Record demo_gin := mk_demo_gin {
  dg_method : string;
  dg_keys : gmap string any_value;
  dg_headers : gmap string string;
  dg_out : gmap string string;
  dg_context : option go_context;
  dg_status : Z;
  dg_written : bool
}.

#[export] Instance demo_gin_context : GinContext demo_gin := {
  c_Method := dg_method;
  c_URLPath := fun _ => "/tasks/7";
  c_RawQuery := fun _ => "force=1";
  c_ClientIP := fun _ => "10.0.0.1";
  c_UserAgent := fun _ => "curl";
  c_GetHeader := fun k c => default "" (dg_headers c !! CanonicalHeaderKey k);
  c_Context := dg_context;
  c_WithContext := fun x c =>
    mk_demo_gin (dg_method c) (dg_keys c) (dg_headers c) (dg_out c) x (dg_status c) (dg_written c);
  c_Get := fun k c => dg_keys c !! k;
  c_Set := fun k v c =>
    mk_demo_gin (dg_method c) (<[k := v]> (dg_keys c)) (dg_headers c) (dg_out c) (dg_context c) (dg_status c)
      (dg_written c);
  w_Header := fun k c => default "" (dg_out c !! CanonicalHeaderKey k);
  w_SetHeader := fun k v c =>
    mk_demo_gin (dg_method c) (dg_keys c) (dg_headers c) (<[CanonicalHeaderKey k := v]> (dg_out c)) (dg_context c) (dg_status c)
      (dg_written c);
  w_Status := dg_status;
  w_Size := fun _ => 2%Z;
  w_Written := dg_written;
  c_Errors := fun _ => [];
  c_AbortWithStatusJSON := fun code _ c =>
    mk_demo_gin (dg_method c) (dg_keys c) (dg_headers c) (dg_out c) (dg_context c)
      (if dg_written c then dg_status c else code) true
}.

#[export] Instance demo_gin_laws : GinLaws demo_gin.
Proof.
  split; try reflexivity; intros; cbn.
  - unfold str_eqb; destruct (String.eqb_spec k k') as [->|Hne]; [by rewrite lookup_insert_eq|by rewrite lookup_insert_ne].
  - unfold str_eqb; destruct (String.eqb_spec (CanonicalHeaderKey k) (CanonicalHeaderKey h)) as [->|Hne];
      [by rewrite lookup_insert_eq|by rewrite lookup_insert_ne].
  - cbn in *. by match goal with E : CanonicalHeaderKey _ = _ |- _ => rewrite E end.
  - cbn in *. by match goal with E : dg_written _ = false |- _ => rewrite E end.
Qed.

#[export] Instance demo_mw_env : MwEnv.
Proof.
  refine {| mw_clock := fun n => (Z.of_nat n * Millisecond)%Z; mw_rand := fun _ => Some (repeat "a"%char 16);
            debug_Stack := "goroutine 1" |}.
  by intros _ ? [= <-].
Defined.

(** A DELETE with an id of its own, on the loggers before initialisation. *)
Definition demo_request_state : mw_state demo_gin :=
  mk_mw (mk_demo_gin "DELETE" ∅ {["X-Request-Id" := "r-1"]} ∅ (Some []) 200 false) [] 0 0.

Definition demo_loggers : log_state :=
  new_log_state {| files := ∅; history := []; io_calls := 0; clock_calls := 0 |}.

Definition demo_refused : gin_handler demo_gin := fun s =>
  (None, s <| gc := c_AbortWithStatusJSON 409 [] (gc s) |>).
Definition demo_crash : gin_handler demo_gin := fun s => (Some "nil map", s).

Lemma router_chain_accounts_witness :
  exists ms more ms', logged (router_chain demo_loggers demo_refused demo_request_state).2 =
    kept (GetAudit "rest" demo_loggers) LevelWarn "audit"
      (audit_fields (gc (handler_start demo_request_state)) (gc (demo_refused (handler_start demo_request_state)).2)
         ms more) ++
    kept (GetAccess demo_loggers) LevelInfo "HTTP access"
      (access_fields (gc (handler_start demo_request_state)) (gc (demo_refused (handler_start demo_request_state)).2)
         ms').
Proof.
  pose proof (router_chain_accounts demo_loggers demo_refused demo_request_state) as H.
  unfold demo_refused at 1 in H.
  destruct (router_chain demo_loggers demo_refused demo_request_state) as [r s'].
  destruct H as (_ & _ & _ & ms & more & ms' & H). exists ms, more, ms'. exact H.
Defined.

(** A panic passes the audit log and the access log by: the request leaves one record,
    of the panic. *)
Example panic_leaves_no_audit :
  let '(r, s') := router_chain demo_loggers demo_crash demo_request_state in
  r = None /\ w_Status (gc s') = 500%Z /\ le_msg <$> logged s' = ["panic recovered"].
Proof. vm_compute. repeat split. Qed.

Lemma request_id_travels_witness :
  GetRequestID (gc (prepared demo_request_state)) = "r-1" /\
  w_Header "x-request-id" (gc (prepared demo_request_state)) = "r-1".
Proof.
  assert (c_Context (gc demo_request_state) = Some []) as Hc by reflexivity.
  destruct (request_id_travels demo_crash demo_request_state [] Hc) as (_ & H1 & _ & H2 & _).
  rewrite H1, H2. split; reflexivity.
Defined.
