(* ===== verification/StateManager.v ===== *)
(** * The state manager (internal/state/manager.go, internal/state/persistence.go)

    One manager owns the daemon state, the metrics setters of the handler and of the
    scheduler, and the state file with its rotating backups.  The setters run under
    the manager's mutex, so each is one step of the state. *)

From S2P Require Import Prelude GoFloat StateM Interfaces Engine StateFile FileSys.

Record ManagerConfig := {
  mc_StateFile : string;
  mc_BackupDir : string;
  mc_MaxBackups : Z;
  mc_SyncInterval : Z
}.

(** The fields of [Manager] that never change. *)
Record Manager := {
  stateFile : string;
  backupDir : string;
  maxBackups : Z;
  syncInterval : Z
}.

(** The manager's state, whether [closeOnce] has run, and the operating system. *)
Record mworld := { daemon : DaemonState; closed : bool; os : os_state }.

#[export] Instance eta_mworld : Eta mworld := fun w =>
  {| daemon := daemon w; closed := closed w; os := os w |}.

Definition clampUint64ToInt64 (v : Z) : Z := if (v >? max_int64)%Z then max_int64 else v.

(** [m[key]++] on a map that is made when it is nil. *)
Definition count_in (key : string) (m : option (gmap string Z)) : option (gmap string Z) :=
  let m := default ∅ m in Some (<[key := wrap64 (default 0%Z (m !! key) + 1)]> m).

Definition cloneStringInt64Map (src : option (gmap string Z)) : option (gmap string Z) :=
  match src with None => None | Some m => Some (list_to_map (map_to_list m)) end.

Definition cloneRuntimeState (src : RuntimeState) : RuntimeState :=
  src <| WSDisconnectByReason := cloneStringInt64Map (WSDisconnectByReason src) |>
      <| SchedulerAssignAttempts := cloneStringInt64Map (SchedulerAssignAttempts src) |>
      <| SchedulerResourceRejections := cloneStringInt64Map (SchedulerResourceRejections src) |>.

Section manager.
Context `{!JsonText} `{!OsEnv}.

Abbreviation M := (st mworld).

(** A system call and a clock reading of the manager. *)
Definition sys {A} (f : os_state -> A * os_state) : M A := fun w =>
  let '(a, o) := f (os w) in (a, w <| os := o |>).
Definition now : M Z := sys time_now.
Definition modify_daemon (f : DaemonState -> DaemonState) : M unit := modify (fun w => w <| daemon ::= f |>).

(** The update of every setter: the change, then [UpdatedAt]. *)
Definition set_state (f : DaemonState -> DaemonState) : M unit :=
  modify_daemon f;; t ← now; modify_daemon (fun s => s <| UpdatedAt := t |>).
Definition set_runtime (f : RuntimeState -> RuntimeState) : M unit :=
  set_state (fun s => s <| Runtime ::= f |>).

Definition NewManager (cfg : ManagerConfig) : M (res Manager) :=
  if str_empty (mc_StateFile cfg) then mret (Err (ENew "state file path is required"))
  else
    let syncInterval := if (mc_SyncInterval cfg <=? 0)%Z then (30 * Second)%Z else mc_SyncInterval cfg in
    let maxBackups := if (mc_MaxBackups cfg <=? 0)%Z then 3%Z else mc_MaxBackups cfg in
    let backupDir :=
      if str_empty (mc_BackupDir cfg) then Join (Dir (mc_StateFile cfg)) "backups" else mc_BackupDir cfg in
    e ← sys (os_MkdirAll (Dir (mc_StateFile cfg)));
    match e with
    | Some err => mret (Err (EWrap "create state dir: " err ""))
    | None =>
        e ← sys (os_MkdirAll backupDir);
        match e with
        | Some err => mret (Err (EWrap "create backup dir: " err ""))
        | None =>
            t ← now;
            modify (fun w => w <| daemon := NewDaemonState t |> <| closed := false |>);;
            mret (Ok {| stateFile := mc_StateFile cfg; backupDir := backupDir; maxBackups := maxBackups;
                        syncInterval := syncInterval |})
        end
    end.

(** What [Load] repairs in a state it has read. *)
Definition complete_loaded (s : DaemonState) : DaemonState :=
  let s := if str_empty (Version s) then s <| Version := "1.0" |> else s in
  s <| Runtime ::= fun r =>
    r <| SchedulerAssignAttempts ::= fun m => Some (default ∅ m) |>
      <| SchedulerResourceRejections ::= fun m => Some (default ∅ m) |>
      <| WSDisconnectByReason ::= fun m => Some (default ∅ m) |> |>.

Definition Load (m : Manager) : M (option go_error) :=
  r ← sys (os_ReadFile (stateFile m));
  match r with
  | Err err =>
      if errors_is err OsErrNotExist then mret None
      else mret (Some (EWrap "read state file: " err ""))
  | Ok data =>
      match unmarshal_state data with
      | None => t ← now; modify_daemon (fun _ => NewDaemonState t);; mret None
      | Some loaded => modify_daemon (fun _ => complete_loaded loaded);; mret None
      end
  end.

Definition writeAtomically (m : Manager) (data : string) : M (option go_error) :=
  let tmpPath := stateFile m +:+ ".tmp" in
  e ← sys (os_WriteFile tmpPath data);
  match e with
  | Some err => mret (Some (EWrap "write temp state file: " err ""))
  | None =>
      e ← sys (os_Rename tmpPath (stateFile m));
      match e with
      | Some err => mret (Some (EWrap "rename temp state file: " err ""))
      | None => mret None
      end
  end.

Definition Save (m : Manager) : M (option go_error) :=
  t ← now;
  modify_daemon (fun s => s <| UpdatedAt := t |>);;
  data ← gets (marshal_state ∘ daemon);
  match data with
  | None => mret (Some (EWrap "marshal state: " encode_error ""))
  | Some data => writeAtomically m data
  end.

(** The loop over the old backups: the first failure ends it. *)
Fixpoint remove_files (paths : list string) : M (option go_error) :=
  match paths with
  | [] => mret None
  | oldFile :: paths =>
      e ← sys (os_Remove oldFile);
      match e with
      | Some err => mret (Some (EWrap ("remove old backup " +:+ oldFile +:+ ": ") err ""))
      | None => remove_files paths
      end
  end.

Definition cleanupOldBackups (m : Manager) : M (option go_error) :=
  found ← sys (Glob (backupDir m) "daemon.state.");
  match found with
  | Err err => mret (Some (EWrap "list backup files: " err ""))
  | Ok found =>
      let fs := sort_strings found in
      if (Z.of_nat (length fs) <=? maxBackups m)%Z then mret None
      else remove_files (take (length fs - Z.to_nat (maxBackups m)) fs)
  end.

Definition Backup (m : Manager) : M (option go_error) :=
  r ← sys (os_ReadFile (stateFile m));
  match r with
  | Err err =>
      if errors_is err OsErrNotExist then mret None
      else mret (Some (EWrap "read state for backup: " err ""))
  | Ok data =>
      t ← now;
      let backupPath := Join (backupDir m) ("daemon.state." +:+ stamp_of t) in
      e ← sys (os_WriteFile backupPath data);
      match e with
      | Some err => mret (Some (EWrap "write state backup: " err ""))
      | None => cleanupOldBackups m
      end
  end.

(** One tick of [StartBackgroundSync]; its errors are only logged. *)
Definition sync_tick (m : Manager) : M unit :=
  e ← Save m;
  match e with
  | Some _ => mret tt
  | None => Backup m;; mret tt
  end.

Definition Close (m : Manager) : M (option go_error) :=
  done_ ← gets closed;
  if (done_ : bool) then mret None
  else
    modify (fun w => w <| closed := true |>);;
    e ← Save m;
    match e with
    | Some err => mret (Some (EWrap "save state on close: " err ""))
    | None =>
        e ← Backup m;
        match e with
        | Some err => mret (Some (EWrap "backup state on close: " err ""))
        | None => mret None
        end
    end.

(** ** Setters *)

Definition SetServerStatus (status : string) : M unit :=
  set_state (fun s => s <| Server ::= fun v => v <| Status := status |> |>).

Definition m_SetRuntimeWS (active lastConnectUnix : Z) : M unit :=
  set_runtime (fun r => r <| ActiveWSConnections := active |> <| LastWSConnectUnix := lastConnectUnix |>).

Definition SetRuntimeWSPing (lastPingUnix lastPongUnix lastRTTMs : Z) : M unit :=
  let lastPingUnix := if (lastPingUnix <? 0)%Z then 0%Z else lastPingUnix in
  let lastPongUnix := if (lastPongUnix <? 0)%Z then 0%Z else lastPongUnix in
  let lastRTTMs := if (lastRTTMs <? 0)%Z then 0%Z else lastRTTMs in
  set_runtime (fun r => r <| LastWSPingUnix := lastPingUnix |> <| LastWSPongUnix := lastPongUnix |>
                          <| LastWSPingRTTMs := lastRTTMs |>).

Definition m_SetRuntimeWSHeartbeat (lastHeartbeatUnix : Z) : M unit :=
  set_runtime (fun r => r <| LastWSHeartbeatUnix := lastHeartbeatUnix |>).

Definition m_IncrementRuntimeWSTimeout (lastTimeoutUnix : Z) : M unit :=
  set_runtime (fun r => r <| LastWSTimeoutUnix := lastTimeoutUnix |>
                          <| WSTimeoutCount ::= fun n => wrap64 (n + 1) |>).

Definition m_SetRuntimeWSDisconnect (total close4009 : Z) (byReason : gmap string Z) : M unit :=
  let reasons := clampUint64ToInt64 <$> byReason in
  set_runtime (fun r => r <| WSDisconnectTotal := clampUint64ToInt64 total |>
                          <| WSDisconnectClose4009 := clampUint64ToInt64 close4009 |>
                          <| WSDisconnectByReason := Some reasons |>).

Definition m_SetRuntimeScheduler (cycleCount lastCandidateCount lastRunUnix : Z) : M unit :=
  set_runtime (fun r => r <| SchedulerCycleCount := cycleCount |>
                          <| SchedulerLastCandidateCount := lastCandidateCount |>
                          <| SchedulerLastRunUnix := lastRunUnix |>).

Definition m_RecordSchedulerAssignAttempt (result : string) : M unit :=
  if str_empty result then mret tt
  else set_runtime (fun r => r <| SchedulerAssignAttempts ::= count_in result |>).

Definition m_SetSchedulerAssignLatencyMs (latencyMs : f64) : M unit :=
  let latencyMs := if f_lt latencyMs f_zero then f_zero else latencyMs in
  set_runtime (fun r => r <| SchedulerAssignLatencyMs := latencyMs |>).

Definition m_SetSchedulerScoreDistribution (p50 p95 : f64) : M unit :=
  let p50 := if f_lt p50 f_zero then f_zero else p50 in
  let p95 := if f_lt p95 f_zero then f_zero else p95 in
  set_runtime (fun r => r <| SchedulerScoreP50 := p50 |> <| SchedulerScoreP95 := p95 |>).

Definition m_SetSchedulerLastAssignStatus (status : string) : M unit :=
  set_runtime (fun r => r <| SchedulerLastAssignStatus := status |>).

Definition m_RecordSchedulerResourceRejection (reason : string) : M unit :=
  if str_empty reason then mret tt
  else set_runtime (fun r => r <| SchedulerResourceRejections ::= count_in reason |>).

Definition GetState : M DaemonState :=
  gets ((fun s => s <| Runtime ::= cloneRuntimeState |>) ∘ daemon).
End manager.
Arguments writeAtomically : simpl never.
Arguments Save : simpl never.
Arguments Backup : simpl never.
Arguments cleanupOldBackups : simpl never.

(** ** The manager behind the interfaces of its clients *)

(** [runtimeStateSink] and the optional sinks the handler asserts: the manager has
    all four methods. *)
#[export] Instance manager_sink `{!OsEnv} : RuntimeSink mworld := {
  SetRuntimeWS := fun active last w => (m_SetRuntimeWS active last w).2;
  SetRuntimeWSHeartbeat := Some (fun t w => (m_SetRuntimeWSHeartbeat t w).2);
  IncrementRuntimeWSTimeout := Some (fun t w => (m_IncrementRuntimeWSTimeout t w).2);
  SetRuntimeWSDisconnect := Some (fun total c r w => (m_SetRuntimeWSDisconnect total c r w).2)
}.

(** The scheduler's [schedulerQualityMetricsSink]. *)
Definition manager_quality `{!OsEnv} : quality_sink mworld := {|
  RecordSchedulerAssignAttempt := fun result w => (m_RecordSchedulerAssignAttempt result w).2;
  SetSchedulerAssignLatencyMs := fun x w => (m_SetSchedulerAssignLatencyMs x w).2;
  SetSchedulerScoreDistribution := fun p q w => (m_SetSchedulerScoreDistribution p q w).2;
  SetSchedulerLastAssignStatus := fun status w => (m_SetSchedulerLastAssignStatus status w).2;
  RecordSchedulerResourceRejection := fun reason w => (m_RecordSchedulerResourceRejection reason w).2
|}.
