(* ===== verification/StateDemo.v ===== *)
(** * A concrete text format and operating system for the state manager

    An instance of [JsonText] whose laws are proved, so that the hypotheses on the
    standard library hold of something: a tree, a number or a time is written as the
    decimal code stdpp's [Countable] gives it.  No system call of the environment
    fails. *)

From Stdlib Require Import DecimalString DecimalPos.
From stdpp Require Import countable.
From S2P Require Import Prelude GoFloat StateM StateFile FileSys StateManager.

(** ** Codes as text *)

Definition pos_text (p : positive) : string := NilEmpty.string_of_uint (Pos.to_uint p).
Definition text_pos (s : string) : option positive :=
  d ← NilEmpty.uint_of_string s;
  match Pos.of_uint d with N0 => None | Npos p => Some p end.

Lemma text_pos_text p : text_pos (pos_text p) = Some p.
Proof. unfold text_pos, pos_text. rewrite NilEmpty.usu. cbn. by rewrite DecimalPos.Unsigned.of_to. Qed.

Definition code_text {A} `{Countable A} (a : A) : string := pos_text (encode a).
Definition text_code {A} `{Countable A} (s : string) : option A := p ← text_pos s; decode p.

Lemma text_code_text {A} `{Countable A} (a : A) : text_code (code_text a) = Some a.
Proof. unfold text_code, code_text. rewrite text_pos_text. apply decode_encode. Qed.

Lemma ascii_code_text {A} `{Countable A} (a : A) : ascii_string (code_text a) = true.
Proof. apply ascii_uint. Qed.

Lemma number_code_text {A} `{Countable A} (a : A) : json_number (code_text a) = true.
Proof. apply json_number_pos. Qed.

(** ** Trees *)

Fixpoint json_tree (j : json) : gen_tree string :=
  match j with
  | JNull => GenNode 0 []
  | JBool b => GenNode (if b then 2 else 1) []
  | JString s => GenNode 3 [GenLeaf s]
  | JNumber s => GenNode 4 [GenLeaf s]
  | JArray l => GenNode 5 (json_tree <$> l)
  | JObject m => GenNode 6 ((fun kv => GenNode 0 [GenLeaf kv.1; json_tree kv.2]) <$> m)
  end.

Fixpoint tree_json (t : gen_tree string) : json :=
  match t with
  | GenNode 1 _ => JBool false
  | GenNode 2 _ => JBool true
  | GenNode 3 [GenLeaf s] => JString s
  | GenNode 4 [GenLeaf s] => JNumber s
  | GenNode 5 l => JArray (tree_json <$> l)
  | GenNode 6 l =>
      JObject ((fun t => match t with
                         | GenNode _ [GenLeaf k; v] => (k, tree_json v)
                         | _ => ("", JNull)
                         end) <$> l)
  | _ => JNull
  end.

Fixpoint tree_json_tree (j : json) : tree_json (json_tree j) = j.
Proof.
  destruct j as [|[]| | |l|m]; cbn; try done; f_equal.
  - induction l as [|x l IH]; cbn; [done|]. by rewrite tree_json_tree, IH.
  - induction m as [|[k v] m IH]; cbn; [done|]. by rewrite tree_json_tree, IH.
Qed.

(** Floating point numbers as countable tuples. *)
Definition float_tuple (x : f64) : nat * bool * positive * Z :=
  match x with
  | S754_nan => (0%nat, false, 1%positive, 0%Z)
  | S754_infinity s => (1%nat, s, 1%positive, 0%Z)
  | S754_zero s => (2%nat, s, 1%positive, 0%Z)
  | S754_finite s m e => (3%nat, s, m, e)
  end.

Definition tuple_float (t : nat * bool * positive * Z) : f64 :=
  match t with
  | (0%nat, _, _, _) => S754_nan
  | (1%nat, s, _, _) => S754_infinity s
  | (2%nat, s, _, _) => S754_zero s
  | (_, s, m, e) => S754_finite s m e
  end.

#[export] Instance demo_text : JsonText := {
  json_indent := fun j => code_text (json_tree j);
  json_parse := fun s => tree_json <$> text_code s;
  format_float := fun x => code_text (float_tuple x);
  parse_float := fun s => tuple_float <$> text_code s;
  format_time := fun t => code_text t;
  parse_time := text_code;
  encode_error := ENew "json: unsupported value"
}.

#[export] Instance demo_text_laws : JsonTextLaws.
Proof.
  split; [intros j _|intros x _|intros x _|intros t _|intros t];
    cbn [json_parse json_indent parse_float format_float parse_time format_time demo_text];
    rewrite ?text_code_text; try apply ascii_code_text; try apply number_code_text; [| |done].
  - exact (f_equal Some (tree_json_tree j)).
  - by destruct x.
Qed.

(** ** An operating system without failures *)

#[export] Instance demo_os : OsEnv := {
  io_fault := fun _ => None;
  io_unread := fun _ _ => false;
  glob_dirs := fun _ => None;
  now_at := fun n => ((1700000000 + Z.of_nat n) * Second)%Z
}.

Definition demo_manager : Manager :=
  {| stateFile := "state/daemon.json"; backupDir := "state/backups"; maxBackups := 2; syncInterval := Minute |}.

Definition demo_mworld : mworld :=
  {| daemon := NewDaemonState (1699999999 * Second); closed := false;
     os := {| files :=
                {["state/daemon.json" := "old";
                  "state/backups/daemon.state.20200101_000000" := "a";
                  "state/backups/daemon.state.20210101_000000" := "b";
                  "state/backups/notes.txt" := "n"]};
              history := []; io_calls := 0; clock_calls := 0 |} |}.

(** [NewManager] fills in the defaults; a backup drops the oldest file. *)
Example NewManager_demo :
  (NewManager {| mc_StateFile := "state/daemon.json"; mc_BackupDir := ""; mc_MaxBackups := 0; mc_SyncInterval := 0 |}
     demo_mworld).1 =
  Ok {| stateFile := "state/daemon.json"; backupDir := "state/backups"; maxBackups := 3; syncInterval := 30 * Second |}.
Proof. reflexivity. Qed.

Example Backup_demo :
  sort_strings (glob_files "state/backups" "daemon.state." (files (os (Backup demo_manager demo_mworld).2))) =
  ["state/backups/daemon.state.20210101_000000"; "state/backups/daemon.state.20231114_221320"].
Proof. vm_compute. reflexivity. Qed.
