(* ===== verification/StateFacts.v ===== *)
(** * Facts about the state manager

    The state file survives crashes and failed writes, what is saved is what is
    loaded, backups rotate, and the state keeps its shape. *)

From S2P Require Import Prelude GoFloat StateM Interfaces Engine StateFile FileSys StateManager StateDemo.

(** ** Files *)

Lemma tmp_path_ne path : path +:+ ".tmp" <> path.
Proof.
  intros H. apply (f_equal String.length) in H. rewrite length_str_app in H. cbn in H. lia.
Qed.

(** [d] shows the files of [d0] except at the paths of [ps]. *)
Definition same_except (ps : list string) (d0 d : disk) : Prop :=
  forall p, p ∉ ps -> d !! p = d0 !! p.

Lemma same_except_insert ps p data d0 d :
  p ∈ ps -> same_except ps d0 d -> same_except ps d0 (<[p := data]> d).
Proof. intros Hp H q Hq. rewrite lookup_insert_ne; [by apply H|]. by intros ->. Qed.

Lemma same_except_delete ps p d0 d :
  p ∈ ps -> same_except ps d0 d -> same_except ps d0 (delete p d).
Proof. intros Hp H q Hq. rewrite lookup_delete_ne; [by apply H|]. by intros ->. Qed.

(** The run of a program moved the disk through the states [visited]. *)
Definition visits (o o' : os_state) (visited : list disk) : Prop :=
  history o' = history o ++ visited.

Lemma visits_put_file path data o :
  visits o (put_file path data o) ((fun p => <[path := p]> (files o)) <$> prefixes data).
Proof. done. Qed.

Section os.
Context `{!OsEnv}.

(** Whatever happens, writing a file changes no other file, on the way and at the
    end; success leaves the whole content. *)
Lemma os_WriteFile_spec path data o :
  let '(e, o') := os_WriteFile path data o in
  exists visited, visits o o' visited /\
    Forall (same_except [path] (files o)) (files o' :: visited) /\
    clock_calls o' = clock_calls o /\
    (e = None -> files o' = <[path := data]> (files o)).
Proof.
  assert (Hput : forall data o1, files o1 = files o -> history o1 = history o ->
    visits o (put_file path data o1) ((fun p => <[path := p]> (files o)) <$> prefixes data) /\
    Forall (same_except [path] (files o))
      (files (put_file path data o1) :: ((fun p => <[path := p]> (files o)) <$> prefixes data))).
  { intros d o1 Hf Hh. pose proof (visits_put_file path d o1) as Hv. unfold visits in *.
    rewrite Hf, Hh in Hv. split; [done|].
    assert (files (put_file path d o1) = <[path := d]> (files o)) as -> by (cbn; by rewrite Hf).
    constructor; [|apply Forall_fmap, Forall_true; intros p];
      (apply same_except_insert; [set_solver|by intros ? ?]). }
  unfold os_WriteFile, next_fault. destruct (io_fault (io_calls o)) as [[[k|] err]|]; cbn.
  - destruct (Hput (String.substring 0 k data) (o <| io_calls ::= S |>) eq_refl eq_refl) as [Hv Hs].
    eexists. by split_and!.
  - exists []. unfold visits. rewrite app_nil_r. split_and!; try done. by repeat constructor.
  - destruct (Hput data (o <| io_calls ::= S |>) eq_refl eq_refl) as [Hv Hs].
    eexists. by split_and!.
Qed.

Lemma os_Rename_spec old new o :
  let '(e, o') := os_Rename old new o in
  exists visited, visits o o' visited /\
    clock_calls o' = clock_calls o /\
    match e with
    | Some _ => files o' = files o /\ visited = []
    | None => exists data, files o !! old = Some data /\
                files o' = <[new := data]> (delete old (files o)) /\ visited = [files o']
    end.
Proof.
  unfold os_Rename, next_fault. cbn.
  destruct (io_fault (io_calls o)); [|destruct (files o !! old) as [data|] eqn:E].
  - exists []. unfold visits. by rewrite app_nil_r.
  - eexists. split; [done|]. split; [done|]. by exists data.
  - exists []. unfold visits. by rewrite app_nil_r.
Qed.
End os.

(** ** Atomic replacement of the state file *)

Section save.
Context `{!JsonText} `{!OsEnv} (m : Manager).

Abbreviation own_files := [stateFile m; stateFile m +:+ ".tmp"].

(** A disk that differs from [d0] at most in the manager's two files, and whose
    state file is the old one or [data]. *)
Definition old_or_new (d0 : disk) (data : option string) (d : disk) : Prop :=
  same_except own_files d0 d /\
  (d !! stateFile m = d0 !! stateFile m \/ is_Some data /\ d !! stateFile m = data).

Lemma old_or_new_tmp d0 data d :
  same_except [stateFile m +:+ ".tmp"] d0 d -> old_or_new d0 data d.
Proof.
  intros Hd. split; [intros p Hp; apply Hd; set_solver|].
  left. apply Hd. pose proof (tmp_path_ne (stateFile m)). set_solver.
Qed.

Lemma writeAtomically_spec data w :
  let '(e, w') := writeAtomically m data w in
  exists visited, visits (os w) (os w') visited /\ daemon w' = daemon w /\
    Forall (old_or_new (files (os w)) (Some data)) (files (os w') :: visited) /\
    clock_calls (os w') = clock_calls (os w) /\
    files (os w') !! stateFile m =
      match e with None => Some data | Some _ => files (os w) !! stateFile m end.
Proof.
  unfold writeAtomically, sys, mbind, st_bind, mret, st_ret. cbn.
  pose proof (os_WriteFile_spec (stateFile m +:+ ".tmp") data (os w)) as Hw.
  destruct (os_WriteFile _ data (os w)) as [[err|] o]; cbn;
    destruct Hw as (v & Hv & Hs & Hc & Hd).
  { exists v. split_and!; try done.
    - eapply Forall_impl; [exact Hs|]. apply old_or_new_tmp.
    - inversion Hs as [|? ? Hf _]; subst. apply Hf. pose proof (tmp_path_ne (stateFile m)). set_solver. }
  pose proof (os_Rename_spec (stateFile m +:+ ".tmp") (stateFile m) o) as Hr.
  destruct (os_Rename _ _ o) as [[err|] o']; cbn; destruct Hr as (v' & Hv' & Hc' & H').
  - destruct H' as [Hf ->]. exists v. unfold visits in *. rewrite app_nil_r in Hv'. rewrite Hv', Hf, Hc'.
    split_and!; try done.
    + eapply Forall_impl; [exact Hs|]. apply old_or_new_tmp.
    + inversion Hs as [|? ? Hf' _]; subst. apply Hf'. pose proof (tmp_path_ne (stateFile m)). set_solver.
  - destruct H' as (data' & Hl & Hf & ->). rewrite (Hd eq_refl) in Hl, Hf.
    rewrite lookup_insert_eq in Hl. injection Hl as <-.
    assert (Hnew : old_or_new (files (os w)) (Some data) (files o')).
    { split; [|right; rewrite Hf; by rewrite lookup_insert_eq]. rewrite Hf.
      apply same_except_insert, same_except_delete, same_except_insert; [set_solver..|by intros ? ?]. }
    exists (v ++ [files o']). unfold visits in *. rewrite Hv', Hv, app_assoc, Hc', Hc.
    split_and!; try done.
    + constructor; [done|]. apply Forall_app. split; [|by apply Forall_singleton].
      inversion Hs; subst. eapply Forall_impl; [done|]. apply old_or_new_tmp.
    + rewrite Hf. by rewrite lookup_insert_eq.
Qed.

(** What [Save] encodes: the state as it is, stamped with the clock. *)
Definition saved_state (w : mworld) : DaemonState :=
  (daemon w) <| UpdatedAt := now_at (clock_calls (os w)) |>.

Lemma Save_unfold w :
  Save m w =
  let w1 := w <| daemon := saved_state w |> <| os ::= fun o => o <| clock_calls ::= S |> |> in
  match marshal_state (saved_state w) with
  | None => (Some (EWrap "marshal state: " encode_error ""), w1)
  | Some data => writeAtomically m data w1
  end.
Proof.
  unfold Save, now, sys, gets, modify_daemon, modify, mbind, st_bind. cbn.
  change ((daemon w) <| UpdatedAt := _ |>) with (saved_state w). by destruct (marshal_state (saved_state w)).
Qed.

(** C31. Saving never damages the state file: in every state the disk passes
    through while [Save] runs, so wherever a crash stops it, the state file is the
    previous one or the complete encoding of the current state, and no file but
    the state file and its temporary sibling changes.  On success the file is that
    encoding; on every error it is the previous one. *)
Theorem save_is_atomic w :
  let '(e, w') := Save m w in
  exists visited, visits (os w) (os w') visited /\
    daemon w' = saved_state w /\
    Forall (old_or_new (files (os w)) (marshal_state (saved_state w)))
      (files (os w') :: visited) /\
    files (os w') !! stateFile m =
      match e with
      | None => marshal_state (saved_state w)
      | Some _ => files (os w) !! stateFile m
      end /\
    (e <> None \/ is_Some (marshal_state (saved_state w))).
Proof.
  rewrite Save_unfold. cbv zeta. destruct (marshal_state (saved_state w)) as [data|] eqn:E.
  - pose proof (writeAtomically_spec data
      (w <| daemon := saved_state w |> <| os ::= fun o => o <| clock_calls ::= S |> |>)) as Hw.
    destruct (writeAtomically m data _) as [e w']. destruct Hw as (v & Hv & Hd & Hs & _ & Hf).
    exists v. split_and!; try done. right. by exists data.
  - exists []. unfold visits. rewrite app_nil_r. split_and!; try done; [|by left].
    apply Forall_singleton. split; [by intros ? ?|by left].
Qed.

(** A successful [Save] leaves the encoding of the stamped state on disk. *)
Lemma Save_success w w' :
  Save m w = (None, w') ->
  exists data, marshal_state (saved_state w) = Some data /\ files (os w') !! stateFile m = Some data /\
    daemon w' = saved_state w.
Proof.
  rewrite Save_unfold. cbv zeta. destruct (marshal_state (saved_state w)) as [data|]; [|done]. intros HS.
  match type of HS with writeAtomically m data ?x = _ => pose proof (writeAtomically_spec data x) as Hw end.
  rewrite HS in Hw. destruct Hw as (_ & _ & Hd & _ & _ & Hf). eauto.
Qed.
End save.

(** ** Loading *)

(** What every state in memory satisfies: its maps are there and it has a version. *)
Record state_complete (s : DaemonState) : Prop := {
  sc_version : Version s <> "";
  sc_reasons : is_Some (WSDisconnectByReason (Runtime s));
  sc_attempts : is_Some (SchedulerAssignAttempts (Runtime s));
  sc_rejections : is_Some (SchedulerResourceRejections (Runtime s))
}.

Lemma complete_loaded_complete s : state_complete (complete_loaded s).
Proof.
  unfold complete_loaded. destruct (str_empty (Version s)) eqn:E; split; cbn; eauto.
  by apply str_empty_false in E.
Qed.

Lemma complete_loaded_id s : state_complete s -> complete_loaded s = s.
Proof.
  intros [Hv [r Hr] [a Ha] [j Hj]]. unfold complete_loaded.
  rewrite (proj2 (str_empty_false _) Hv). destruct s as [v u sv r']. destruct r'. cbn in *. by subst.
Qed.

Section load.
Context `{!JsonText} `{!JsonTextLaws} `{!OsEnv}.

(** C32. What is saved is what is loaded: take a complete state ([state_complete]: the
    version is not empty, no counter map is nil; C33 keeps it so) whose strings and counter
    keys are ASCII text and whose numbers are [int64]s and finite floats ([state_text]).
    After a successful [Save] of it, a manager that finds these files (a restarted
    process) and can read the state file takes on exactly the saved state, [UpdatedAt]
    included.  Outside ASCII the encoder may replace invalid UTF-8, so nothing is said. *)
Theorem save_load_round_trip m w w' w2 :
  state_complete (daemon w) -> state_text (daemon w) ->
  Save m w = (None, w') ->
  files (os w2) = files (os w') -> io_fault (io_calls (os w2)) = None ->
  exists w3, Load m w2 = (None, w3) /\ daemon w3 = saved_state w /\ daemon w3 = daemon w'.
Proof.
  intros Hc Ht HS Hf Hio. destruct (Save_success m w w' HS) as (data & Hm & Hd & Hw).
  rewrite <- Hf in Hd.
  assert (Hu : unmarshal_state data = Some (saved_state w)).
  { eapply unmarshal_marshal; [|exact Hm]. destruct Ht as [? ? ?]. by split. }
  unfold Load, sys, mbind, st_bind. unfold os_ReadFile, next_fault. rewrite Hio. cbn. rewrite Hd, Hu.
  eexists. split; [done|]. cbn.
  rewrite complete_loaded_id; [done|]. destruct Hc as [? ? ? ?]. by split.
Qed.
End load.

(** ** The shape of the state *)

Definition counters_wf (m : option (gmap string Z)) : Prop :=
  map_Forall (fun _ v => in_int64 v) (default ∅ m).

(** Every [int64] of the runtime state is one. *)
Record runtime_wf (r : RuntimeState) : Prop := {
  rw_ints : Forall in_int64
    [ActiveWSConnections r; LastWSConnectUnix r; LastWSPingUnix r; LastWSPongUnix r; LastWSPingRTTMs r;
     LastWSHeartbeatUnix r; LastWSTimeoutUnix r; WSTimeoutCount r; WSDisconnectTotal r;
     WSDisconnectClose4009 r; SchedulerCycleCount r; SchedulerLastCandidateCount r;
     SchedulerLastRunUnix r];
  rw_maps : Forall counters_wf
    [WSDisconnectByReason r; SchedulerAssignAttempts r; SchedulerResourceRejections r]
}.

Definition state_wf (s : DaemonState) : Prop := state_complete s /\ runtime_wf (Runtime s).

Lemma in_int64_0 : in_int64 0.
Proof. by split. Qed.

Lemma clamp_int64 v : in_uint64 v -> in_int64 (clampUint64ToInt64 v).
Proof. unfold clampUint64ToInt64. intros ?. case_match; ints. Qed.

Lemma nonneg_int64 v : in_int64 v -> in_int64 (if (v <? 0)%Z then 0%Z else v).
Proof. case_match; [by intros; apply in_int64_0|done]. Qed.

Lemma count_in_wf key m : counters_wf m -> counters_wf (count_in key m).
Proof. intros Hm. unfold counters_wf, count_in. cbn. by apply map_Forall_insert_2; [apply wrap64_range|]. Qed.

(** A literal list, element by element. *)
Ltac forall_list tac := repeat (apply Forall_cons; split; [tac|]); apply Forall_nil_2.

Lemma runtime_wf_zero : runtime_wf zero_RuntimeState.
Proof. split; [forall_list ltac:(apply in_int64_0)|forall_list ltac:(by intros ? ? ?)]. Qed.

Lemma NewDaemonState_wf t : state_wf (NewDaemonState t).
Proof.
  split; [split; cbn; [done|eauto..]|].
  split; [forall_list ltac:(apply in_int64_0)|forall_list ltac:(by intros ? ? ?)].
Qed.

(** Decoding keeps every integer in its type, whatever the file holds. *)
Lemma dec_int64_wf j z v : in_int64 z -> dec int64_codec j z = Some v -> in_int64 v.
Proof.
  intros Hz. destruct j; cbn; try done; [by intros [= <-]|]. unfold parse_int.
  intros (i & _ & Hi)%bind_Some. case_match; [|done]. simplify_eq. ints.
Qed.

Lemma dec_members_wf kvs m m' :
  map_Forall (fun _ v => in_int64 v) m -> dec_members kvs m = Some m' -> map_Forall (fun _ v => in_int64 v) m'.
Proof.
  revert m. induction kvs as [|[k j] kvs IH]; intros m Hm; [by intros [= <-]|].
  cbn [dec_members]. intros (v & Hv & Hk)%bind_Some. apply IH in Hk; [done|].
  apply map_Forall_insert_2; [|done]. eapply dec_int64_wf; [apply in_int64_0|done].
Qed.

Lemma dec_counters_wf j m m' : counters_wf m -> dec counters_codec j m = Some m' -> counters_wf m'.
Proof.
  intros Hm. destruct j; cbn; try done; [by intros [= <-]|].
  intros (k & Hk & ->)%fmap_Some. by eapply dec_members_wf.
Qed.

Lemma dec_fields_invariant {R} (I : R -> Prop) (fs : list (field R)) kvs r r' :
  Forall (fun f => forall j r r', I r -> f_dec f j r = Some r' -> I r') fs ->
  I r -> dec_fields fs kvs r = Some r' -> I r'.
Proof.
  intros Hfs. revert r. induction kvs as [|[k j] kvs IH]; intros r Hr; cbn; [by intros [= <-]|].
  destruct (find_field fs k) as [f|] eqn:Ef; [|by apply IH].
  intros (r1 & Hd & Hk)%bind_Some. apply (IH r1); [|done].
  assert (Hin : f ∈ fs).
  { revert Ef. clear. induction fs as [|g fs IH]; cbn; [done|].
    case_match; [intros [= <-]; by left|]. intros ?. right. auto. }
  rewrite Forall_forall in Hfs. by eapply Hfs.
Qed.

Lemma tag_invariant {R A} (I : R -> Prop) name (proj : R -> A) `{!FieldSet proj} (c : codec A)
    (Q : A -> Prop) :
  (forall j a b, Q a -> dec c j a = Some b -> Q b) ->
  (forall r, I r -> Q (proj r)) ->
  (forall r a, I r -> Q a -> I (r <| proj := a |>)) ->
  forall j r r', I r -> f_dec (tag name proj c) j r = Some r' -> I r'.
Proof. intros Hc Hp Hu j r r' Hr (a & Ha & [= <-])%bind_Some. eauto. Qed.

(** [runtime_wf_auto] proves an update well-formed from the parts of the state before. *)
Ltac runtime_wf_auto :=
  intros;
  repeat match goal with
  | H : runtime_wf _ |- _ => destruct H as [? ?]
  | H : Forall _ (_ :: _) |- _ => apply Forall_cons in H as [? H]
  end;
  first [done|split; cbn in *; [forall_list ltac:(auto using in_int64_0, wrap64_range, clamp_int64, nonneg_int64)
                        |forall_list ltac:(auto using count_in_wf)]].

Lemma runtime_fields_wf `{!JsonText} :
  Forall (fun f => forall j r r', runtime_wf r -> f_dec f j r = Some r' -> runtime_wf r') runtime_fields.
Proof.
  unfold runtime_fields.
  forall_list ltac:(
    first [apply (tag_invariant runtime_wf _ _ int64_codec in_int64); [exact dec_int64_wf|..]
          |apply (tag_invariant runtime_wf _ _ counters_codec counters_wf); [exact dec_counters_wf|..]
          |apply (tag_invariant runtime_wf _ _ _ (fun _ => True)); [done|..]]; runtime_wf_auto).
Qed.

Inductive manager_op :=
  | OpSetServerStatus (status : string)
  | OpSetRuntimeWS (active lastConnectUnix : Z)
  | OpSetRuntimeWSPing (lastPingUnix lastPongUnix lastRTTMs : Z)
  | OpSetRuntimeWSHeartbeat (lastHeartbeatUnix : Z)
  | OpIncrementRuntimeWSTimeout (lastTimeoutUnix : Z)
  | OpSetRuntimeWSDisconnect (total close4009 : Z) (byReason : gmap string Z)
  | OpSetRuntimeScheduler (cycleCount lastCandidateCount lastRunUnix : Z)
  | OpRecordAssignAttempt (result : string)
  | OpSetAssignLatency (latencyMs : f64)
  | OpSetScoreDistribution (p50 p95 : f64)
  | OpSetLastAssignStatus (status : string)
  | OpRecordResourceRejection (reason : string)
  | OpLoad
  | OpSync
  | OpClose.

(** The arguments have the types of the Go signatures. *)
Definition manager_op_wf (op : manager_op) : Prop :=
  match op with
  | OpSetRuntimeWS a b => in_int64 a /\ in_int64 b
  | OpSetRuntimeWSPing a b c | OpSetRuntimeScheduler a b c => in_int64 a /\ in_int64 b /\ in_int64 c
  | OpSetRuntimeWSHeartbeat a | OpIncrementRuntimeWSTimeout a => in_int64 a
  | OpSetRuntimeWSDisconnect a b r => in_uint64 a /\ in_uint64 b /\ map_Forall (fun _ v => in_uint64 v) r
  | _ => True
  end.

Section shape.
Context `{!JsonText} `{!OsEnv} (m : Manager).

Definition run_manager_op (op : manager_op) : st mworld unit :=
  match op with
  | OpSetServerStatus s => SetServerStatus s
  | OpSetRuntimeWS a b => m_SetRuntimeWS a b
  | OpSetRuntimeWSPing a b c => SetRuntimeWSPing a b c
  | OpSetRuntimeWSHeartbeat a => m_SetRuntimeWSHeartbeat a
  | OpIncrementRuntimeWSTimeout a => m_IncrementRuntimeWSTimeout a
  | OpSetRuntimeWSDisconnect a b r => m_SetRuntimeWSDisconnect a b r
  | OpSetRuntimeScheduler a b c => m_SetRuntimeScheduler a b c
  | OpRecordAssignAttempt s => m_RecordSchedulerAssignAttempt s
  | OpSetAssignLatency x => m_SetSchedulerAssignLatencyMs x
  | OpSetScoreDistribution x y => m_SetSchedulerScoreDistribution x y
  | OpSetLastAssignStatus s => m_SetSchedulerLastAssignStatus s
  | OpRecordResourceRejection s => m_RecordSchedulerResourceRejection s
  | OpLoad => Load m;; mret tt
  | OpSync => sync_tick m
  | OpClose => Close m;; mret tt
  end.

Fixpoint run_manager (ops : list manager_op) : st mworld unit :=
  match ops with
  | [] => mret tt
  | op :: ops => run_manager_op op;; run_manager ops
  end.

Abbreviation wf := (fun w => state_wf (daemon w)).

Lemma sys_keeps_daemon {A} (f : os_state -> A * os_state) : steps (same daemon) (sys f).
Proof. intros w. unfold sys, same. by destruct (f (os w)). Qed.

Lemma sys_keeps {A} (f : os_state -> A * os_state) : steps (keeps wf) (sys f).
Proof. intros w. pose proof (sys_keeps_daemon f w) as Hd. unfold same, keeps in *. by rewrite Hd. Qed.

Lemma modify_daemon_keeps f :
  (forall s, state_wf s -> state_wf (f s)) -> steps (keeps wf) (modify_daemon f).
Proof. intros Hf w Hw. by apply Hf. Qed.

Lemma UpdatedAt_wf t s : state_wf s -> state_wf (s <| UpdatedAt := t |>).
Proof. intros [[? ? ? ?] ?]. by split; [split|]. Qed.

Lemma complete_loaded_wf s : runtime_wf (Runtime s) -> state_wf (complete_loaded s).
Proof.
  intros Hr. split; [apply complete_loaded_complete|].
  assert (runtime_wf (Runtime s)) as [Hi Hm] by done.
  repeat match goal with Hl : Forall counters_wf (_ :: _) |- _ => apply Forall_cons in Hl as [? Hl] end.
  unfold complete_loaded.
  destruct (str_empty (Version s)); (split; [apply Hi|cbn; forall_list ltac:(assumption)]).
Qed.

Lemma dec_runtime_wf j r r' :
  runtime_wf r -> dec (struct_codec runtime_fields) j r = Some r' -> runtime_wf r'.
Proof.
  intros Hr. destruct j; cbn [dec struct_codec]; try done; [by intros [= <-]|].
  by apply dec_fields_invariant; [apply runtime_fields_wf|].
Qed.

Lemma unmarshal_state_wf data s : unmarshal_state data = Some s -> runtime_wf (Runtime s).
Proof.
  unfold unmarshal_state. intros (j & _ & Hj)%bind_Some. destruct j; cbn [dec struct_codec] in Hj; try done.
  { injection Hj as <-. apply runtime_wf_zero. }
  refine (dec_fields_invariant (fun s => runtime_wf (Runtime s)) _ _ zero_DaemonState _ _ runtime_wf_zero Hj).
  unfold state_fields.
  forall_list ltac:(first
    [apply (tag_invariant _ _ Runtime _ runtime_wf); [exact dec_runtime_wf|done|done]
    |apply (tag_invariant (fun s => runtime_wf (Runtime s)) _ _ _ (fun _ => True)); by intros]).
Qed.

(** A setter keeps the shape when its update does. *)
Lemma set_state_keeps f : (forall s, state_wf s -> state_wf (f s)) -> steps (keeps wf) (set_state f).
Proof.
  intros Hf. unfold set_state, now. apply (steps_bind (keeps wf)); [by apply modify_daemon_keeps|intros _].
  apply (steps_bind (keeps wf)); [apply sys_keeps|intros t].
  apply modify_daemon_keeps, UpdatedAt_wf.
Qed.

Lemma set_runtime_keeps f :
  (forall r, runtime_wf r -> runtime_wf (f r)) ->
  (forall r, is_Some (WSDisconnectByReason r) -> is_Some (WSDisconnectByReason (f r))) ->
  (forall r, is_Some (SchedulerAssignAttempts r) -> is_Some (SchedulerAssignAttempts (f r))) ->
  (forall r, is_Some (SchedulerResourceRejections r) -> is_Some (SchedulerResourceRejections (f r))) ->
  steps (keeps wf) (set_runtime f).
Proof.
  intros H1 H2 H3 H4. apply set_state_keeps. intros s [[? ? ? ?] ?]. split; [split|]; cbn; auto.
Qed.

Lemma Save_keeps : steps (keeps wf) (Save m).
Proof.
  intros w Hw. rewrite Save_unfold. cbv zeta.
  destruct (marshal_state (saved_state w)) as [data|]; [|by apply UpdatedAt_wf].
  match goal with |- context [writeAtomically m data ?x] => pose proof (writeAtomically_spec m data x) as Ha;
    destruct (writeAtomically m data x) as [e w'] end.
  destruct Ha as (_ & _ & Hd & _). cbn in *. rewrite Hd. by apply UpdatedAt_wf.
Qed.

Lemma remove_files_same paths : steps (same daemon) (remove_files paths).
Proof.
  induction paths as [|p paths IH]; cbn [remove_files]; [apply (steps_ret (same daemon))|].
  apply (steps_bind (same daemon)); [apply sys_keeps_daemon|]. intros [e|]; [apply (steps_ret (same daemon))|done].
Qed.

Lemma Backup_same : steps (same daemon) (Backup m).
Proof.
  unfold Backup, cleanupOldBackups, now.
  repeat first [apply sys_keeps_daemon|apply remove_files_same|apply (steps_ret (same daemon))
               |apply (steps_gets (same daemon))
               |apply (steps_bind (same daemon)); [|intros ?]|case_match|progress cbv zeta].
Qed.

Lemma Backup_keeps : steps (keeps wf) (Backup m).
Proof. intros w. pose proof (Backup_same w) as Hd. unfold same, keeps in *. by rewrite Hd. Qed.

Lemma Load_keeps : steps (keeps wf) (Load m).
Proof.
  unfold Load. apply (steps_bind (keeps wf)); [apply sys_keeps|intros [data|e]].
  - destruct (unmarshal_state data) as [s|] eqn:E.
    + apply (steps_bind (keeps wf)); [|intros _; apply (steps_ret (keeps wf))].
      apply modify_daemon_keeps. intros _ _. by eapply complete_loaded_wf, unmarshal_state_wf.
    + unfold now. apply (steps_bind (keeps wf)); [apply sys_keeps|intros t].
      apply (steps_bind (keeps wf)); [|intros _; apply (steps_ret (keeps wf))].
      apply modify_daemon_keeps. intros _ _. apply NewDaemonState_wf.
  - case_match; apply (steps_ret (keeps wf)).
Qed.

(** [keeps_bind] composes two steps that keep the shape. *)
Lemma keeps_bind {A B} (p : st mworld A) (k : A -> st mworld B) :
  steps (keeps wf) p -> (forall a, steps (keeps wf) (k a)) -> steps (keeps wf) (p ≫= k).
Proof. apply (steps_bind (keeps wf)). Qed.

Lemma keeps_ret {A} (a : A) : steps (keeps wf) (mret a).
Proof. apply (steps_ret (keeps wf)). Qed.

Lemma sync_tick_keeps : steps (keeps wf) (sync_tick m).
Proof.
  apply keeps_bind; [apply Save_keeps|intros [e|]]; [apply keeps_ret|].
  apply keeps_bind; [apply Backup_keeps|intros ?; apply keeps_ret].
Qed.

Lemma Close_keeps : steps (keeps wf) (Close m).
Proof.
  apply keeps_bind; [by intros w|intros []]; [apply keeps_ret|].
  apply keeps_bind; [by intros w Hw|intros _]. apply keeps_bind; [apply Save_keeps|intros [e|]]; [apply keeps_ret|].
  apply keeps_bind; [apply Backup_keeps|intros [e|]; apply keeps_ret].
Qed.

Lemma manager_op_keeps op : manager_op_wf op -> steps (keeps wf) (run_manager_op op).
Proof.
  destruct op; cbn [manager_op_wf run_manager_op]; intros Hop; destruct_and?.
  - apply set_state_keeps. intros s' [[? ? ? ?] ?]. by split; [split|].
  - apply set_runtime_keeps; [runtime_wf_auto|done..].
  - apply set_runtime_keeps; [runtime_wf_auto|done..].
  - apply set_runtime_keeps; [runtime_wf_auto|done..].
  - apply set_runtime_keeps; [runtime_wf_auto|done..].
  - apply set_runtime_keeps; [|by eauto..].
    assert (counters_wf (Some (clampUint64ToInt64 <$> byReason))).
    { unfold counters_wf. cbn. apply map_Forall_fmap. eapply map_Forall_impl; [done|].
      intros i v. apply clamp_int64. }
    runtime_wf_auto.
  - apply set_runtime_keeps; [runtime_wf_auto|done..].
  - unfold m_RecordSchedulerAssignAttempt. case_match; [apply keeps_ret|].
    apply set_runtime_keeps; [runtime_wf_auto|done..].
  - apply set_runtime_keeps; [runtime_wf_auto|done..].
  - apply set_runtime_keeps; [runtime_wf_auto|done..].
  - apply set_runtime_keeps; [runtime_wf_auto|done..].
  - unfold m_RecordSchedulerResourceRejection. case_match; [apply keeps_ret|].
    apply set_runtime_keeps; [runtime_wf_auto|done..].
  - apply keeps_bind; [apply Load_keeps|intros ?; apply keeps_ret].
  - apply sync_tick_keeps.
  - apply keeps_bind; [apply Close_keeps|intros ?; apply keeps_ret].
Qed.

(** C33. The daemon state keeps its shape under every sequence of operations of
    the manager (the setters with arguments of their Go types, loads, background
    syncs, closing): it has a version, none of its maps is nil, and every integer
    is an [int64], because [uint64] counters are clamped and [Load] repairs or
    replaces whatever the state file holds. *)
Theorem manager_keeps_state_wf ops w :
  Forall manager_op_wf ops -> state_wf (daemon w) -> state_wf (daemon (run_manager ops w).2).
Proof.
  intros Hops. revert w. induction Hops as [|op ops Hop _ IH]; intros w Hw; [done|].
  cbn [run_manager]. pose proof (manager_op_keeps op Hop w Hw) as H1. unfold mbind, st_bind.
  destruct (run_manager_op op w) as [u w']. by apply IH.
Qed.
End shape.

(** ** Backups *)

Definition backup_name (t : Z) : string := "daemon.state." +:+ stamp_of t.

Lemma backup_name_plain t : plain_name (backup_name t) = true.
Proof. unfold plain_name, backup_name. by rewrite no_slash_app, no_slash_stamp. Qed.

Lemma backup_name_mono dir t u :
  stampable t -> stampable u -> (time_unix t < time_unix u)%Z ->
  str_ltb (Join dir (backup_name t)) (Join dir (backup_name u)) = true.
Proof.
  intros Ht Hu H. destruct (Join_prefix dir) as [pre Hpre].
  rewrite !Hpre by apply backup_name_plain. unfold backup_name. rewrite !str_ltb_app. by apply stamp_of_mono.
Qed.

Lemma sort_strings_perm l k : l ≡ₚ k -> sort_strings l = sort_strings k.
Proof.
  intros Hp. apply (sort_stable_canonical _ _ str_ltb_order); [by apply Forall_true|done|].
  intros a b _ _ H1 H2. by apply str_ltb_total.
Qed.

Lemma sort_strings_sorted l : StronglySorted (not_after str_ltb) (sort_strings l).
Proof. apply (sort_stable_sorted _ _ str_ltb_order). by apply Forall_true. Qed.

Lemma StronglySorted_filter {A} (R : A -> A -> Prop) (P : A -> Prop) `{!forall x, Decision (P x)} (l : list A) :
  StronglySorted R l -> StronglySorted R (filter P l).
Proof.
  induction 1 as [|a l _ IH Ha]; [constructor|]. rewrite filter_cons. case_decide; [|done].
  constructor; [done|]. rewrite Forall_forall in *. intros x [_ Hx]%list_elem_of_filter. by apply Ha.
Qed.

Lemma list_filter_all {A} (P : A -> Prop) `{!forall x, Decision (P x)} (l : list A) :
  (forall x, P x) -> filter P l = l.
Proof. intros HP. induction l as [|a l IH]; [done|]. rewrite filter_cons_True by done. by rewrite IH. Qed.

Section backup.
Context `{!JsonText} `{!OsEnv} (m : Manager).

Definition backups (d : disk) : list string := sort_strings (glob_files (backupDir m) "daemon.state." d).

Lemma elem_of_backups d p :
  p ∈ backups d <-> is_Some (d !! p) /\ in_glob (backupDir m) "daemon.state." p = true.
Proof. unfold backups, sort_strings. by rewrite elem_of_sort_stable, elem_of_glob_files. Qed.

Lemma NoDup_backups d : NoDup (backups d).
Proof. unfold backups, sort_strings. rewrite sort_stable_Permutation. apply NoDup_glob_files. Qed.

(** Sorted lists of backups with the same elements are equal. *)
Lemma backups_unique d l :
  NoDup l -> StronglySorted (not_after str_ltb) l ->
  (forall p, p ∈ l <-> is_Some (d !! p) /\ in_glob (backupDir m) "daemon.state." p = true) ->
  backups d = l.
Proof.
  intros Hnd Hs Hl. rewrite <- (sort_stable_id str_ltb l Hs). apply sort_strings_perm.
  apply NoDup_Permutation; [apply NoDup_glob_files|done|]. intros p. by rewrite elem_of_glob_files, Hl.
Qed.

Lemma remove_files_success paths w w' :
  remove_files paths w = (None, w') ->
  forall p, files (os w') !! p = if decide (p ∈ paths) then None else files (os w) !! p.
Proof.
  revert w. induction paths as [|q paths IH]; intros w; cbn [remove_files].
  { intros [= <-] p. by rewrite decide_False by set_solver. }
  unfold mbind, st_bind, sys, os_Remove, next_fault. cbn.
  destruct (io_fault (io_calls (os w))); [done|].
  destruct (files (os w) !! q) as [data|]; [|done]. intros Hr p. rewrite (IH _ Hr p). cbn.
  destruct (decide (p = q)) as [->|Hne].
  - rewrite lookup_delete_eq. destruct (decide (q ∈ paths)); [by rewrite decide_True by set_solver|].
    by rewrite decide_True by set_solver.
  - rewrite lookup_delete_ne by done. destruct (decide (p ∈ paths)).
    + by rewrite decide_True by set_solver.
    + by rewrite decide_False by set_solver.
Qed.

(** The backups a listing that is the [n]-th call sees, the ones [cleanupOldBackups]
    removes then, and what it would keep if it saw all. *)
Definition seen (n : nat) (d : disk) : list string :=
  filter (fun p => io_unread n p = false) (backups d).
Definition expired (n : nat) (d : disk) : list string :=
  take (length (seen n d) - Z.to_nat (maxBackups m)) (seen n d).
Definition retained (d : disk) : list string :=
  drop (length (backups d) - Z.to_nat (maxBackups m)) (backups d).

Lemma seen_sorted n d : StronglySorted (not_after str_ltb) (seen n d).
Proof. apply StronglySorted_filter, sort_strings_sorted. Qed.

Lemma seen_listed n d :
  sort_strings (filter (fun p => io_unread n p = false) (glob_files (backupDir m) "daemon.state." d)) = seen n d.
Proof.
  rewrite <- (sort_stable_id str_ltb (seen n d) (seen_sorted n d)). apply sort_strings_perm.
  unfold seen, backups, sort_strings. by rewrite sort_stable_Permutation.
Qed.

Lemma seen_all n d : (forall p, io_unread n p = false) -> seen n d = backups d.
Proof. intros Hn. by apply list_filter_all. Qed.

Lemma expired_backup n d p : p ∈ expired n d -> p ∈ backups d.
Proof.
  intros (i & Hi & _)%elem_of_take. apply list_elem_of_lookup_2 in Hi.
  by apply list_elem_of_filter in Hi as [_ ?].
Qed.

Lemma cleanupOldBackups_success w w' :
  cleanupOldBackups m w = (None, w') ->
  forall p, files (os w') !! p =
    if decide (p ∈ expired (io_calls (os w)) (files (os w))) then None else files (os w) !! p.
Proof.
  unfold cleanupOldBackups, sys, mbind, st_bind, Glob. cbn.
  destruct (has_magic _ && _); cbn; [done|]. rewrite seen_listed.
  case_match eqn:E; [|intros Hr p; exact (remove_files_success _ _ _ Hr p)].
  intros [= <-] p. rewrite decide_False; [done|]. unfold expired.
  apply Z.leb_le in E. rewrite (proj2 (Nat.sub_0_le _ _)) by lia. rewrite take_0. set_solver.
Qed.

(** A backup directory that is a malformed pattern: nothing is listed or removed. *)
Lemma cleanupOldBackups_bad_pattern w :
  has_magic (Clean (backupDir m)) = true -> glob_dirs (Clean (backupDir m)) = None ->
  (cleanupOldBackups m w).1 = Some (EWrap "list backup files: " (ENew "syntax error in pattern") "") /\
  files (os (cleanupOldBackups m w).2) = files (os w).
Proof.
  intros Hm Hg. unfold cleanupOldBackups, sys, mbind, st_bind, Glob. cbn. by rewrite Hm, bool_decide_true.
Qed.

Lemma retained_backups n d d' :
  (forall p, io_unread n p = false) ->
  (forall p, d' !! p = if decide (p ∈ expired n d) then None else d !! p) -> backups d' = retained d.
Proof.
  intros Hn Hd'. unfold expired in Hd'. rewrite seen_all in Hd' by done. pose proof (NoDup_backups d) as Hnd.
  rewrite <- (take_drop (length (backups d) - Z.to_nat (maxBackups m)) (backups d)) in Hnd.
  apply NoDup_app in Hnd as (_ & Hdis & Hnd).
  apply backups_unique; [done| |].
  - pose proof (sort_strings_sorted (glob_files (backupDir m) "daemon.state." d)) as Hs.
    rewrite <- (take_drop (length (backups d) - Z.to_nat (maxBackups m))) in Hs.
    by apply StronglySorted_app in Hs as (_ & _ & Hs).
  - intros p. rewrite Hd'. unfold retained.
    destruct (decide (p ∈ take _ (backups d))) as [Hin|Hin].
    + split; [intros Hp; by destruct (Hdis p Hin)|]. intros [[? [=]] _].
    + rewrite <- elem_of_backups.
      rewrite <- (take_drop (length (backups d) - Z.to_nat (maxBackups m)) (backups d)) at 3.
      rewrite elem_of_app. tauto.
Qed.

(** A file whose name sorts after all the other backups is not removed. *)
Lemma newest_not_expired n d path :
  (0 < maxBackups m)%Z ->
  (forall p, p ∈ backups d -> p <> path -> str_ltb p path = true) -> path ∉ expired n d.
Proof.
  intros Hmax Hlt Hin. unfold expired in Hin.
  set (k := (length (seen n d) - Z.to_nat (maxBackups m))%nat) in *.
  pose proof (seen_sorted n d) as Hs.
  assert (NoDup (seen n d)) as Hnd by apply NoDup_filter, NoDup_backups.
  rewrite <- (take_drop k (seen n d)) in Hs, Hnd.
  assert (exists x, x ∈ drop k (seen n d)) as [x Hx].
  { destruct (drop k (seen n d)) as [|x l] eqn:E; [|exists x; left].
    apply (f_equal length) in E. rewrite length_drop in E. cbn in E.
    destruct (seen n d) as [|y l]; [rewrite take_nil in Hin; by apply not_elem_of_nil in Hin|].
    subst k. cbn in E. lia. }
  apply NoDup_app in Hnd as (_ & Hdis & _). apply StronglySorted_app in Hs as (Hs & _ & _).
  pose proof (Hs path x Hin Hx) as Hna. unfold not_after in Hna.
  rewrite Hlt in Hna; [done| |by intros ->; apply (Hdis path)].
  assert (x ∈ seen n d) as Hxs by (rewrite <- (take_drop k (seen n d)); set_solver).
  by apply list_elem_of_filter in Hxs as [_ ?].
Qed.

Lemma os_WriteFile_calls path data o : io_calls (os_WriteFile path data o).2 = S (io_calls o).
Proof. unfold os_WriteFile, next_fault. cbn. by destruct (io_fault _) as [[[] ?]|]. Qed.

Lemma Backup_unfold w data :
  files (os w) !! stateFile m = Some data -> io_fault (io_calls (os w)) = None ->
  Backup m w =
  let path := Join (backupDir m) (backup_name (now_at (clock_calls (os w)))) in
  let '(e, w') := sys (os_WriteFile path data)
    (w <| os ::= fun o => o <| io_calls ::= S |> <| clock_calls ::= S |> |>) in
  match e with
  | Some err => (Some (EWrap "write state backup: " err ""), w')
  | None => cleanupOldBackups m w'
  end.
Proof.
  intros Hd Hio. unfold Backup, mbind, st_bind, sys, os_ReadFile, next_fault. rewrite Hio. cbn. rewrite Hd. cbn.
  fold (backup_name (now_at (clock_calls (os w)))).
  by destruct (os_WriteFile _ data _) as [[e|] o].
Qed.

(** C34. A successful backup writes a copy of the state file and removes the oldest of
    the backups its listing of the directory saw, all but [maxBackups] of them in the
    order of their names, and it changes no other file.  When no directory read fails,
    exactly the last [maxBackups] of the old backups and the new one are left, so at
    most [maxBackups]; when one fails, the backups it hides stay and may exceed that
    number.  Since names carry the time, a backup taken in a later second than every
    other one is kept either way.  (The listing is the third system call of the backup;
    the pattern characters of a backup directory mean what [filepath.Match] makes of
    them, and a malformed pattern is an error, so no success.) *)
Theorem backup_keeps_newest w w' data :
  (0 < maxBackups m)%Z -> files (os w) !! stateFile m = Some data -> io_fault (io_calls (os w)) = None ->
  Backup m w = (None, w') ->
  let t := now_at (clock_calls (os w)) in
  let path := Join (backupDir m) (backup_name t) in
  let written := <[path := data]> (files (os w)) in
  let listing := S (S (io_calls (os w))) in
  let listed := filter (fun p => io_unread listing p = false) (backups written) in
  (forall p, files (os w') !! p =
     if decide (p ∈ take (length listed - Z.to_nat (maxBackups m)) listed) then None else written !! p) /\
  ((forall p, io_unread listing p = false) ->
     backups (files (os w')) =
       drop (length (backups written) - Z.to_nat (maxBackups m)) (backups written) /\
     (Z.of_nat (length (backups (files (os w')))) <= maxBackups m)%Z) /\
  ((forall p, p ∈ backups (files (os w)) -> exists u,
      stampable u /\ (time_unix u < time_unix t)%Z /\ p = Join (backupDir m) (backup_name u)) ->
   stampable t -> files (os w') !! path = Some data).
Proof.
  intros Hmax Hd Hio HB t path written listing listed.
  rewrite (Backup_unfold w data Hd Hio) in HB. cbv zeta in HB. fold t path in HB. unfold sys in HB.
  pose proof (os_WriteFile_spec path data ((os w) <| io_calls ::= S |> <| clock_calls ::= S |>)) as Hw.
  pose proof (os_WriteFile_calls path data ((os w) <| io_calls ::= S |> <| clock_calls ::= S |>)) as Hn.
  cbn in HB. destruct (os_WriteFile path data _) as [[e|] o]; [done|].
  destruct Hw as (_ & _ & _ & _ & Hf). specialize (Hf eq_refl). cbn in Hf, Hn. fold written in Hf.
  pose proof (cleanupOldBackups_success _ _ HB) as Hc. cbn in Hc. rewrite Hf, Hn in Hc.
  split_and!; [exact Hc| |].
  - intros Hall. rewrite (retained_backups _ _ _ Hall Hc). split; [done|].
    unfold retained. rewrite length_drop. lia.
  - intros Hold Ht. rewrite Hc. rewrite decide_False; [apply lookup_insert_eq|].
    apply newest_not_expired; [done|]. intros p Hp Hne.
    apply elem_of_backups in Hp as [Hp Hg]. unfold written in Hp. rewrite lookup_insert_ne in Hp by done.
    destruct (Hold p) as (u & Hu & Hlt & ->); [by apply elem_of_backups|]. by apply backup_name_mono.
Qed.
End backup.

(** ** Witnesses *)

Lemma demo_state_complete : state_complete (daemon demo_mworld).
Proof. apply (NewDaemonState_wf (1699999999 * Second)). Qed.

Lemma demo_state_text : state_text (daemon demo_mworld).
Proof.
  split; [done|done|split; [forall_list ltac:(apply in_int64_0)| | |done]].
  - forall_list ltac:(reflexivity).
  - forall_list ltac:(by intros ? ? ?).
Qed.

Lemma Save_succeeds `{!JsonText} `{!OsEnv} m w :
  (forall n, io_fault n = None) -> is_Some (enc (struct_codec state_fields) (saved_state w)) ->
  exists w', Save m w = (None, w').
Proof.
  intros Hio [j Hj]. rewrite Save_unfold. unfold marshal_state. rewrite Hj. cbv zeta. cbn [fmap option_fmap].
  unfold writeAtomically, sys, mbind, st_bind, os_WriteFile, os_Rename, next_fault. rewrite Hio. cbn.
  rewrite Hio, lookup_insert_eq. eauto.
Qed.

Lemma demo_state_encodes : is_Some (enc (struct_codec state_fields) (saved_state demo_mworld)).
Proof. eexists. vm_compute. reflexivity. Qed.

(** The demo state is saved, and a second process finds the file. *)
Lemma save_load_round_trip_witness :
  exists w' w3, Save demo_manager demo_mworld = (None, w') /\
    Load demo_manager (w' <| daemon := NewDaemonState 0 |>) = (None, w3) /\
    daemon w3 = saved_state demo_mworld.
Proof.
  destruct (Save_succeeds demo_manager demo_mworld) as [w' HS]; [done|exact demo_state_encodes|].
  pose (restarted := w' <| daemon := NewDaemonState 0 |>).
  destruct (save_load_round_trip demo_manager demo_mworld w' restarted
    demo_state_complete demo_state_text HS eq_refl eq_refl) as (w3 & HL & Hw & _).
  exists w', w3. exact (conj HS (conj HL Hw)).
Defined.

Lemma manager_keeps_state_wf_witness :
  state_wf (daemon (run_manager demo_manager
    [OpSetRuntimeWSDisconnect 18446744073709551615 3 {["timeout" := 4%Z]}; OpSync; OpLoad; OpClose]
    demo_mworld).2).
Proof.
  apply manager_keeps_state_wf.
  - apply Forall_cons. split; [|by repeat (apply Forall_cons; split; [done|])].
    split; [by split|]. split; [by split|]. apply map_Forall_singleton. by split.
  - apply (NewDaemonState_wf (1699999999 * Second)).
Defined.

Lemma backup_keeps_newest_witness :
  files (os (Backup demo_manager demo_mworld).2) !! "state/backups/daemon.state.20231114_221320" = Some "old" /\
  length (backups demo_manager (files (os (Backup demo_manager demo_mworld).2))) = 2%nat.
Proof.
  destruct (backup_keeps_newest demo_manager demo_mworld (Backup demo_manager demo_mworld).2 "old")
    as (_ & _ & Hnew).
  - reflexivity.
  - reflexivity.
  - reflexivity.
  - vm_compute. reflexivity.
  - split; [|vm_compute; reflexivity]. apply Hnew; [|by split].
    intros p Hp. change (p ∈ ["state/backups/daemon.state.20200101_000000";
                              "state/backups/daemon.state.20210101_000000"]) in Hp.
    apply elem_of_cons in Hp as [->|Hp%list_elem_of_singleton].
    + exists (1577836800 * Second)%Z. split; [by split|split; by vm_compute].
    + exists (1609459200 * Second)%Z. subst p. split; [by split|split; by vm_compute].
Defined.
