(* ===== verification/Metrics.v ===== *)
(** * Handler metrics in the daemon state

    The handler (Handler.v) writes its counters through [RuntimeSink]; here that sink
    is the state manager (StateManager.v).  The connection counters agree after every
    report; the disconnect counters of a state that was loaded from a file are those
    of earlier runs until the handler reports its first disconnect. *)

From S2P Require Import Prelude GoFloat Protocol Session Conn Telemetry Auth StateM Interfaces Handler HandlerDemo HandlerFrame HandlerFacts StateFile FileSys StateManager StateDemo.

(** The connection counters of the daemon state are those of the handler. *)
Record connections_mirrored (s : HandlerState) (r : RuntimeState) : Prop := {
  mi_active : ActiveWSConnections r = active s;
  mi_last : LastWSConnectUnix r = lastSeen s
}.

(** So are the disconnect counters; [uint64] counters are clamped. *)
Record disconnects_mirrored (s : HandlerState) (r : RuntimeState) : Prop := {
  mi_total : WSDisconnectTotal r = clampUint64ToInt64 (disconnectTotal s);
  mi_4009 : WSDisconnectClose4009 r = clampUint64ToInt64 (disconnectClose4009 s);
  mi_reasons : WSDisconnectByReason r = Some (clampUint64ToInt64 <$> disconnectByReason s)
}.

(** No disconnect has been counted or reported since [s0] and [r0]. *)
Record disconnects_untouched (s0 : HandlerState) (r0 : RuntimeState) (s : HandlerState)
    (r : RuntimeState) : Prop := {
  un_counted : disconnectTotal s = disconnectTotal s0 /\
    disconnectClose4009 s = disconnectClose4009 s0 /\ disconnectByReason s = disconnectByReason s0;
  un_shown : WSDisconnectTotal r = WSDisconnectTotal r0 /\
    WSDisconnectClose4009 r = WSDisconnectClose4009 r0 /\
    WSDisconnectByReason r = WSDisconnectByReason r0
}.

Section metrics.
Context {DB : Type} `{!SessionPersistence DB} `{!WsJson} `{!ServeEnv} `{!OsEnv}.
Context (h : handler_config) (s0 : HandlerState) (r0 : RuntimeState).

Abbreviation W := (world DB mworld).

Definition disconnects_shown (s : HandlerState) (r : RuntimeState) : Prop :=
  disconnects_mirrored s r \/ disconnects_untouched s0 r0 s r.

Definition in_sync (w : W) : Prop :=
  exists m, sink w = Some m /\ connections_mirrored (hs w) (Runtime (daemon m)) /\
    disconnects_shown (hs w) (Runtime (daemon m)).

(** The part of the world [in_sync] reads. *)
Definition metrics_view (w : W) :=
  (sink w, active (hs w), lastSeen (hs w), disconnectTotal (hs w), disconnectClose4009 (hs w),
   disconnectByReason (hs w)).

Lemma in_sync_view (w w' : W) : metrics_view w' = metrics_view w -> in_sync w -> in_sync w'.
Proof.
  unfold metrics_view. intros [= E1 E2 E3 E4 E5 E6] (m & Hm & [? ?] & Hd).
  exists m. split; [congruence|]. split; [split; congruence|].
  destruct Hd as [[? ? ?]|[(? & ? & ?) ?]]; [left|right]; split; try congruence. split_and!; congruence.
Qed.

Lemma same_in_sync {A} (p : st W A) : steps (same metrics_view) p -> steps (keeps in_sync) p.
Proof. intros Hp w Hw. exact (in_sync_view w _ (Hp w) Hw). Qed.

(** A setter of the manager leaves the fields it does not set. *)
Lemma set_runtime_daemon f (m : mworld) :
  Runtime (daemon (set_runtime f m).2) = f (Runtime (daemon m)).
Proof. done. Qed.

Lemma disconnects_shown_ext s r s' r' :
  disconnectTotal s' = disconnectTotal s -> disconnectClose4009 s' = disconnectClose4009 s ->
  disconnectByReason s' = disconnectByReason s ->
  WSDisconnectTotal r' = WSDisconnectTotal r -> WSDisconnectClose4009 r' = WSDisconnectClose4009 r ->
  WSDisconnectByReason r' = WSDisconnectByReason r ->
  disconnects_shown s r -> disconnects_shown s' r'.
Proof.
  intros ?????? [[? ? ?]|[(? & ? & ?) (? & ? & ?)]]; [left|right]; split; try congruence;
    split_and!; congruence.
Qed.

(** A report of the connections needs the disconnects only. *)
Lemma syncRuntimeState_in_sync (w : W) :
  (exists m, sink w = Some m /\ disconnects_shown (hs w) (Runtime (daemon m))) ->
  in_sync (syncRuntimeState w).2.
Proof.
  intros (m & Hm & Hd). unfold syncRuntimeState, modify_sink, modify, gets, mbind, st_bind, in_sync. cbn.
  rewrite Hm. eexists. split; [reflexivity|]. split; [by split|].
  by apply (disconnects_shown_ext (hs w) (Runtime (daemon m))).
Qed.

Lemma recordDisconnect_in_sync r b : steps (keeps in_sync) (recordDisconnect (S := mworld) (DB := DB) r b).
Proof.
  intros w (m & Hm & [? ?] & _).
  unfold recordDisconnect, syncRuntimeDisconnect, modify_sink, modify_hs, modify, gets, mbind, st_bind, in_sync. cbn.
  rewrite Hm. eexists. split; [reflexivity|].
  destruct b; (split; [by split|left; by split]).
Qed.

(** Operations on the rest of the world. *)
Ltac same_view := intros w; unfold same, metrics_view; cbn; try reflexivity.

Lemma view_sendEnvelope conn msg : steps (same metrics_view) (sendEnvelope conn msg).
Proof.
  intros w. unfold same, metrics_view.
  destruct (sendEnvelope_spec w conn msg) as (-> & _ & _ & -> & _).
  unfold after_send. by destruct (connectionsByConn (hs w) !! conn).
Qed.

Lemma view_removeConnection sid : steps (same metrics_view) (removeConnection (DB := DB) (S := mworld) sid).
Proof.
  intros w. unfold removeConnection. destruct (str_empty sid); [done|].
  unfold same, metrics_view, mbind, st_bind, gets, modify_hs, with_entry, modify; cbn.
  by destruct (connections (hs w) !! sid).
Qed.

Lemma metrics_base : base_frame (DB := DB) (S := mworld) (keeps in_sync).
Proof.
  split; intros; try (apply same_in_sync; by same_view).
  - intros w (m & Hm & [? ?] & Hd). unfold in_sync. cbn. rewrite Hm. eexists. split; [done|].
    split; [by split|]. by apply (disconnects_shown_ext (hs w) (Runtime (daemon m))).
  - intros w (m & Hm & [? ?] & Hd). unfold in_sync. cbn. rewrite Hm. eexists. split; [done|].
    split; [by split|]. by apply (disconnects_shown_ext (hs w) (Runtime (daemon m))).
  - apply recordDisconnect_in_sync.
Qed.

Lemma metrics_db : db_frame (DB := DB) (S := mworld) (keeps in_sync).
Proof.
  apply db_frame_any. intros A f. apply same_in_sync. intros w. unfold same, db_call.
  by destruct (f (db w)).
Qed.

Lemma metrics_frame c : serve_frame_full h c (keeps in_sync).
Proof.
  assert (serve_frame c (keeps in_sync)) as HF.
  { split; try (intros; apply same_in_sync; by same_view).
    - apply metrics_base.
    - intros msg _. apply same_in_sync, view_sendEnvelope. }
  split; [done|apply metrics_db|..].
  - intros f _. apply same_in_sync. by same_view.
  - intros _ *. apply frame_persist_session; [apply _|done|apply metrics_db|].
    apply same_in_sync. by same_view.
  - intros tid. apply same_in_sync. intros w.
    unfold bind_own_trader, bindConnectionTrader, same, metrics_view, mbind, st_bind, gets; cbn.
    destruct (_ || _); [done|]. cbn. by destruct (connections (hs w) !! _).
  - apply same_in_sync. intros w. unfold upsertSessionSnapshot, same, mbind, st_bind, gets; cbn.
    by destruct (str_empty _).
Qed.

Lemma metrics_end : end_frame (keeps in_sync).
Proof.
  split; [apply metrics_base|apply metrics_db| | |].
  - intros f _. apply same_in_sync. by same_view.
  - apply same_in_sync. intros w. unfold current_session_id, deleteSessionSnapshot, same, mbind, st_bind, gets. cbn.
    by destruct (str_empty _).
  - apply same_in_sync. intros w. apply (view_removeConnection (sessionID (session (loc w)))).
Qed.

Lemma serve_defers_in_sync conn sid : steps (keeps in_sync) (serve_defers conn sid).
Proof.
  unfold serve_defers. apply (steps_bind (keeps in_sync)).
  { apply same_in_sync, view_removeConnection. }
  intros _ w (m & Hm & [? ?] & Hd).
  unfold in_sync, syncRuntimeState, modify_sink, modify_hs, modify, emit, gets, mbind, st_bind. cbn. rewrite Hm.
  eexists. split; [reflexivity|]. split; [by split|].
  by apply (disconnects_shown_ext (hs w) (Runtime (daemon m))).
Qed.

Lemma serve_open_in_sync conn connID sid rid ip cn (w : W) :
  (exists m, sink w = Some m /\ disconnects_shown (hs w) (Runtime (daemon m))) ->
  in_sync (serve_open h conn connID sid rid ip cn w).2.
Proof.
  destruct w as [hst l d sk t wt o]. intros (m & Hm & Hd). cbn in *. subst sk. unfold in_sync, serve_open.
  unfold syncRuntimeState, addConnection, extend_read_deadline, writeConnected, withWriteLock,
    writeWithDeadline, entry_conn, modify_session, modify_loc, modify_hs, modify_sink,
    modify, when, gets, emit, conn_call, Handler.time_now, mbind, st_bind, mret, st_ret.
  cbn. destruct (heartbeatTimeout h >? 0)%Z; cbn;
    destruct (conn_write wt) as [e1|]; cbn; try destruct (conn_write (Datatypes.S wt)) as [e2|]; cbn;
    (eexists; split; [reflexivity|split; [by split|]];
     by apply (disconnects_shown_ext hst (Runtime (daemon m)))).
Qed.
End metrics.

(** C35. What the handler counts is what the daemon state shows, for one call of
    [Serve] with the state manager as its sink, any traffic, refused, still running or
    over, and whatever the state held before.  A refused call changes nothing.
    Otherwise the state shows the handler's own connection count and time of the last
    connection; and either no disconnect has been counted and the disconnect figures
    of the state are those before the call (after a restart: those of the file), or
    they are the handler's own, clamped to [int64].  Figures that agreed before the
    call agree after it. *)
Theorem Serve_mirrors_metrics {DB : Type} `{!SessionPersistence DB} `{!WsJson} `{!ServeEnv} `{!OsEnv}
    (h : handler_config) (r : http_request) (conn : Z) (connID sid rid ip : string)
    (traffic : list inbound) (w : world DB mworld) (m : mworld) (Hm : sink w = Some m) :
  let '(res, w') := Serve h r conn connID sid rid ip traffic w in
  exists m', sink w' = Some m' /\
    match res with
    | inr _ => w' = w
    | inl _ =>
        ActiveWSConnections (Runtime (daemon m')) = active (hs w') /\
        LastWSConnectUnix (Runtime (daemon m')) = lastSeen (hs w') /\
        (disconnects_mirrored (hs w') (Runtime (daemon m')) \/
         disconnects_untouched (hs w) (Runtime (daemon m)) (hs w') (Runtime (daemon m')))
    end /\
    (disconnects_mirrored (hs w) (Runtime (daemon m)) ->
     disconnects_mirrored (hs w') (Runtime (daemon m'))).
Proof.
  pose proof (Serve_phases h r conn connID sid rid ip traffic w) as Hp.
  destruct (Serve _ _ _ _ _ _ _ _ w) as [res w']; cbn.
  set (sync := in_sync (hs w) (Runtime (daemon m)) : world DB mworld -> Prop).
  assert (forall c w1, serve_open h conn connID sid rid ip (extractClientCertificateCN r) w = (c, w1) ->
    sync (serve_loop h c traffic w1).2) as Hloop.
  { intros c w1 Ho. apply (end_serve_loop h c (keeps sync)); [apply metrics_frame|apply metrics_end|].
    assert (disconnects_shown (hs w) (Runtime (daemon m)) (hs w) (Runtime (daemon m))) as Hd
      by (right; by split).
    pose proof (serve_open_in_sync h (hs w) (Runtime (daemon m)) conn connID sid rid ip
      (extractClientCertificateCN r) w ltac:(eauto)) as Hs. by rewrite Ho in Hs. }
  assert (forall k, sync w' -> res = inl k -> exists m', sink w' = Some m' /\
    (ActiveWSConnections (Runtime (daemon m')) = active (hs w') /\
     LastWSConnectUnix (Runtime (daemon m')) = lastSeen (hs w') /\
     disconnects_shown (hs w) (Runtime (daemon m)) (hs w') (Runtime (daemon m'))) /\
    (disconnects_mirrored (hs w) (Runtime (daemon m)) ->
     disconnects_mirrored (hs w') (Runtime (daemon m')))) as Hend.
  { intros k (m' & Hm' & [Ha Hl] & Hd) _. exists m'. split_and!; try done.
    intros [? ? ?]. destruct Hd as [?|[(? & ? & ?) (? & ? & ?)]]; [done|]. split; congruence. }
  destruct Hp as [|c w1 w2 _ Ho Hl|c w1 k w2 _ Ho Hl].
  - by exists m.
  - specialize (Hloop c w1 Ho). rewrite Hl in Hloop. by apply (Hend None).
  - specialize (Hloop c w1 Ho). rewrite Hl in Hloop. apply (Hend (Some k)); [|done].
    by apply serve_defers_in_sync.
Qed.
(** The demo handler with the demo state manager behind it. *)
Definition demo_synced : world (list string) mworld :=
  {| hs := new_handler_state; loc := demo_locals ""; db := []; sink := Some demo_mworld; tick := 0;
     wtick := 0; out := [] |}.

Definition demo_synced_serve :=
  Serve demo_config demo_request 5 "c1" "s1" "q1" "10.0.0.1"
    [InMessage true "register"; InMessage true "heartbeat"; InError (EClose 4009 "gap")] demo_synced.

Lemma Serve_mirrors_metrics_witness :
  disconnectTotal (hs demo_synced_serve.2) = 1%Z /\
  exists m', sink demo_synced_serve.2 = Some m' /\
    disconnects_mirrored (hs demo_synced_serve.2) (Runtime (daemon m')).
Proof.
  split; [vm_compute; reflexivity|].
  pose proof (Serve_mirrors_metrics demo_config demo_request 5 "c1" "s1" "q1" "10.0.0.1"
    [InMessage true "register"; InMessage true "heartbeat"; InError (EClose 4009 "gap")] demo_synced
    demo_mworld eq_refl) as Hs. fold demo_synced_serve in Hs. destruct demo_synced_serve as [res w'].
  destruct Hs as (m' & Hm' & _ & Hd). exists m'. split; [exact Hm'|]. apply Hd. by split.
Defined.
