(* ===== verification/Http2.v ===== *)
(** * HTTP/2 sizes (internal/config/http2.go)

    [ParseSize] and the parsed HTTP/2 settings. *)

From S2P Require Import Prelude GoText.

Definition str_last (s : string) : option ascii := last (String.list_ascii_of_string s).

(** [s[:len(s)-1]]. *)
Definition drop_last (s : string) : string := String.substring 0 (String.length s - 1) s.

Definition size_multiplier (c : ascii) : option Z :=
  if bool_decide (c = "k"%char) || bool_decide (c = "K"%char) then Some 1024%Z
  else if bool_decide (c = "m"%char) || bool_decide (c = "M"%char) then Some (1024 * 1024)%Z
  else None.

Definition max_size : Z := 100 * 1024 * 1024.

Definition ParseSize (s : string) : res Z :=
  let s := TrimSpace s in
  match str_last s with
  | None => Err (ENew "empty size string")
  | Some lastChar =>
      let '(multiplier, s) := match size_multiplier lastChar with
                              | Some m => (m, drop_last s)
                              | None => (1%Z, s)
                              end in
      match ParseInt (TrimSpace s) with
      | Err e => Err (EWrap "invalid size format: " e "")
      | Ok value =>
          if (value <? 0)%Z then Err (ENew "size cannot be negative")
          else
            let result := wrap64 (value * multiplier) in
            if (result >? max_size)%Z
            then Err (ENew ("size too large: " +:+ Itoa result +:+ " bytes (max 100M)"))
            else Ok result
      end
  end.

Record HTTP2Config := {
  h2_MaxConcurrentStreams : string;
  h2_InitialWindowSize : string;
  h2_MaxFrameSize : string;
  h2_MaxHeaderListSize : string;
  h2_IdleTimeoutSeconds : Z;
  h2_MaxUploadBufferPerConn : string;
  h2_MaxUploadBufferPerStream : string
}.

Record ParsedHTTP2Config := {
  p2_MaxConcurrentStreams : Z;
  p2_InitialWindowSize : Z;
  p2_MaxFrameSize : Z;
  p2_MaxHeaderListSize : Z;
  p2_IdleTimeoutSeconds : Z;
  p2_MaxUploadBufferPerConn : Z;
  p2_MaxUploadBufferPerStream : Z
}.

Definition DefaultHTTP2Config : HTTP2Config :=
  {| h2_MaxConcurrentStreams := "250"; h2_InitialWindowSize := "64k"; h2_MaxFrameSize := "16k";
     h2_MaxHeaderListSize := "1M"; h2_IdleTimeoutSeconds := 120;
     h2_MaxUploadBufferPerConn := "1M"; h2_MaxUploadBufferPerStream := "1M" |}.

(** The block [if s != "" { size, err := ParseSize(s) ... }] of a size setting with its
    limit and its conversion; 0 when the setting is empty. *)
Definition parse_size_setting (name kind : string) (limit : Z) (convert : Z -> Z) (s : string)
    : res Z :=
  if str_empty s then Ok 0%Z
  else match ParseSize s with
       | Err e => Err (EWrap ("invalid " +:+ name +:+ ": ") e "")
       | Ok size =>
           if (size >? limit)%Z
           then Err (ENew (name +:+ " exceeds " +:+ kind +:+ " limit: " +:+ Itoa size))
           else Ok (convert size)
       end.

Definition max_int32 : Z := 2147483647.
Definition max_uint32 : Z := 4294967295.

Definition HTTP2Config_Parse (h : HTTP2Config) : res ParsedHTTP2Config :=
  streams ← (if str_empty (h2_MaxConcurrentStreams h) then Ok 0%Z
             else match ParseUint 32 (h2_MaxConcurrentStreams h) with
                  | Err e => Err (EWrap "invalid max_concurrent_streams: " e "")
                  | Ok v => Ok v
                  end);
  window ← parse_size_setting "initial_window_size" "int32" max_int32 wrap32 (h2_InitialWindowSize h);
  frame ← parse_size_setting "max_frame_size" "uint32" max_uint32 wrapu32 (h2_MaxFrameSize h);
  header ← parse_size_setting "max_header_list_size" "uint32" max_uint32 wrapu32
             (h2_MaxHeaderListSize h);
  conn ← parse_size_setting "max_upload_buffer_per_conn" "int32" max_int32 wrap32
           (h2_MaxUploadBufferPerConn h);
  stream ← parse_size_setting "max_upload_buffer_per_stream" "int32" max_int32 wrap32
             (h2_MaxUploadBufferPerStream h);
  if ((h2_IdleTimeoutSeconds h <? 0) || (h2_IdleTimeoutSeconds h >? 3600))%Z
  then Err (ENew ("invalid idle_timeout_seconds: " +:+ Itoa (h2_IdleTimeoutSeconds h)))
  else Ok {| p2_MaxConcurrentStreams := streams; p2_InitialWindowSize := window;
             p2_MaxFrameSize := frame; p2_MaxHeaderListSize := header;
             p2_IdleTimeoutSeconds := h2_IdleTimeoutSeconds h;
             p2_MaxUploadBufferPerConn := conn; p2_MaxUploadBufferPerStream := stream |}.

(** An accepted size is at most 100 MiB; the product that overflows escapes the bound
    from below. *)
Lemma ParseSize_bound s v : ParseSize s = Ok v -> (v <= max_size)%Z /\ in_int64 v.
Proof.
  unfold ParseSize. destruct (str_last _) as [c|]; [|done].
  destruct (match size_multiplier c with Some _ => _ | None => _ end) as [m s'].
  destruct (ParseInt _) as [n|]; [|done]. destruct (n <? 0)%Z; [done|]. cbv zeta.
  destruct (wrap64 (n * m) >? max_size)%Z eqn:E; [done|]. intros [= <-].
  split; [lia|apply wrap64_range].
Qed.

Example parse_size_examples :
  ParseSize " 64k " = Ok 65536%Z /\ ParseSize "1 M" = Ok 1048576%Z /\ ParseSize "7" = Ok 7%Z /\
  is_ok (ParseSize "101M") = false /\ is_ok (ParseSize "-1") = false /\ is_ok (ParseSize "M") = false /\
  is_ok (HTTP2Config_Parse DefaultHTTP2Config) = true.
Proof. by vm_compute. Qed.

(** The product wraps: 2^43 M is read as a negative size and 2^44 M as nothing. *)
Example parse_size_overflow :
  ParseSize "8796093022208M" = Ok min_int64 /\ ParseSize "17592186044416M" = Ok 0%Z.
Proof. by vm_compute. Qed.
