(* ===== verification/Config.v ===== *)
(** * Configuration (internal/config/types.go, config.go)

    The configuration record, [Validate] with its defaults and checks in the order of
    the source, the environment overrides, and [Load].  The YAML decoder is a
    parameter. *)

From S2P Require Import Prelude GoText GoFloat StateM FileSys Http2.

(** ** Data (types.go) *)

Record ServerTLSConfig := {
  st_CertPath : string;
  st_KeyPath : string;
  st_CAPath : string;
  st_AllowedClientCommonNames : list string;
  st_AllowedClientOrganizationalOUs : list string;
  st_AllowedClientDNSNames : list string
}.

Record TLSConfig := {
  tc_Enabled : bool;
  tc_CertPath : string;
  tc_KeyPath : string;
  tc_CAPath : string
}.

Record TimeoutConfig := {
  to_Read : Z;
  to_Write : Z;
  to_Idle : Z;
  to_ReadHeader : Z;
  to_ShutdownGrace : Z
}.

#[export] Instance eta_TimeoutConfig : Eta TimeoutConfig := fun t =>
  {| to_Read := to_Read t; to_Write := to_Write t; to_Idle := to_Idle t;
     to_ReadHeader := to_ReadHeader t; to_ShutdownGrace := to_ShutdownGrace t |}.

Record LimitsConfig := { li_MaxHeaderBytes : Z }.

Record ServerConfig := {
  sv_Port : Z;
  sv_TLS : ServerTLSConfig;
  sv_Timeouts : TimeoutConfig;
  sv_Limits : LimitsConfig;
  sv_HTTP2 : option HTTP2Config
}.

#[export] Instance eta_ServerConfig : Eta ServerConfig := fun s =>
  {| sv_Port := sv_Port s; sv_TLS := sv_TLS s; sv_Timeouts := sv_Timeouts s;
     sv_Limits := sv_Limits s; sv_HTTP2 := sv_HTTP2 s |}.

Record PoolConfig := { po_MaxOpenConns : Z; po_MaxIdleConns : Z; po_ConnMaxLifetime : Z }.

Record RetryConfig := {
  re_MaxAttempts : Z;
  re_InitialDelay : Z;
  re_MaxDelay : Z;
  re_Multiplier : f64
}.

Record MySQLConfig := {
  mq_Host : string;
  mq_Port : Z;
  mq_User : string;
  mq_Password : string;
  mq_Database : string;
  mq_Pool : PoolConfig;
  mq_TLS : TLSConfig;
  mq_Retry : RetryConfig
}.

#[export] Instance eta_MySQLConfig : Eta MySQLConfig := fun m =>
  {| mq_Host := mq_Host m; mq_Port := mq_Port m; mq_User := mq_User m;
     mq_Password := mq_Password m; mq_Database := mq_Database m; mq_Pool := mq_Pool m;
     mq_TLS := mq_TLS m; mq_Retry := mq_Retry m |}.

(** The sections of the other engines, which no code reads. *)
Record OtherEngineConfig := {
  oe_Host : string;
  oe_Port : Z;
  oe_User : string;
  oe_Password : string;
  oe_Database : string
}.

Record DatabaseTargetConfig := {
  dt_Engine : string;
  dt_MySQL : MySQLConfig;
  dt_ClickHouse : OtherEngineConfig;
  dt_PostgreSQL : OtherEngineConfig
}.

#[export] Instance eta_DatabaseTargetConfig : Eta DatabaseTargetConfig := fun d =>
  {| dt_Engine := dt_Engine d; dt_MySQL := dt_MySQL d; dt_ClickHouse := dt_ClickHouse d;
     dt_PostgreSQL := dt_PostgreSQL d |}.

Record DatabasesConfig := {
  db_System : DatabaseTargetConfig;
  db_Audit : DatabaseTargetConfig;
  db_Quotes : DatabaseTargetConfig
}.

#[export] Instance eta_DatabasesConfig : Eta DatabasesConfig := fun d =>
  {| db_System := db_System d; db_Audit := db_Audit d; db_Quotes := db_Quotes d |}.

Record HSMContextConfig := { hx_Context : string; hx_TLS : TLSConfig }.

Record HSMConfig := {
  hm_URL : string;
  hm_Timeout : Z;
  hm_Retry : RetryConfig;
  hm_Trading : HSMContextConfig;
  hm_TwoFA : HSMContextConfig
}.

Record StateConfig := { sf_FilePath : string; sf_SyncInterval : Z; sf_BackupCount : Z }.

Record LoggingConfig := {
  lg_Level : string;
  lg_Format : string;
  lg_Dir : string;
  lg_MaxSizeMB : Z;
  lg_MaxBackups : Z;
  lg_MaxAgeDays : Z;
  lg_Compress : bool;
  lg_ErrorPath : string;
  lg_AccessPath : string;
  lg_OutRequestPath : string;
  lg_WSPath : string;
  lg_AuditPath : string;
  lg_AccessToStdout : bool;
  lg_OutRequestToStdout : bool;
  lg_WSInToStdout : bool;
  lg_WSOutToStdout : bool;
  lg_AuditToStdout : bool
}.

#[export] Instance eta_LoggingConfig : Eta LoggingConfig := fun l =>
  {| lg_Level := lg_Level l; lg_Format := lg_Format l; lg_Dir := lg_Dir l;
     lg_MaxSizeMB := lg_MaxSizeMB l; lg_MaxBackups := lg_MaxBackups l;
     lg_MaxAgeDays := lg_MaxAgeDays l; lg_Compress := lg_Compress l;
     lg_ErrorPath := lg_ErrorPath l; lg_AccessPath := lg_AccessPath l;
     lg_OutRequestPath := lg_OutRequestPath l; lg_WSPath := lg_WSPath l;
     lg_AuditPath := lg_AuditPath l; lg_AccessToStdout := lg_AccessToStdout l;
     lg_OutRequestToStdout := lg_OutRequestToStdout l; lg_WSInToStdout := lg_WSInToStdout l;
     lg_WSOutToStdout := lg_WSOutToStdout l; lg_AuditToStdout := lg_AuditToStdout l |}.

Record SessionConfig := {
  se_HeartbeatInterval : Z;
  se_HeartbeatTimeout : Z;
  se_WriteTimeout : Z;
  se_GracePeriod : Z;
  se_CleanupInterval : Z;
  se_ProtocolVersion : string;
  se_MaxPayloadBytes : Z;
  se_MaxUnknownActions : Z;
  se_UnknownActionWindow : Z;
  se_RequestDedupWindow : Z
}.

#[export] Instance eta_SessionConfig : Eta SessionConfig := fun s =>
  {| se_HeartbeatInterval := se_HeartbeatInterval s; se_HeartbeatTimeout := se_HeartbeatTimeout s;
     se_WriteTimeout := se_WriteTimeout s; se_GracePeriod := se_GracePeriod s;
     se_CleanupInterval := se_CleanupInterval s; se_ProtocolVersion := se_ProtocolVersion s;
     se_MaxPayloadBytes := se_MaxPayloadBytes s; se_MaxUnknownActions := se_MaxUnknownActions s;
     se_UnknownActionWindow := se_UnknownActionWindow s;
     se_RequestDedupWindow := se_RequestDedupWindow s |}.

Record SchedulerConfig := {
  sc_TaskAssignmentInterval : Z;
  sc_LatencyCheckInterval : Z;
  sc_ResourceCheckInterval : Z;
  sc_ResourceHardLimit : f64;
  sc_ResourceSoftLimit : f64;
  sc_ResourceSoftPenaltyMs : f64
}.

#[export] Instance eta_SchedulerConfig : Eta SchedulerConfig := fun s =>
  {| sc_TaskAssignmentInterval := sc_TaskAssignmentInterval s;
     sc_LatencyCheckInterval := sc_LatencyCheckInterval s;
     sc_ResourceCheckInterval := sc_ResourceCheckInterval s;
     sc_ResourceHardLimit := sc_ResourceHardLimit s;
     sc_ResourceSoftLimit := sc_ResourceSoftLimit s;
     sc_ResourceSoftPenaltyMs := sc_ResourceSoftPenaltyMs s |}.

Record LimitConfig := { lc_RequestsPerSecond : Z; lc_MessagesPerSecond : Z; lc_Burst : Z }.

#[export] Instance eta_LimitConfig : Eta LimitConfig := fun l =>
  {| lc_RequestsPerSecond := lc_RequestsPerSecond l;
     lc_MessagesPerSecond := lc_MessagesPerSecond l; lc_Burst := lc_Burst l |}.

Definition PerSecond (l : LimitConfig) : Z :=
  if (lc_RequestsPerSecond l >? 0)%Z then lc_RequestsPerSecond l else lc_MessagesPerSecond l.

Record RateLimitConfig := { rl_REST : LimitConfig; rl_WebSocket : LimitConfig }.

#[export] Instance eta_RateLimitConfig : Eta RateLimitConfig := fun r =>
  {| rl_REST := rl_REST r; rl_WebSocket := rl_WebSocket r |}.

Record MetricsConfig := { mt_Enabled : bool; mt_Port : Z; mt_Path : string }.

Record Config := {
  Server : ServerConfig;
  Databases : DatabasesConfig;
  HSM : HSMConfig;
  State : StateConfig;
  Logging : LoggingConfig;
  Session : SessionConfig;
  Scheduler : SchedulerConfig;
  RateLimit : RateLimitConfig;
  Metrics : MetricsConfig
}.

#[export] Instance eta_Config : Eta Config := fun c =>
  {| Server := Server c; Databases := Databases c; HSM := HSM c; State := State c;
     Logging := Logging c; Session := Session c; Scheduler := Scheduler c;
     RateLimit := RateLimit c; Metrics := Metrics c |}.

(** ** Validation

    [Validate] is a sequence of defaults and checks, run in the order of the source;
    the first check that fails ends it. *)

Inductive vstep :=
  | Default (f : Config -> Config)
  | Reject (bad : Config -> bool) (e : Config -> go_error).

Fixpoint run_steps (l : list vstep) : st Config (res unit) :=
  match l with
  | [] => mret (Ok tt)
  | Default f :: l => modify f;; run_steps l
  | Reject bad e :: l =>
      b ← gets bad;
      if (b : bool) then gets (fun c => Err (e c)) else run_steps l
  end.

(** [if v == 0 { v = d }] and [if v == "" { v = d }]. *)
Definition or_default (d v : Z) : Z := if (v =? 0)%Z then d else v.
Definition or_default_str (d v : string) : string := if str_empty v then d else v.
Definition or_default_f (d v : f64) : f64 := if f_eq v f_zero then d else v.

(** The checks that occur several times. *)
Definition port_bad (p : Z) : bool := ((p <? 1) || (p >? 65535))%Z.
Definition timeout_bad (d : Z) : bool := ((d <? 0) || (d >? 24 * Hour))%Z.
Definition period_bad (d : Z) : bool := ((d <=? 0) || (d >? 24 * Hour))%Z.
Definition fraction_bad (x : f64) : bool := f_le x f_zero || f_ge x f_one.

(** A check of one value that is printed in the error. *)
Definition reject_Z (get : Config -> Z) (bad : Z -> bool) (text : string) : vstep :=
  Reject (fun c => bad (get c)) (fun c => ENew (text +:+ Itoa (get c))).
Definition reject_duration (get : Config -> Z) (bad : Z -> bool) (text : string) : vstep :=
  Reject (fun c => bad (get c)) (fun c => ENew (text +:+ duration_string (get c))).
Definition reject_float (get : Config -> f64) (bad : f64 -> bool) (text : string) : vstep :=
  Reject (fun c => bad (get c)) (fun c => ENew (text +:+ f_fixed6 (get c))).
Definition require_str (get : Config -> string) (text : string) : vstep :=
  Reject (fun c => str_empty (get c)) (fun _ => ENew text).

Definition default_timeouts (f : TimeoutConfig -> TimeoutConfig) : vstep :=
  Default (fun c => c <| Server ::= fun s => s <| sv_Timeouts ::= f |> |>).
Definition timeouts (c : Config) : TimeoutConfig := sv_Timeouts (Server c).
Definition header_bytes (c : Config) : Z := li_MaxHeaderBytes (sv_Limits (Server c)).

Definition http2_error (c : Config) : option go_error :=
  match sv_HTTP2 (Server c) with
  | Some h => match HTTP2Config_Parse h with Err e => Some e | Ok _ => None end
  | None => None
  end.

Definition server_steps : list vstep :=
  [ Reject (fun c => port_bad (sv_Port (Server c)))
      (fun c => ENew ("invalid server port: " +:+ Itoa (sv_Port (Server c)) +:+ " (must be 1-65535)"));
    default_timeouts (fun t => t <| to_Read ::= or_default (30 * Second) |>);
    default_timeouts (fun t => t <| to_Write ::= or_default (30 * Second) |>);
    default_timeouts (fun t => t <| to_Idle ::= or_default (120 * Second) |>);
    default_timeouts (fun t => t <| to_ReadHeader ::= or_default (5 * Second) |>);
    default_timeouts (fun t => t <| to_ShutdownGrace ::= or_default (10 * Second) |>);
    Default (fun c => c <| Server ::= fun s => s <| sv_Limits ::= fun l =>
      {| li_MaxHeaderBytes := or_default 1048576 (li_MaxHeaderBytes l) |} |> |>);
    reject_duration (to_Read ∘ timeouts) timeout_bad "invalid server.timeouts.read: ";
    reject_duration (to_Write ∘ timeouts) timeout_bad "invalid server.timeouts.write: ";
    reject_duration (to_Idle ∘ timeouts) timeout_bad "invalid server.timeouts.idle: ";
    reject_duration (to_ReadHeader ∘ timeouts) timeout_bad "invalid server.timeouts.read_header: ";
    reject_duration (to_ShutdownGrace ∘ timeouts) timeout_bad "invalid server.timeouts.shutdown_grace: ";
    reject_Z header_bytes (fun n => (n <? 4096) || (n >? 16777216))%Z
      "invalid server.limits.max_header_bytes: ";
    Reject (fun c => bool_decide (http2_error c <> None))
      (fun c => EWrap "invalid server.http2: " (default (ENew "") (http2_error c)) "");
    require_str (st_CertPath ∘ sv_TLS ∘ Server) "server.tls.cert_path is required";
    require_str (st_KeyPath ∘ sv_TLS ∘ Server) "server.tls.key_path is required";
    require_str (st_CAPath ∘ sv_TLS ∘ Server) "server.tls.ca_path is required" ].

Definition system (c : Config) : DatabaseTargetConfig := db_System (Databases c).
Definition system_mysql (c : Config) : MySQLConfig := dt_MySQL (system c).

Definition database_steps : list vstep :=
  [ require_str (dt_Engine ∘ system) "databases.system.engine cannot be empty";
    Reject (fun c => negb (dt_Engine (system c) =s "mysql"))
      (fun c => ENew ("unsupported databases.system.engine: " +:+ dt_Engine (system c)));
    require_str (mq_Database ∘ system_mysql) "databases.system.mysql database cannot be empty";
    Reject (fun c => port_bad (mq_Port (system_mysql c)))
      (fun c => ENew ("invalid databases.system.mysql port: " +:+ Itoa (mq_Port (system_mysql c))
                      +:+ " (must be 1-65535)")) ].

Definition rest (c : Config) : LimitConfig := rl_REST (RateLimit c).
Definition websocket (c : Config) : LimitConfig := rl_WebSocket (RateLimit c).

Definition rates_negative (l : LimitConfig) : bool :=
  ((lc_RequestsPerSecond l <? 0) || (lc_MessagesPerSecond l <? 0))%Z.

(** [if l.PerSecond() == 0 { l.RequestsPerSecond = d }]. *)
Definition default_rate (d : Z) (l : LimitConfig) : LimitConfig :=
  l <| lc_RequestsPerSecond := if (PerSecond l =? 0)%Z then d else lc_RequestsPerSecond l |>.

Definition reject_rate (get : Config -> LimitConfig) (bad : LimitConfig -> bool) (name : string) : vstep :=
  Reject (fun c => bad (get c))
    (fun c => ENew ("invalid rate_limit." +:+ name +:+ ".requests_per_second: " +:+ Itoa (PerSecond (get c)))).

Definition rate_limit_steps : list vstep :=
  [ reject_rate rest rates_negative "rest";
    reject_rate websocket rates_negative "websocket";
    Default (fun c => c <| RateLimit ::= fun r => r <| rl_REST ::= default_rate 17 |> |>);
    Default (fun c => c <| RateLimit ::= fun r => r <| rl_REST ::= fun l =>
      l <| lc_Burst ::= or_default 100 |> |> |>);
    Default (fun c => c <| RateLimit ::= fun r => r <| rl_WebSocket ::= default_rate 167 |> |>);
    Default (fun c => c <| RateLimit ::= fun r => r <| rl_WebSocket ::= fun l =>
      l <| lc_Burst ::= or_default 1000 |> |> |>);
    reject_rate rest (fun l => PerSecond l <=? 0)%Z "rest";
    reject_Z (lc_Burst ∘ rest) (fun n => n <? 0)%Z "invalid rate_limit.rest.burst: ";
    reject_rate websocket (fun l => PerSecond l <=? 0)%Z "websocket";
    reject_Z (lc_Burst ∘ websocket) (fun n => n <? 0)%Z "invalid rate_limit.websocket.burst: " ].

Definition default_session (f : SessionConfig -> SessionConfig) : vstep :=
  Default (fun c => c <| Session ::= f |>).

Definition session_steps : list vstep :=
  [ default_session (fun s => s <| se_HeartbeatInterval ::= or_default (60 * Second) |>);
    default_session (fun s => s <| se_HeartbeatTimeout ::= or_default (180 * Second) |>);
    default_session (fun s => s <| se_WriteTimeout ::= or_default (5 * Second) |>);
    default_session (fun s => s <| se_GracePeriod ::= or_default (60 * Second) |>);
    default_session (fun s => s <| se_CleanupInterval ::= or_default (5 * Minute) |>);
    default_session (fun s => s <| se_ProtocolVersion ::= or_default_str "1" |>);
    default_session (fun s => s <| se_MaxPayloadBytes ::= or_default 65536 |>);
    default_session (fun s => s <| se_MaxUnknownActions ::= or_default 5 |>);
    default_session (fun s => s <| se_UnknownActionWindow ::= or_default (10 * Second) |>);
    default_session (fun s => s <| se_RequestDedupWindow ::= or_default (1 * Minute) |>);
    reject_duration (se_HeartbeatInterval ∘ Session) period_bad "invalid session.heartbeat_interval: ";
    reject_duration (se_HeartbeatTimeout ∘ Session) period_bad "invalid session.heartbeat_timeout: ";
    reject_duration (se_WriteTimeout ∘ Session) period_bad "invalid session.write_timeout: ";
    Reject (fun c => se_HeartbeatTimeout (Session c) <? se_HeartbeatInterval (Session c))%Z
      (fun c => ENew ("invalid session settings: heartbeat_timeout ("
        +:+ duration_string (se_HeartbeatTimeout (Session c)) +:+ ") must be >= heartbeat_interval ("
        +:+ duration_string (se_HeartbeatInterval (Session c)) +:+ ")"));
    reject_duration (se_GracePeriod ∘ Session) period_bad "invalid session.grace_period: ";
    reject_duration (se_CleanupInterval ∘ Session) period_bad "invalid session.cleanup_interval: ";
    require_str (se_ProtocolVersion ∘ Session) "invalid session.protocol_version: cannot be empty";
    reject_Z (se_MaxPayloadBytes ∘ Session) (fun n => (n <? 1024) || (n >? 10485760))%Z
      "invalid session.max_payload_bytes: ";
    reject_Z (se_MaxUnknownActions ∘ Session) (fun n => (n <=? 0) || (n >? 1000))%Z
      "invalid session.max_unknown_actions: ";
    reject_duration (se_UnknownActionWindow ∘ Session) period_bad "invalid session.unknown_action_window: ";
    reject_duration (se_RequestDedupWindow ∘ Session) period_bad "invalid session.request_dedup_window: " ].

Definition default_scheduler (f : SchedulerConfig -> SchedulerConfig) : vstep :=
  Default (fun c => c <| Scheduler ::= f |>).

Definition scheduler_steps : list vstep :=
  [ default_scheduler (fun s => s <| sc_TaskAssignmentInterval ::= or_default (1 * Second) |>);
    default_scheduler (fun s => s <| sc_LatencyCheckInterval ::= or_default (5 * Minute) |>);
    default_scheduler (fun s => s <| sc_ResourceCheckInterval ::= or_default (30 * Second) |>);
    default_scheduler (fun s => s <| sc_ResourceHardLimit ::= or_default_f (f_lit 98 100) |>);
    default_scheduler (fun s => s <| sc_ResourceSoftLimit ::= or_default_f (f_lit 75 100) |>);
    default_scheduler (fun s => s <| sc_ResourceSoftPenaltyMs ::= or_default_f (f_of_Z 600) |>);
    reject_duration (sc_TaskAssignmentInterval ∘ Scheduler) period_bad
      "invalid scheduler.task_assignment_interval: ";
    reject_duration (sc_LatencyCheckInterval ∘ Scheduler) period_bad
      "invalid scheduler.latency_check_interval: ";
    reject_duration (sc_ResourceCheckInterval ∘ Scheduler) period_bad
      "invalid scheduler.resource_check_interval: ";
    reject_float (sc_ResourceHardLimit ∘ Scheduler) fraction_bad "invalid scheduler.resource_hard_limit: ";
    reject_float (sc_ResourceSoftLimit ∘ Scheduler) fraction_bad "invalid scheduler.resource_soft_limit: ";
    Reject (fun c => f_ge (sc_ResourceSoftLimit (Scheduler c)) (sc_ResourceHardLimit (Scheduler c)))
      (fun c => ENew ("invalid scheduler resource limits: resource_soft_limit ("
        +:+ f_fixed6 (sc_ResourceSoftLimit (Scheduler c)) +:+ ") must be < resource_hard_limit ("
        +:+ f_fixed6 (sc_ResourceHardLimit (Scheduler c)) +:+ ")"));
    reject_float (sc_ResourceSoftPenaltyMs ∘ Scheduler)
      (fun x => f_le x f_zero || f_gt x (f_of_Z 1000000))
      "invalid scheduler.resource_soft_penalty_ms: " ].

Definition state_steps : list vstep :=
  [ require_str (sf_FilePath ∘ State) "state file path cannot be empty" ].

Definition valid_level (level : string) : bool :=
  (level =s "debug") || (level =s "info") || (level =s "warn") || (level =s "error").

Definition default_logging (f : LoggingConfig -> LoggingConfig) : vstep :=
  Default (fun c => c <| Logging ::= f |>).

Definition fill_dir (l : LoggingConfig) : LoggingConfig :=
  l <| lg_Dir := if str_empty (lg_Dir l)
                 then if negb (str_empty (lg_ErrorPath l)) then Dir (lg_ErrorPath l)
                      else "/var/log/cts-core"
                 else lg_Dir l |>.

Definition logging_steps : list vstep :=
  [ Reject (fun c => negb (valid_level (lg_Level (Logging c))))
      (fun c => ENew ("invalid log level: " +:+ lg_Level (Logging c)
                      +:+ " (must be debug, info, warn, or error)"));
    default_logging (fun l => l <| lg_Format ::= or_default_str "json" |>);
    Reject (fun c => negb (lg_Format (Logging c) =s "json") && negb (lg_Format (Logging c) =s "text"))
      (fun c => ENew ("invalid logging format: " +:+ lg_Format (Logging c) +:+ " (must be json or text)"));
    default_logging fill_dir;
    default_logging (fun l => l <| lg_ErrorPath ::= or_default_str (Join (lg_Dir l) "error.log") |>);
    default_logging (fun l => l <| lg_AccessPath ::= or_default_str (Join (lg_Dir l) "access.log") |>);
    default_logging (fun l =>
      l <| lg_OutRequestPath ::= or_default_str (Join (lg_Dir l) "out_request.log") |>);
    default_logging (fun l => l <| lg_WSPath ::= or_default_str (Join (lg_Dir l) "ws.log") |>);
    default_logging (fun l => l <| lg_AuditPath ::= or_default_str (Join (lg_Dir l) "audit.log") |>) ].

Definition require_tls (get : TLSConfig -> string) (name : string) : vstep :=
  Reject (fun c => tc_Enabled (mq_TLS (system_mysql c)) && str_empty (get (mq_TLS (system_mysql c))))
    (fun _ => ENew ("databases.system.mysql.tls." +:+ name +:+ " is required when tls.enabled=true")).

Definition mysql_tls_steps : list vstep :=
  [ require_tls tc_CAPath "ca_path"; require_tls tc_CertPath "cert_path";
    require_tls tc_KeyPath "key_path" ].

Definition validate_steps : list vstep :=
  server_steps ++ database_steps ++ rate_limit_steps ++ session_steps ++ scheduler_steps ++
  state_steps ++ logging_steps ++ mysql_tls_steps.

Definition Validate : st Config (res unit) := run_steps validate_steps.

(** ** Environment and file *)

(** [Getenv key] is "" for a variable that is not set. *)
Definition applyEnvOverrides (Getenv : string -> string) (c : Config) : Config :=
  let mysqlPass := Getenv "CTS_DATABASES_SYSTEM_MYSQL_PASSWORD" in
  let c := if negb (str_empty mysqlPass)
           then c <| Databases ::= fun d => d <| db_System ::= fun t => t <| dt_MySQL ::= fun m =>
                  m <| mq_Password := mysqlPass |> |> |> |>
           else c in
  let logLevel := Getenv "CTS_LOG_LEVEL" in
  let c := if negb (str_empty logLevel)
           then c <| Logging ::= fun l => l <| lg_Level := logLevel |> |> else c in
  let logFormat := Getenv "CTS_LOG_FORMAT" in
  if negb (str_empty logFormat)
  then c <| Logging ::= fun l => l <| lg_Format := logFormat |> |> else c.

(** [file] is what [os.ReadFile(path)] gives; [unmarshal] is the YAML decoder. *)
Definition Load (Getenv : string -> string) (unmarshal : string -> res Config) (file : res string)
    : res Config :=
  match file with
  | Err e => Err (EWrap "failed to read config file: " e "")
  | Ok data =>
      match unmarshal data with
      | Err e => Err (EWrap "failed to parse config: " e "")
      | Ok cfg =>
          match Validate cfg with
          | (Err e, _) => Err (EWrap "invalid configuration: " e "")
          | (Ok _, cfg) => Ok (applyEnvOverrides Getenv cfg)
          end
      end
  end.
