(* ===== verification/ConfigFacts.v ===== *)
(** * What a validated configuration promises

    [config_ok] is the declarative form of the checks of [Validate], and
    [fill_defaults] all its defaults at once: the interleaved defaults and checks
    accept a configuration exactly when it is in order after all defaults. *)

From S2P Require Import Prelude GoText GoFloat StateM FileSys Http2 Config.

(** ** Running steps *)

Fixpoint passes (l : list vstep) (c : Config) : Prop :=
  match l with
  | [] => True
  | Default f :: l => passes l (f c)
  | Reject bad _ :: l => bad c = false /\ passes l c
  end.

Fixpoint final (l : list vstep) (c : Config) : Config :=
  match l with
  | [] => c
  | Default f :: l => final l (f c)
  | Reject _ _ :: l => final l c
  end.

Lemma run_steps_spec l c :
  ((run_steps l c).1 = Ok tt <-> passes l c) /\
  ((run_steps l c).1 = Ok tt -> (run_steps l c).2 = final l c).
Proof.
  revert c. induction l as [|[f|bad e] l IH]; intros c; cbn.
  - done.
  - unfold mbind, st_bind; cbn. apply IH.
  - unfold mbind, st_bind; cbn. destruct (bad c); cbn; [naive_solver|]. naive_solver.
Qed.

Lemma passes_app l1 l2 c : passes (l1 ++ l2) c <-> passes l1 c /\ passes l2 (final l1 c).
Proof. revert c. induction l1 as [|[f|bad e] l1 IH]; intros c; cbn; rewrite ?IH; tauto. Qed.

Lemma final_app l1 l2 c : final (l1 ++ l2) c = final l2 (final l1 c).
Proof. revert c. induction l1 as [|[f|bad e] l1 IH]; intros c; cbn; auto. Qed.

(** The error of [e] is that of the first check that fails. *)
Definition fails_with (l : list vstep) (c : Config) (e : go_error) : Prop :=
  exists before bad err after, l = before ++ Reject bad err :: after /\
    passes before c /\ bad (final before c) = true /\ e = err (final before c).

Lemma fails_with_cons s l c e :
  fails_with (s :: l) c e <->
  match s with
  | Default f => fails_with l (f c) e
  | Reject bad err => if bad c then e = err c else fails_with l c e
  end.
Proof.
  split.
  - intros ([|s' before] & bad & err & after & [= -> ->] & Hp & Hb & ->); cbn in *.
    + by rewrite Hb.
    + destruct s' as [f|bad' err']; cbn in *; [by repeat eexists|].
      destruct Hp as [-> Hp]. by repeat eexists.
  - destruct s as [f|bad err].
    + intros (before & bad & err & after & -> & Hp & Hb & ->).
      by exists (Default f :: before), bad, err, after.
    + destruct (bad c) eqn:Hb; [intros ->; by exists [], bad, err, l|].
      intros (before & bad' & err' & after & -> & Hp & Hb' & ->).
      by exists (Reject bad err :: before), bad', err', after.
Qed.

Lemma run_steps_err l c e : (run_steps l c).1 = Err e <-> fails_with l c e.
Proof.
  revert c. induction l as [|s l IH]; intros c; cbn.
  - split; [done|]. intros ([|] & ? & ? & ? & [=] & _).
  - rewrite fails_with_cons. destruct s as [f|bad err]; unfold mbind, st_bind; cbn; [apply IH|].
    destruct (bad c); cbn; [|apply IH]. split; congruence.
Qed.

(** ** The checks as ranges *)

Definition period_ok (d : Z) : Prop := (0 < d <= 24 * Hour)%Z.
Definition port_ok (p : Z) : Prop := (1 <= p <= 65535)%Z.

(** A limit strictly between 0 and 1, or NaN: no comparison of [Validate] rejects it. *)
Definition fraction_ok (x : f64) : Prop :=
  f_is_nan x = true \/ f_lt f_zero x = true /\ f_lt x f_one = true.

Record server_ok (s : ServerConfig) : Prop := {
  so_port : port_ok (sv_Port s);
  so_read : period_ok (to_Read (sv_Timeouts s));
  so_write : period_ok (to_Write (sv_Timeouts s));
  so_idle : period_ok (to_Idle (sv_Timeouts s));
  so_read_header : period_ok (to_ReadHeader (sv_Timeouts s));
  so_shutdown : period_ok (to_ShutdownGrace (sv_Timeouts s));
  so_header_bytes : (4096 <= li_MaxHeaderBytes (sv_Limits s) <= 16777216)%Z;
  so_http2 : forall h, sv_HTTP2 s = Some h -> is_ok (HTTP2Config_Parse h) = true;
  so_cert : st_CertPath (sv_TLS s) <> "";
  so_key : st_KeyPath (sv_TLS s) <> "";
  so_ca : st_CAPath (sv_TLS s) <> ""
}.

Record database_ok (d : DatabaseTargetConfig) : Prop := {
  do_engine : dt_Engine d = "mysql";
  do_database : mq_Database (dt_MySQL d) <> "";
  do_port : port_ok (mq_Port (dt_MySQL d));
  do_tls : tc_Enabled (mq_TLS (dt_MySQL d)) = true ->
    tc_CAPath (mq_TLS (dt_MySQL d)) <> "" /\ tc_CertPath (mq_TLS (dt_MySQL d)) <> "" /\
    tc_KeyPath (mq_TLS (dt_MySQL d)) <> ""
}.

Record limit_ok (l : LimitConfig) : Prop := {
  lo_rate : (0 < PerSecond l)%Z;
  lo_burst : (0 < lc_Burst l)%Z
}.

Record session_ok (s : SessionConfig) : Prop := {
  se_ok_interval : period_ok (se_HeartbeatInterval s);
  se_ok_timeout : period_ok (se_HeartbeatTimeout s);
  se_ok_write : period_ok (se_WriteTimeout s);
  se_ok_order : (se_HeartbeatInterval s <= se_HeartbeatTimeout s)%Z;
  se_ok_grace : period_ok (se_GracePeriod s);
  se_ok_cleanup : period_ok (se_CleanupInterval s);
  se_ok_version : se_ProtocolVersion s <> "";
  se_ok_payload : (1024 <= se_MaxPayloadBytes s <= 10485760)%Z;
  se_ok_unknown : (1 <= se_MaxUnknownActions s <= 1000)%Z;
  se_ok_window : period_ok (se_UnknownActionWindow s);
  se_ok_dedup : period_ok (se_RequestDedupWindow s)
}.

Record scheduler_ok (s : SchedulerConfig) : Prop := {
  sc_ok_assignment : period_ok (sc_TaskAssignmentInterval s);
  sc_ok_latency : period_ok (sc_LatencyCheckInterval s);
  sc_ok_resource : period_ok (sc_ResourceCheckInterval s);
  sc_ok_hard : fraction_ok (sc_ResourceHardLimit s);
  sc_ok_soft : fraction_ok (sc_ResourceSoftLimit s);
  sc_ok_limits : f_le (sc_ResourceHardLimit s) (sc_ResourceSoftLimit s) = false;
  sc_ok_penalty : f_is_nan (sc_ResourceSoftPenaltyMs s) = true \/
    f_lt f_zero (sc_ResourceSoftPenaltyMs s) = true /\
    f_lt (f_of_Z 1000000) (sc_ResourceSoftPenaltyMs s) = false
}.

Record logging_ok (l : LoggingConfig) : Prop := {
  lg_ok_level : lg_Level l ∈ ["debug"; "info"; "warn"; "error"];
  lg_ok_format : lg_Format l ∈ ["json"; "text"]
}.

Record config_ok (c : Config) : Prop := {
  co_server : server_ok (Server c);
  co_database : database_ok (db_System (Databases c));
  co_rest : limit_ok (rl_REST (RateLimit c));
  co_websocket : limit_ok (rl_WebSocket (RateLimit c));
  co_session : session_ok (Session c);
  co_scheduler : scheduler_ok (Scheduler c);
  co_state : sf_FilePath (State c) <> "";
  co_logging : logging_ok (Logging c)
}.

(** ** The defaults of a configuration, section by section *)

Definition fill_timeouts (t : TimeoutConfig) : TimeoutConfig :=
  {| to_Read := or_default (30 * Second) (to_Read t);
     to_Write := or_default (30 * Second) (to_Write t);
     to_Idle := or_default (120 * Second) (to_Idle t);
     to_ReadHeader := or_default (5 * Second) (to_ReadHeader t);
     to_ShutdownGrace := or_default (10 * Second) (to_ShutdownGrace t) |}.

Definition fill_server (s : ServerConfig) : ServerConfig :=
  s <| sv_Timeouts ::= fill_timeouts |>
    <| sv_Limits ::= fun l => {| li_MaxHeaderBytes := or_default 1048576 (li_MaxHeaderBytes l) |} |>.

Definition fill_limit (rate burst : Z) (l : LimitConfig) : LimitConfig :=
  {| lc_RequestsPerSecond := if (PerSecond l =? 0)%Z then rate else lc_RequestsPerSecond l;
     lc_MessagesPerSecond := lc_MessagesPerSecond l; lc_Burst := or_default burst (lc_Burst l) |}.

Definition fill_session (s : SessionConfig) : SessionConfig :=
  {| se_HeartbeatInterval := or_default (60 * Second) (se_HeartbeatInterval s);
     se_HeartbeatTimeout := or_default (180 * Second) (se_HeartbeatTimeout s);
     se_WriteTimeout := or_default (5 * Second) (se_WriteTimeout s);
     se_GracePeriod := or_default (60 * Second) (se_GracePeriod s);
     se_CleanupInterval := or_default (5 * Minute) (se_CleanupInterval s);
     se_ProtocolVersion := or_default_str "1" (se_ProtocolVersion s);
     se_MaxPayloadBytes := or_default 65536 (se_MaxPayloadBytes s);
     se_MaxUnknownActions := or_default 5 (se_MaxUnknownActions s);
     se_UnknownActionWindow := or_default (10 * Second) (se_UnknownActionWindow s);
     se_RequestDedupWindow := or_default (1 * Minute) (se_RequestDedupWindow s) |}.

Definition fill_scheduler (s : SchedulerConfig) : SchedulerConfig :=
  {| sc_TaskAssignmentInterval := or_default (1 * Second) (sc_TaskAssignmentInterval s);
     sc_LatencyCheckInterval := or_default (5 * Minute) (sc_LatencyCheckInterval s);
     sc_ResourceCheckInterval := or_default (30 * Second) (sc_ResourceCheckInterval s);
     sc_ResourceHardLimit := or_default_f (f_lit 98 100) (sc_ResourceHardLimit s);
     sc_ResourceSoftLimit := or_default_f (f_lit 75 100) (sc_ResourceSoftLimit s);
     sc_ResourceSoftPenaltyMs := or_default_f (f_of_Z 600) (sc_ResourceSoftPenaltyMs s) |}.

Definition fill_logging (l : LoggingConfig) : LoggingConfig :=
  let dir := lg_Dir (fill_dir l) in
  l <| lg_Format ::= or_default_str "json" |> <| lg_Dir := dir |>
    <| lg_ErrorPath ::= or_default_str (Join dir "error.log") |>
    <| lg_AccessPath ::= or_default_str (Join dir "access.log") |>
    <| lg_OutRequestPath ::= or_default_str (Join dir "out_request.log") |>
    <| lg_WSPath ::= or_default_str (Join dir "ws.log") |>
    <| lg_AuditPath ::= or_default_str (Join dir "audit.log") |>.

Definition fill_defaults (c : Config) : Config :=
  c <| Server ::= fill_server |>
    <| RateLimit := {| rl_REST := fill_limit 17 100 (rl_REST (RateLimit c));
                       rl_WebSocket := fill_limit 167 1000 (rl_WebSocket (RateLimit c)) |} |>
    <| Session ::= fill_session |> <| Scheduler ::= fill_scheduler |> <| Logging ::= fill_logging |>.

(** Each block of steps changes only its own section. *)

Lemma final_server c : final server_steps c = c <| Server ::= fill_server |>.
Proof. destruct c as [[? ? [] [] ?] ? ? ? ? ? ? ? ?]. reflexivity. Qed.

Lemma final_database c : final database_steps c = c.
Proof. reflexivity. Qed.

Lemma final_rate_limit c :
  final rate_limit_steps c =
  c <| RateLimit := {| rl_REST := fill_limit 17 100 (rl_REST (RateLimit c));
                       rl_WebSocket := fill_limit 167 1000 (rl_WebSocket (RateLimit c)) |} |>.
Proof. destruct c as [? ? ? ? ? ? ? [[] []] ?]. reflexivity. Qed.

Lemma final_session c : final session_steps c = c <| Session ::= fill_session |>.
Proof. destruct c as [? ? ? ? ? [] ? ? ?]. reflexivity. Qed.

Lemma final_scheduler c : final scheduler_steps c = c <| Scheduler ::= fill_scheduler |>.
Proof. destruct c as [? ? ? ? ? ? [] ? ?]. reflexivity. Qed.

Lemma final_state c : final state_steps c = c.
Proof. reflexivity. Qed.

Lemma final_logging c : final logging_steps c = c <| Logging ::= fill_logging |>.
Proof. destruct c as [? ? ? ? [] ? ? ? ?]. reflexivity. Qed.

Lemma final_mysql_tls c : final mysql_tls_steps c = c.
Proof. reflexivity. Qed.


(** ** The checks of a block accept exactly the sections in order *)

Lemma timeout_or_default d v :
  (0 < d)%Z -> timeout_bad (or_default d v) = false <-> period_ok (or_default d v).
Proof. unfold timeout_bad, period_ok, or_default, Hour. repeat case_match; lia. Qed.

Lemma period_or_default d v : period_bad (or_default d v) = false <-> period_ok (or_default d v).
Proof. unfold period_bad, period_ok. lia. Qed.

Lemma port_bad_false p : port_bad p = false <-> port_ok p.
Proof. unfold port_bad, port_ok. lia. Qed.

Lemma f_le_false x y :
  f_le x y = false <-> f_is_nan x = true \/ f_is_nan y = true \/ f_lt y x = true.
Proof.
  destruct (f_is_nan x) eqn:Ex; [|destruct (f_is_nan y) eqn:Ey].
  - unfold f_le. destruct x; try done. naive_solver.
  - unfold f_le. destruct y; try done. destruct x; naive_solver.
  - rewrite f_le_not_lt by done. destruct (f_lt y x); naive_solver.
Qed.

Lemma fraction_bad_false x : fraction_bad x = false <-> fraction_ok x.
Proof.
  unfold fraction_bad, fraction_ok, f_ge. rewrite orb_false_iff, !f_le_false.
  cbn [f_is_nan f_zero]. change (f_is_nan f_one) with false.
  destruct (f_is_nan x); naive_solver.
Qed.

Lemma soft_penalty_false x :
  f_le x f_zero || f_gt x (f_of_Z 1000000) = false <->
  f_is_nan x = true \/ f_lt f_zero x = true /\ f_lt (f_of_Z 1000000) x = false.
Proof.
  unfold f_gt. rewrite orb_false_iff, f_le_false. cbn [f_is_nan f_zero].
  destruct x; naive_solver.
Qed.

Lemma http2_error_none c :
  bool_decide (http2_error c <> None) = false <->
  forall h, sv_HTTP2 (Server c) = Some h -> is_ok (HTTP2Config_Parse h) = true.
Proof.
  rewrite bool_decide_eq_false. unfold http2_error.
  destruct (sv_HTTP2 (Server c)) as [h|]; [|naive_solver].
  destruct (HTTP2Config_Parse h) eqn:E; split.
  - intros _ h' [= <-]. rewrite E. done.
  - naive_solver.
  - intros []; done.
  - intros H. specialize (H h eq_refl). rewrite E in H. done.
Qed.

#[local] Arguments or_default : simpl never.
#[local] Arguments or_default_str : simpl never.
#[local] Arguments or_default_f : simpl never.
#[local] Arguments port_bad : simpl never.
#[local] Arguments timeout_bad : simpl never.
#[local] Arguments period_bad : simpl never.
#[local] Arguments fraction_bad : simpl never.
#[local] Arguments str_empty : simpl never.
#[local] Arguments f_le : simpl never.
#[local] Arguments f_ge : simpl never.
#[local] Arguments f_gt : simpl never.
#[local] Arguments f_lit : simpl never.
#[local] Arguments f_of_Z : simpl never.
#[local] Arguments HTTP2Config_Parse : simpl never.

Lemma range_false a b n : ((n <? a) || (n >? b))%Z = false <-> (a <= n <= b)%Z.
Proof. lia. Qed.

Lemma positive_range_false b n : ((n <=? 0) || (n >? b))%Z = false <-> (1 <= n <= b)%Z.
Proof. lia. Qed.

Create Rewrite HintDb cts_checks.
Hint Rewrite port_bad_false period_or_default fraction_bad_false soft_penalty_false
  http2_error_none str_empty_false range_false positive_range_false Z.ltb_ge Z.leb_gt : cts_checks.
Hint Rewrite timeout_or_default using (unfold Second; lia) : cts_checks.

(** The checks of a block one by one, against the fields of the record of its facts. *)
Ltac passes_block :=
  cbn; autorewrite with cts_checks; cbn; split;
  [intros; destruct_and?; constructor; cbn; try done
  |intros []; cbn in *; repeat first [done | apply conj]].

Lemma passes_server c : passes server_steps c <-> server_ok (fill_server (Server c)).
Proof. destruct c as [[? ? [] [] ?] ? ? ? ? ? ? ? ?]. passes_block. Qed.

Lemma passes_session c : passes session_steps c <-> session_ok (fill_session (Session c)).
Proof. destruct c as [? ? ? ? ? [] ? ? ?]. passes_block. Qed.

Lemma passes_scheduler c : passes scheduler_steps c <-> scheduler_ok (fill_scheduler (Scheduler c)).
Proof. destruct c as [? ? ? ? ? ? [] ? ?]. passes_block. Qed.

Lemma passes_state c : passes state_steps c <-> sf_FilePath (State c) <> "".
Proof. cbn. autorewrite with cts_checks. tauto. Qed.

Lemma require_tls_false b v : b && str_empty v = false <-> (b = true -> v <> "").
Proof. rewrite andb_false_iff, str_empty_false. destruct b; naive_solver. Qed.

Lemma str_neqb_false a b : negb (a =s b) = false <-> a = b.
Proof. rewrite negb_false_iff. apply str_eqb_eq. Qed.

Lemma passes_database c :
  passes database_steps c /\ passes mysql_tls_steps c <-> database_ok (db_System (Databases c)).
Proof.
  cbn. autorewrite with cts_checks. rewrite !require_tls_false, str_neqb_false. split.
  - intros ([] & []). destruct_and?. constructor; auto.
  - intros []. unfold system_mysql, system. rewrite do_engine0.
    repeat split; try done; try apply do_port0; intros; by apply do_tls0.
Qed.

(** *** Rate limits

    The sign of the rates is checked before the defaults. *)

Definition rates_given (l : LimitConfig) : Prop :=
  (0 <= lc_RequestsPerSecond l /\ 0 <= lc_MessagesPerSecond l)%Z.

Lemma rates_negative_false l : rates_negative l = false <-> rates_given l.
Proof. unfold rates_negative, rates_given. lia. Qed.

Lemma burst_or_default d v : d <> 0%Z -> (0 <= or_default d v)%Z <-> (0 < or_default d v)%Z.
Proof. unfold or_default. case_match; lia. Qed.

Lemma passes_rate_limit c :
  passes rate_limit_steps c <->
  (rates_given (rl_REST (RateLimit c)) /\ rates_given (rl_WebSocket (RateLimit c))) /\
  limit_ok (fill_limit 17 100 (rl_REST (RateLimit c))) /\
  limit_ok (fill_limit 167 1000 (rl_WebSocket (RateLimit c))).
Proof.
  destruct c as [? ? ? ? ? ? ? [[] []] ?]. cbn. rewrite !rates_negative_false.
  autorewrite with cts_checks. rewrite !burst_or_default by done. split.
  - intros. destruct_and?. repeat first [done | constructor].
  - intros ([] & [] & []). cbn in *. repeat first [done | apply conj].
Qed.

(** *** Logging *)

Lemma valid_level_false level :
  negb (valid_level level) = false <-> level ∈ ["debug"; "info"; "warn"; "error"].
Proof.
  unfold valid_level. rewrite negb_false_iff, !orb_true_iff, !str_eqb_eq. set_solver.
Qed.

Lemma valid_format_false format :
  negb (format =s "json") && negb (format =s "text") = false <-> format ∈ ["json"; "text"].
Proof. rewrite andb_false_iff, !str_neqb_false. set_solver. Qed.

Lemma passes_logging c : passes logging_steps c <-> logging_ok (fill_logging (Logging c)).
Proof.
  destruct c as [? ? ? ? [] ? ? ? ?]. cbn. rewrite valid_level_false, valid_format_false. split.
  - intros. destruct_and?. by constructor.
  - intros []. cbn in *. by repeat split.
Qed.

(** ** Validation as a whole *)

Lemma final_validate c : final validate_steps c = fill_defaults c.
Proof.
  unfold validate_steps. rewrite !final_app, final_mysql_tls, final_logging, final_state,
    final_scheduler, final_session, final_rate_limit, final_database, final_server.
  reflexivity.
Qed.

(** What [Validate] accepts: no rate below zero, and everything in order after the
    defaults. *)
Definition acceptable (c : Config) : Prop :=
  (rates_given (rl_REST (RateLimit c)) /\ rates_given (rl_WebSocket (RateLimit c))) /\
  config_ok (fill_defaults c).

Lemma passes_validate c : passes validate_steps c <-> acceptable c.
Proof.
  unfold validate_steps. rewrite !passes_app, final_logging, final_state,
    final_scheduler, final_session, final_rate_limit, final_database, final_server.
  rewrite passes_server, passes_rate_limit, passes_session, passes_scheduler, passes_state,
    passes_logging.
  match goal with |- context [passes database_steps ?c'] =>
    change (passes database_steps c') with (passes database_steps c) end.
  match goal with |- context [passes mysql_tls_steps ?c'] =>
    change (passes mysql_tls_steps c') with (passes mysql_tls_steps c) end.
  unfold acceptable. split.
  - intros. destruct_and?. split; [done|]. constructor; try done; apply passes_database; done.
  - intros (? & []). destruct (proj2 (passes_database c) co_database0) as [Hd Ht].
    repeat first [done | apply conj].
Qed.

Lemma Validate_ok c : (Validate c).1 = Ok tt <-> acceptable c.
Proof. rewrite <- passes_validate. apply run_steps_spec. Qed.

Lemma Validate_config c : acceptable c -> Validate c = (Ok tt, fill_defaults c).
Proof.
  intros Ha. apply Validate_ok in Ha as Hv. unfold Validate in *.
  pose proof (proj2 (run_steps_spec validate_steps c) Hv) as Hc.
  rewrite final_validate in Hc. destruct (run_steps validate_steps c); cbn in *. by subst.
Qed.

Lemma Validate_rejects c :
  ~ acceptable c <-> exists e, fails_with validate_steps c e.
Proof.
  rewrite <- Validate_ok. unfold Validate. setoid_rewrite <- run_steps_err.
  destruct (run_steps validate_steps c).1 as [[]|e]; naive_solver.
Qed.

(** ** Loading *)

(** The stages of [Load] that fail, with the error of each. *)
Inductive load_fails (unmarshal : string -> res Config) (file : res string) : go_error -> Prop :=
  | read_fails e :
      file = Err e -> load_fails unmarshal file (EWrap "failed to read config file: " e "")
  | parse_fails data e :
      file = Ok data -> unmarshal data = Err e ->
      load_fails unmarshal file (EWrap "failed to parse config: " e "")
  | validation_fails data c e :
      file = Ok data -> unmarshal data = Ok c -> ~ acceptable c -> fails_with validate_steps c e ->
      load_fails unmarshal file (EWrap "invalid configuration: " e "").

Lemma Load_ok Getenv unmarshal file c' :
  Load Getenv unmarshal file = Ok c' <->
  exists data c, file = Ok data /\ unmarshal data = Ok c /\ acceptable c /\
    c' = applyEnvOverrides Getenv (fill_defaults c).
Proof.
  unfold Load. destruct file as [data|e0]; [|split; [done|intros (? & ? & ? & _); congruence]].
  destruct (unmarshal data) as [c|e0] eqn:Hu; [|split; [done|intros (? & ? & [= <-] & ? & _); congruence]].
  destruct (Validate c) as [[[]|e0] c1] eqn:Hv.
  - assert (acceptable c) as Ha by (apply Validate_ok; by rewrite Hv).
    rewrite (Validate_config c Ha) in Hv. injection Hv as <-.
    split; [intros [= <-]; by exists data, c|]. intros (? & ? & [= <-] & ? & _ & ->). congruence.
  - split; [done|]. intros (? & c2 & [= <-] & Hc & Ha & _). rewrite Hu in Hc. injection Hc as <-.
    apply Validate_ok in Ha. by rewrite Hv in Ha.
Qed.

(** C40. [Load] succeeds exactly when the file is read, it is well-formed YAML and no
    check fails on the configuration with its defaults, and then gives that
    configuration with the environment's password, log level and format put over it;
    in every other case it gives the error of the stage that failed, for an invalid
    configuration that of its first failing check. *)
Theorem Load_spec Getenv unmarshal file :
  (forall c', Load Getenv unmarshal file = Ok c' <->
     exists data c, file = Ok data /\ unmarshal data = Ok c /\ acceptable c /\
       c' = applyEnvOverrides Getenv (fill_defaults c)) /\
  (forall e, Load Getenv unmarshal file = Err e <-> load_fails unmarshal file e).
Proof.
  split; [apply Load_ok|]. intros e. unfold Load. destruct file as [data|e0].
  2: { split; [intros [= <-]; by constructor|]. intros []; congruence. }
  destruct (unmarshal data) as [c|e0] eqn:Hu.
  2: { split; [intros [= <-]; by econstructor|]. intros []; congruence. }
  destruct (Validate c) as [[[]|e0] c1] eqn:Hv.
  - assert (acceptable c) as Ha by (apply Validate_ok; by rewrite Hv).
    split; [done|]. intros []; congruence.
  - assert (fails_with validate_steps c e0) as He.
    { apply run_steps_err. fold Validate. by rewrite Hv. }
    assert (~ acceptable c) as Ha by (apply Validate_rejects; eauto).
    split; [intros [= <-]; by econstructor|].
    intros [| |data' c' e1 [= <-] Hc _ He1]; [congruence..|].
    rewrite Hu in Hc. injection Hc as <-. apply run_steps_err in He1. fold Validate in He1.
    rewrite Hv in He1. by injection He1 as ->.
Qed.

(** ** A configuration that is accepted *)

Definition demo_tls : ServerTLSConfig :=
  {| st_CertPath := "server.crt"; st_KeyPath := "server.key"; st_CAPath := "ca.crt";
     st_AllowedClientCommonNames := []; st_AllowedClientOrganizationalOUs := [];
     st_AllowedClientDNSNames := [] |}.

Definition no_tls : TLSConfig :=
  {| tc_Enabled := false; tc_CertPath := ""; tc_KeyPath := ""; tc_CAPath := "" |}.

Definition no_retry : RetryConfig :=
  {| re_MaxAttempts := 0; re_InitialDelay := 0; re_MaxDelay := 0; re_Multiplier := f_zero |}.

Definition demo_mysql : MySQLConfig :=
  {| mq_Host := "db"; mq_Port := 3306; mq_User := "cts"; mq_Password := ""; mq_Database := "cts";
     mq_Pool := {| po_MaxOpenConns := 0; po_MaxIdleConns := 0; po_ConnMaxLifetime := 0 |};
     mq_TLS := no_tls; mq_Retry := no_retry |}.

Definition demo_engine : OtherEngineConfig :=
  {| oe_Host := ""; oe_Port := 0; oe_User := ""; oe_Password := ""; oe_Database := "" |}.

Definition demo_target : DatabaseTargetConfig :=
  {| dt_Engine := "mysql"; dt_MySQL := demo_mysql; dt_ClickHouse := demo_engine;
     dt_PostgreSQL := demo_engine |}.

Definition demo_limit : LimitConfig :=
  {| lc_RequestsPerSecond := 0; lc_MessagesPerSecond := 0; lc_Burst := 0 |}.

Definition demo_hsm : HSMContextConfig := {| hx_Context := ""; hx_TLS := no_tls |}.

Definition demo_logging : LoggingConfig :=
  {| lg_Level := "info"; lg_Format := ""; lg_Dir := ""; lg_MaxSizeMB := 0; lg_MaxBackups := 0;
     lg_MaxAgeDays := 0; lg_Compress := false; lg_ErrorPath := "/logs/error.log";
     lg_AccessPath := ""; lg_OutRequestPath := ""; lg_WSPath := ""; lg_AuditPath := "";
     lg_AccessToStdout := false; lg_OutRequestToStdout := false; lg_WSInToStdout := false;
     lg_WSOutToStdout := false; lg_AuditToStdout := false |}.

Definition demo_config : Config :=
  {| Server := {| sv_Port := 8443; sv_TLS := demo_tls;
       sv_Timeouts := {| to_Read := 0; to_Write := 0; to_Idle := 0; to_ReadHeader := 0;
                         to_ShutdownGrace := 0 |};
       sv_Limits := {| li_MaxHeaderBytes := 0 |}; sv_HTTP2 := Some DefaultHTTP2Config |};
     Databases := {| db_System := demo_target; db_Audit := demo_target; db_Quotes := demo_target |};
     HSM := {| hm_URL := ""; hm_Timeout := 0; hm_Retry := no_retry; hm_Trading := demo_hsm;
               hm_TwoFA := demo_hsm |};
     State := {| sf_FilePath := "state.json"; sf_SyncInterval := 0; sf_BackupCount := 0 |};
     Logging := demo_logging;
     Session := {| se_HeartbeatInterval := 0; se_HeartbeatTimeout := 0; se_WriteTimeout := 0;
       se_GracePeriod := 0; se_CleanupInterval := 0; se_ProtocolVersion := "";
       se_MaxPayloadBytes := 0; se_MaxUnknownActions := 0; se_UnknownActionWindow := 0;
       se_RequestDedupWindow := 0 |};
     Scheduler := {| sc_TaskAssignmentInterval := 0; sc_LatencyCheckInterval := 0;
       sc_ResourceCheckInterval := 0; sc_ResourceHardLimit := f_zero;
       sc_ResourceSoftLimit := f_zero; sc_ResourceSoftPenaltyMs := f_zero |};
     RateLimit := {| rl_REST := demo_limit; rl_WebSocket := demo_limit |};
     Metrics := {| mt_Enabled := false; mt_Port := 0; mt_Path := "" |} |}.

Definition demo_load (Getenv : string -> string) (c : Config) : res Config :=
  Load Getenv (fun _ => Ok c) (Ok "").

Definition log_env (level : string) (key : string) : string :=
  if key =s "CTS_LOG_LEVEL" then level else "".

(** The log level of the environment replaces a checked one unchecked. *)
Example environment_is_not_checked :
  match demo_load (log_env "verbose") demo_config with
  | Ok c => lg_Level (Logging c) = "verbose" /\ lg_AuditPath (Logging c) = "/logs/audit.log"
  | Err _ => False
  end.
Proof. vm_compute. auto. Qed.

(** A limit that is NaN passes every check. *)
Example nan_limit_is_accepted :
  is_ok (demo_load (fun _ => "")
    (demo_config <| Scheduler ::= fun s => s <| sc_ResourceHardLimit := f_nan |> |>)) = true.
Proof. vm_compute. reflexivity. Qed.

(** A negative rate is rejected, not replaced by the default. *)
Example negative_rate_is_rejected :
  demo_load (fun _ => "")
    (demo_config <| RateLimit ::= fun r => r <| rl_REST ::= fun l =>
       l <| lc_RequestsPerSecond := (-1)%Z |> |> |>) =
  Err (EWrap "invalid configuration: " (ENew "invalid rate_limit.rest.requests_per_second: 0") "").
Proof. vm_compute. reflexivity. Qed.
