(* ===== verification/RateLimit.v ===== *)
(** * The request limit per client address (internal/api/middleware/rate_limit.go)

    [PerIPRateLimit]: one fixed window per address, created by the first request and
    renewed by the first request after its end. *)

From S2P Require Import Prelude FixedWindow GoFloat.

Record ipRateWindow := mk_window { rw_count : Z; rw_resetAt : Z }.

#[export] Instance eta_ipRateWindow : Eta ipRateWindow := fun w =>
  mk_window (rw_count w) (rw_resetAt w).

(** The zero value, which a missing key of the map yields. *)
Definition no_window : ipRateWindow := mk_window 0 time_zero.

Definition allowed_per_window (requestsPerSecond burst : Z) : Z :=
  let allowed := wrap64 (requestsPerSecond + burst) in
  if (allowed <=? 0)%Z then 1%Z else allowed.

(** The headers of the answer, and whether the request goes on to its handler; it is
    answered with status 429 otherwise. *)
Record limit_answer := {
  la_Limit : Z;
  la_Remaining : Z;
  la_Reset : Z;
  la_passes : bool
}.

Definition PerIPRateLimit (allowed : Z) (ip : string) (now : Z) (windows : gmap string ipRateWindow)
    : limit_answer * gmap string ipRateWindow :=
  let w := default no_window (windows !! ip) in
  let w := if time_is_zero (rw_resetAt w) || (now >? rw_resetAt w)%Z
           then mk_window 0 (time_add now Second) else w in
  let w := w <| rw_count ::= fun n => wrap64 (n + 1) |> in
  let remaining := wrap64 (allowed - rw_count w) in
  let resetSec := duration_seconds_int (time_sub (rw_resetAt w) now) in
  ({| la_Limit := allowed;
      la_Remaining := if (remaining <? 0)%Z then 0%Z else remaining;
      la_Reset := if (resetSec <? 0)%Z then 0%Z else resetSec;
      la_passes := negb (rw_count w >? allowed)%Z |},
   <[ip := w]> windows).

(** ** Runs of requests *)

(** The requests of a run that pass, as addresses and times. *)
Fixpoint passed (allowed : Z) (reqs : list (string * Z)) (windows : gmap string ipRateWindow)
    : list (string * Z) :=
  match reqs with
  | [] => []
  | (ip, now) :: reqs' =>
      let '(a, windows') := PerIPRateLimit allowed ip now windows in
      if la_passes a then (ip, now) :: passed allowed reqs' windows' else passed allowed reqs' windows'
  end.

Definition times_of (ip : string) (reqs : list (string * Z)) : list Z :=
  (filter (fun r => r.1 = ip) reqs).*2.

(** A window is renewed strictly after its end. *)
Definition span : Z := Second + 1.

(** The window of an address as a start and a count. *)
Definition view (ip : string) (windows : gmap string ipRateWindow) : Z * Z :=
  match windows !! ip with
  | Some w => ((rw_resetAt w - Second)%Z, rw_count w)
  | None => ((-span)%Z, 0%Z)
  end.

(** After at most [n] requests, all of them since the epoch and up to [last]. *)
Definition windows_ok (n last : Z) (windows : gmap string ipRateWindow) : Prop :=
  forall ip w, windows !! ip = Some w ->
    (0 <= rw_count w <= n /\ Second <= rw_resetAt w <= last + Second)%Z.

Lemma view_start ip n last windows :
  windows_ok n last windows -> (0 <= last)%Z -> ((view ip windows).1 <= last)%Z.
Proof.
  intros Hok Hl. unfold view, span. specialize (Hok ip).
  destruct (windows !! ip) as [w|]; cbn; [specialize (Hok w eq_refl)|]; unfold Second in *; lia.
Qed.

Lemma PerIPRateLimit_step allowed ip now n last windows :
  windows_ok n last windows -> (0 <= n < max_int64)%Z -> (0 <= last <= now)%Z ->
  let '(a, windows') := PerIPRateLimit allowed ip now windows in
  (la_passes a, view ip windows') = window_step span allowed now (view ip windows) /\
  (forall ip', ip' <> ip -> view ip' windows' = view ip' windows) /\
  windows_ok (n + 1) now windows'.
Proof.
  intros Hok Hn Hnow. unfold PerIPRateLimit.
  set (w0 := default no_window (windows !! ip)).
  set (w1 := if _ : bool then _ else w0).
  assert (window_step span allowed now (view ip windows) =
          (negb (rw_count w1 + 1 >? allowed)%Z, ((rw_resetAt w1 - Second)%Z, (rw_count w1 + 1)%Z)) /\
          (0 <= rw_count w1 <= n /\ Second <= rw_resetAt w1 <= now + Second)%Z) as [-> [Hc Hr]].
  { subst w1 w0. unfold window_step, view, span, time_add in *. specialize (Hok ip).
    destruct (windows !! ip) as [w|]; cbn [from_option id fst snd no_window rw_resetAt rw_count] in *.
    - specialize (Hok w eq_refl). unfold time_is_zero, time_zero in *. unfold Second in *.
      destruct (Z.eqb_spec (rw_resetAt w) (-62135596800 * 1000000000)); [lia|]. cbn [orb].
      destruct (Z.gtb_spec now (rw_resetAt w)), (Z.geb_spec (now - (rw_resetAt w - 1000000000)) (1000000000 + 1));
        try lia; cbn; (split; [|lia]); repeat f_equal; lia.
    - unfold time_is_zero. rewrite Z.eqb_refl. cbn. unfold Second.
      destruct (Z.geb_spec (now - -(1000000000 + 1)) (1000000000 + 1)); [|lia].
      split; [|lia]. repeat f_equal; lia. }
  clearbody w1. destruct w1 as [c r]. unfold field_set. cbn in *.
  rewrite wrap64_id by (unfold in_int64, min_int64; lia). split_and!.
  - unfold view. by rewrite lookup_insert_eq.
  - intros ip' Hne. unfold view. by rewrite lookup_insert_ne.
  - intros ip' w'. destruct (decide (ip' = ip)) as [->|Hne].
    + rewrite lookup_insert_eq. intros [= <-]. cbn. lia.
    + rewrite lookup_insert_ne by done. intros Hw. specialize (Hok ip' w' Hw). lia.
Qed.

(** Every address is limited as if it were alone. *)
Lemma passed_alone allowed ip reqs n last windows :
  windows_ok n last windows -> (0 <= n)%Z -> (n + Z.of_nat (length reqs) <= max_int64)%Z ->
  (0 <= last)%Z -> StronglySorted Z.le (last :: reqs.*2) ->
  times_of ip (passed allowed reqs windows) =
  window_accepted span allowed (times_of ip reqs) (view ip windows).
Proof.
  revert n last windows.
  induction reqs as [|[ip' t] reqs IH]; intros n last windows Hok Hn Hlen Hpos Hsort; [done|].
  apply StronglySorted_cons in Hsort as [Hall Hsort]. inversion Hall as [|? ? Ht Hall']; subst.
  cbn [length snd] in *. cbn [passed].
  pose proof (PerIPRateLimit_step allowed ip' t n last windows Hok ltac:(lia) ltac:(lia)) as Hstep.
  destruct (PerIPRateLimit allowed ip' t windows) as [a windows']. destruct Hstep as (Hs & Hv & Hok').
  specialize (IH (n + 1)%Z t windows' Hok' ltac:(lia) ltac:(lia) ltac:(lia) Hsort).
  unfold times_of in *. rewrite (filter_cons _ (ip', t) reqs). cbn [fst]. case_decide as Hip.
  - subst ip'. cbn [fmap list_fmap snd window_accepted]. rewrite <- Hs.
    destruct (la_passes a); [|done].
    rewrite filter_cons_True by done. cbn [fmap list_fmap snd]. f_equal. exact IH.
  - rewrite Hv in IH by done.
    destruct (la_passes a); [|done]. by rewrite filter_cons_False.
Qed.

Lemma sorted_filter_times (ip : string) last (reqs : list (string * Z)) :
  StronglySorted Z.le (last :: reqs.*2) ->
  StronglySorted Z.le (last :: (filter (fun r => r.1 = ip) reqs).*2).
Proof.
  revert last. induction reqs as [|[ip' t] reqs IH]; intros last Hs; [done|].
  apply StronglySorted_cons in Hs as [Hall Hs]. inversion Hall as [|? ? Ht Hall2]; subst.
  specialize (IH t Hs). apply StronglySorted_cons in IH as [Hall3 IH].
  assert (Forall (Z.le last) (filter (fun r => r.1 = ip) reqs).*2) as Hlast.
  { eapply Forall_impl; [exact Hall3|]. intros; cbn in *; lia. }
  rewrite filter_cons. case_decide; [|by constructor].
  constructor; [by constructor|]. by constructor.
Qed.

Lemma allowed_positive requestsPerSecond burst : (0 < allowed_per_window requestsPerSecond burst)%Z.
Proof. unfold allowed_per_window. destruct (Z.leb_spec (wrap64 (requestsPerSecond + burst)) 0); lia. Qed.

(** A configured rate and burst add up, unless the sum leaves int64: then a single
    request per window is allowed. *)
Lemma allowed_configured requestsPerSecond burst :
  (0 < requestsPerSecond <= max_int64)%Z -> (0 < burst <= max_int64)%Z ->
  allowed_per_window requestsPerSecond burst =
  if (requestsPerSecond + burst <=? max_int64)%Z then (requestsPerSecond + burst)%Z else 1%Z.
Proof.
  intros. unfold allowed_per_window.
  destruct (Z.leb_spec (requestsPerSecond + burst) max_int64).
  - rewrite wrap64_id by (unfold in_int64, min_int64; lia). case_match; lia.
  - assert (wrap64 (requestsPerSecond + burst) < 0)%Z by ints. case_match; lia.
Qed.

(** C4: whatever other addresses send, an address gets at most twice the allowed number of
    requests through in any second, on a clock that does not go back. *)
Theorem requests_per_address (requestsPerSecond burst : Z) (reqs : list (string * Z)) (ip : string)
    (t0 : Z) (Hclock : StronglySorted Z.le (0%Z :: reqs.*2))
    (Hlen : (Z.of_nat (length reqs) <= max_int64)%Z) :
  let allowed := allowed_per_window requestsPerSecond burst in
  times_of ip (passed allowed reqs ∅) = times_of ip (passed allowed (filter (fun r => r.1 = ip) reqs) ∅) /\
  (in_second t0 (times_of ip (passed allowed reqs ∅)) <= 2 * allowed)%Z.
Proof.
  intros allowed. pose proof (allowed_positive requestsPerSecond burst) as Ha. fold allowed in Ha.
  assert (windows_ok 0 0 ∅) as Hok by (intros ? ? H; by rewrite lookup_empty in H).
  assert (StronglySorted Z.le (0%Z :: (filter (fun r => r.1 = ip) reqs).*2)) as Hclock'.
  { by apply (sorted_filter_times ip). }
  rewrite !(passed_alone allowed ip _ 0 0 ∅) by
    (done || lia || (pose proof (length_filter (fun r : string * Z => r.1 = ip) reqs); lia)).
  unfold times_of. rewrite (list_filter_filter_l _ _ reqs) by done. split; [done|].
  apply window_per_second; [unfold span; lia|lia|].
  apply StronglySorted_cons in Hclock' as [Hall Hs]. constructor; [done|].
  eapply Forall_impl; [exact Hall|]. unfold span, Second. cbn. lia.
Qed.

Lemma requests_per_address_witness :
  let reqs := [("a", 0); ("b", 5); ("a", 10); ("a", 2000000000)]%Z in
  StronglySorted Z.le (0%Z :: reqs.*2) /\ (Z.of_nat (length reqs) <= max_int64)%Z /\
  (in_second 0 (times_of "a" (passed (allowed_per_window 1 0) reqs ∅)) <= 2 * allowed_per_window 1 0)%Z.
Proof.
  intros reqs. assert (StronglySorted Z.le (0%Z :: reqs.*2)) as Hs
    by (subst reqs; cbn; repeat constructor; lia).
  assert (Z.of_nat (length reqs) <= max_int64)%Z as Hl by (vm_compute; discriminate).
  split; [exact Hs|]. split; [exact Hl|]. exact (proj2 (requests_per_address 1 0 reqs "a" 0 Hs Hl)).
Defined.
