(* ===== verification/Providers.v ===== *)
(** * The scheduler's providers in the daemon (cmd/cts-core/main.go)

    The adapters between the repositories and the scheduler, and the environment the
    scheduler runs in: snapshots and latency tests from the WebSocket handler,
    requirements and resources from the database, metrics into the state manager, and
    the assignment that does nothing. *)

From S2P Require Import Prelude GoFloat GoParse Protocol Session Conn StateM Interfaces Handler Models Tables Repositories Selection Engine FileSys StateManager.

Section providers.
Context `{!SqlEnv, !ReposEnv}.

(** ** Requirements *)

Definition exchange_ref (item : ExchangeInfo) : ExchangeRef :=
  {| er_ExchangeID := ei_ExchangeID item; Engine.ExchangeName := ei_ExchangeName item |}.

Definition required_refs (list_exchanges : st database (res (list ExchangeInfo)))
    : st database (res (list ExchangeRef)) :=
  items ← list_exchanges;
  mret (match items with
        | Err e => Err e
        | Ok items => Ok (exchange_ref <$> items)
        end).

Definition p_GetTradeRequiredExchanges : st database (res (list ExchangeRef)) :=
  required_refs ListTradeExchanges.
Definition p_GetMonitorRequiredExchanges : st database (res (list ExchangeRef)) :=
  required_refs ListMonitorExchanges.

(** ** Resources *)

(** The loop over the resource rows of a trader. *)
Fixpoint util_loop (now : Z) (items : list TraderExchangeResource) (maxUtil : f64) (found : bool)
    : f64 * bool :=
  match items with
  | [] => (maxUtil, found)
  | item :: items =>
      if negb (time_is_zero (rs_ResetAt item)) && (now >? rs_ResetAt item)%Z
      then util_loop now items maxUtil true
      else
        match ParseFloat (rs_UsedValue item), ParseFloat (rs_MaxValue item) with
        | Ok used, Ok max =>
            if f_le max f_zero then util_loop now items maxUtil found
            else
              let util := f_div used max in
              let util := if f_lt util f_zero then f_zero else util in
              let util := if f_gt util f_one then f_one else util in
              let maxUtil := if f_gt util maxUtil then util else maxUtil in
              util_loop now items maxUtil true
        | _, _ => util_loop now items maxUtil found
        end
  end.

Definition p_GetTraderExchangeUtilization (traderDBID exchangeID : Z)
    : st database (res (f64 * bool)) :=
  items ← resource_GetByTraderAndExchange traderDBID exchangeID None;
  match items with
  | Err e => mret (Err e)
  | Ok [] => mret (Ok (f_zero, false))
  | Ok items =>
      now ← repo_now;
      let '(maxUtil, found) := util_loop now items f_zero false in
      mret (Ok (if negb found then (f_zero, false) else (maxUtil, true)))
  end.

(** ** What the resource provider answers *)

(** The utilisation a row stands for: none at all once its window is over, unknown for
    amounts that are not numbers or a limit that is not positive. *)
Definition known_util (now : Z) (item : TraderExchangeResource) : option f64 :=
  if negb (time_is_zero (rs_ResetAt item)) && (now >? rs_ResetAt item)%Z then Some f_zero
  else
    match ParseFloat (rs_UsedValue item), ParseFloat (rs_MaxValue item) with
    | Ok used, Ok max => if f_le max f_zero then None else Some (clampUnit (f_div used max))
    | _, _ => None
    end.

Definition unit_interval (x : f64) : Prop := f_le f_zero x = true /\ f_le x f_one = true.

Lemma unit_zero : unit_interval f_zero.
Proof. by vm_compute. Qed.

Lemma unit_not_nan x : unit_interval x -> not_nan x.
Proof. by intros [(_ & ? & _)%f_le_true _]. Qed.

Lemma clampUnit_unit x : f_is_nan x = true \/ unit_interval (clampUnit x).
Proof.
  destruct (f_is_nan x) eqn:Hn; [by left|right]. unfold clampUnit, unit_interval, f_gt.
  destruct (f_lt x f_zero) eqn:Hlo; [by vm_compute|].
  destruct (f_lt f_one x) eqn:Hhi; [by vm_compute|].
  rewrite !f_le_not_lt by done. by rewrite Hlo, Hhi.
Qed.

Lemma clampUnit_nan x : f_is_nan x = true -> clampUnit x = f_nan.
Proof. by destruct x. Qed.

Lemma clamp_in_two_steps x :
  (let u := if f_lt x f_zero then f_zero else x in if f_gt u f_one then f_one else u) = clampUnit x.
Proof. unfold clampUnit. by destruct (f_lt x f_zero). Qed.

(** The larger one, as the loop keeps it. *)
Definition keep_max (m x : f64) : f64 := if f_gt x m then x else m.

Lemma keep_max_zero m : unit_interval m -> keep_max m f_zero = m.
Proof.
  intros [Hm _]. unfold keep_max, f_gt. destruct (f_lt m f_zero) eqn:E; [|done]. exfalso. float_order.
Qed.

Lemma keep_max_clamp m x : unit_interval m -> unit_interval (keep_max m (clampUnit x)).
Proof.
  intros Hm. unfold keep_max. destruct (clampUnit_unit x) as [Hx|Hx]; [|by case_match].
  rewrite (clampUnit_nan x Hx). by destruct m.
Qed.

(** What one row does to the maximum and the flag. *)
Definition util_step (now : Z) (acc : f64 * bool) (item : TraderExchangeResource) : f64 * bool :=
  match known_util now item with
  | Some x => (keep_max acc.1 x, true)
  | None => acc
  end.

Lemma known_util_unit now item m x :
  known_util now item = Some x -> unit_interval m -> unit_interval (keep_max m x).
Proof.
  unfold known_util. intros Hk Hm. destruct (_ && _); [injection Hk as <-; by rewrite keep_max_zero|].
  destruct (ParseFloat _); [|done]. destruct (ParseFloat _); [|done].
  destruct (f_le _ _); [done|]. injection Hk as <-. by apply keep_max_clamp.
Qed.

Lemma util_loop_steps now items m found :
  unit_interval m ->
  util_loop now items m found = foldl (util_step now) (m, found) items.
Proof.
  revert m found. induction items as [|item items IH]; intros m found Hm; [done|].
  cbn [util_loop foldl]. unfold util_step at 2. pose proof (known_util_unit now item m) as Hu.
  unfold known_util in *. destruct (_ && _).
  - cbn [fst]. rewrite keep_max_zero by done. by apply IH.
  - destruct (ParseFloat (rs_UsedValue item)) as [used|]; [|by apply IH].
    destruct (ParseFloat (rs_MaxValue item)) as [max|]; [|by apply IH].
    destruct (f_le max f_zero); [by apply IH|]. cbv zeta. cbn [fst].
    change (if f_gt (if f_lt (f_div used max) f_zero then f_zero else f_div used max) f_one then f_one
            else if f_lt (f_div used max) f_zero then f_zero else f_div used max)
      with (let u := if f_lt (f_div used max) f_zero then f_zero else f_div used max in
            if f_gt u f_one then f_one else u).
    rewrite (clamp_in_two_steps (f_div used max)).
    change (if f_gt (clampUnit (f_div used max)) m then clampUnit (f_div used max) else m)
      with (keep_max m (clampUnit (f_div used max))).
    apply IH. by apply Hu.
Qed.

(** The fold keeps a value of the interval that is at least each known utilisation,
    and is one of them or the start. *)
Lemma util_steps_max now items m found :
  unit_interval m ->
  let '(u, b) := foldl (util_step now) (m, found) items in
  unit_interval u /\ f_lt u m = false /\
  Forall (fun item => forall x, known_util now item = Some x -> f_lt u x = false) items /\
  (u = m \/ exists item, item ∈ items /\ known_util now item = Some u) /\
  (b = true <-> found = true \/ exists item, item ∈ items /\ is_Some (known_util now item)).
Proof.
  revert m found. induction items as [|item items IH]; intros m found Hm; cbn [foldl].
  { split_and!; [done|apply f_lt_irrefl|done|by left|]. split; [by left|].
    intros [?|(? & []%elem_of_nil & _)]; done. }
  assert (util_step now (m, found) item =
    match known_util now item with Some x => (keep_max m x, true) | None => (m, found) end) as ->
    by (unfold util_step; by destruct (known_util now item)).
  destruct (known_util now item) as [x|] eqn:Hk.
  - pose proof (known_util_unit now item m x Hk Hm) as Hm'.
    specialize (IH (keep_max m x) true Hm'). destruct (foldl _ _ items) as [u b].
    destruct IH as (Hu & Hge & Hall & Hin & Hb).
    pose proof (unit_not_nan _ Hu) as Hnu. pose proof (unit_not_nan _ Hm) as Hnm.
    assert (f_lt u m = false /\ f_lt u x = false) as [Hum Hux].
    { unfold keep_max, f_gt in Hge. destruct (f_is_nan x) eqn:Hx.
      { destruct x; try done. cbn in Hge. destruct m, u; done. }
      destruct (f_lt m x) eqn:Hmx.
      - split; [|done]. apply (f_not_lt_trans m x u); [done..| |done]. by apply f_lt_asym.
      - split; [done|]. by apply (f_not_lt_trans x m u). }
    split_and!; [done|done| | |].
    + constructor; [|done]. intros y Hy. rewrite Hk in Hy. by injection Hy as <-.
    + destruct Hin as [->|(i & ? & ?)]; [|right; exists i; set_solver].
      unfold keep_max. destruct (f_gt x m); [right; exists item; set_solver|by left].
    + rewrite Hb. split; [intros _; right; exists item; set_solver|by left].
  - specialize (IH m found Hm). destruct (foldl _ _ items) as [u b].
    destruct IH as (Hu & Hge & Hall & Hin & Hb). split_and!; [done|done| | |].
    + constructor; [|done]. intros y Hy. by rewrite Hk in Hy.
    + destruct Hin as [?|(i & ? & ?)]; [by left|right; exists i; set_solver].
    + rewrite Hb. split; (intros [?|(i & Hi & Hs)]; [by left|right]).
      * exists i. set_solver.
      * apply elem_of_cons in Hi as [->|Hi]; [rewrite Hk in Hs; by destruct Hs|by exists i].
Qed.
(** The rows the provider reads: those of the trader and the exchange that are not bound
    to an account. *)
Definition resource_of (traderDBID exchangeID : Z) (accountID : option Z) (r : TraderExchangeResource)
    : bool :=
  (rs_TraderID r =? traderDBID)%Z && (rs_ExchangeID r =? exchangeID)%Z &&
  bool_decide (rs_ExchangeAccountID r = accountID).

Definition resource_rows (traderDBID exchangeID : Z) (d : database) : list TraderExchangeResource :=
  rows_where (resource_of traderDBID exchangeID None) (trader_resources (more d)).

Lemma utilization_unfold t e d :
  p_GetTraderExchangeUtilization t e d =
  let d' := d <| stmts ::= S |> in
  match stmt (stmts d) with
  | StmtFailed err | StmtLost err => (Err (EWrap "failed to get trader resources: " err ""), d')
  | _ =>
      match resource_rows t e d with
      | [] => (Ok (f_zero, false), d')
      | rows =>
          let '(u, b) := util_loop (sql_clock (reads d)) rows f_zero false in
          (Ok (if negb b then (f_zero, false) else (u, true)), d' <| reads ::= S |>)
      end
  end.
Proof.
  unfold p_GetTraderExchangeUtilization, resource_GetByTraderAndExchange, get_rows, query, repo_now,
    mbind, st_bind, mret, st_ret.
  fold (resource_of t e None).
  destruct d as [trs ss more0 n k]. cbn -[util_loop].
  destruct (stmt n); cbn -[util_loop]; try done;
    unfold resource_rows; cbn -[util_loop]; destruct (rows_where _ _); cbn -[util_loop]; try done;
    by destruct (util_loop _ _ _ _).
Qed.

(** The answer is a number between 0 and 1, no smaller than the utilisation of any row,
    and that of one of them unless it is 0; "not found" means that no row says
    anything. *)
Lemma utilization_spec t e d u found :
  (p_GetTraderExchangeUtilization t e d).1 = Ok (u, found) ->
  let known row x := row ∈ resource_rows t e d /\ known_util (sql_clock (reads d)) row = Some x in
  unit_interval u /\ (forall row x, known row x -> f_lt u x = false) /\
  (u = f_zero \/ exists row, known row u) /\
  (found = true <-> exists row x, known row x).
Proof.
  rewrite utilization_unfold. cbv zeta. set (now := sql_clock (reads d)).
  set (rows := resource_rows t e d). intros Hr.
  assert (let '(v, b) := util_loop now rows f_zero false in (u, found) = if negb b then (f_zero, false) else (v, true))
    as Hloop.
  { destruct (stmt (stmts d)); try done; (destruct rows as [|row rows'];
      [cbn in *; by injection Hr as <- <-|]; cbv beta iota in Hr;
      destruct (util_loop now (row :: rows') f_zero false) as [v b]; cbn [fst] in Hr; by injection Hr as <-). }
  clear Hr. rewrite util_loop_steps in Hloop by apply unit_zero.
  pose proof (util_steps_max now rows f_zero false unit_zero) as Hmax.
  destruct (foldl _ _ rows) as [v b]. destruct Hmax as (Hv & _ & Hall & Hin & Hb).
  rewrite Forall_forall in Hall. destruct b; injection Hloop as -> ->.
  - split_and!; [done|intros row x []; by eapply Hall|destruct Hin as [|(row & ? & ?)]; [by left|right; by exists row]|].
    split; [intros _|done]. destruct (proj1 Hb eq_refl) as [?|(row & ? & x & ?)]; [done|by exists row, x].
  - assert (forall row x, ~ (row ∈ rows /\ known_util now row = Some x)) as Hno.
    { intros row x [Hrow Hx]. discriminate (proj2 Hb (or_intror (ex_intro _ row (conj Hrow (ex_intro _ x Hx))))). }
    split_and!; [apply unit_zero|intros row x Hx; by destruct (Hno row x)|by left|].
    split; [done|]. intros (row & x & Hx). by destruct (Hno row x).
Qed.
End providers.
