(* ===== verification/Daemon.v ===== *)
(** * The scheduler in the daemon

    The environment main.go gives the engine: the WebSocket handler for snapshots and
    latency tests, the database for requirements and resources, the state manager for
    metrics, and the assignment that does nothing.  The theorems say what one cycle
    may touch. *)

From S2P Require Import Prelude GoFloat Protocol Session Conn Telemetry StateM Interfaces Handler Models Tables Repositories Transactions Providers Selection Engine FileSys StateFile StateManager.

(** [NoopAssignment], which [NewEngine] takes for a nil assignment. *)
Definition NoopAssignment_Assign {X} (candidate : Candidate) (x : X) : option go_error * X := (None, x).

Section daemon.
Context `{!SqlEnv, !ReposEnv, !WsJson, !ServeEnv, !OsEnv}.

Abbreviation dworld := (world database mworld).

Definition on_sink (f : mworld -> mworld) (w : dworld) : dworld := w <| sink ::= fmap f |>.

Definition daemon_quality : quality_sink dworld := {|
  RecordSchedulerAssignAttempt := fun r => on_sink (RecordSchedulerAssignAttempt manager_quality r);
  SetSchedulerAssignLatencyMs := fun x => on_sink (SetSchedulerAssignLatencyMs manager_quality x);
  SetSchedulerScoreDistribution := fun p q => on_sink (SetSchedulerScoreDistribution manager_quality p q);
  SetSchedulerLastAssignStatus := fun s => on_sink (SetSchedulerLastAssignStatus manager_quality s);
  RecordSchedulerResourceRejection := fun r => on_sink (RecordSchedulerResourceRejection manager_quality r)
|}.

Definition daemon_scheduler : SchedulerEnv dworld := {|
  env_now := Handler.time_now;
  env_sleep := fun d w => (emit (OutSleep d) w).2;
  snapshot_provider := Some (gets (GetTraderSnapshots ∘ hs));
  Assign := NoopAssignment_Assign;
  CurrentTaskID := None;
  GetTradeRequiredExchanges := db_call p_GetTradeRequiredExchanges;
  GetMonitorRequiredExchanges := db_call p_GetMonitorRequiredExchanges;
  has_requirements := true;
  GetTraderExchangeUtilization := Some (fun t e => db_call (p_GetTraderExchangeUtilization t e));
  retry_classifier := None;
  latency_dispatcher := Some (fun sid tid exchanges => DispatchLatencyTest sid tid exchanges);
  SetRuntimeScheduler := Some (fun a b c => on_sink (fun m => (m_SetRuntimeScheduler a b c m).2));
  quality := Some daemon_quality
|}.
#[local] Existing Instance daemon_scheduler.

(** ** What a cycle may touch *)

(** The state of the manager outside the scheduler's metrics. *)
Definition manager_view (m : mworld) :=
  (Version (daemon m), Server (daemon m), closed m, files (os m),
   let r := Runtime (daemon m) in
   (ActiveWSConnections r, LastWSConnectUnix r, LastWSPingUnix r, LastWSPongUnix r, LastWSPingRTTMs r,
    LastWSHeartbeatUnix r, LastWSTimeoutUnix r, WSTimeoutCount r, WSDisconnectTotal r,
    WSDisconnectClose4009 r, WSDisconnectByReason r)).

Definition cycle_view (w : eworld dworld) :=
  let x := ext w in
  (hs x, loc x, out x, wtick x, tables_of (db x), dlq (eng w), manager_view <$> sink x).

Definition labels (get : RuntimeState -> option (gmap string Z)) (w : eworld dworld) : gset string :=
  match sink (ext w) with
  | Some m => dom (default ∅ (get (Runtime (daemon m))))
  | None => ∅
  end.

(** The results and the reasons a cycle can count. *)
Definition cycle_results : list string :=
  [assignResultSuccess; assignResultNoCandidates; assignResultDedup].
Definition cycle_reasons : list string :=
  ["missing_trader_db_id"; "resource_lookup_error"; "missing_resource"; "hard_limit"].

Record cycle_effect (w w' : eworld dworld) : Prop := {
  ce_view : cycle_view w' = cycle_view w;
  ce_results : labels SchedulerAssignAttempts w' ⊆
               labels SchedulerAssignAttempts w ∪ list_to_set cycle_results;
  ce_reasons : labels SchedulerResourceRejections w' ⊆
               labels SchedulerResourceRejections w ∪ list_to_set cycle_reasons
}.

#[local] Instance cycle_effect_preorder : PreOrder cycle_effect.
Proof.
  split; [split; [done|set_solver..]|].
  intros a b c [Va Ra Qa] [Vb Rb Qb]. split; [by rewrite Vb|set_solver..].
Qed.

(** Effects that leave the view and the labels alone. *)
Definition cycle_still (w : eworld dworld) :=
  (cycle_view w, labels SchedulerAssignAttempts w, labels SchedulerResourceRejections w).

Lemma still_effect {A} (m : st (eworld dworld) A) : steps (same cycle_still) m -> steps cycle_effect m.
Proof.
  intros Hm w. specialize (Hm w). unfold same, cycle_still in Hm.
  apply pair_equal_spec in Hm as [[Hv Ha]%pair_equal_spec Hr].
  split; [done|rewrite Ha; set_solver|rewrite Hr; set_solver].
Qed.

Lemma effect_now : steps cycle_effect now_.
Proof. apply still_effect. by intros w. Qed.

Lemma effect_provider : steps cycle_effect (call (gets (GetTraderSnapshots ∘ hs))).
Proof. apply still_effect. by intros w. Qed.

Lemma effect_db {A} (f : st database (res A)) :
  steps (same tables_of) f -> steps cycle_effect (call (db_call f)).
Proof.
  intros Hf. apply still_effect. intros w. specialize (Hf (db (ext w))).
  unfold same, cycle_still, cycle_view, labels, call, db_call in *.
  destruct (f (db (ext w))) as [r d]. cbn in *. by rewrite Hf.
Qed.

Lemma effect_eng f : (forall e, dlq (f e) = dlq e) -> steps cycle_effect (modify_eng f).
Proof.
  intros Hf. apply still_effect. intros w. unfold same, cycle_still, cycle_view. cbn. by rewrite Hf.
Qed.

Lemma effect_sink_still f :
  (forall m, manager_view (f m) = manager_view m /\
     SchedulerAssignAttempts (Runtime (daemon (f m))) = SchedulerAssignAttempts (Runtime (daemon m)) /\
     SchedulerResourceRejections (Runtime (daemon (f m))) = SchedulerResourceRejections (Runtime (daemon m))) ->
  steps cycle_effect (modify_ext (on_sink f)).
Proof.
  intros Hf. apply still_effect. intros w. unfold same, cycle_still, cycle_view, labels. cbn.
  destruct (sink (ext w)) as [m|]; [|done]. cbn. destruct (Hf m) as (-> & -> & ->). done.
Qed.

Lemma dom_count_in r m : dom (default ∅ (count_in r m)) = {[r]} ∪ dom (default ∅ m).
Proof. unfold count_in. cbn. apply dom_insert_L. Qed.

(** A counted label that is not empty. *)
Lemma count_label r m (l : list string) :
  r ∈ l -> dom (default ∅ (count_in r m)) ⊆ dom (default ∅ m) ∪ list_to_set l.
Proof.
  intros Hr%(elem_of_list_to_set (C := gset string)). rewrite dom_count_in. set_solver.
Qed.

Lemma not_empty_label r l : forallb (fun s => negb (str_empty s)) l = true -> r ∈ l -> str_empty r = false.
Proof. rewrite forallb_forall. intros Hl Hr%list_elem_of_In. by apply negb_true_iff, Hl. Qed.

Lemma effect_attempt r :
  r ∈ cycle_results -> steps cycle_effect (modify_ext (RecordSchedulerAssignAttempt daemon_quality r)).
Proof.
  intros Hr [e [h l d [m|] t wt o]]; [|split; cbn; set_solver].
  pose proof (not_empty_label r cycle_results eq_refl Hr). destruct r as [|a r]; [done|].
  split; [done| |set_solver].
  apply (count_label (String a r) (SchedulerAssignAttempts (Runtime (daemon m))) cycle_results Hr).
Qed.

Lemma effect_reject r :
  r ∈ cycle_reasons -> steps cycle_effect (modify_ext (RecordSchedulerResourceRejection daemon_quality r)).
Proof.
  intros Hr [e [h l d [m|] t wt o]]; [|split; cbn; set_solver].
  pose proof (not_empty_label r cycle_reasons eq_refl Hr). destruct r as [|a r]; [done|].
  split; [done|set_solver|].
  apply (count_label (String a r) (SchedulerResourceRejections (Runtime (daemon m))) cycle_reasons Hr).
Qed.

(** *** The parts of a cycle *)

Lemma tables_query {A} (f : database -> A) : steps (same tables_of) (query f).
Proof. by intros d. Qed.

Lemma tables_now : steps (same tables_of) repo_now.
Proof. by intros d. Qed.

#[local] Hint Resolve tables_query tables_now : steps.

Lemma tables_refs l :
  steps (same tables_of) l -> steps (same tables_of) (required_refs l).
Proof. intros Hl. unfold required_refs. steps_auto. Qed.

Lemma tables_requirements :
  steps (same tables_of) p_GetTradeRequiredExchanges /\
  steps (same tables_of) p_GetMonitorRequiredExchanges.
Proof. split; apply tables_refs; unfold ListTradeExchanges, ListMonitorExchanges, get_rows; steps_auto. Qed.

Lemma tables_utilization t e : steps (same tables_of) (p_GetTraderExchangeUtilization t e).
Proof.
  unfold p_GetTraderExchangeUtilization, resource_GetByTraderAndExchange, get_rows. steps_auto.
Qed.

Lemma effect_requirements :
  steps cycle_effect (call (db_call p_GetTradeRequiredExchanges)) /\
  steps cycle_effect (call (db_call p_GetMonitorRequiredExchanges)).
Proof. split; apply effect_db, tables_requirements. Qed.

Lemma effect_utilization t e : steps cycle_effect (call (db_call (p_GetTraderExchangeUtilization t e))).
Proof. apply effect_db, tables_utilization. Qed.

#[local] Hint Resolve effect_now effect_provider effect_utilization : steps.

Lemma effect_outcome r l : r ∈ cycle_results -> steps cycle_effect (publishAssignOutcome r l).
Proof.
  intros Hr. unfold publishAssignOutcome. cbn [quality daemon_scheduler].
  apply (steps_bind cycle_effect); [by apply effect_attempt|intros _].
  apply (steps_bind cycle_effect); [by apply effect_sink_still|intros _].
  by apply effect_sink_still; intros m; unfold m_SetSchedulerAssignLatencyMs; cbn; case_match.
Qed.

Lemma effect_publish_since t r : r ∈ cycle_results -> steps cycle_effect (publish_since t r).
Proof. intros Hr. unfold publish_since. pose proof (effect_outcome r). steps_auto. Qed.

Lemma effect_distribution l : steps cycle_effect (publishScoreDistribution l).
Proof.
  unfold publishScoreDistribution. destruct l; cbn [quality daemon_scheduler]; [apply (steps_ret cycle_effect)|].
  by apply effect_sink_still.
Qed.

Lemma effect_metrics a b n : steps cycle_effect (syncMetrics a b n).
Proof. unfold syncMetrics. cbn [SetRuntimeScheduler daemon_scheduler]. by apply effect_sink_still. Qed.

Lemma effect_rejection r : r ∈ cycle_reasons -> steps cycle_effect (recordResourceRejection r).
Proof. apply effect_reject. Qed.

Section cycle.
Context (c : engine_config).

Lemma effect_exchange_loop dbid l p :
  steps cycle_effect (exchange_loop c (fun t e => db_call (p_GetTraderExchangeUtilization t e)) dbid l p).
Proof.
  assert (forall r, bool_decide (r ∈ cycle_reasons) = true -> steps cycle_effect (recordResourceRejection r))
    as Hrej by (intros r Hr%bool_decide_eq_true; by apply effect_rejection).
  revert p. induction l as [|r l IH]; intros p; cbn [exchange_loop]; steps_auto; by apply Hrej.
Qed.

Lemma effect_candidate_loop m l k :
  steps cycle_effect (candidate_loop c (fun t e => db_call (p_GetTraderExchangeUtilization t e)) m l k).
Proof.
  pose proof effect_exchange_loop as He.
  assert (steps cycle_effect (recordResourceRejection "missing_trader_db_id")) as Hm
    by (apply effect_rejection; set_solver).
  induction k as [|r k IH]; cbn [candidate_loop]; steps_auto.
Qed.

Lemma effect_select now : steps cycle_effect (select_for_cycle c (gets (GetTraderSnapshots ∘ hs)) now).
Proof.
  pose proof effect_candidate_loop. pose proof effect_distribution. pose proof effect_metrics.
  destruct effect_requirements.
  assert (forall n, steps cycle_effect (modify_eng (fun e => e <| lastCandidate := n |> <| cycles ::= fun k => wrap64 (k + 1) |>)))
    by (intros n; by apply effect_eng).
  unfold select_for_cycle, resolveRequiredExchangeRefs, applyResourceConstraints.
  cbn [has_requirements GetTraderExchangeUtilization GetTradeRequiredExchanges GetMonitorRequiredExchanges
       daemon_scheduler negb]. steps_auto.
Qed.

(** The assignment succeeds at once. *)
Lemma noop_assigned k task epoch t (w : eworld dworld) :
  exists r, assignWithRetry c k task epoch t w = ((r, None), w).
Proof.
  unfold assignWithRetry. destruct (Z.to_nat _); [by eexists|].
  cbn. unfold mbind, st_bind, call. cbn. destruct w; by eexists.
Qed.

Lemma evict_keeps_dlq n e : dlq (evictOldAssignments c n e) = dlq e.
Proof. unfold evictOldAssignments. by case_match. Qed.

Lemma effect_cycle now : steps cycle_effect (runCycle c now).
Proof.
  unfold runCycle. cbn [snapshot_provider daemon_scheduler].
  apply (steps_bind cycle_effect); [apply effect_select|intros candidates].
  apply (steps_bind cycle_effect); [apply effect_now|intros start].
  destruct candidates as [|k rest]; [apply effect_outcome; set_solver|].
  apply (steps_bind cycle_effect); [apply (steps_ret cycle_effect)|intros task].
  apply (steps_bind cycle_effect).
  { apply still_effect. intros w. unfold seenAssignment, same, cycle_still, cycle_view. cbn.
    by rewrite evict_keeps_dlq. }
  intros [|]; [apply effect_publish_since; set_solver|].
  intros w. destruct (noop_assigned k task (assignmentEpoch c now) (time_unix now) w) as [r Hr].
  unfold mbind at 1, st_bind at 1. rewrite Hr. cbn [snd].
  apply (steps_bind cycle_effect); [|intros _; apply effect_publish_since; set_solver].
  apply effect_eng. intros e. apply evict_keeps_dlq.
Qed.
End cycle.

(** C3: a scheduler cycle of the daemon only looks and counts.  Whatever the database
    answers, it leaves the handler, the wire, the tables, the state file and every part
    of the daemon state that belongs to the WebSocket handler as they are; it never
    fails an assignment, so it neither pauses nor adds a dead letter; and the results
    and reasons it counts are among those the metrics endpoint announces. *)
Theorem scheduler_cycle_is_quiet (c : engine_config) (now : Z) (w : eworld dworld) :
  let w' := (runCycle c now w).2 in
  hs (ext w') = hs (ext w) /\ out (ext w') = out (ext w) /\
  tables_of (db (ext w')) = tables_of (db (ext w)) /\ dlq (eng w') = dlq (eng w) /\
  manager_view <$> sink (ext w') = manager_view <$> sink (ext w) /\
  labels SchedulerAssignAttempts w' ⊆
    labels SchedulerAssignAttempts w ∪ list_to_set [assignResultSuccess; assignResultNoCandidates; assignResultDedup] /\
  labels SchedulerResourceRejections w' ⊆
    labels SchedulerResourceRejections w ∪
    list_to_set ["missing_trader_db_id"; "resource_lookup_error"; "missing_resource"; "hard_limit"].
Proof.
  intros w'. destruct (effect_cycle c now w) as [Hv Ha Hr]. fold w' in Hv, Ha, Hr.
  unfold cycle_view in Hv. apply pair_equal_spec in Hv as [Hv Hs].
  apply pair_equal_spec in Hv as [Hv Hd]. apply pair_equal_spec in Hv as [Hv Ht].
  apply pair_equal_spec in Hv as [Hv _]. apply pair_equal_spec in Hv as [Hv Ho].
  apply pair_equal_spec in Hv as [Hv _]. by split_and!.
Qed.
End daemon.
