(* ===== verification/Health.v ===== *)
(** * Health and metrics endpoints (internal/api/rest/health.go, metrics.go)

    The checks behind /health and /ready with the response they give, and the samples
    of /metrics.  The runtime section of the response (memory, goroutines) and the
    collectors of the Go runtime are left out. *)

From S2P Require Import Prelude GoText GoFloat Protocol Session Conn StateM Interfaces Handler Hsm MySQL Engine HandlerStats FileSys StateFile StateManager.

(** ** The state behind the endpoints *)

(** The daemon's shared state, the database client and the two HSM clients; [sink] of
    the first is [None] when there is no state manager. *)
Record rest_world (DB : Type) := mk_rest_world {
  rw_daemon : world DB mworld;
  rw_db : option sql_db;
  rw_trading : hsm_world;
  rw_twofa : hsm_world
}.
Arguments mk_rest_world {DB}.
Arguments rw_daemon {DB}.
Arguments rw_db {DB}.
Arguments rw_trading {DB}.
Arguments rw_twofa {DB}.

#[export] Instance eta_rest_world DB : Eta (rest_world DB) := fun w =>
  mk_rest_world (rw_daemon w) (rw_db w) (rw_trading w) (rw_twofa w).

(** [HealthHandler]; the clients come with what their service answers. *)
Record HealthHandler := {
  hsmTrading : option hsm_client;
  hsmTwoFA : option hsm_client;
  has_wsHandler : bool;
  startedAt : Z;
  serviceName : string;
  serviceVersion : string
}.

(** One entry of [components]: the HSM clients add what their service says. *)
Record component := {
  cm_status : string;
  cm_latency_ms : option f64;
  cm_error : option string;
  cm_hsm : option HealthResponse
}.

Definition not_configured : component :=
  {| cm_status := "not_configured"; cm_latency_ms := None; cm_error := None; cm_hsm := None |}.

Record service_section := {
  sv_name : string;
  sv_version : string;
  sv_started_at_unix : Z;
  sv_uptime_sec : Z;
  sv_timestamp_unix : Z
}.

Record scheduler_section := {
  sh_status : string;
  sh_cycle_count : Z;
  sh_last_candidate_count : Z;
  sh_last_run_unix : Z;
  sh_last_assign_status : string;
  sh_assign_latency_ms : f64;
  sh_score_p50 : f64;
  sh_score_p95 : f64;
  sh_assign_attempts : option (gmap string Z);
  sh_resource_rejections : option (gmap string Z);
  sh_assignment_mode : string
}.

Record websocket_section := {
  wb_status : string;
  wb_active_connections : Z;
  wb_total_connections : Z;
  wb_last_connect_unix : Z;
  wb_last_ping_unix : Z;
  wb_last_pong_unix : Z;
  wb_last_rtt_ms : Z;
  wb_last_heartbeat_unix : Z;
  wb_last_timeout_unix : Z;
  wb_timeout_count : Z;
  wb_disconnect_total : Z;
  wb_disconnect_close_4009 : Z;
  wb_disconnect_by_reason : option (gmap string Z)
}.

Record traders_section := {
  td_status : string;
  td_source : string;
  td_aggregation_implemented : bool;
  td_connected_count : Z;
  td_last_ping_unix : Z;
  td_last_pong_unix : Z;
  td_last_rtt_ms : Z;
  td_last_heartbeat_unix : Z;
  td_last_timeout_unix : Z;
  td_timeout_count : Z;
  td_disconnect_total : Z;
  td_disconnect_close_4009 : Z;
  td_disconnect_by_reason : option (gmap string Z)
}.

(** The response, with its HTTP status. *)
Record health_response := {
  hr_code : Z;
  hr_status : string;
  hr_service : service_section;
  hr_database : component;
  hr_hsm_trading : component;
  hr_hsm_2fa : component;
  hr_scheduler : scheduler_section;
  hr_websocket : websocket_section;
  hr_traders : traders_section;
  hr_state : option DaemonState
}.

Definition zero_Stats : Stats :=
  {| ActiveConnections := 0; TotalConnections := 0; LastConnectUnix := 0;
     Ping := {| LastPingUnix := 0; LastPongUnix := 0; LastRTTMs := 0 |};
     Disconnect := {| ds_Total := 0; ds_Close4009 := 0; ds_ByReason := ∅ |} |}.

(** [NewHealthHandler]: an unset start is now. *)
Definition NewHealthHandler (trading twofa : option hsm_client) (ws : bool) (started : Z)
    (name version : string) (now : Z) : HealthHandler :=
  {| hsmTrading := trading; hsmTwoFA := twofa; has_wsHandler := ws;
     startedAt := if time_is_zero started then now else started;
     serviceName := name; serviceVersion := version |}.

Definition StatusOK : Z := 200.
Definition StatusServiceUnavailable : Z := 503.

Section health.
Context {DB : Type} `{!ServeEnv, !OsEnv, !DriverEnv} (trading_env twofa_env : HsmEnv) (h : HealthHandler).

Abbreviation M := (st (rest_world DB)).

Definition in_daemon {A} (m : st (world DB mworld) A) : M A := fun w =>
  let '(a, d) := m (rw_daemon w) in (a, w <| rw_daemon := d |>).

Definition now_rest : M Z := in_daemon Handler.time_now.

(** [float64(time.Since(started).Microseconds()) / 1000.0] *)
Definition since_ms (started : Z) : M f64 :=
  t ← now_rest;
  mret (f_div (f_of_Z (duration_microseconds (time_sub t started))) (f_of_Z 1000)).

Definition checkDatabase : M component :=
  db ← gets rw_db;
  match db with
  | None => mret not_configured
  | Some db =>
      started ← now_rest;
      let '(e, db) := MySQL.Ping db in
      modify (fun w => w <| rw_db := Some db |>);;
      latency ← since_ms started;
      mret (match e with
            | Some e => {| cm_status := "error"; cm_latency_ms := Some latency;
                           cm_error := Some (error_text e); cm_hsm := None |}
            | None => {| cm_status := "ok"; cm_latency_ms := Some latency; cm_error := None;
                         cm_hsm := None |}
            end)
  end.

(** [ask] is the health request of the client. *)
Definition checkHSM (client : option hsm_client) (ask : hsm_client -> M (res HealthResponse)) : M component :=
  match client with
  | None => mret not_configured
  | Some client =>
      started ← now_rest;
      r ← ask client;
      latency ← since_ms started;
      mret (match r with
            | Err e => {| cm_status := "error"; cm_latency_ms := Some latency;
                          cm_error := Some (error_text e); cm_hsm := None |}
            | Ok resp => {| cm_status := "ok"; cm_latency_ms := Some latency; cm_error := None;
                            cm_hsm := Some resp |}
            end)
  end.

Definition ask_trading (ctxID : string) (c : hsm_client) : M (res HealthResponse) := fun w =>
  let '(r, x) := @Hsm.Health trading_env c ctxID (rw_trading w) in (r, w <| rw_trading := x |>).
Definition ask_twofa (ctxID : string) (c : hsm_client) : M (res HealthResponse) := fun w =>
  let '(r, x) := @Hsm.Health twofa_env c ctxID (rw_twofa w) in (r, w <| rw_twofa := x |>).

Definition with_manager (f : mworld -> mworld) : M unit :=
  modify (fun w => w <| rw_daemon ::= fun d => d <| sink ::= fmap f |> |>).

Definition scheduler_of (r : RuntimeState) : scheduler_section :=
  {| sh_status := "ok"; sh_cycle_count := SchedulerCycleCount r;
     sh_last_candidate_count := SchedulerLastCandidateCount r;
     sh_last_run_unix := SchedulerLastRunUnix r; sh_last_assign_status := SchedulerLastAssignStatus r;
     sh_assign_latency_ms := SchedulerAssignLatencyMs r; sh_score_p50 := SchedulerScoreP50 r;
     sh_score_p95 := SchedulerScoreP95 r; sh_assign_attempts := SchedulerAssignAttempts r;
     sh_resource_rejections := SchedulerResourceRejections r;
     sh_assignment_mode := "single_candidate_with_retry" |}.

Definition websocket_of (s : Stats) (r : RuntimeState) : websocket_section :=
  {| wb_status := "ok"; wb_active_connections := ActiveConnections s;
     wb_total_connections := TotalConnections s; wb_last_connect_unix := LastConnectUnix s;
     wb_last_ping_unix := LastPingUnix (Ping s); wb_last_pong_unix := LastPongUnix (Ping s);
     wb_last_rtt_ms := LastRTTMs (Ping s); wb_last_heartbeat_unix := LastWSHeartbeatUnix r;
     wb_last_timeout_unix := LastWSTimeoutUnix r; wb_timeout_count := WSTimeoutCount r;
     wb_disconnect_total := WSDisconnectTotal r; wb_disconnect_close_4009 := WSDisconnectClose4009 r;
     wb_disconnect_by_reason := WSDisconnectByReason r |}.

Definition traders_of (s : Stats) (r : RuntimeState) : traders_section :=
  {| td_status := if (ActiveConnections s >? 0)%Z then "connected" else "pending_ws_heartbeat";
     td_source := "ws_ping_pong"; td_aggregation_implemented := false;
     td_connected_count := ActiveConnections s;
     td_last_ping_unix := LastPingUnix (Ping s); td_last_pong_unix := LastPongUnix (Ping s);
     td_last_rtt_ms := LastRTTMs (Ping s); td_last_heartbeat_unix := LastWSHeartbeatUnix r;
     td_last_timeout_unix := LastWSTimeoutUnix r; td_timeout_count := WSTimeoutCount r;
     td_disconnect_total := WSDisconnectTotal r; td_disconnect_close_4009 := WSDisconnectClose4009 r;
     td_disconnect_by_reason := WSDisconnectByReason r |}.

Definition Health (ctxID : string) : M health_response :=
  now ← now_rest;
  let uptimeSec := duration_seconds_int (time_sub now (startedAt h)) in
  dbComponent ← checkDatabase;
  hsmTradingComponent ← checkHSM (hsmTrading h) (ask_trading ctxID);
  hsmTwoFAComponent ← checkHSM (hsmTwoFA h) (ask_twofa ctxID);
  wsStats ← gets (fun w => if has_wsHandler h then GetStats (hs (rw_daemon w)) else zero_Stats);
  with_manager (fun m => (m_SetRuntimeWS (ActiveConnections wsStats) (LastConnectUnix wsStats) m).2);;
  with_manager (fun m => (SetRuntimeWSPing (LastPingUnix (Ping wsStats)) (LastPongUnix (Ping wsStats))
                            (LastRTTMs (Ping wsStats)) m).2);;
  snapshot ← gets (fun w => (fun m => (GetState m).1) <$> sink (rw_daemon w));
  let runtimeSnapshot := from_option Runtime zero_RuntimeState snapshot in
  let status :=
    if negb (cm_status dbComponent =s "ok") || negb (cm_status hsmTradingComponent =s "ok")
    then "degraded" else "ok" in
  mret {| hr_code := if negb (status =s "ok") then StatusServiceUnavailable else StatusOK;
          hr_status := status;
          hr_service := {| sv_name := serviceName h; sv_version := serviceVersion h;
                           sv_started_at_unix := time_unix (startedAt h); sv_uptime_sec := uptimeSec;
                           sv_timestamp_unix := time_unix now |};
          hr_database := dbComponent; hr_hsm_trading := hsmTradingComponent;
          hr_hsm_2fa := hsmTwoFAComponent; hr_scheduler := scheduler_of runtimeSnapshot;
          hr_websocket := websocket_of wsStats runtimeSnapshot;
          hr_traders := traders_of wsStats runtimeSnapshot; hr_state := snapshot |}.

Definition Ready (ctxID : string) : M health_response := Health ctxID.

(** The time stamp of [Live]; its status is always "ok". *)
Definition Live : M (Z * string * Z) :=
  t ← now_rest; mret (StatusOK, "ok", time_unix t).
End health.

(** ** What /health tells *)

Lemma GetState_daemon (m : mworld) : (GetState m).1 = daemon m.
Proof.
  unfold GetState, gets, compose. cbn. destruct (daemon m) as [v u s r]. unfold field_set. cbn. f_equal.
  destruct r as [? ? ? ? ? ? ? ? ? ? o1 ? ? ? ? ? ? ? o2 o3].
  unfold cloneRuntimeState, field_set. cbn.
  assert (forall o, cloneStringInt64Map o = o) as Hc
    by (intros [x|]; [|done]; cbn; by rewrite list_to_map_to_list).
  by rewrite !Hc.
Qed.

#[local] Arguments GetState : simpl never.

Section health_facts.
Context {DB : Type} `{!ServeEnv, !OsEnv, !DriverEnv} (trading_env twofa_env : HsmEnv) (h : HealthHandler).

(** The database answers its next ping; a client has a healthy service. *)
Definition db_answers (w : rest_world DB) : bool :=
  match rw_db w with
  | Some d => match ping_answer (db_pings d) with None => true | Some _ => false end
  | None => false
  end.

Definition trading_answers (ctxID : string) (w : rest_world DB) : bool :=
  match hsmTrading h with
  | Some c => is_ok (@Hsm.Health trading_env c ctxID (rw_trading w)).1
  | None => false
  end.

(** What a check leaves alone. *)
Definition still_daemon (w w' : rest_world DB) : Prop :=
  hs (rw_daemon w') = hs (rw_daemon w) /\ sink (rw_daemon w') = sink (rw_daemon w) /\
  Handler.db (rw_daemon w') = Handler.db (rw_daemon w) /\ out (rw_daemon w') = out (rw_daemon w).

Lemma checkDatabase_spec (w : rest_world DB) :
  let '(c, w') := checkDatabase w in
  (cm_status c =s "ok") = db_answers w /\ still_daemon w w' /\ rw_trading w' = rw_trading w /\
  rw_twofa w' = rw_twofa w.
Proof.
  unfold checkDatabase, db_answers, MySQL.Ping, since_ms, now_rest, in_daemon, Handler.time_now, mbind, st_bind, mret,
    st_ret, gets, modify. cbn.
  destruct (rw_db w) as [d|]; [|by split_and!].
  destruct (ping_answer (db_pings d)); cbn; by split_and!.
Qed.

Lemma checkHSM_spec client ask (w : rest_world DB) :
  (forall c w, still_daemon w (ask c w).2) ->
  let '(c, w') := checkHSM client ask w in
  still_daemon w w' /\
  (cm_status c =s "ok") =
    match client with
    | Some k => is_ok (ask k (now_rest w).2).1
    | None => false
    end.
Proof.
  intros Hask. unfold checkHSM, mbind, st_bind. destruct client as [k|]; [|by split; [split_and!|]].
  unfold since_ms, mbind, st_bind, now_rest, in_daemon, Handler.time_now, mret, st_ret. cbn.
  match goal with |- context [ask k ?x] => pose proof (Hask k x) as Ha; destruct (ask k x) as [r w1] end.
  destruct Ha as (E1 & E2 & E3 & E4). cbn in *. destruct r; (split; [by split_and!|done]).
Qed.

(** C7: /health answers 200 exactly when the database answers its ping and the trading HSM
    its health request, and 503 in every other case: the 2FA HSM has no say.  The
    response carries the daemon state as the request leaves it, whose connection count
    is that of the handler; of the handler, the trader database and the wire it changes
    nothing. *)
Theorem Health_spec (ctxID : string) (w : rest_world DB) :
  let '(r, w') := Health trading_env twofa_env h ctxID w in
  hr_code r = (if db_answers w && trading_answers ctxID w then 200 else 503)%Z /\
  hr_status r = (if db_answers w && trading_answers ctxID w then "ok" else "degraded") /\
  hs (rw_daemon w') = hs (rw_daemon w) /\ Handler.db (rw_daemon w') = Handler.db (rw_daemon w) /\
  out (rw_daemon w') = out (rw_daemon w) /\
  hr_state r = daemon <$> sink (rw_daemon w') /\
  (has_wsHandler h = true -> forall m, sink (rw_daemon w) = Some m ->
     exists m', sink (rw_daemon w') = Some m' /\
       ActiveWSConnections (Runtime (daemon m')) = active (hs (rw_daemon w)) /\
       wb_active_connections (hr_websocket r) = active (hs (rw_daemon w)) /\
       hr_scheduler r = scheduler_of (Runtime (daemon m'))).
Proof.
  unfold Health. unfold mbind, st_bind. set (w0 := (now_rest w).2).
  assert (now_rest w = ((now_rest w).1, w0)) as -> by (by destruct (now_rest w)). cbn beta iota.
  pose proof (checkDatabase_spec w0) as Hd. destruct (checkDatabase w0) as [cd w1].
  destruct Hd as (Hcd & (D1 & D2 & D3 & D4) & Ht & _).
  pose proof (checkHSM_spec (hsmTrading h) (ask_trading trading_env ctxID) w1) as Ha.
  destruct (checkHSM (hsmTrading h) (ask_trading trading_env ctxID) w1) as [ct w2].
  destruct Ha as ((T1 & T2 & T3 & T4) & Hct).
  { intros c v. unfold ask_trading. by destruct (Hsm.Health c ctxID (rw_trading v)). }
  pose proof (checkHSM_spec (hsmTwoFA h) (ask_twofa twofa_env ctxID) w2) as Hb.
  destruct (checkHSM (hsmTwoFA h) (ask_twofa twofa_env ctxID) w2) as [cf w3].
  destruct Hb as ((F1 & F2 & F3 & F4) & _).
  { intros c v. unfold ask_twofa. by destruct (Hsm.Health c ctxID (rw_twofa v)). }
  assert ((cm_status ct =s "ok") = trading_answers ctxID w) as Htr.
  { rewrite Hct. unfold trading_answers, ask_trading. destruct (hsmTrading h) as [k|]; [|done].
    cbn. rewrite Ht. cbn. by destruct (Hsm.Health k ctxID (rw_trading w)). }
  assert (hs (rw_daemon w3) = hs (rw_daemon w)) as Hh by (rewrite F1, T1, D1; done).
  assert (sink (rw_daemon w3) = sink (rw_daemon w)) as Hs by (rewrite F2, T2, D2; done).
  cbn. rewrite Hcd, Htr. change (db_answers w0) with (db_answers w).
  destruct (db_answers w), (trading_answers ctxID w); cbn;
    (split_and!; [done|done|done|by rewrite F3, T3, D3|by rewrite F4, T4, D4| |]).
  all: try (destruct (sink (rw_daemon w3)) as [m|]; [|done]; cbn; by rewrite GetState_daemon).
  all: intros -> m Hm; rewrite Hs, Hm; cbn; eexists; split; [reflexivity|];
    rewrite GetState_daemon; cbn; by rewrite Hh.
Qed.
End health_facts.

(** ** /metrics *)

Definition defaultSchedulerAssignResults : list string :=
  ["success"; "no_candidates"; "dedup"; "failed_retry_exhausted"; "failed_non_retryable"].

Definition defaultSchedulerResourceRejectionReasons : list string :=
  ["missing_trader_db_id"; "resource_lookup_error"; "missing_resource"; "hard_limit"].

Definition defaultWSDisconnectReasons : list string :=
  ["close_4009_sequence_gap"; "timeout"; "read_error"; "client_close"; "server_shutdown"; "protocol_error"].

Definition normalizeMetricsPath (path : string) : string :=
  let trimmed := TrimSpace path in
  if str_empty trimmed then "/metrics"
  else if HasPrefix trimmed "/" then trimmed
  else "/" +:+ trimmed.

(** A [GaugeVec] with one label: from the value of the label to that of the gauge. *)
Abbreviation gauge_vec := (gmap string f64).

(** [Reset], then a zero for each announced label. *)
Definition announce (labels : list string) : gauge_vec :=
  foldl (fun g l => <[l := f_zero]> g) ∅ labels.

(** The loop that sets a gauge for each entry of a Go map. *)
Definition set_counts (counts : option (gmap string Z)) (g : gauge_vec) : gauge_vec :=
  foldl (fun g kv => <[kv.1 := f_of_Z kv.2]> g) g (map_to_list (default ∅ counts)).

(** Plain gauges, in the order of their registration, without the prefix cts_core_. *)
Record scrape := {
  sp_gauges : list (string * f64);
  sp_assign_attempts : gauge_vec;
  sp_resource_rejections : gauge_vec;
  sp_disconnect_reasons : gauge_vec;
  sp_score_distribution : gauge_vec
}.

(** [stats] and [state] are [None] without handler or without manager. *)
Definition metrics (stats : option Stats) (state : option RuntimeState) : scrape :=
  let of_stats (f : Stats -> Z) := from_option (f_of_Z ∘ f) f_zero stats in
  let of_state (f : RuntimeState -> Z) := from_option (f_of_Z ∘ f) f_zero state in
  let of_either (f : RuntimeState -> Z) (g : Stats -> Z) :=
    match state with Some r => f_of_Z (f r) | None => of_stats g end in
  {| sp_gauges :=
       [("ws_active_connections", of_stats ActiveConnections);
        ("ws_total_connections", of_stats TotalConnections);
        ("ws_last_ping_unix", of_stats (LastPingUnix ∘ Ping));
        ("ws_last_pong_unix", of_stats (LastPongUnix ∘ Ping));
        ("ws_last_ping_rtt_ms", of_stats (LastRTTMs ∘ Ping));
        ("ws_disconnect_total", of_either WSDisconnectTotal (ds_Total ∘ Disconnect));
        ("ws_disconnect_close_4009_total", of_either WSDisconnectClose4009 (ds_Close4009 ∘ Disconnect));
        ("runtime_scheduler_cycle_count", of_state SchedulerCycleCount);
        ("runtime_scheduler_last_candidate_count", of_state SchedulerLastCandidateCount);
        ("runtime_ws_timeout_count", of_state WSTimeoutCount);
        ("scheduler_assign_latency_ms", from_option SchedulerAssignLatencyMs f_zero state);
        ("scheduler_candidate_pool_size", of_state SchedulerLastCandidateCount)];
     sp_assign_attempts :=
       set_counts (state ≫= SchedulerAssignAttempts) (announce defaultSchedulerAssignResults);
     sp_resource_rejections :=
       set_counts (state ≫= SchedulerResourceRejections) (announce defaultSchedulerResourceRejectionReasons);
     sp_disconnect_reasons :=
       set_counts (match state with
                   | Some r => WSDisconnectByReason r
                   | None => (ds_ByReason ∘ Disconnect) <$> stats
                   end) (announce defaultWSDisconnectReasons);
     sp_score_distribution :=
       match state with
       | Some r => <["p95" := SchedulerScoreP95 r]> {["p50" := SchedulerScoreP50 r]}
       | None => ∅
       end |}.

(** [newMetricsHandler] in the daemon's world. *)
Definition scrape_of {DB} (has_handler : bool) (w : world DB mworld) : scrape :=
  metrics (if has_handler then Some (GetStats (hs w)) else None)
    ((fun m => Runtime (daemon m)) <$> sink w).

Lemma announce_lookup labels l : announce labels !! l = if decide (l ∈ labels) then Some f_zero else None.
Proof.
  unfold announce. rewrite <- (rev_involutive labels) at 1.
  assert (forall k, foldl (fun (g : gauge_vec) l => <[l := f_zero]> g) ∅ (rev k) !! l =
                    if decide (l ∈ k) then Some f_zero else None) as Hk.
  { induction k as [|x k IH]; [done|]. cbn [rev]. rewrite foldl_app. cbn [foldl].
    destruct (decide (l = x)) as [->|Hne].
    - rewrite lookup_insert_eq, decide_True; [done|set_solver].
    - rewrite lookup_insert_ne, IH by done. destruct (decide (l ∈ k)).
      + by rewrite decide_True by set_solver.
      + by rewrite decide_False by set_solver. }
  rewrite Hk. assert (l ∈ rev labels <-> l ∈ labels) as Hl by (by rewrite (reverse_rev_perm labels)).
  destruct (decide (l ∈ labels)); [by rewrite decide_True by tauto|by rewrite decide_False by tauto].
Qed.

Lemma set_counts_lookup counts g l :
  set_counts counts g !! l =
  match default ∅ counts !! l with Some n => Some (f_of_Z n) | None => g !! l end.
Proof.
  unfold set_counts. generalize (default ∅ counts) as m. clear counts. intros m.
  rewrite <- (list_to_map_to_list m) at 2. pose proof (NoDup_fst_map_to_list m) as Hnd.
  revert g Hnd. generalize (map_to_list m) as k. clear m.
  induction k as [|[x n] k IH]; intros g Hnd; [done|]. cbn [foldl fst snd list_to_map foldr].
  apply NoDup_cons in Hnd as [Hx Hnd]. rewrite IH by done. cbn.
  destruct (decide (l = x)) as [->|Hne].
  - rewrite lookup_insert_eq. rewrite (not_elem_of_list_to_map_1 k x Hx). by rewrite lookup_insert_eq.
  - rewrite !lookup_insert_ne by done. done.
Qed.

(** A counter of /metrics: the stored count, or zero for an announced label without one. *)
Lemma counter_value counts labels l :
  set_counts counts (announce labels) !! l =
  match default ∅ counts !! l with
  | Some n => Some (f_of_Z n)
  | None => if decide (l ∈ labels) then Some f_zero else None
  end.
Proof. by rewrite set_counts_lookup, announce_lookup. Qed.

(** When the stored labels are among the announced ones, the label set of a counter is
    the same at every scrape. *)
Lemma counter_labels counts labels :
  dom (default ∅ counts) ⊆ (list_to_set labels : gset string) ->
  dom (set_counts counts (announce labels)) = list_to_set labels.
Proof.
  intros Hsub. apply set_eq. intros l. rewrite elem_of_dom, counter_value, elem_of_list_to_set.
  destruct (default ∅ counts !! l) as [n|] eqn:Hn.
  - split; [intros _|by eexists]. apply (elem_of_list_to_set (C := gset string)), Hsub, elem_of_dom. by eexists.
  - destruct (decide (l ∈ labels)); split; [done|by eexists|by intros [? [=]]|done].
Qed.

Example metrics_paths :
  (normalizeMetricsPath " ", normalizeMetricsPath "m", normalizeMetricsPath " /m ") = ("/metrics", "/m", "/m").
Proof. vm_compute. reflexivity. Qed.
