(* ===== verification/Main.v ===== *)
(** * The main program (cmd/cts-core/main.go) and the router (internal/api/rest/router.go)

    How the configuration reaches the components, the start of the daemon in the order
    of the source, and its stop.  The HTTP server itself is left out: the
    server is the record of its settings, and its end an input of [shutdown]. *)

From S2P Require Import Prelude Logger GoText GoFloat Protocol Session Conn Telemetry Auth StateM Interfaces Handler Models Tables Hsm MySQL Selection Engine RateLimit FileSys StateFile StateManager StateFacts Health Http2 Config.

(** ** From the configuration to the components *)

Definition mysql_config (cfg : Config.Config) : MySQL.MySQLConfig :=
  let m := dt_MySQL (db_System (Databases cfg)) in
  {| my_Host := mq_Host m; my_Port := mq_Port m; my_User := mq_User m; my_Password := mq_Password m;
     my_Database := mq_Database m; my_TLSEnabled := tc_Enabled (mq_TLS m);
     my_CertPath := tc_CertPath (mq_TLS m); my_KeyPath := tc_KeyPath (mq_TLS m);
     my_CAPath := tc_CAPath (mq_TLS m); my_MaxOpenConns := po_MaxOpenConns (mq_Pool m);
     my_MaxIdleConns := po_MaxIdleConns (mq_Pool m);
     my_ConnMaxLifetime := po_ConnMaxLifetime (mq_Pool m); my_ConnMaxIdleTime := 2 * Minute |}.

(** The two clients differ in their context only. *)
Definition hsm_config (cfg : Config.Config) (context : HSMContextConfig) : ClientConfig :=
  let r := hm_Retry (HSM cfg) in
  {| cc_BaseURL := hm_URL (HSM cfg); cc_CertPath := tc_CertPath (hx_TLS context);
     cc_KeyPath := tc_KeyPath (hx_TLS context); cc_CAPath := tc_CAPath (hx_TLS context);
     cc_RequestTimeout := hm_Timeout (HSM cfg);
     cc_RetryConfig := {| rc_MaxAttempts := re_MaxAttempts r; rc_InitialWait := re_InitialDelay r;
                          rc_MaxWait := re_MaxDelay r; rc_Multiplier := re_Multiplier r |} |}.

Definition manager_config (cfg : Config.Config) : ManagerConfig :=
  {| mc_StateFile := sf_FilePath (State cfg);
     mc_BackupDir := Join (Dir (sf_FilePath (State cfg))) "backups";
     mc_MaxBackups := sf_BackupCount (State cfg); mc_SyncInterval := sf_SyncInterval (State cfg) |}.

Definition scheduler_config (cfg : Config.Config) : Engine.Config :=
  {| cf_Interval := sc_TaskAssignmentInterval (Scheduler cfg);
     cf_LatencyCheckInterval := sc_LatencyCheckInterval (Scheduler cfg);
     cf_HealthyWindow := se_HeartbeatTimeout (Config.Session cfg); cf_TaskType := "";
     cf_ResourceHardLimit := sc_ResourceHardLimit (Scheduler cfg);
     cf_ResourceSoftLimit := sc_ResourceSoftLimit (Scheduler cfg);
     cf_ResourceSoftPenaltyMs := sc_ResourceSoftPenaltyMs (Scheduler cfg);
     cf_AssignmentDedupWindow := 0; cf_AssignmentEpoch := 0; cf_AssignmentMaxRetries := 0;
     cf_AssignmentRetryInitial := 0; cf_AssignmentRetryMax := 0;
     cf_AssignmentRetryMultiplier := f_zero; cf_DeadLetterMaxSize := 0 |}.

(** [rest.Options] without the components it only passes on. *)
Record Options := {
  RESTRequestsPerSecond : Z;
  RESTBurst : Z;
  WSRequestsPerSecond : Z;
  WSBurst : Z;
  WSHeartbeatInterval : Z;
  WSHeartbeatTimeout : Z;
  WSWriteTimeout : Z;
  WSMaxPayloadBytes : Z;
  WSMaxMessagesPerSec : Z;
  WSMaxUnknownActions : Z;
  WSUnknownActionWindow : Z;
  WSRequestDedupWindow : Z;
  WSAllowedCommonNames : list string;
  WSAllowedOUs : list string;
  WSAllowedDNSNames : list string;
  HSMTrading : option hsm_client;
  HSMTwoFA : option hsm_client;
  StartedAt_ : Z;
  ServiceVersion : string;
  MetricsEnabled : bool;
  MetricsPath : string
}.

Definition router_options (cfg : Config.Config) (trading twofa : hsm_client) (startedAt : Z)
    (version : string) : Options :=
  {| RESTRequestsPerSecond := PerSecond (rl_REST (RateLimit cfg));
     RESTBurst := lc_Burst (rl_REST (RateLimit cfg));
     WSRequestsPerSecond := PerSecond (rl_WebSocket (RateLimit cfg));
     WSBurst := lc_Burst (rl_WebSocket (RateLimit cfg));
     WSHeartbeatInterval := se_HeartbeatInterval (Config.Session cfg);
     WSHeartbeatTimeout := se_HeartbeatTimeout (Config.Session cfg);
     WSWriteTimeout := se_WriteTimeout (Config.Session cfg);
     WSMaxPayloadBytes := se_MaxPayloadBytes (Config.Session cfg);
     WSMaxMessagesPerSec := PerSecond (rl_WebSocket (RateLimit cfg));
     WSMaxUnknownActions := se_MaxUnknownActions (Config.Session cfg);
     WSUnknownActionWindow := se_UnknownActionWindow (Config.Session cfg);
     WSRequestDedupWindow := se_RequestDedupWindow (Config.Session cfg);
     WSAllowedCommonNames := st_AllowedClientCommonNames (sv_TLS (Config.Server cfg));
     WSAllowedOUs := st_AllowedClientOrganizationalOUs (sv_TLS (Config.Server cfg));
     WSAllowedDNSNames := st_AllowedClientDNSNames (sv_TLS (Config.Server cfg));
     HSMTrading := Some trading; HSMTwoFA := Some twofa; StartedAt_ := startedAt;
     ServiceVersion := version; MetricsEnabled := mt_Enabled (Config.Metrics cfg);
     MetricsPath := mt_Path (Config.Metrics cfg) |}.

(** What a route leads to. *)
Inductive route_handler := RouteHealth | RouteReady | RouteLive | RouteMetrics | RouteWS.

(** A route with the requests per address and window its limiter lets through. *)
Record route := { rt_path : string; rt_allowed : Z; rt_handler : route_handler }.

Record router := {
  ro_ws : handler_config;
  ro_health : HealthHandler;
  ro_stale_after : Z;
  ro_routes : list route
}.

(** [NewRouter] with a database client, a state manager and no handler of its own; [now]
    is the clock of [NewHealthHandler]. *)
Definition NewRouter (opts : Options) (now : Z) : router :=
  let rest := allowed_per_window (RESTRequestsPerSecond opts) (RESTBurst opts) in
  {| ro_ws := NewHandlerWithOptions
       {| ho_HeartbeatInterval := WSHeartbeatInterval opts; ho_HeartbeatTimeout := WSHeartbeatTimeout opts;
          ho_WriteTimeout := WSWriteTimeout opts; ho_MaxPayloadBytes := WSMaxPayloadBytes opts;
          ho_MaxMessagesPerSec := WSMaxMessagesPerSec opts;
          ho_MaxUnknownActions := WSMaxUnknownActions opts;
          ho_UnknownActionWindow := WSUnknownActionWindow opts;
          ho_RequestDedupWindow := WSRequestDedupWindow opts; ho_RequireClientCert := true;
          ho_AllowedCommonNames := WSAllowedCommonNames opts; ho_AllowedOUs := WSAllowedOUs opts;
          ho_AllowedDNSNames := WSAllowedDNSNames opts; ho_Persistence := true;
          ho_DBRetry := {| MaxAttempts := 0; InitialDelay := 0; MaxDelay := 0 |} |};
     ro_health := NewHealthHandler (HSMTrading opts) (HSMTwoFA opts) true (StartedAt_ opts) "cts-core"
                    (ServiceVersion opts) now;
     ro_stale_after := WSHeartbeatTimeout opts;
     ro_routes :=
       [{| rt_path := "/health"; rt_allowed := rest; rt_handler := RouteHealth |};
        {| rt_path := "/ready"; rt_allowed := rest; rt_handler := RouteReady |};
        {| rt_path := "/live"; rt_allowed := rest; rt_handler := RouteLive |}] ++
       (if MetricsEnabled opts
        then [{| rt_path := normalizeMetricsPath (MetricsPath opts); rt_allowed := rest;
                 rt_handler := RouteMetrics |}]
        else []) ++
       [{| rt_path := "/ws"; rt_allowed := allowed_per_window (WSRequestsPerSecond opts) (WSBurst opts);
           rt_handler := RouteWS |}] |}.

(** [http2.Server] and [http.Server] as far as main sets them; the server always
    requires and verifies a client certificate. *)
Record http2_server := {
  hv_MaxConcurrentStreams : Z;
  hv_MaxReadFrameSize : Z;
  hv_IdleTimeout : Z;
  hv_MaxUploadBufferPerConnection : Z;
  hv_MaxUploadBufferPerStream : Z
}.

Record http_server := {
  hsv_Addr : string;
  hsv_ReadTimeout : Z;
  hsv_WriteTimeout : Z;
  hsv_IdleTimeout : Z;
  hsv_ReadHeaderTimeout : Z;
  hsv_MaxHeaderBytes : Z;
  hsv_HTTP2 : option http2_server
}.

Definition http2_of (parsed : ParsedHTTP2Config) : http2_server :=
  {| hv_MaxConcurrentStreams := p2_MaxConcurrentStreams parsed;
     hv_MaxReadFrameSize := p2_MaxFrameSize parsed;
     hv_IdleTimeout := p2_IdleTimeoutSeconds parsed * Second;
     hv_MaxUploadBufferPerConnection := p2_MaxUploadBufferPerConn parsed;
     hv_MaxUploadBufferPerStream := p2_MaxUploadBufferPerStream parsed |}.

Definition server_of (cfg : Config.Config) (h2 : option http2_server) : http_server :=
  let t := sv_Timeouts (Config.Server cfg) in
  {| hsv_Addr := ":" +:+ Itoa (sv_Port (Config.Server cfg)); hsv_ReadTimeout := to_Read t;
     hsv_WriteTimeout := to_Write t; hsv_IdleTimeout := to_Idle t; hsv_ReadHeaderTimeout := to_ReadHeader t;
     hsv_MaxHeaderBytes := li_MaxHeaderBytes (sv_Limits (Config.Server cfg)); hsv_HTTP2 := h2 |}.

(** ** Start *)

(** What a started daemon consists of. *)
Record daemon_parts := {
  dp_config : Config.Config;
  dp_sql : sql_db;
  dp_trading : hsm_client;
  dp_twofa : hsm_client;
  dp_manager : Manager;
  dp_router : router;
  dp_engine : engine_config;
  dp_server : http_server
}.

(** The state main works on: the state manager with its disk, the tables, the two HSM
    services, and the loggers. *)
Record boot_world := mk_boot {
  bw_state : mworld;
  bw_db : database;
  bw_trading : hsm_world;
  bw_twofa : hsm_world;
  bw_log : log_state
}.

#[export] Instance eta_boot_world : Eta boot_world := fun w =>
  mk_boot (bw_state w) (bw_db w) (bw_trading w) (bw_twofa w) (bw_log w).

(** The configuration file, the YAML decoder, the environment, the clock of main, and the
    HTTP/2 setup of the server. *)
Class MainEnv := {
  config_file : string -> res string;
  yaml_config : string -> res Config.Config;
  getenv : string -> string;
  main_clock : Z;
  health_clock : Z;
  configure_http2 : http2_server -> option go_error
}.

(** A step that may end the program: [os.Exit(1)] on an error. *)
Definition try_ {W A B} (m : st W (res A)) (k : A -> st W (res B)) : st W (res B) :=
  r ← m;
  match r with
  | Ok a => k a
  | Err e => mret (Err e)
  end.
Notation "x ←? m ; k" := (try_ m (fun x => k)) (at level 20, m at level 100, k at level 200) : cts_scope.

(** A pure step, and a method that returns an error. *)
Definition pure_step {W A} (r : res A) : st W (res A) := mret r.
Definition error_step {W} (m : st W (option go_error)) : st W (res unit) :=
  e ← m; mret (match e with Some e => Err e | None => Ok tt end).

Definition on_state {A} (m : st mworld A) : st boot_world A := fun w =>
  let '(a, s) := m (bw_state w) in (a, w <| bw_state := s |>).
Definition on_db {A} (m : st database A) : st boot_world A := fun w =>
  let '(a, s) := m (bw_db w) in (a, w <| bw_db := s |>).
Definition on_trading {A} (m : st hsm_world A) : st boot_world A := fun w =>
  let '(a, s) := m (bw_trading w) in (a, w <| bw_trading := s |>).
Definition on_twofa {A} (m : st hsm_world A) : st boot_world A := fun w =>
  let '(a, s) := m (bw_twofa w) in (a, w <| bw_twofa := s |>).
(** The log files are on the disk of the state file. *)
Definition on_log {A} (m : st log_state A) : st boot_world A := fun w =>
  let '(a, s) := m ((bw_log w) <| log_os := os (bw_state w) |>) in
  (a, w <| bw_log := s |> <| bw_state ::= fun b => b <| os := log_os s |> |>).

Definition option_res {A} (a : A) (e : option go_error) : res A :=
  match e with Some e => Err e | None => Ok a end.

(** The round trip main tries on a client; whatever happens is only logged. *)
Definition hsm_self_test (env : HsmEnv) (c : hsm_client) (context plaintext : string) : st hsm_world unit :=
  r ← @Encrypt env c "" context (String.list_ascii_of_string plaintext);
  match r with
  | Err _ => mret tt
  | Ok (keyID, ciphertext) => @Decrypt env c "" context keyID ciphertext;; mret tt
  end.

(** The options main passes to the logger. *)
Definition logger_options (l : LoggingConfig) : Logger.Options :=
  {| lo_Level := lg_Level l; lo_Format := lg_Format l; lo_Dir := lg_Dir l;
     lo_MaxFileSizeMB := lg_MaxSizeMB l; lo_MaxBackups := lg_MaxBackups l;
     lo_MaxAgeDays := lg_MaxAgeDays l; lo_Compress := lg_Compress l; lo_ErrorPath := lg_ErrorPath l;
     lo_AccessPath := lg_AccessPath l; lo_OutRequestPath := lg_OutRequestPath l;
     lo_WSInPath := lg_WSPath l; lo_WSOutPath := lg_WSPath l; lo_AuditPath := lg_AuditPath l;
     lo_AccessToStdout := lg_AccessToStdout l; lo_OutRequestToStdout := lg_OutRequestToStdout l;
     lo_WSInToStdout := lg_WSInToStdout l; lo_WSOutToStdout := lg_WSOutToStdout l;
     lo_AuditToStdout := lg_AuditToStdout l |}.

Section main.
Context `{!MainEnv, !LogEnv, !SqlEnv, !CtxEnv, !TlsEnv, !DriverEnv, !JsonText, !OsEnv}.
Context (trading_env twofa_env : HsmEnv) (version : string).

(** The client CAs of the server. *)
Definition load_client_cas (cfg : Config.Config) : res unit :=
  match read_cert_file (st_CAPath (sv_TLS (Config.Server cfg))) with
  | Err e => Err e
  | Ok caBytes => if append_certs caBytes then Ok tt else Err (ENew "Failed to parse WS client CA file")
  end.

Definition setup_http2 (cfg : Config.Config) : res (option http2_server) :=
  match sv_HTTP2 (Config.Server cfg) with
  | None => Ok None
  | Some h =>
      match HTTP2Config_Parse h with
      | Err e => Err e
      | Ok parsed => option_res (Some (http2_of parsed)) (configure_http2 (http2_of parsed))
      end
  end.

Definition startup (path : string) : st boot_world (res daemon_parts) :=
  cfg ←? pure_step (Config.Load getenv yaml_config (config_file path));
  _ ←? on_log (error_step (InitWithOptions (logger_options (Logging cfg))));
  sql ←? pure_step (match NewMySQLClient (mysql_config cfg) with
                    | (Ok _, Some db, _) => Ok db
                    | (Ok _, None, _) => Err (ENew "")
                    | (Err e, _, _) => Err e
                    end);
  traders ← on_db (trader_List None);
  trading ←? pure_step (NewClient (hsm_config cfg (hm_Trading (HSM cfg))));
  on_trading (hsm_self_test trading_env trading (hx_Context (hm_Trading (HSM cfg))) "binance_api_key=test123");;
  twofa ←? pure_step (NewClient (hsm_config cfg (hm_TwoFA (HSM cfg))));
  on_twofa (hsm_self_test twofa_env twofa (hx_Context (hm_TwoFA (HSM cfg))) "totp_secret=JBSWY3DPEHPK3PXP");;
  manager ←? on_state (NewManager (manager_config cfg));
  _ ←? on_state (error_step (StateManager.Load manager));
  on_state (SetServerStatus "running");;
  let router := NewRouter (router_options cfg trading twofa main_clock version) health_clock in
  let engine := NewEngine (scheduler_config cfg) in
  _ ←? pure_step (load_client_cas cfg);
  h2 ←? pure_step (setup_http2 cfg);
  mret (Ok {| dp_config := cfg; dp_sql := sql; dp_trading := trading; dp_twofa := twofa;
              dp_manager := manager; dp_router := router; dp_engine := engine;
              dp_server := server_of cfg h2 |}).

(** ** Stop *)

(** What ends the select of main: a signal, or the end of the HTTP server. *)
Inductive stop_cause := StopOnSignal | ServerEnded (serveErr : option go_error).

(** What other goroutines do with the state manager until it is closed: metrics of the
    handler, the scheduler and /health, and the background sync. *)
Definition background_op (op : manager_op) : bool :=
  match op with
  | OpSetServerStatus _ | OpLoad | OpClose => false
  | _ => true
  end.

Definition run_background (m : Manager) (ops : list manager_op) : st mworld unit :=
  run_manager m (filter (fun op => background_op op = true) ops).

Definition server_failed (serveErr : option go_error) : bool :=
  match serveErr with
  | Some e => negb (errors_is e HttpErrServerClosed)
  | None => false
  end.

(** The exit code.  [ops n] is the work of the other goroutines before the [n]-th call
    of main, [shutdownErr] the result of [httpServer.Shutdown], and [serveErr] that of
    the server afterwards. *)
Definition shutdown (m : Manager) (cause : stop_cause) (ops : nat -> list manager_op)
    (shutdownErr serveErr : option go_error) : st mworld Z :=
  match cause with
  | StopOnSignal =>
      run_background m (ops 0%nat);;
      SetServerStatus "stopping";;
      run_background m (ops 1%nat);;
      match shutdownErr with
      | Some _ => StateManager.Close m;; mret 1%Z
      | None =>
          SetServerStatus "stopped";;
          run_background m (ops 2%nat);;
          closeErr ← StateManager.Close m;
          mret (match closeErr with
                | Some _ => 1%Z
                | None => if server_failed serveErr then 1%Z else 0%Z
                end)
      end
  | ServerEnded serveErr =>
      run_background m (ops 0%nat);;
      closeErr ← StateManager.Close m;
      mret (if server_failed serveErr then 1%Z
            else match closeErr with Some _ => 1%Z | None => 0%Z end)
  end.
End main.
