(* ===== verification/MainFacts.v ===== *)
(** * What the main program promises

    A daemon that starts runs with the numbers of its configuration, none replaced by
    a component's own default, and with its log streams, and a graceful stop leaves its mark in the state file. *)

From S2P Require Import Prelude Logger GoText GoFloat Protocol Session Conn Telemetry Auth StateM Interfaces Handler Models Tables Persistence PersistenceDemo Hsm MySQL Selection Engine RateLimit FileSys StateFile StateManager StateDemo StateFacts Health Http2 Config ConfigFacts Main.

(** ** Start *)










(** Each limiter lets the configured rate and burst through, unless their sum leaves
    int64. *)
Lemma limit_of_config l :
  limit_ok l -> (PerSecond l + lc_Burst l <= max_int64)%Z ->
  allowed_per_window (PerSecond l) (lc_Burst l) = (PerSecond l + lc_Burst l)%Z.
Proof.
  intros [Hr Hb] Hsum. rewrite allowed_configured by lia. destruct (Z.leb_spec (PerSecond l + lc_Burst l) max_int64); lia.
Qed.

Section start.
Context `{!MainEnv, !LogEnv, !SqlEnv, !CtxEnv, !TlsEnv, !DriverEnv, !JsonText, !OsEnv}.
Context (trading_env twofa_env : HsmEnv) (version : string).



Lemma SetServerStatus_spec status w :
  let w' := (SetServerStatus status w).2 in
  Status (StateFile.Server (daemon w')) = status /\ closed w' = closed w.
Proof. done. Qed.






End start.

(** ** Stop *)

Section stop.
Context `{!JsonText, !OsEnv} (m : Manager).

(** The server status and whether the manager is closed. *)
Definition stop_view (w : mworld) : string * bool := (Status (StateFile.Server (daemon w)), closed w).

Lemma view_sys {A} (f : os_state -> A * os_state) : steps (same stop_view) (sys f).
Proof. intros w. unfold same, sys. by destruct (f (os w)). Qed.

Lemma view_now : steps (same stop_view) now.
Proof. apply view_sys. Qed.

Lemma view_daemon f :
  (forall s, Status (StateFile.Server (f s)) = Status (StateFile.Server s)) -> steps (same stop_view) (modify_daemon f).
Proof. intros Hf w. unfold same, stop_view. cbn. by rewrite Hf. Qed.

#[local] Hint Resolve view_sys view_now : steps.

Lemma view_Save : steps (same stop_view) (Save m).
Proof.
  unfold Save, writeAtomically.
  assert (forall t, steps (same stop_view) (modify_daemon (fun s => s <| UpdatedAt := t |>))) by (intros; by apply view_daemon).
  steps_auto.
Qed.

Lemma view_Backup : steps (same stop_view) (Backup m).
Proof.
  assert (forall l, steps (same stop_view) (remove_files l)) as Hr
    by (induction l; cbn [remove_files]; steps_auto).
  unfold Backup, cleanupOldBackups. steps_auto.
Qed.

Lemma view_set_runtime f : steps (same stop_view) (set_runtime f).
Proof. by intros w. Qed.

Lemma view_background op : background_op op = true -> steps (same stop_view) (run_manager_op m op).
Proof.
  pose proof view_set_runtime as Hs. pose proof view_Save. pose proof view_Backup.
  destruct op; try done; intros _; cbn [run_manager_op]; try apply Hs.
  - unfold m_RecordSchedulerAssignAttempt. case_match; [apply (steps_ret (same stop_view))|apply Hs].
  - unfold m_RecordSchedulerResourceRejection. case_match; [apply (steps_ret (same stop_view))|apply Hs].
  - unfold sync_tick. steps_auto.
Qed.

Lemma view_run_background ops : steps (same stop_view) (run_background m ops).
Proof.
  unfold run_background. induction ops as [|op ops IH]; [apply (steps_ret (same stop_view))|].
  rewrite filter_cons. case_decide as Hop; [|done]. cbn [run_manager].
  apply (steps_bind (same stop_view)); [by apply view_background|done].
Qed.

(** A backup leaves the state file alone when that is not among the backups. *)
Lemma Backup_state_file w w' data :
  in_glob (backupDir m) "daemon.state." (stateFile m) = false ->
  files (os w) !! stateFile m = Some data -> Backup m w = (None, w') ->
  files (os w') !! stateFile m = Some data.
Proof.
  intros Hglob Hd HB. destruct (io_fault (io_calls (os w))) as [f|] eqn:Hio.
  - unfold Backup, mbind, st_bind, sys, os_ReadFile, next_fault in HB. rewrite Hio in HB. cbn in HB.
    destruct (errors_is (fail_err f) OsErrNotExist); [|done]. by injection HB as <-.
  - rewrite (Backup_unfold m w data Hd Hio) in HB. cbv zeta in HB. unfold sys in HB.
    set (path := Join (backupDir m) _) in HB.
    pose proof (os_WriteFile_spec path data ((os w) <| io_calls ::= S |> <| clock_calls ::= S |>)) as Hw.
    cbn in HB. destruct (os_WriteFile path data _) as [[e|] o]; [done|].
    destruct Hw as (_ & _ & _ & _ & Hf). specialize (Hf eq_refl). cbn in Hf.
    pose proof (cleanupOldBackups_success m _ _ HB (stateFile m)) as Hc. cbn in Hc. rewrite Hc, Hf.
    rewrite decide_False.
    + destruct (decide (path = stateFile m)) as [->|Hne]; [apply lookup_insert_eq|by rewrite lookup_insert_ne].
    + intros Hin. apply expired_backup, elem_of_backups in Hin as [_ Hg]. by rewrite Hglob in Hg.
Qed.

(** A manager that closes without an error leaves its state on disk. *)
Lemma Close_saves w w' :
  in_glob (backupDir m) "daemon.state." (stateFile m) = false ->
  closed w = false -> StateManager.Close m w = (None, w') ->
  exists data, marshal_state (daemon w') = Some data /\ files (os w') !! stateFile m = Some data /\
    stop_view w' = (Status (StateFile.Server (daemon w)), true).
Proof.
  intros Hglob Hcl. unfold StateManager.Close, gets, modify, mbind, st_bind. rewrite Hcl.
  set (w0 := w <| closed := true |>).
  pose proof (Save_success m w0) as Hs. pose proof (view_Save w0) as Hv.
  destruct (Save m w0) as [[e|] w1]; [done|].
  destruct (Hs w1 eq_refl) as (data & Hdata & Hf & Hd). pose proof (view_Backup w1) as Hvb.
  pose proof (Backup_same m w1) as Hb. pose proof (Backup_state_file w1) as Hbf.
  destruct (Backup m w1) as [[e|] w2]; [done|]. cbn. intros [= <-]. exists data.
  unfold same in *. cbn in *. split_and!.
  - by rewrite Hb, Hd.
  - by apply Hbf.
  - by rewrite Hvb, Hv.
Qed.

(** C21: a graceful stop is recorded.  When the daemon is stopped by a signal, the exit
    code is 0 or 1; it is 0 exactly when the HTTP server shut down, ended as it should,
    and the state manager closed without an error, and then the state file holds the
    encoding of the last state, whose server status is "stopped", whatever the other
    goroutines still did.  When the server does not shut down in time, a state that
    could be saved says "stopping".  (A state file never lies among its own backups:
    these are in a directory below its own.) *)
Theorem graceful_stop_is_recorded (ops : nat -> list manager_op) (shutdownErr serveErr : option go_error)
    (w : mworld) (Hopen : closed w = false)
    (Hfile : in_glob (backupDir m) "daemon.state." (stateFile m) = false) :
  let '(code, w') := shutdown m StopOnSignal ops shutdownErr serveErr w in
  let saved status :=
    exists data, marshal_state (daemon w') = Some data /\ files (os w') !! stateFile m = Some data /\
      Status (StateFile.Server (daemon w')) = status in
  (code = 0%Z \/ code = 1%Z) /\
  (code = 0%Z -> shutdownErr = None /\ server_failed serveErr = false /\ saved "stopped") /\
  (code = 1%Z -> shutdownErr = None -> server_failed serveErr = false ->
     exists w1 e, StateManager.Close m w1 = (Some e, w') /\ Status (StateFile.Server (daemon w1)) = "stopped") /\
  (shutdownErr <> None -> code = 1%Z /\
     exists w1 r, stop_view w1 = ("stopping", false) /\ StateManager.Close m w1 = (r, w') /\
       (r = None -> saved "stopping")).
Proof.
  unfold shutdown, mbind, st_bind.
  pose proof (view_run_background (ops 0%nat) w) as Hb0. destruct (run_background m (ops 0%nat) w) as [[] w0].
  destruct (SetServerStatus "stopping" w0) as [[] w1] eqn:E1.
  assert (stop_view w1 = ("stopping", false)) as Hv1.
  { unfold same, stop_view in *. injection E1 as <-. cbn in *. injection Hb0 as _ ->. by rewrite Hopen. }
  pose proof (view_run_background (ops 1%nat) w1) as Hb2. destruct (run_background m (ops 1%nat) w1) as [[] w2].
  destruct shutdownErr as [e|].
  - unfold same in Hb2. rewrite Hv1 in Hb2.
    destruct (StateManager.Close m w2) as [r w3] eqn:E3. cbn. split_and!; [by right|done|done|].
    intros _. split; [done|]. exists w2, r. split_and!; [done|done|]. intros ->.
    injection Hb2 as Hs Hcl. destruct (Close_saves w2 w3 Hfile Hcl E3) as (data & Hd & Hf & Hst).
    exists data. injection Hst as Hst _. split_and!; [done|done|by rewrite Hst].
  - destruct (SetServerStatus "stopped" w2) as [[] w3] eqn:E3.
    assert (stop_view w3 = ("stopped", false)) as Hv3.
    { unfold same, stop_view in *. injection E3 as <-. cbn in *. rewrite Hv1 in Hb2. by injection Hb2 as _ ->. }
    pose proof (view_run_background (ops 2%nat) w3) as Hb4. destruct (run_background m (ops 2%nat) w3) as [[] w4].
    unfold same in Hb4. rewrite Hv3 in Hb4. injection Hb4 as Hs Hcl.
    destruct (StateManager.Close m w4) as [[e|] w5] eqn:E5; cbn.
    + split_and!; [by right|done|intros _ _ _; by exists w4, e|done].
    + destruct (Close_saves w4 w5 Hfile Hcl E5) as (data & Hd & Hf & Hst). injection Hst as Hst _.
      destruct (server_failed serveErr); cbn; (split_and!; [auto|done || intros _; split_and!; try done|done|done]).
      exists data. split_and!; [done|done|by rewrite Hst].
Qed.
End stop.

(** ** Witnesses *)

(** A machine where everything works, started with the configuration of ConfigFacts.v. *)
#[local] Instance demo_main : MainEnv := {
  config_file := fun _ => Ok "yaml";
  yaml_config := fun _ => Ok demo_config;
  getenv := fun _ => "";
  main_clock := (1700000000 * Second)%Z;
  health_clock := (1700000001 * Second)%Z;
  configure_http2 := fun _ => None
}.

#[local] Existing Instance demo_log_env.

#[local] Instance demo_ctx : CtxEnv := { ctx_err := fun _ => None; wait_err := fun _ => None }.

#[local] Instance demo_certs : TlsEnv := {
  load_key_pair := fun _ _ => None;
  read_cert_file := fun _ => Ok "pem";
  append_certs := fun _ => true
}.

#[local] Instance demo_driver : DriverEnv := {
  register_tls := fun _ => None;
  sql_open := fun _ => None;
  ping_answer := fun _ => None
}.



Lemma graceful_stop_is_recorded_witness :
  closed demo_mworld = false /\
  in_glob (backupDir demo_manager) "daemon.state." (stateFile demo_manager) = false /\
  let '(code, w') := shutdown demo_manager StopOnSignal (fun _ => [OpSync; OpSetRuntimeWS 1 2]) None None demo_mworld in
  code = 0%Z \/ code = 1%Z.
Proof.
  assert (in_glob (backupDir demo_manager) "daemon.state." (stateFile demo_manager) = false) as Hg by reflexivity.
  split; [reflexivity|]. split; [exact Hg|].
  pose proof (graceful_stop_is_recorded demo_manager (fun _ => [OpSync; OpSetRuntimeWS 1 2]) None None demo_mworld
    eq_refl Hg) as Hs.
  destruct (shutdown demo_manager StopOnSignal _ None None demo_mworld) as [code w'].
  exact (proj1 Hs).
Defined.
